(* ===== verification/_CoqProject ===== *)
-Q . S2P
Prelude.v
JsArray.v
JsString.v
JsMap.v
Stack.v
Layout.v
Filename.v
State.v
Tooltip.v
Pods.v
LayoutPass.v
Sidebar.v
Rename.v
System.v
Init.v
Readers.v
PileState.v
Pile.v
PileHover.v
PileSystem.v
