(* ===== verification/Prelude.v ===== *)
(** * Zen Tidy Downloads: a verification development

    The program is a pair of browser-chrome scripts.

    - [src/tidy-downloads.uc.js] keeps one pod per download of the host
      browser, stacks the pods beside a shared tooltip, lets the mouse wheel
      rotate which pod is focused, and asks a remote model for a better file
      name once a download has completed (rename on disk, with undo).
    - [src/zen-stuff.uc.js] keeps the pile of dismissed pods and lays the most
      recent ones out on a grid while the pointer is over the pile.

    Both scripts are single threaded: every mutation happens inside a host
    callback (a download event, a pointer event, a timer, an animation
    frame, the continuation of a promise).  The development models each
    handler as a function on an explicit state record that returns the new
    state and the callbacks the handler has set up, and leaves the order of
    the callbacks to a transition system, one per script ([System] and
    [PileSystem]).

    ** Files, in the order of their dependencies

    Shared by both scripts:

    - [Prelude] (this file): the libraries every file uses, the scope, the
      hint databases and the tactics of the development, JavaScript
      truthiness and [a || b], the loop [forEach] of a handler over a list
      with the callbacks it collects, and the lemmas on lists and integers
      that more than one component needs.
    - [JsArray]: the array built-ins the scripts call ([indexOf], [splice]
      in its three uses, [includes], [push], [unshift]) on [list], with
      their membership, [NoDup] and permutation lemmas.
    - [JsString]: the string built-ins the scripts call ([lastIndexOf],
      [substring], [split(sep).pop()], [endsWith], [includes], [toLowerCase],
      [trim], [replace] with a character class) on [string], with a
      rewriting database that turns them into list operations on
      characters.
    - [JsMap]: a [Map] whose order of insertion is read, as a list of
      bindings, with its relation to finite maps.

    The first script, [src/tidy-downloads.uc.js]:

    - [Stack]: the three variables [orderedPodKeys], [focusedDownloadKey]
      and [lastRotationDirection] and the fragments of the handlers that
      write them: [addKey] ([createOrUpdatePodElement]), [setFocus]
      ([updateUIForFocusedDownload]), [handlePodScrollFocus], [removeKey]
      (the timer of [removeCard]), [renameKey] ([undoRename]),
      [defaultFocus] ([managePodVisibilityAndAnimations]).
    - [Layout]: the slots of [managePodVisibilityAndAnimations]: the loop
      that gives the focused pod and the pile their positions and
      z-indices ([computeLayout]) and the guards of the pass as far as
      they depend on the stack ([layoutStack]).
    - [Filename]: the pure string code of the rename: extension and image
      classification, the sanitizer of the suggestion and the tests that
      reject a name ([processDownloadForAIRenaming]), the second cleaning
      and the search for a free name ([renameDownloadFileAndUpdateRecord]).
    - [State]: the variables of the script as one record [State.t], the
      download objects of the host and the card objects of the script as
      two heaps indexed by identity, the pod element and the tooltip as
      records of the attributes the script reads back, the callbacks a
      handler leaves behind as values of [task], and the invariant of the
      pod store ([State.wf]) with the relation [sameCards] between states
      that differ in attributes only.
    - [Tooltip]: [updateUIForFocusedDownload] in full (focus, content of
      the tooltip, trigger of the rename, class of the focused pod) and
      [formatBytes].
    - [Pods]: [getDownloadKey], [getSafeFilename],
      [throttledCreateOrUpdateCard], [createOrUpdatePodElement],
      [setGenericIcon], [setCompletedFilePreview], [triggerCardEntrance],
      [initZenAnimationObserver], [removeCard] and its timer,
      [scheduleCardRemoval], the handler of the close button and its timer,
      and the listener of the download list.
    - [LayoutPass]: [managePodVisibilityAndAnimations] in full: the guards,
      the loop that puts the pods into the row, the loop that writes the
      style of every pod from its slot and sets up the animation frames,
      the height of the row, the timers of the tooltip and of the rotation
      direction, and what each of these callbacks does when it runs
      ([runFrame]).
    - [Sidebar]: [updateCurrentZenSidebarWidth],
      [applyGlobalWidthToAllTooltips] and [initSidebarWidthSync] with its
      two observers and the timer that a resize restarts.
    - [Rename]: the host's file operations as a class [FileSystem] with an
      instance on finite maps, [callMistralAPI] as a function of the
      response, a run of [processDownloadForAIRenaming] in two steps
      ([renameStart] up to the requests, [renameFinish] from the answer),
      [renameDownloadFileAndUpdateRecord] and [undoRename].
    - [System]: the events of a session (download events, writes of the
      host to its download objects, the wheel, the close button, the firing
      of a pending callback, a frame or timer of the layout pass, a read
      of the sidebar width by one of its observers) as a step relation,
      and the invariants of the pod store and of the width of the tooltip
      in every reachable state.
    - [Init]: [init], [verifyMistralConnection] and the state in which
      [initDownloadManager] leaves the script.
    - [Readers]: [readTextFileSnippet], [fileToBase64] and
      [openDownloadedFile] on a file as the host reports it.

    The second script, [src/zen-stuff.uc.js]:

    - [PileState]: the constants of [CONFIG], the snapshot of a pod, its
      element, the positions, the container and the variables of the script
      as one record [PileState.t].
    - [Pile]: [createPodElement], [generatePilePosition],
      [generateGridPosition], [applyPilePosition], [applyGridPosition],
      [addPodToPile], [removePodFromPile], [updatePileVisibility],
      [transitionToGrid], [transitionToPile], [hidePile],
      [loadExistingDismissedPods], and the invariant of the pile.
    - [PileHover]: [updatePileContainerWidth], [showPile],
      [recalculateLayout], [shouldDisableHover], the six hover handlers
      and their shared timer, the handlers of a pod element, the retry of
      [init].
    - [PileSystem]: the events of the pile as a step relation, its
      invariant in every reachable state, and the store of snapshots the
      script implements ([PileSystem.Spec]).

    ** Modelling choices

    - A JavaScript string is a [string] (a sequence of 8-bit code units);
      code units above 255 are not represented: the icons of the previews
      are an enumeration and the warning sign in front of one status text
      is left out.  [toLowerCase] is modelled on Latin-1.  The text of a
      file is one character per byte.
    - A value that may be [null] or [undefined] is an [option]; the script
      tests such values for truthiness, so [truthy] also rejects the empty
      string.  An index that JavaScript reports as [-1] is [None].
    - An object that is shared and mutated (a download of the host, a card,
      the element of a dismissed pod) lives in a heap, a [gmap] from
      references to records, and the variables hold references:
      [activeDownloadCards] maps keys to card references, a card holds the
      reference of its download, a timer of the pile holds the reference of
      the element it will remove.  A [Map] or [Set] used by key only is a
      [gmap] or [gset]; the [Map] of the dismissed pods, whose order is
      read, is a [JsMap]; an array is a [list].
    - What the host decides is an argument of the handler: the time
      ([Date.now()]), whether the host has the sidebar animation, whether
      [cancel] throws, the files on disk, the response of the remote model,
      the reads of a stream, the width of the tooltip ([offsetWidth]), the
      rectangle of the toolbox, the values of [Math.random()], where the
      pointer is.
    - A timer, an animation frame, an observer or a promise is a value of
      [State.task] (or [PileState.task]) that carries what its closure
      captured; the handler returns it and the system runs it when the
      event [Fire] (or [Frame]) selects it.
    - In the first script pixel positions, sizes, times and the wheel's
      [deltaY] are integers ([Z]).  [Math.round] and the two decimals of
      [formatBytes] are computed exactly on integers; the script computes
      them on doubles.  In the second script offsets and angles are
      products with [Math.random()] and are rational numbers ([Qc]).
    - The session of the first script starts in the state after a
      successful [initDownloadManager]; the outcome of the connection test
      ([aiRenamingPossible]) is a parameter of the initial state, and
      [Init] relates the answers of the host to it.  The second script
      starts when [init] has built its container.

    ** Recursion and bounds

    No function takes fuel.  The name search stops after 99 probes in the
    source and is a structural [Fixpoint] on that count; the loops over
    pods and keys are folds over lists.  Two loops of [Readers] are not
    structural and are defined by well-founded recursion (Equations): the
    loop over the complete lines of the buffer on the length of the buffer,
    which every round shortens by the line and its newline, and the loop
    over the chunks of [fileToBase64] on the bytes that are left, which a
    chunk of [0x8000] shortens.  [Readers.completeLines_terminates] bounds
    the rounds of the first by the lines that may still be read.  The
    bounds of the scripts are their own: 20 snapshots in the pile, 4 pods
    shown on the pile, 6 in the grid, 99 probes, 50 MB per encoded file.

    ** What the theorems show

    - [System]: the pod store is consistent in every reachable state
      (distinct keys, the keys of the list are the keys of the map, card
      and pod element record their key, the focus is listed), the layout
      pass and its callbacks included; the tooltip is as wide as the last
      read of the sidebar width asks, and at most one timer of the resize
      observer is pending.
    - [Sidebar], [Init]: what a read of the sidebar width keeps and that a
      second read changes nothing; which answers of the host enable the
      rename, and that a script that runs has started in a reachable
      state.
    - [Stack]: the round trip of the rotation, what a wheel step keeps,
      the neighbour that takes the focus on removal, key renames and their
      undo; two states in which the round trip and the rename lose the
      invariant.
    - [Layout]: the loop equals a closed form, pile pods fit inside the
      tooltip, z-indices descend, no key gets two slots, the guards of the
      pass.
    - [LayoutPass]: the pass keeps the invariant and changes the stack as
      [Layout.layoutStack] says; a pod with a slot is shown at the offset
      and the height of its slot, a pod without one is hidden; every frame
      the pass sets up carries the target the card records; a second pass
      with nothing in between changes nothing and sets up no frame.
    - [Filename]: the sanitizer's alphabet, length bound and extension; the
      decision on a suggestion; the sequence of names of the collision
      search and its last, untested candidate; the directory of the new
      path; inputs on which the sanitizer departs from its description.
    - [Tooltip]: the focus and the class of the focused pod after the
      presenter has run, the bounds of the percentage, the texts of sizes.
    - [Pods]: what an accepted and a dropped event do, the grace period of
      a removal, the state after the timer of a removal.
    - [Rename]: a run that renames the focused download keeps the pod
      store consistent when the new path is the key of no pod; the undo
      restores the path and the name of the download, releases the paths
      and keeps the store consistent; at most one run per download at a
      time, the size gate, the release of the path when a run fails; and
      runs of the whole workflow on a concrete download: rename, undo, rate
      limit, and the two interleavings with events of another download in
      which the rename files the wrong card or leaves the focus on a key
      that is not listed.
    - [Readers]: the loop over the lines ends; the snippet is bounded in
      lines and in characters per line, is the first lines of a text of
      terminated lines, does not depend on how the stream cuts the text,
      and holds a last line without newline twice; [fileToBase64] encodes
      the bytes of the file whatever the chunks.
    - [Pile], [PileHover]: every operation keeps the invariant of the pile;
      what adding and removing do to the order of the pods; which pods the
      pile shows; the cells of the grid, that they differ, and when each
      pod moves; when the timer of the hover closes the container.
    - [PileSystem]: the invariant of the pile in every reachable state; the
      script refines the bounded store of snapshots; the pile can be closed
      from every state; sessions in which the script departs from its
      comments.

    ** Not modelled

    - The observer of the sidebar width in the second script: it copies a
      value of the host into [PileHover.updatePileContainerWidth], which
      is modelled.
    - The construction of the DOM nodes and style strings in
      [initDownloadManager] and in [init] of the pile, the style sheet,
      the preference service and logging; a first script that finds its
      container in the document already and runs without a tooltip.
    - The text of the prompts and the network requests themselves: the
      responses are arguments of [Rename.renameFinish] and of
      [Init.verifyMistralConnection].
    - The decoding of multi-byte characters in [readTextFileSnippet].
    - The first script's side of the channel between the scripts
      ([window.zenTidyDownloads]): no code of the repository defines it.
      [PileSystem] takes its messages as events, and what a restore or a
      deletion answers as a fact of the event.
    - The run of the rename is not a step of [System]: the rename keeps the
      invariant when the renamed download is the focused one and the new
      path is the key of no pod, and loses it otherwise (see [Rename]).

    The manifest of the development lists each part with the reason. *)

From Stdlib Require Export ZArith Lia.
From stdpp Require Export base tactics option list gmap strings.

Declare Scope tidy_scope.
Delimit Scope tidy_scope with tidy.
#[global] Open Scope tidy_scope.

(** The hint database of the development: lemmas that close the routine
    side conditions of the components (membership, [NoDup], lengths). *)
Create HintDb tidy discriminated.

(** The rewriting database of the development: equations that simplify the
    JavaScript built-ins of [JsArray] and [JsString]. *)
Create Rewrite HintDb tidy_rw.

(** ** Tactics *)

(** Split every [if], [match] and [decide] of the goal, simplifying
    equations as they appear. *)
Ltac tidy_cases :=
  repeat (first
    [ case_bool_decide
    | case_decide
    | case_match ]; simplify_eq/=).

(** Split the first [match] of the goal and leave the hypotheses alone. *)
Ltac case_goal_match :=
  match goal with
  | |- context [match ?x with _ => _ end] => destruct x eqn:?
  end.

(** Turn the boolean tests among the hypotheses into propositions. *)
Ltac tidy_bools :=
  repeat match goal with
  | H : _ || _ = true |- _ => apply orb_true_iff in H as [H|H]
  | H : _ || _ = false |- _ => apply orb_false_iff in H as [? ?]
  | H : _ && _ = true |- _ => apply andb_true_iff in H as [? ?]
  | H : _ && _ = false |- _ => apply andb_false_iff in H as [H|H]
  | H : negb _ = true |- _ => apply negb_true_iff in H
  | H : negb _ = false |- _ => apply negb_false_iff in H
  | H : bool_decide _ = true |- _ => apply bool_decide_eq_true in H
  | H : bool_decide _ = false |- _ => apply bool_decide_eq_false in H
  end.

(** Close a goal by the database after the case analysis. *)
Ltac tidy_auto := try done; eauto with tidy.

Ltac tidy_crush := intros; simplify_eq/=; tidy_cases; tidy_auto; try lia.

(** Decide a closed goal by running its decision procedure. *)
Ltac tidy_compute :=
  cbv zeta; apply (bool_decide_unpack _); vm_compute; exact I.

(** ** JavaScript truthiness *)

(** [!!v] for a value that is a string, [null] or [undefined]: the empty
    string is falsy as well. *)
Definition truthy (v : option string) : bool :=
  match v with
  | Some s => bool_decide (s ≠ "")
  | None => false
  end.

(** [a || b] on such values. *)
Definition js_or (a b : option string) : option string :=
  if truthy a then a else b.

Infix "|||" := js_or (at level 50, left associativity) : tidy_scope.

Lemma truthy_Some s : truthy (Some s) = true ↔ s ≠ "".
Proof. unfold truthy. by rewrite bool_decide_eq_true. Qed.

Lemma truthy_is_Some v : truthy v = true → is_Some v.
Proof. destruct v; [eauto | done]. Qed.

Lemma js_or_truthy_l a b : truthy a = true → a ||| b = a.
Proof. unfold js_or. by intros ->. Qed.

Lemma js_or_falsy_l a b : truthy a = false → a ||| b = b.
Proof. unfold js_or. by intros ->. Qed.

#[export] Hint Rewrite js_or_truthy_l js_or_falsy_l using done : tidy_rw.

(** ** Lists *)

Section lists.
Context {A : Type}.
Implicit Types (l k : list A) (x y : A).

Lemma last_is_Some l : l ≠ [] → is_Some (last l).
Proof.
  destruct l as [|x l] using rev_ind; [done|]. rewrite last_snoc. eauto.
Qed.

Lemma last_Some_snoc l x : last l = Some x → ∃ k, l = k ++ [x].
Proof.
  destruct l as [|y l _] using rev_ind; [done|].
  rewrite last_snoc. intros [= ->]. eauto.
Qed.

Lemma last_elem_of l x : last l = Some x → x ∈ l.
Proof. intros [k ->]%last_Some_snoc. set_solver. Qed.

Lemma bind_ext_elem {B} (f g : A → list B) l :
  (∀ x, x ∈ l → f x = g x) → l ≫= f = l ≫= g.
Proof.
  induction l as [|x l IH]; intros Hfg; [done|]. cbn.
  rewrite Hfg, IH; [done| |]; set_solver.
Qed.

Lemma head_elem_of l x : head l = Some x → x ∈ l.
Proof. destruct l; [done|]. intros [= ->]. set_solver. Qed.

Lemma NoDup_snoc l x : NoDup (l ++ [x]) ↔ (x ∉ l) ∧ NoDup l.
Proof.
  rewrite NoDup_app. split.
  - intros (? & Hd & _). split; [|done]. intros Hx. apply (Hd x Hx). set_solver.
  - intros [? ?]. split_and!; [done| |apply NoDup_singleton].
    intros y Hy ->%list_elem_of_singleton. done.
Qed.

Lemma Permutation_snoc l x : l ++ [x] ≡ₚ x :: l.
Proof. by rewrite (comm (++)). Qed.

Lemma NoDup_reverse l : NoDup l → NoDup (reverse l).
Proof. by rewrite reverse_Permutation. Qed.

Lemma NoDup_take l n : NoDup l → NoDup (take n l).
Proof. intros. eapply sublist_NoDup; [done | apply sublist_take]. Qed.

Lemma elem_of_take_inv l n x : x ∈ take n l → x ∈ l.
Proof. intros (i & ? & _)%elem_of_take. by eapply list_elem_of_lookup_2. Qed.

(** A filter that every element passes keeps the list; one that no
    element passes empties it. *)
Lemma filter_all (P : A → Prop) `{∀ x, Decision (P x)} l :
  (∀ x, x ∈ l → P x) → filter P l = l.
Proof.
  induction l as [|x l IH]; intros HP; [done|].
  rewrite filter_cons_True, IH; [done| |]; set_solver.
Qed.

Lemma filter_sublist_mono (P : A → Prop) `{∀ x, Decision (P x)} l k :
  l `sublist_of` k → filter P l `sublist_of` filter P k.
Proof.
  induction 1 as [|x l k _ IH|x l k _ IH]; [done|..]; rewrite ?filter_cons;
    repeat case_decide; by repeat constructor.
Qed.

Lemma length_filter_delete (P : A → Prop) `{∀ x, Decision (P x)} i l :
  length (filter P (delete i l)) ≤ length (filter P l).
Proof. apply sublist_length, filter_sublist_mono, sublist_delete. Qed.

Lemma filter_none (P : A → Prop) `{∀ x, Decision (P x)} l :
  (∀ x, x ∈ l → ¬ P x) → filter P l = [].
Proof.
  induction l as [|x l IH]; intros HP; [done|].
  rewrite filter_cons_False, IH; [done| |]; set_solver.
Qed.
End lists.

#[export] Hint Resolve last_elem_of head_elem_of : tidy.

(** ** Loops

    [l.forEach(f)] where the body reads and writes the variables of the
    script and may set up callbacks: the state is threaded through the
    elements in order and the callbacks are collected in the order they
    were set up. *)

Definition forEach {A S T} (f : A → S → S * list T) (l : list A) (s : S) :
    S * list T :=
  foldl (λ '(s, tasks) a, let '(s, new) := f a s in (s, tasks ++ new)) (s, []) l.

Section loops.
Context {A S T : Type}.
Implicit Types (f : A → S → S * list T) (l : list A) (s : S).

Lemma foldl_invariant (P : S → Prop) (g : S → A → S) l s :
  P s → (∀ s0 a, P s0 → a ∈ l → P (g s0 a)) → P (foldl g s l).
Proof.
  revert s. induction l as [|a l IH]; intros s Hs Hg; cbn; [done|].
  apply IH; [apply Hg; [done|set_solver]|]. intros. apply Hg; [done|set_solver].
Qed.

Lemma foldl_ext (g h : S → A → S) l s :
  (∀ s0 a, a ∈ l → g s0 a = h s0 a) → foldl g s l = foldl h s l.
Proof.
  revert s. induction l as [|a l IH]; intros s Hgh; cbn; [done|].
  rewrite Hgh by set_solver. apply IH. intros. apply Hgh. set_solver.
Qed.

(** The loop from an accumulator is the loop from the empty one. *)
Lemma forEach_acc f l s (tasks : list T) :
  foldl (λ '(s, tasks) a, let '(s, new) := f a s in (s, tasks ++ new)) (s, tasks) l
  = ((forEach f l s).1, tasks ++ (forEach f l s).2).
Proof.
  unfold forEach. revert s tasks.
  induction l as [|a l IH]; intros s tasks; cbn; [by rewrite app_nil_r|].
  destruct (f a s) as [s' new]. rewrite (IH s' (tasks ++ new)), (IH s' new).
  cbn. by rewrite app_assoc.
Qed.

Lemma forEach_nil f s : forEach f [] s = (s, []).
Proof. done. Qed.

Lemma forEach_cons f a l s :
  forEach f (a :: l) s
  = ((forEach f l (f a s).1).1, (f a s).2 ++ (forEach f l (f a s).1).2).
Proof.
  unfold forEach at 1. cbn. destruct (f a s) as [s' new]. apply forEach_acc.
Qed.

(** The state after the loop is a fold of the body. *)
Lemma forEach_fst f l s : (forEach f l s).1 = foldl (λ s a, (f a s).1) s l.
Proof.
  revert s. induction l as [|a l IH]; intros s; [done|].
  rewrite forEach_cons. cbn. apply IH.
Qed.

(** A property the body keeps holds after the loop. *)
Lemma forEach_invariant (P : S → Prop) f l s :
  P s → (∀ a s0, P s0 → P (f a s0).1) → P (forEach f l s).1.
Proof.
  revert s. induction l as [|a l IH]; intros s Hs Hf; [done|].
  rewrite forEach_cons. cbn. apply IH; [by apply Hf|done].
Qed.

(** A loop whose body leaves the state alone collects the callbacks. *)
Lemma forEach_pure f l s :
  (∀ a s0, (f a s0).1 = s0) → forEach f l s = (s, l ≫= λ a, (f a s).2).
Proof.
  intros Hf. induction l as [|a l IH]; [done|].
  rewrite forEach_cons, Hf, IH. done.
Qed.

(** What holds of the callbacks of every round holds of all of them. *)
Lemma forEach_Forall (P : S → Prop) (Q : T → Prop) f l s :
  P s → (∀ a s0, P s0 → P (f a s0).1 ∧ Forall Q (f a s0).2) →
  P (forEach f l s).1 ∧ Forall Q (forEach f l s).2.
Proof.
  revert s. induction l as [|a l IH]; intros s Hs Hf; [by split|].
  rewrite forEach_cons. cbn. destruct (Hf a s Hs) as [Hs' Hnew].
  destruct (IH _ Hs' Hf). split; [done|by apply Forall_app].
Qed.
End loops.

(** ** Integers *)

(** [Math.floor(a / b)] for a positive [b] is [a `div` b]. *)
Lemma Zdiv_floor_spec (a b q : Z) :
  (0 < b → q = a `div` b ↔ b * q ≤ a < b * (q + 1))%Z.
Proof.
  intros Hb. split.
  - intros ->. pose proof (Z.mul_div_le a b Hb).
    pose proof (Z.mul_succ_div_gt a b Hb). lia.
  - intros [? ?]. apply Z.div_unique with (a - b * q)%Z; lia.
Qed.
