(* ===== verification/JsArray.v ===== *)
(** * JsArray: the array built-ins the scripts call

    Arrays are lists.  [indexOf] answers [None] where JavaScript answers
    [-1]; the three uses of [splice] in the sources (remove one element,
    replace one element, insert before the last element) are separate
    functions.  The lemmas say what each does to membership, to [NoDup], to
    the length and up to permutation; under [NoDup] removing the first
    occurrence is a [filter]. *)

From S2P Require Import Prelude.

Section js_array.
Context `{EqDecision A}.
Implicit Types (l k : list A) (x y z : A) (i : nat).

(** [l.indexOf(x)]: the first index that holds [x]. *)
Fixpoint indexOf x l : option nat :=
  match l with
  | [] => None
  | y :: l => if decide (x = y) then Some 0%nat else S <$> indexOf x l
  end.

(** [l.includes(x)]. *)
Definition includes x l : bool := bool_decide (x ∈ l).

(** [l.push(x)] and [l.unshift(x)]. *)
Definition push x l : list A := l ++ [x].
Definition unshift x l : list A := x :: l.

(** [const i = l.indexOf(x); if (i > -1) l.splice(i, 1)]. *)
Definition remove_first x l : list A :=
  match indexOf x l with
  | Some i => delete i l
  | None => l
  end.

(** [const i = l.indexOf(x); if (i > -1) l.splice(i, 1, y)]. *)
Definition replace_first x y l : list A :=
  match indexOf x l with
  | Some i => <[i:=y]> l
  | None => l
  end.

(** [l.splice(-1, 0, x)]: the start index is [max (length - 1) 0]. *)
Definition insert_before_last x l : list A :=
  take (length l - 1) l ++ x :: drop (length l - 1) l.

(** ** indexOf *)

Lemma indexOf_None x l : indexOf x l = None ↔ x ∉ l.
Proof.
  induction l as [|y l IH]; simpl; [set_solver|].
  case_decide; [set_solver|].
  rewrite fmap_None, IH. set_solver.
Qed.

Lemma indexOf_is_Some x l : is_Some (indexOf x l) ↔ x ∈ l.
Proof.
  rewrite <-not_eq_None_Some, indexOf_None.
  split; [apply dec_stable | tauto].
Qed.

Lemma indexOf_lookup x l i : indexOf x l = Some i → l !! i = Some x.
Proof.
  revert i. induction l as [|y l IH]; intros i; simpl; [done|].
  case_decide; [by intros [= <-]; subst|].
  intros (j & Hj & ->)%fmap_Some. by apply IH.
Qed.

Lemma indexOf_lt x l i : indexOf x l = Some i → (i < length l)%nat.
Proof. intros ?%indexOf_lookup. by eapply lookup_lt_Some. Qed.

Lemma indexOf_first x l i j :
  indexOf x l = Some i → (j < i)%nat → l !! j ≠ Some x.
Proof.
  revert i j. induction l as [|y l IH]; intros i j; simpl; [done|].
  case_decide; [intros [= <-]; lia|].
  intros (i' & Hi' & ->)%fmap_Some Hj.
  destruct j as [|j]; simpl; [congruence|]. apply (IH i'); [done|lia].
Qed.

Lemma indexOf_app_fresh x l k :
  x ∉ l → indexOf x (l ++ x :: k) = Some (length l).
Proof.
  induction l as [|y l IH]; simpl; intros Hx.
  - by rewrite decide_True.
  - rewrite decide_False by set_solver. rewrite IH by set_solver. done.
Qed.

Lemma indexOf_app_l x l k i : indexOf x l = Some i → indexOf x (l ++ k) = Some i.
Proof.
  revert i. induction l as [|y l IH]; intros i; simpl; [done|].
  case_decide; [done|]. destruct (indexOf x l); [|done].
  intros [= <-]. by rewrite (IH _ eq_refl).
Qed.

Lemma indexOf_split x l i :
  indexOf x l = Some i →
  ∃ l1 l2, l = l1 ++ x :: l2 ∧ x ∉ l1 ∧ length l1 = i.
Proof.
  revert i. induction l as [|y l IH]; intros i; simpl; [done|].
  case_decide as Hxy.
  - intros [= <-]. subst. exists [], l. set_solver.
  - intros (j & (l1 & l2 & -> & ? & <-)%IH & ->)%fmap_Some.
    exists (y :: l1), l2. set_solver.
Qed.

Lemma indexOf_snoc_fresh x l : x ∉ l → indexOf x (l ++ [x]) = Some (length l).
Proof. apply indexOf_app_fresh. Qed.

Lemma includes_true x l : includes x l = true ↔ x ∈ l.
Proof. apply bool_decide_eq_true. Qed.

Lemma includes_false x l : includes x l = false ↔ x ∉ l.
Proof. apply bool_decide_eq_false. Qed.

(** ** remove_first *)

Lemma remove_first_fresh x l : x ∉ l → remove_first x l = l.
Proof. intros ?%indexOf_None. unfold remove_first. by simplify_option_eq. Qed.

Lemma remove_first_app x l k :
  x ∉ l → remove_first x (l ++ x :: k) = l ++ k.
Proof.
  intros Hx. unfold remove_first. rewrite indexOf_app_fresh by done.
  induction l as [|y l IH]; simpl; [done|]. f_equal. apply IH. set_solver.
Qed.

Lemma remove_first_cons x l : remove_first x (x :: l) = l.
Proof. apply (remove_first_app x []). set_solver. Qed.

Lemma remove_first_snoc x l : x ∉ l → remove_first x (l ++ [x]) = l.
Proof. intros. rewrite remove_first_app by done. apply app_nil_r. Qed.

(** Where the element occurs, the list is the element and the rest. *)
Lemma remove_first_Permutation x l : x ∈ l → l ≡ₚ x :: remove_first x l.
Proof.
  intros (i & Hi)%indexOf_is_Some. unfold remove_first. rewrite Hi.
  by apply delete_Permutation, indexOf_lookup.
Qed.

Lemma length_remove_first x l :
  x ∈ l → length (remove_first x l) = pred (length l).
Proof. intros ?%remove_first_Permutation%Permutation_length. simpl in *. lia. Qed.

(** Under [NoDup], removing the first occurrence removes the element. *)
Lemma remove_first_filter x l :
  NoDup l → remove_first x l = filter (λ y, y ≠ x) l.
Proof.
  intros Hl. destruct (decide (x ∈ l)) as [Hx|Hx].
  - apply indexOf_is_Some in Hx as [i (l1 & l2 & -> & Hx1 & _)%indexOf_split].
    apply NoDup_app in Hl as (_ & Hd & [Hx2 _]%NoDup_cons).
    rewrite remove_first_app, filter_app, filter_cons_False by naive_solver.
    by rewrite !filter_all by set_solver.
  - rewrite remove_first_fresh, filter_all by set_solver. done.
Qed.

Lemma elem_of_remove_first x y l :
  NoDup l → y ∈ remove_first x l ↔ y ∈ l ∧ y ≠ x.
Proof. intros. rewrite remove_first_filter, list_elem_of_filter by done. tauto. Qed.

Lemma elem_of_remove_first_inv x y l : y ∈ remove_first x l → y ∈ l.
Proof.
  unfold remove_first. case_match; [|done]. apply list_elem_of_delete_inv.
Qed.

Lemma elem_of_remove_first_ne x y l : y ≠ x → y ∈ l → y ∈ remove_first x l.
Proof.
  intros Hne Hy. destruct (decide (x ∈ l)) as [Hx|Hx];
    [|by rewrite remove_first_fresh].
  apply remove_first_Permutation in Hx. rewrite Hx in Hy. set_solver.
Qed.

Lemma not_elem_of_remove_first x l : NoDup l → x ∉ remove_first x l.
Proof. intros. rewrite elem_of_remove_first by done. tauto. Qed.

Lemma remove_first_middle x l1 l2 :
  NoDup (l1 ++ x :: l2) → remove_first x (l1 ++ x :: l2) = l1 ++ l2.
Proof.
  intros (_ & Hd & _)%NoDup_app. apply remove_first_app.
  intros Hx. apply (Hd x Hx). set_solver.
Qed.

Lemma NoDup_remove_first x l : NoDup l → NoDup (remove_first x l).
Proof. intros. rewrite remove_first_filter by done. by apply NoDup_filter. Qed.

Lemma remove_first_comm x y l :
  NoDup l → remove_first x (remove_first y l) = remove_first y (remove_first x l).
Proof.
  intros. rewrite !remove_first_filter by eauto using NoDup_remove_first.
  rewrite !list_filter_filter. apply list_filter_iff. tauto.
Qed.

(** ** replace_first *)

Lemma replace_first_fresh x y l : x ∉ l → replace_first x y l = l.
Proof. intros ?%indexOf_None. unfold replace_first. by simplify_option_eq. Qed.

Lemma replace_first_app x y l k :
  x ∉ l → replace_first x y (l ++ x :: k) = l ++ y :: k.
Proof.
  intros Hx. unfold replace_first. rewrite indexOf_app_fresh by done.
  by rewrite insert_app_r_alt, Nat.sub_diag by done.
Qed.

Lemma length_replace_first x y l : length (replace_first x y l) = length l.
Proof. unfold replace_first. case_match; [apply length_insert | done]. Qed.

Lemma elem_of_replace_first x y z l :
  NoDup l → x ∈ l →
  z ∈ replace_first x y l ↔ z = y ∨ (z ∈ l ∧ z ≠ x).
Proof.
  intros Hl (i & (l1 & l2 & -> & Hx1 & _)%indexOf_split)%indexOf_is_Some.
  apply NoDup_app in Hl as (_ & Hd & [Hx2 _]%NoDup_cons).
  rewrite replace_first_app by done. set_solver.
Qed.

(** Replacing a key by a key that is not in the list keeps [NoDup]. *)
(** Replacing by a new element and replacing back restores the array. *)
Lemma replace_first_undo x y l :
  y ∉ l → replace_first y x (replace_first x y l) = l.
Proof.
  intros Hy. destruct (decide (x ∈ l)) as [Hx|Hx];
    [|by rewrite (replace_first_fresh x y), replace_first_fresh].
  apply indexOf_is_Some in Hx as [i (l1 & l2 & -> & Hx1 & _)%indexOf_split].
  rewrite (replace_first_app x y) by done.
  by rewrite (replace_first_app y x) by set_solver.
Qed.

Lemma NoDup_replace_first x y l :
  NoDup l → y ∉ l → NoDup (replace_first x y l).
Proof.
  intros Hl Hy. destruct (decide (x ∈ l)) as [Hx|Hx];
    [|by rewrite replace_first_fresh].
  apply indexOf_is_Some in Hx as [i (l1 & l2 & -> & Hx1 & _)%indexOf_split].
  rewrite replace_first_app by done.
  rewrite NoDup_app, NoDup_cons in Hl |- *. set_solver.
Qed.

(** ** insert_before_last *)

Lemma insert_before_last_nil x : insert_before_last x [] = [x].
Proof. done. Qed.

Lemma insert_before_last_snoc x y l :
  insert_before_last x (l ++ [y]) = l ++ [x; y].
Proof.
  unfold insert_before_last. rewrite length_app. simpl.
  replace (length l + 1 - 1)%nat with (length l) by lia.
  by rewrite take_app_length, drop_app_length.
Qed.

Lemma insert_before_last_Permutation x l : insert_before_last x l ≡ₚ x :: l.
Proof.
  unfold insert_before_last. rewrite <-Permutation_middle.
  by rewrite take_drop.
Qed.

Lemma length_insert_before_last x l :
  length (insert_before_last x l) = S (length l).
Proof. by rewrite insert_before_last_Permutation. Qed.
End js_array.

#[export] Hint Rewrite @remove_first_cons @remove_first_snoc @remove_first_app
  @replace_first_app @insert_before_last_snoc @indexOf_app_fresh
  @indexOf_snoc_fresh @remove_first_fresh @replace_first_fresh
  using (done || set_solver) : tidy_rw.
#[export] Hint Resolve NoDup_remove_first elem_of_remove_first_inv : tidy.
