(* ===== verification/JsString.v ===== *)
(** * JsString: the string built-ins the scripts call

    A JavaScript string is modelled by a [string], read as the list of its
    code units ([chars]); code units above 255 are not represented.  Each
    built-in is defined on the list of characters.  The equations of the
    rewriting database [tidy_rw] push [chars] through the built-ins, so that
    a statement about strings becomes a statement about lists. *)

From Stdlib Require Import Ascii.
From stdpp Require Export pretty.
From S2P Require Import Prelude JsArray.

Module JsString.

Definition chars (s : string) : list ascii := String.list_ascii_of_string s.
Definition ofChars (l : list ascii) : string := String.string_of_list_ascii l.

(** ** Character classes *)

Definition between (lo hi : nat) (c : ascii) : bool :=
  (lo <=? nat_of_ascii c)%nat && (nat_of_ascii c <=? hi)%nat.

Definition isUpper : ascii → bool := between 65 90.
Definition isLower : ascii → bool := between 97 122.
Definition isDigit : ascii → bool := between 48 57.

(** [\s] and the characters [trim] strips, on Latin-1: tab, line feed,
    vertical tab, form feed, carriage return, space, no-break space. *)
Definition isSpace (c : ascii) : bool :=
  bool_decide (nat_of_ascii c ∈ [9; 10; 11; 12; 13; 32; 160]%nat).

(** [toLowerCase] on one Latin-1 character: [A-Z] and the accented
    capitals (all of 192..222 but the multiplication sign 215). *)
Definition toLowerChar (c : ascii) : ascii :=
  if isUpper c || (between 192 222 c && negb (nat_of_ascii c =? 215)%nat)
  then ascii_of_nat (nat_of_ascii c + 32) else c.

(** ** The built-ins *)

Definition toLowerCase (s : string) : string := ofChars (toLowerChar <$> chars s).

(** [s.replace(/[...]/g, "")] for a character class: the characters of
    the class are dropped. *)
Definition removeChars (class : ascii → bool) (s : string) : string :=
  ofChars (filter (λ c, class c = false) (chars s)).

(** [s.replace(/[...]+/g, rep)] for a character class: every maximal run of
    characters of the class becomes one [rep]. *)
Fixpoint replaceRunsL (class : ascii → bool) (rep : list ascii)
    (inRun : bool) (l : list ascii) : list ascii :=
  match l with
  | [] => []
  | c :: l =>
      if class c
      then (if inRun then [] else rep) ++ replaceRunsL class rep true l
      else c :: replaceRunsL class rep false l
  end.

Definition replaceRuns (class : ascii → bool) (rep s : string) : string :=
  ofChars (replaceRunsL class (chars rep) false (chars s)).

(** [s.substring(start)] and [s.substring(0, n)]. *)
Definition substringFrom (start : nat) (s : string) : string :=
  ofChars (drop start (chars s)).
Definition substringTo (n : nat) (s : string) : string :=
  ofChars (take n (chars s)).

(** [s.lastIndexOf(c)] for a one-character [c]; [None] is [-1]. *)
Definition lastIndexOfL (c : ascii) (l : list ascii) : option nat :=
  (λ i, length l - 1 - i)%nat <$> indexOf c (reverse l).
Definition lastIndexOf (c : ascii) (s : string) : option nat :=
  lastIndexOfL c (chars s).

(** An index that may be [-1], as [substring] clamps it. *)
Definition clamp (i : option nat) : nat := default 0%nat i.

Definition includesChar (c : ascii) (s : string) : bool :=
  bool_decide (c ∈ chars s).

Definition endsWith (s suffix : string) : bool :=
  bool_decide (chars suffix `suffix_of` chars s).

(** [s.trim()]. *)
Fixpoint trimStartL (l : list ascii) : list ascii :=
  match l with
  | c :: l' => if isSpace c then trimStartL l' else l
  | [] => []
  end.
Definition trim (s : string) : string :=
  ofChars (reverse (trimStartL (reverse (trimStartL (chars s))))).

(** [s.split(sep).pop()] for a one-character separator: what follows the
    last separator, or the whole string. *)
Definition lastSegment (sep : ascii) (s : string) : string :=
  match lastIndexOf sep s with
  | Some i => substringFrom (S i) s
  | None => s
  end.

(** [s.replace(/[...]/g, c)]: each character of the class becomes [rep]. *)
Definition replaceEach (class : ascii → bool) (rep : ascii) (s : string) : string :=
  ofChars ((λ c, if class c then rep else c) <$> chars s).

Fixpoint takeWhileL (p : ascii → bool) (l : list ascii) : list ascii :=
  match l with
  | c :: l' => if p c then c :: takeWhileL p l' else []
  | [] => []
  end.

(** [s.split(/[...]/).pop()] for a character class of separators. *)
Definition lastSegmentBy (class : ascii → bool) (s : string) : string :=
  ofChars (reverse (takeWhileL (λ c, negb (class c)) (reverse (chars s)))).

(** [s.includes(sub)]. *)
Fixpoint includesL (sub l : list ascii) : bool :=
  bool_decide (sub `prefix_of` l) ||
  match l with
  | [] => false
  | _ :: l' => includesL sub l'
  end.
Definition includes (s sub : string) : bool := includesL (chars sub) (chars s).

(** ** [chars] and [ofChars] *)

Lemma chars_ofChars l : chars (ofChars l) = l.
Proof. apply String.list_ascii_of_string_of_list_ascii. Qed.

Lemma ofChars_chars s : ofChars (chars s) = s.
Proof. apply String.string_of_list_ascii_of_string. Qed.

#[global] Instance chars_inj : Inj (=) (=) chars.
Proof. intros s1 s2 H. by rewrite <-(ofChars_chars s1), H, ofChars_chars. Qed.

Lemma chars_app s1 s2 : chars (s1 +:+ s2) = chars s1 ++ chars s2.
Proof. induction s1 as [|c s1 IH]; [done|]. simpl. by rewrite <-IH. Qed.

Lemma chars_String c s : chars (String c s) = c :: chars s.
Proof. done. Qed.

Lemma chars_empty : chars "" = [].
Proof. done. Qed.

Lemma length_chars s : length (chars s) = String.length s.
Proof. induction s; simpl; by f_equal. Qed.

Lemma chars_nil_inv s : chars s = [] → s = "".
Proof. by destruct s. Qed.

Lemma chars_toLowerCase s : chars (toLowerCase s) = toLowerChar <$> chars s.
Proof. apply chars_ofChars. Qed.

Lemma chars_removeChars class s :
  chars (removeChars class s) = filter (λ c, class c = false) (chars s).
Proof. apply chars_ofChars. Qed.

Lemma chars_replaceRuns class rep s :
  chars (replaceRuns class rep s) = replaceRunsL class (chars rep) false (chars s).
Proof. apply chars_ofChars. Qed.

Lemma chars_substringTo n s : chars (substringTo n s) = take n (chars s).
Proof. apply chars_ofChars. Qed.

Lemma chars_substringFrom n s : chars (substringFrom n s) = drop n (chars s).
Proof. apply chars_ofChars. Qed.

Lemma chars_eq s l : chars s = l ↔ s = ofChars l.
Proof.
  split; [intros <-; by rewrite ofChars_chars | intros ->; apply chars_ofChars].
Qed.

(** ** lastIndexOf *)

Lemma lastIndexOfL_app c l1 l2 :
  c ∉ l2 → lastIndexOfL c (l1 ++ c :: l2) = Some (length l1).
Proof.
  intros Hc. unfold lastIndexOfL.
  rewrite reverse_app, reverse_cons, <-(assoc_L (++)). cbn [app].
  rewrite indexOf_app_fresh by (by rewrite elem_of_reverse).
  rewrite length_reverse, length_app. simpl. f_equal. lia.
Qed.

Lemma lastIndexOfL_None c l : lastIndexOfL c l = None ↔ c ∉ l.
Proof.
  unfold lastIndexOfL. by rewrite fmap_None, indexOf_None, elem_of_reverse.
Qed.

(** The string around the last occurrence of a character. *)
Lemma lastIndexOfL_Some c l i :
  lastIndexOfL c l = Some i ↔
  ∃ l1 l2, l = l1 ++ c :: l2 ∧ c ∉ l2 ∧ length l1 = i.
Proof.
  split.
  - unfold lastIndexOfL. intros (j & Hj & ->)%fmap_Some.
    apply indexOf_split in Hj as (r2 & r1 & Hr & Hc & <-).
    apply (f_equal reverse) in Hr as Hl.
    rewrite reverse_involutive, reverse_app, reverse_cons, <-(assoc_L (++)) in Hl.
    exists (reverse r1), (reverse r2). rewrite elem_of_reverse.
    split_and!; [done..|]. rewrite Hl, !length_app, !length_reverse. simpl. lia.
  - intros (l1 & l2 & -> & Hc & <-). by apply lastIndexOfL_app.
Qed.

Lemma lastIndexOf_app c s1 s2 :
  c ∉ chars s2 → lastIndexOf c (s1 +:+ String c s2) = Some (String.length s1).
Proof.
  intros. unfold lastIndexOf. rewrite chars_app, chars_String.
  by rewrite lastIndexOfL_app, length_chars.
Qed.

Lemma includesChar_lastIndexOf c s :
  includesChar c s = true ↔ is_Some (lastIndexOf c s).
Proof.
  unfold includesChar, lastIndexOf.
  rewrite bool_decide_eq_true, <-not_eq_None_Some, lastIndexOfL_None.
  split; [tauto | apply dec_stable].
Qed.

Lemma lastSegment_app sep s1 s2 :
  sep ∉ chars s2 → lastSegment sep (s1 +:+ String sep s2) = s2.
Proof.
  intros. unfold lastSegment. rewrite lastIndexOf_app by done.
  apply (inj chars). rewrite chars_substringFrom, chars_app, chars_String.
  rewrite <-length_chars, cons_middle, (assoc_L (++)).
  apply drop_app_length'. rewrite length_app. simpl. lia.
Qed.

Lemma lastSegment_no_sep sep s : sep ∉ chars s → lastSegment sep s = s.
Proof.
  intros ?%lastIndexOfL_None. unfold lastSegment, lastIndexOf. by simplify_option_eq.
Qed.

Lemma takeWhileL_app p l1 c l2 :
  Forall (λ c, p c = true) l1 → p c = false → takeWhileL p (l1 ++ c :: l2) = l1.
Proof.
  intros Hl Hc. induction Hl as [|c' l1 Hc' _ IH]; simpl; [by rewrite Hc|].
  by rewrite Hc', IH.
Qed.

Lemma takeWhileL_all p l : Forall (λ c, p c = true) l → takeWhileL p l = l.
Proof. induction 1 as [|c l Hc _ IH]; simpl; [done|]. by rewrite Hc, IH. Qed.

(** With one separator the two ways of taking the last segment agree. *)
Lemma lastSegmentBy_single sep s :
  lastSegmentBy (λ c, bool_decide (c = sep)) s = lastSegment sep s.
Proof.
  assert (∀ l, sep ∉ l →
    Forall (λ c, negb (bool_decide (c = sep)) = true) (reverse l)) as Hfresh.
  { intros l Hl. apply Forall_reverse, Forall_forall. intros c Hc.
    apply negb_true_iff, bool_decide_eq_false. by intros ->. }
  unfold lastSegmentBy, lastSegment. destruct (lastIndexOf sep s) as [i|] eqn:Hi.
  - apply lastIndexOfL_Some in Hi as (l1 & l2 & Hs & Hc & <-).
    apply (inj chars). rewrite chars_ofChars, chars_substringFrom, Hs.
    rewrite reverse_app, reverse_cons, <-(assoc_L (++)). cbn [app].
    rewrite takeWhileL_app, reverse_involutive; [|by apply Hfresh|].
    + rewrite cons_middle, (assoc_L (++)), drop_app_length'; [done|].
      rewrite length_app. simpl. lia.
    + by rewrite negb_false_iff, bool_decide_eq_true.
  - apply lastIndexOfL_None in Hi. apply (inj chars). rewrite chars_ofChars.
    by rewrite takeWhileL_all, reverse_involutive by (by apply Hfresh).
Qed.

Lemma includesL_true sub l :
  includesL sub l = true ↔ ∃ l1 l2, l = l1 ++ sub ++ l2.
Proof.
  induction l as [|c l IH]; simpl; rewrite orb_true_iff, bool_decide_eq_true.
  - split.
    + intros [[k ->]|?]; [|done]. by exists [], k.
    + intros (l1 & l2 & Hl). left. exists []. symmetry in Hl.
      apply app_eq_nil in Hl as [-> Hl]. apply app_eq_nil in Hl as [-> ->]. done.
  - rewrite IH. split.
    + intros [[k ->]|(l1 & l2 & ->)]; [by exists [], k | by exists (c :: l1), l2].
    + intros ([|c' l1] & l2 & Hl); simplify_eq/=; [left; by exists l2 | eauto].
Qed.

(** ** replaceRuns and character classes *)

(** Where no character is in the class nothing is replaced. *)
Lemma replaceRunsL_none class rep inRun l :
  Forall (λ c, class c = false) l → replaceRunsL class rep inRun l = l.
Proof.
  intros Hl. revert inRun. induction Hl as [|c l Hc _ IH]; intros inRun; [done|].
  simpl. by rewrite Hc, IH.
Qed.

(** ** endsWith *)

Lemma endsWith_true s suffix :
  endsWith s suffix = true ↔ ∃ pre, s = pre +:+ suffix.
Proof.
  unfold endsWith. rewrite bool_decide_eq_true. split.
  - intros [k Hk]. exists (ofChars k). apply (inj chars).
    by rewrite chars_app, chars_ofChars.
  - intros [pre ->]. exists (chars pre). apply chars_app.
Qed.

Lemma endsWith_app s suffix : endsWith (s +:+ suffix) suffix = true.
Proof. apply endsWith_true. eauto. Qed.

Lemma endsWith_empty s : endsWith s "" = true.
Proof. apply endsWith_true. exists s. apply (inj chars). by rewrite chars_app, app_nil_r. Qed.

(** ** Case and length *)

(** A fact about one character is checked on the 256 characters. *)
Ltac ascii_cases c := destruct c as [[] [] [] [] [] [] [] []]; vm_compute.

Lemma toLowerChar_idemp c : toLowerChar (toLowerChar c) = toLowerChar c.
Proof. by ascii_cases c. Qed.

Lemma toLowerCase_idemp s : toLowerCase (toLowerCase s) = toLowerCase s.
Proof.
  apply (inj chars). rewrite !chars_toLowerCase, <-list_fmap_compose.
  apply list_fmap_ext. intros _ c _. apply toLowerChar_idemp.
Qed.

Lemma length_toLowerCase s : String.length (toLowerCase s) = String.length s.
Proof. by rewrite <-!length_chars, chars_toLowerCase, length_fmap. Qed.

Lemma toLowerCase_fixed s :
  Forall (λ c, toLowerChar c = c) (chars s) → toLowerCase s = s.
Proof.
  intros Hs. apply (inj chars). rewrite chars_toLowerCase.
  rewrite <-(list_fmap_id (chars s)) at 2. by apply Forall_fmap_ext_1.
Qed.

Lemma length_string_app s1 s2 :
  String.length (s1 +:+ s2) = (String.length s1 + String.length s2)%nat.
Proof. by rewrite <-!length_chars, chars_app, length_app. Qed.

Lemma length_substringTo n s :
  String.length (substringTo n s) = (n `min` String.length s)%nat.
Proof. by rewrite <-!length_chars, chars_substringTo, length_take. Qed.

(** Where no character is in the class nothing is removed. *)
Lemma removeChars_none class s :
  Forall (λ c, class c = false) (chars s) → removeChars class s = s.
Proof.
  intros Hs. apply (inj chars). rewrite chars_removeChars.
  apply filter_all. by apply Forall_forall.
Qed.

Lemma trimStartL_no_space l :
  Forall (λ c, isSpace c = false) l → trimStartL l = l.
Proof. intros [|c l' Hc _]; [done|]. simpl. by rewrite Hc. Qed.

(** A string without white space is its own [trim]. *)
Lemma trim_no_space s : Forall (λ c, isSpace c = false) (chars s) → trim s = s.
Proof.
  intros Hs. apply (inj chars). unfold trim. rewrite chars_ofChars.
  rewrite (trimStartL_no_space (chars s)) by done.
  rewrite trimStartL_no_space by (by apply Forall_reverse).
  apply reverse_involutive.
Qed.

End JsString.

#[export] Hint Rewrite JsString.chars_ofChars JsString.ofChars_chars
  JsString.chars_app JsString.chars_String JsString.chars_empty
  JsString.chars_toLowerCase JsString.chars_removeChars
  JsString.chars_replaceRuns JsString.chars_substringTo
  JsString.chars_substringFrom : tidy_rw.
#[export] Hint Rewrite <- JsString.length_chars : tidy_rw.
