(* ===== verification/JsMap.v ===== *)
(** * JsMap: the [Map] of JavaScript

    [src/zen-stuff.uc.js] keeps the dismissed pods in a [Map] and reads the
    order of its keys: the first key is the oldest pod, the last six keys
    are the pods of the grid, the index of a key is its place in the pile.
    A [Map] iterates in the order of first insertion; [set] on a key that is
    present replaces the value where it stands, [delete] keeps the order of
    the others.  The model is a list of bindings, oldest first, with the
    operations the script calls.

    The finite map the list stands for is [to_gmap]; the lemmas at the end
    say that every operation is the operation of that name on finite maps,
    so a [Map] whose order is never read may be modelled as a [gmap]. *)

From S2P Require Import Prelude JsArray.

Module JsMap.

Section js_map.
Context {K V : Type} `{Countable K}.
Implicit Types (k : K) (v : V) (m : list (K * V)).

(** [Array.from(m.keys())], [m.size], [m.get(k)] and [m.has(k)]. *)
Definition keys m : list K := m.*1.
Definition size m : nat := length m.

Fixpoint get k m : option V :=
  match m with
  | [] => None
  | (k', v') :: m => if decide (k = k') then Some v' else get k m
  end.

Definition has k m : bool := bool_decide (k ∈ keys m).

(** [m.set(k, v)]: a key that is present keeps its place. *)
Fixpoint set k v m : list (K * V) :=
  match m with
  | [] => [(k, v)]
  | (k', v') :: m => if decide (k = k') then (k, v) :: m else (k', v') :: set k v m
  end.

(** [m.delete(k)]. *)
Definition delete k m : list (K * V) := filter (λ kv, kv.1 ≠ k) m.

(** A [Map] holds a key once. *)
Definition wf m : Prop := NoDup (keys m).

(** The finite map of the bindings. *)
Definition to_gmap m : gmap K V := list_to_map m.

(** ** Keys and order *)

Lemma has_true k m : has k m = true ↔ k ∈ keys m.
Proof. unfold has. by rewrite bool_decide_eq_true. Qed.

Lemma has_false k m : has k m = false ↔ k ∉ keys m.
Proof. unfold has. by rewrite bool_decide_eq_false. Qed.

Lemma keys_set k v m :
  keys (set k v m) = if has k m then keys m else keys m ++ [k].
Proof.
  induction m as [|[k' v'] m IH]; [done|]. cbn [set]. unfold has, keys in *.
  destruct (decide (k = k')) as [->|Hk]; rewrite !fmap_cons; cbn [fst].
  - rewrite bool_decide_true; [done|set_solver].
  - rewrite IH. repeat case_bool_decide; set_solver.
Qed.

Lemma keys_set_fresh k v m : k ∉ keys m → keys (set k v m) = keys m ++ [k].
Proof. intros Hk%has_false. by rewrite keys_set, Hk. Qed.

Lemma keys_set_present k v m : k ∈ keys m → keys (set k v m) = keys m.
Proof. intros Hk%has_true. by rewrite keys_set, Hk. Qed.

Lemma keys_delete k m : keys (delete k m) = filter (λ k', k' ≠ k) (keys m).
Proof.
  induction m as [|[k' v'] m IH]; [done|]. unfold delete, keys in *.
  rewrite filter_cons. cbn [fmap list_fmap fst]. rewrite filter_cons. cbn [fst].
  case_decide; cbn [fmap list_fmap fst]; by rewrite IH.
Qed.

Lemma keys_delete_remove_first k m :
  wf m → keys (delete k m) = remove_first k (keys m).
Proof. intros Hm. by rewrite keys_delete, remove_first_filter. Qed.

Lemma elem_of_keys_set k k' v m : k' ∈ keys (set k v m) ↔ k' = k ∨ k' ∈ keys m.
Proof. rewrite keys_set. destruct (has k m) eqn:Hk; [apply has_true in Hk|]; set_solver. Qed.

Lemma elem_of_keys_delete k k' m : k' ∈ keys (delete k m) ↔ k' ≠ k ∧ k' ∈ keys m.
Proof. rewrite keys_delete, list_elem_of_filter. tauto. Qed.

Lemma size_keys m : length (keys m) = size m.
Proof. unfold keys, size. by rewrite length_fmap. Qed.

Lemma size_set k v m : size (set k v m) = if has k m then size m else S (size m).
Proof.
  rewrite <-!size_keys, keys_set. destruct (has k m); [done|].
  rewrite length_app. cbn. lia.
Qed.

Lemma size_delete_le k m : size (delete k m) ≤ size m.
Proof. apply length_filter. Qed.

Lemma size_delete k m : wf m → k ∈ keys m → S (size (delete k m)) = size m.
Proof.
  intros Hm Hk. rewrite <-!size_keys, keys_delete_remove_first by done.
  rewrite length_remove_first by done.
  destruct (keys m); [set_solver|cbn; lia].
Qed.

(** Deleting the first key of a [Map] leaves the rest. *)
Lemma delete_head k m : wf m → head (keys m) = Some k → delete k m = tail m.
Proof.
  destruct m as [|[k' v'] m]; [done|]. intros [Hk _]%NoDup_cons [= <-].
  unfold delete. rewrite filter_cons_False by (cbn; naive_solver). cbn [tail].
  apply filter_all. intros [k v] Hkv. cbn. intros ->. apply Hk.
  apply list_elem_of_fmap. by exists (k', v).
Qed.

(** ** The invariant *)

Lemma wf_nil : wf [].
Proof. constructor. Qed.

Lemma wf_set k v m : wf m → wf (set k v m).
Proof.
  unfold wf. intros Hm. rewrite keys_set. destruct (has k m) eqn:Hk; [done|].
  apply NoDup_snoc. by apply has_false in Hk.
Qed.

Lemma wf_delete k m : wf m → wf (delete k m).
Proof. unfold wf. rewrite keys_delete. apply NoDup_filter. Qed.

(** ** Lookup *)

Lemma get_None k m : get k m = None ↔ k ∉ keys m.
Proof.
  induction m as [|[k' v'] m IH]; cbn [get]; [set_solver|].
  case_decide; cbn; [set_solver|]. rewrite IH. set_solver.
Qed.

Lemma get_is_Some k m : is_Some (get k m) ↔ k ∈ keys m.
Proof.
  rewrite <-not_eq_None_Some, get_None. split; [apply dec_stable|tauto].
Qed.

Lemma get_set_eq k v m : get k (set k v m) = Some v.
Proof.
  induction m as [|[k' v'] m IH]; cbn [set get]; [by rewrite decide_True|].
  destruct (decide (k = k')) as [->|?]; cbn [get];
    [by rewrite decide_True|by rewrite decide_False].
Qed.

Lemma get_set_ne k k' v m : k ≠ k' → get k' (set k v m) = get k' m.
Proof.
  intros. induction m as [|[k0 v0] m IH]; cbn [set get]; [by rewrite decide_False|].
  destruct (decide (k = k0)) as [->|?]; cbn [get];
    [by rewrite !decide_False|by rewrite IH].
Qed.

Lemma get_delete_eq k m : get k (delete k m) = None.
Proof. apply get_None. rewrite elem_of_keys_delete. tauto. Qed.

Lemma get_delete_ne k k' m : k ≠ k' → get k' (delete k m) = get k' m.
Proof.
  intros. induction m as [|[k0 v0] m IH]; [done|]. unfold delete in *.
  rewrite filter_cons. cbn [fst get].
  destruct (decide (k0 ≠ k)); cbn [get]; [by rewrite IH|].
  rewrite decide_False; [done|]. by intros ->.
Qed.

(** ** The finite map of a [Map] *)

Lemma get_to_gmap k m : get k m = to_gmap m !! k.
Proof.
  induction m as [|[k' v'] m IH]; [done|]. unfold to_gmap in *.
  rewrite list_to_map_cons. cbn [get]. case_decide.
  - subst. by rewrite lookup_insert_eq.
  - by rewrite lookup_insert_ne.
Qed.

Lemma to_gmap_set k v m : to_gmap (set k v m) = <[k := v]> (to_gmap m).
Proof.
  apply map_eq. intros k'. rewrite <-get_to_gmap. destruct (decide (k = k')) as [<-|].
  - by rewrite get_set_eq, lookup_insert_eq.
  - by rewrite get_set_ne, lookup_insert_ne, get_to_gmap.
Qed.

Lemma to_gmap_delete k m : to_gmap (delete k m) = base.delete k (to_gmap m).
Proof.
  apply map_eq. intros k'. rewrite <-get_to_gmap. destruct (decide (k = k')) as [<-|].
  - by rewrite get_delete_eq, lookup_delete_eq.
  - by rewrite get_delete_ne, lookup_delete_ne, get_to_gmap.
Qed.

Lemma dom_to_gmap m : dom (to_gmap m) = list_to_set (keys m).
Proof. apply dom_list_to_map_L. Qed.

End js_map.

End JsMap.

#[export] Hint Resolve JsMap.wf_nil JsMap.wf_set JsMap.wf_delete : tidy.
#[export] Hint Rewrite @JsMap.get_set_eq @JsMap.get_delete_eq : tidy_rw.
