(* ===== verification/Stack.v ===== *)
(** * Stack: the ordered key list, the focused key and the visible slots

    The stack engine of [src/tidy-downloads.uc.js].  Its state is the three
    globals [orderedPodKeys] (oldest first), [focusedDownloadKey] and
    [lastRotationDirection].  The operations are the parts of the handlers
    that read and write these globals:

    - [addKey]: a new pod is appended and focused ([createOrUpdatePodElement]);
    - [setFocus]: [updateUIForFocusedDownload] makes its argument the focus;
    - [handlePodScrollFocus]: the wheel rotates the stack;
    - [removeKey]: the timer of [removeCard] drops a key and picks the next
      focus;
    - [renameKey]: [undoRename] replaces a key in place;
    - [defaultFocus] and [resetRotation]: the layout pass of
      [managePodVisibilityAndAnimations] repairs the focus and, 100 ms
      later, forgets the direction of the last rotation.

    A handler that goes on to call [updateUIForFocusedDownload] returns the
    key it passes, so that the caller can run that call. *)

From S2P Require Import Prelude JsArray.

Module Stack.

(** [lastRotationDirection]: ['forward'], ['backward'] or [null]. *)
Inductive direction := forward | backward.

#[global] Instance direction_eq_dec : EqDecision direction.
Proof. solve_decision. Defined.

Record t := mk {
  orderedPodKeys : list string;
  focusedDownloadKey : option string;
  lastRotationDirection : option direction;
}.

#[global] Instance t_eq_dec : EqDecision t.
Proof. solve_decision. Defined.

Definition initial : t := mk [] None None.

(** [orderedPodKeys.includes(focusedDownloadKey)] with the truthiness test
    that precedes it in the sources. *)
Definition validFocus (s : t) : bool :=
  match focusedDownloadKey s with
  | Some f => truthy (Some f) && includes f (orderedPodKeys s)
  | None => false
  end.

(** ** New pods and focus changes *)

(** A new pod goes to the end of the list and takes the focus; a key that
    is already listed changes nothing. *)
Definition addKey (key : string) (s : t) : t :=
  if includes key (orderedPodKeys s) then s
  else mk (push key (orderedPodKeys s)) (Some key) (lastRotationDirection s).

Definition setFocus (keyToFocus : option string) (s : t) : t :=
  mk (orderedPodKeys s) keyToFocus (lastRotationDirection s).

(** ** Rotation *)

(** The pile beside the focused pod: the other keys, newest first. *)
Definition pileKeys (keys : list string) (focused : string) : list string :=
  filter (λ key, key ≠ focused) (reverse keys).

(** Scrolling down focuses the first pod of the pile, scrolling up the
    last one; a wheel event with [deltaY = 0] focuses nothing. *)
Definition newFocusedKey (deltaY : Z) (pile : list string) : option string :=
  if bool_decide (0 < deltaY)%Z then head pile
  else if bool_decide (deltaY < 0)%Z then last pile
  else None.

(** Both keys leave the list; scrolling down puts the old focus first and
    the new focus last, scrolling up puts the new focus last and the old
    focus before it. *)
Definition rotateKeys (deltaY : Z) (currentFocused new : string)
    (keys : list string) : list string :=
  let keys := remove_first new keys in
  let keys := remove_first currentFocused keys in
  if bool_decide (0 < deltaY)%Z then push new (unshift currentFocused keys)
  else insert_before_last currentFocused (push new keys).

Definition rotationDirection (deltaY : Z) : direction :=
  if bool_decide (0 < deltaY)%Z then forward else backward.

Definition handlePodScrollFocus (deltaY : Z) (s : t) : t * option string :=
  if bool_decide (length (orderedPodKeys s) ≤ 1)%nat then (s, None)
  else if negb (validFocus s) then (s, None)
  else
    match focusedDownloadKey s with
    | None => (s, None)
    | Some currentFocused =>
        let pile := pileKeys (orderedPodKeys s) currentFocused in
        let new := newFocusedKey deltaY pile in
        match new with
        | Some n =>
            if truthy new && bool_decide (n ≠ currentFocused) then
              (mk (rotateKeys deltaY currentFocused n (orderedPodKeys s))
                  (Some n) (Some (rotationDirection deltaY)),
               Some n)
            else (s, None)
        | None => (s, None)
        end
    end.

(** ** Removal *)

(** The focus after the focused pod has been removed, from the index it
    had and the list without it.  An index of [-1] reads
    [orderedPodKeys[-1]], which is [undefined]. *)
Definition focusAfterRemoval (removedPodIndex : option nat)
    (keys : list string) : option string :=
  if bool_decide (0 < length keys)%nat then
    match removedPodIndex with
    | None => None
    | Some i =>
        if bool_decide (i < length keys)%nat then keys !! i
        else if bool_decide (0 < i ∧ 0 < length keys)%nat then keys !! (i - 1)%nat
        else if bool_decide (0 < length keys)%nat then last keys
        else None
    end
  else None.

(** The timer of [removeCard]: the key leaves the list; when it was the
    focus, a neighbour takes the focus.  The result is passed to
    [updateUIForFocusedDownload]. *)
Definition removeKey (downloadKey : string) (s : t) : t :=
  let removedPodIndex := indexOf downloadKey (orderedPodKeys s) in
  let keys := remove_first downloadKey (orderedPodKeys s) in
  let focus :=
    if bool_decide (focusedDownloadKey s = Some downloadKey)
    then focusAfterRemoval removedPodIndex keys
    else focusedDownloadKey s in
  mk keys focus (lastRotationDirection s).

(** ** Renaming a key in place *)

Definition renameKey (old new : string) (s : t) : t :=
  mk (replace_first old new (orderedPodKeys s))
     (if bool_decide (focusedDownloadKey s = Some old) then Some new
      else focusedDownloadKey s)
     (lastRotationDirection s).

(** ** The layout pass *)

(** A focus that is missing or not listed becomes the newest key. *)
Definition defaultFocus (s : t) : t :=
  if negb (validFocus s) && bool_decide (0 < length (orderedPodKeys s))%nat
  then setFocus (last (orderedPodKeys s)) s
  else s.

(** The rotation direction is forgotten 100 ms after a layout pass. *)
Definition resetRotation (s : t) : t :=
  mk (orderedPodKeys s) (focusedDownloadKey s) None.

(** ** The invariant

    No key is listed twice, no key is the empty string (a key is a path, an
    id or a [temp_] string), and the focus, when set, is a listed key. *)
Definition focusListed (s : t) : Prop :=
  ∀ f, focusedDownloadKey s = Some f → f ∈ orderedPodKeys s.

Definition wf (s : t) : Prop :=
  NoDup (orderedPodKeys s) ∧ "" ∉ orderedPodKeys s ∧ focusListed s.

(** The focus is the newest key: the state after a pod was added or the
    stack was rotated. *)
Definition focusNewest (s : t) : Prop :=
  is_Some (focusedDownloadKey s) ∧
  last (orderedPodKeys s) = focusedDownloadKey s.

(** Two states that differ at most in the rotation direction. *)
Definition sameStack (s1 s2 : t) : Prop :=
  orderedPodKeys s1 = orderedPodKeys s2 ∧
  focusedDownloadKey s1 = focusedDownloadKey s2.

#[global] Instance focusListed_dec s : Decision (focusListed s).
Proof.
  unfold focusListed. destruct (focusedDownloadKey s) as [f|].
  - destruct (decide (f ∈ orderedPodKeys s)); [left|right]; naive_solver.
  - left. naive_solver.
Defined.

#[global] Instance wf_dec s : Decision (wf s).
Proof. unfold wf. apply _. Defined.

#[global] Instance focusNewest_dec s : Decision (focusNewest s).
Proof. unfold focusNewest. apply _. Defined.

#[global] Instance sameStack_dec s1 s2 : Decision (sameStack s1 s2).
Proof. unfold sameStack. apply _. Defined.

#[global] Instance sameStack_equiv : Equivalence sameStack.
Proof. unfold sameStack. split; repeat intro; naive_solver congruence. Qed.

(** Reduce the projections of a state that is written out. *)
Ltac stack_simpl :=
  cbn [orderedPodKeys focusedDownloadKey lastRotationDirection fst snd
       negb andb orb].

(** The state after one wheel step. *)
Definition scroll (deltaY : Z) (s : t) : t := (handlePodScrollFocus deltaY s).1.

(** ** Lemmas on the pile *)

Lemma elem_of_pileKeys keys f k : k ∈ pileKeys keys f ↔ k ≠ f ∧ k ∈ keys.
Proof. unfold pileKeys. by rewrite list_elem_of_filter, elem_of_reverse. Qed.

Lemma pileKeys_snoc keys f : f ∉ keys → pileKeys (keys ++ [f]) f = reverse keys.
Proof.
  intros Hf. unfold pileKeys.
  rewrite reverse_snoc, filter_cons_False by naive_solver.
  apply filter_all. intros k ?%elem_of_reverse. set_solver.
Qed.

Lemma newFocusedKey_elem_of deltaY pile n :
  newFocusedKey deltaY pile = Some n → n ∈ pile.
Proof. unfold newFocusedKey. tidy_crush. Qed.

Lemma validFocus_true s :
  validFocus s = true ↔
  ∃ f, focusedDownloadKey s = Some f ∧ f ≠ "" ∧ f ∈ orderedPodKeys s.
Proof.
  unfold validFocus. destruct (focusedDownloadKey s) as [f|]; [|naive_solver].
  rewrite andb_true_iff, truthy_Some, includes_true. naive_solver.
Qed.

Lemma wf_validFocus s f :
  wf s → focusedDownloadKey s = Some f → validFocus s = true.
Proof.
  intros (_ & Hne & Hf) Hs. apply validFocus_true. exists f.
  split_and!; [done| |by apply Hf]. intros ->. by apply Hne, Hf.
Qed.

(** ** Rotation keeps the keys *)

Lemma rotateKeys_Permutation deltaY cur n keys :
  cur ∈ keys → n ∈ keys → n ≠ cur → rotateKeys deltaY cur n keys ≡ₚ keys.
Proof.
  intros Hcur Hn Hne. unfold rotateKeys, push, unshift.
  rewrite (remove_first_Permutation n keys) at 3 by done.
  assert (cur ∈ remove_first n keys) as Hcur'.
  { apply remove_first_Permutation in Hn. rewrite Hn in Hcur. set_solver. }
  rewrite (remove_first_Permutation cur (remove_first n keys)) at 3 by done.
  case_bool_decide.
  - by rewrite Permutation_snoc.
  - by rewrite insert_before_last_Permutation, Permutation_snoc, Permutation_swap.
Qed.

(** What one wheel step returns when it rotates. *)
Lemma handlePodScrollFocus_Some deltaY s n :
  (handlePodScrollFocus deltaY s).2 = Some n →
  ∃ cur, focusedDownloadKey s = Some cur ∧ cur ∈ orderedPodKeys s ∧
    n ∈ orderedPodKeys s ∧ n ≠ cur ∧ n ≠ "" ∧
    newFocusedKey deltaY (pileKeys (orderedPodKeys s) cur) = Some n ∧
    (handlePodScrollFocus deltaY s).1 =
      mk (rotateKeys deltaY cur n (orderedPodKeys s)) (Some n)
         (Some (rotationDirection deltaY)).
Proof.
  unfold handlePodScrollFocus. case_bool_decide; [done|].
  destruct (validFocus s) eqn:Hv; [|done].
  apply validFocus_true in Hv as (cur & -> & ? & ?). simpl.
  destruct (newFocusedKey _ _) as [n'|] eqn:Hn; [|done].
  destruct (truthy (Some n')) eqn:Ht; [|done]. case_bool_decide; [|done].
  intros [= ->]. apply truthy_Some in Ht.
  pose proof (newFocusedKey_elem_of _ _ _ Hn) as [? ?]%elem_of_pileKeys.
  exists cur. by split_and!.
Qed.

(** A wheel step that does not rotate leaves the state as it is. *)
Lemma handlePodScrollFocus_None deltaY s :
  (handlePodScrollFocus deltaY s).2 = None → (handlePodScrollFocus deltaY s).1 = s.
Proof. unfold handlePodScrollFocus. tidy_crush. Qed.

(** The converse: when the guards of the handler hold, the step rotates. *)
Lemma scroll_rotates deltaY s f n :
  (1 < length (orderedPodKeys s))%nat →
  focusedDownloadKey s = Some f → f ≠ "" → f ∈ orderedPodKeys s →
  newFocusedKey deltaY (pileKeys (orderedPodKeys s) f) = Some n →
  n ≠ "" → n ≠ f →
  scroll deltaY s = mk (rotateKeys deltaY f n (orderedPodKeys s)) (Some n)
                       (Some (rotationDirection deltaY)).
Proof.
  intros Hlen Hs Hf Hin Hn Hne Hnf. unfold scroll, handlePodScrollFocus.
  rewrite bool_decide_false by lia.
  rewrite (proj2 (validFocus_true s)) by eauto. rewrite Hs. stack_simpl.
  rewrite Hn, (proj2 (truthy_Some n)), bool_decide_true by done. done.
Qed.

(** Case analysis on one wheel step: it rotates or it does nothing. *)
Lemma scroll_cases deltaY s :
  scroll deltaY s = s ∨
  ∃ cur n, focusedDownloadKey s = Some cur ∧ cur ∈ orderedPodKeys s ∧
    n ∈ orderedPodKeys s ∧ n ≠ cur ∧ n ≠ "" ∧
    scroll deltaY s = mk (rotateKeys deltaY cur n (orderedPodKeys s)) (Some n)
                         (Some (rotationDirection deltaY)).
Proof.
  unfold scroll. destruct (handlePodScrollFocus deltaY s).2 as [n|] eqn:Hn.
  - right. apply handlePodScrollFocus_Some in Hn as (cur & ?). exists cur, n.
    naive_solver.
  - left. by apply handlePodScrollFocus_None.
Qed.

Lemma last_rotateKeys deltaY cur n keys :
  last (rotateKeys deltaY cur n keys) = Some n.
Proof.
  unfold rotateKeys, push, unshift. case_bool_decide.
  - by rewrite last_snoc.
  - rewrite insert_before_last_snoc.
    by rewrite (assoc_L (++) _ [cur] [n]), last_snoc.
Qed.

(** A wheel step only reorders the keys: the list after the step is a
    permutation of the list before it, whatever the state. *)
Lemma scroll_Permutation deltaY s :
  orderedPodKeys (scroll deltaY s) ≡ₚ orderedPodKeys s.
Proof.
  destruct (scroll_cases deltaY s) as [->|(cur & n & _ & ? & ? & ? & _ & ->)];
    [done|]. by apply rotateKeys_Permutation.
Qed.

(** A wheel step preserves the invariant of the stack: the keys stay
    distinct and non-empty and the focus stays a listed key. *)
Lemma scroll_wf deltaY s : wf s → wf (scroll deltaY s).
Proof.
  intros (Hnd & Hne & Hf). pose proof (scroll_Permutation deltaY s) as Hp.
  unfold wf. rewrite Hp. split_and!; [done..|].
  destruct (scroll_cases deltaY s) as [->|(cur & n & _ & _ & ? & _ & _ & Hs)];
    [done|].
  intros f. rewrite Hs in Hp |- *. simpl in *. intros [= <-]. by rewrite Hp.
Qed.

(** After a rotation the focus is the newest key. *)
Lemma scroll_focusNewest deltaY s : focusNewest s → focusNewest (scroll deltaY s).
Proof.
  destruct (scroll_cases deltaY s) as [->|(cur & n & _ & _ & _ & _ & _ & ->)];
    [done|]. intros _. split; simpl; [eauto | apply last_rotateKeys].
Qed.

(** C36. What a wheel step keeps and what it establishes.  In a well-formed
    stack the step keeps the invariant and reorders the keys without adding
    or dropping one; when the step changes the keys or the focus, the new
    focus is the newest key and differs from the old one. *)
Theorem scroll_keeps_stack deltaY s :
  wf s →
  wf (scroll deltaY s) ∧
  orderedPodKeys (scroll deltaY s) ≡ₚ orderedPodKeys s ∧
  (¬ sameStack (scroll deltaY s) s →
   focusNewest (scroll deltaY s) ∧
   focusedDownloadKey (scroll deltaY s) ≠ focusedDownloadKey s).
Proof.
  intros Hwf. split_and!; [by apply scroll_wf|apply scroll_Permutation|].
  destruct (scroll_cases deltaY s) as [->|(cur & n & Hc & _ & _ & ? & _ & ->)];
    [by intros []|]. intros _. rewrite Hc. simpl. split; [|congruence].
  split; simpl; [eauto | apply last_rotateKeys].
Qed.

(** ** Closed forms of the rotation when the focus is the newest key *)

(** Scrolling down moves the focused, newest key to the front: the list is
    rotated right by one and the key before it takes the focus. *)
Lemma scroll_forward_newest deltaY pre p f d :
  NoDup (pre ++ [p; f]) → p ≠ "" → f ≠ "" → (0 < deltaY)%Z →
  scroll deltaY (mk (pre ++ [p; f]) (Some f) d)
  = mk (f :: pre ++ [p]) (Some p) (Some forward).
Proof.
  intros Hnd Hp Hf Hd.
  assert (NoDup ((pre ++ [p]) ++ [f])) as [Hfp [Hpp _]%NoDup_snoc]%NoDup_snoc
    by (by rewrite <-(assoc_L (++))).
  rewrite (scroll_rotates _ _ f p); stack_simpl;
    [|simpl; rewrite ?length_app; simpl; lia|done|done|set_solver| |done|set_solver].
  - unfold rotateKeys, rotationDirection. rewrite !bool_decide_true by done.
    rewrite remove_first_app by done. by rewrite remove_first_snoc by set_solver.
  - change (pre ++ [p; f]) with (pre ++ [p] ++ [f]).
    rewrite (assoc_L (++) pre [p] [f]), pileKeys_snoc, reverse_snoc by done.
    unfold newFocusedKey. by rewrite bool_decide_true.
Qed.

(** Scrolling up moves the oldest key to the end, where it takes the
    focus: the list is rotated left by one. *)
Lemma scroll_backward_newest deltaY q mid f d :
  NoDup (q :: mid ++ [f]) → q ≠ "" → f ≠ "" → (deltaY < 0)%Z →
  scroll deltaY (mk (q :: mid ++ [f]) (Some f) d)
  = mk (mid ++ [f; q]) (Some q) (Some backward).
Proof.
  intros Hnd Hq Hf Hd.
  assert (NoDup ((q :: mid) ++ [f])) as [Hfp [Hqm _]%NoDup_cons]%NoDup_snoc
    by done.
  rewrite (scroll_rotates _ _ f q); stack_simpl;
    [|simpl; rewrite ?length_app; simpl; lia|done|done|set_solver| |done|set_solver].
  - unfold rotateKeys, rotationDirection. rewrite !bool_decide_false by lia.
    rewrite remove_first_cons, remove_first_snoc by set_solver.
    unfold push. by rewrite insert_before_last_snoc.
  - rewrite app_comm_cons, pileKeys_snoc, reverse_cons by done.
    unfold newFocusedKey.
    by rewrite bool_decide_false, bool_decide_true, last_snoc by lia.
Qed.

(** With at most one pod the wheel does nothing. *)
Lemma scroll_short deltaY s :
  (length (orderedPodKeys s) ≤ 1)%nat → scroll deltaY s = s.
Proof.
  intros. unfold scroll, handlePodScrollFocus. by rewrite bool_decide_true.
Qed.

Lemma focusNewest_snoc s :
  focusNewest s →
  ∃ pre f, orderedPodKeys s = pre ++ [f] ∧ focusedDownloadKey s = Some f.
Proof.
  intros [[f Hf] Hl]. rewrite Hf in Hl.
  apply last_Some_snoc in Hl as [pre ->]. eauto.
Qed.

(** A wheel step reads the keys and the focus only. *)
#[global] Instance scroll_proper deltaY :
  Proper (sameStack ==> sameStack) (scroll deltaY).
Proof.
  intros [k1 f1 d1] [k2 f2 d2] [Hk Hf]; simpl in *; subst.
  destruct (scroll_cases deltaY (mk k2 f2 d1)) as [E1|(c & n & Hc & ? & ? & ? & ? & E1)];
    rewrite E1.
  - destruct (scroll_cases deltaY (mk k2 f2 d2))
      as [E2|(c & n & Hc & ? & ? & ? & ? & E2)]; rewrite E2; [done|].
    exfalso. revert E1 E2. unfold scroll, handlePodScrollFocus, validFocus.
    stack_simpl. tidy_cases; intros; simplify_eq.
  - revert E1. unfold scroll, handlePodScrollFocus, validFocus.
    stack_simpl. tidy_cases; intros; simplify_eq/=; done.
Qed.

(** Rotating forward and then backward restores the ordered key list and
    the focused key, in a well-formed stack whose focus is the newest key
    (the state every addition and every rotation leaves). *)
Lemma scroll_forward_backward up dn s :
  wf s → focusNewest s → (0 < up)%Z → (dn < 0)%Z →
  sameStack (scroll dn (scroll up s)) s.
Proof.
  intros (Hnd & Hne & _) (pre & f & Hk & Hf)%focusNewest_snoc Hup Hdn.
  destruct s as [keys foc d]; simpl in *; subst.
  destruct pre as [|p pre _] using rev_ind; [by rewrite !scroll_short|].
  rewrite <-(assoc_L (++)) in Hnd, Hne |- *. cbn [app] in *.
  rewrite scroll_forward_newest, scroll_backward_newest; [done|..];
    try done; try set_solver.
  by rewrite <-(Permutation_snoc (pre ++ [p]) f), <-(assoc_L (++)).
Qed.

(** Rotating backward and then forward restores the ordered key list
    and the focused key as well, in a well-formed stack whose focus is the
    newest key. *)
Theorem scroll_backward_forward up dn s :
  wf s → focusNewest s → (0 < up)%Z → (dn < 0)%Z →
  sameStack (scroll up (scroll dn s)) s.
Proof.
  intros (Hnd & Hne & _) (pre & f & Hk & Hf)%focusNewest_snoc Hup Hdn.
  destruct s as [keys foc d]; simpl in *; subst.
  destruct pre as [|q mid]; [by rewrite !scroll_short|].
  rewrite <-app_comm_cons in *.
  rewrite scroll_backward_newest, scroll_forward_newest; [done|..];
    try done; try set_solver.
  change (mid ++ [f; q]) with (mid ++ [f] ++ [q]).
  by rewrite (assoc_L (++)), Permutation_snoc.
Qed.

(** C6. The round trip of the rotation, for any number of steps: in a
    well-formed stack whose focus is the newest key (the state every
    addition and every rotation leaves), [n] wheel steps forward and then
    [n] steps backward restore the ordered key list and the focused key. *)
Theorem scroll_n_roundtrip n up dn s :
  wf s → focusNewest s → (0 < up)%Z → (dn < 0)%Z →
  sameStack (Nat.iter n (scroll dn) (Nat.iter n (scroll up) s)) s.
Proof.
  intros Hwf Hfn Hup Hdn. revert s Hwf Hfn.
  induction n as [|n IH]; intros s Hwf Hfn; [done|].
  rewrite Nat.iter_succ_r with (f := scroll up).
  rewrite Nat.iter_succ with (f := scroll dn).
  rewrite IH by auto using scroll_wf, scroll_focusNewest.
  by apply scroll_forward_backward.
Qed.

(** ** Removal *)

Lemma focusAfterRemoval_elem_of i keys f :
  focusAfterRemoval i keys = Some f → f ∈ keys.
Proof.
  unfold focusAfterRemoval. intros Hf.
  tidy_cases; eauto using list_elem_of_lookup_2, last_elem_of.
Qed.

(** The last branch of the choice ("fallback to newest") is never taken:
    the choice is the key that took the place of the removed one, else the
    key to its left. *)
Lemma focusAfterRemoval_spec i keys :
  focusAfterRemoval (Some i) keys =
  if bool_decide (i < length keys)%nat then keys !! i
  else if bool_decide (keys = []) then None else keys !! (i - 1)%nat.
Proof.
  unfold focusAfterRemoval. destruct keys as [|k keys]; [by tidy_cases|].
  simpl length. tidy_cases; try done; lia.
Qed.

(** C10. When the focused pod is removed from a well-formed stack, the pod
    that was to its right (the next newer one) takes the focus; the pod to
    its left does when the removed pod was the newest; no pod does when it
    was the only one. *)
Theorem removeKey_focus_neighbour l1 k l2 d :
  NoDup (l1 ++ k :: l2) →
  removeKey k (mk (l1 ++ k :: l2) (Some k) d)
  = mk (l1 ++ l2) (if l2 is n :: _ then Some n else last l1) d.
Proof.
  intros Hnd. unfold removeKey. stack_simpl.
  assert (k ∉ l1) by (apply NoDup_app in Hnd; set_solver).
  rewrite indexOf_app_fresh, remove_first_middle, bool_decide_true by done.
  rewrite focusAfterRemoval_spec, length_app. f_equal.
  destruct l2 as [|n l2]; simpl.
  - rewrite bool_decide_false, app_nil_r by lia.
    destruct l1 as [|x l1 _] using rev_ind; [done|].
    rewrite bool_decide_false by (by destruct l1).
    rewrite length_app, last_snoc. simpl.
    replace (length l1 + 1 - 1)%nat with (length l1 + 0)%nat by lia.
    by rewrite lookup_app_r, Nat.add_0_r, Nat.sub_diag by lia.
  - rewrite bool_decide_true by lia. by rewrite list_lookup_middle.
Qed.

(** Removing a key preserves the invariant of the stack, and the key is
    no longer listed. *)
Lemma removeKey_wf k s :
  wf s → wf (removeKey k s) ∧ k ∉ orderedPodKeys (removeKey k s).
Proof.
  intros (Hnd & Hne & Hf). unfold wf, removeKey, focusListed. stack_simpl.
  split_and!; eauto using NoDup_remove_first, not_elem_of_remove_first.
  - intros ?%elem_of_remove_first_inv. done.
  - intros f. case_bool_decide as Hk.
    + apply focusAfterRemoval_elem_of.
    + intros Hs. apply elem_of_remove_first_ne; [congruence|by apply Hf].
Qed.

(** ** Addition, focus changes and renames *)

(** A new pod with a non-empty key keeps the invariant and leaves the new
    key focused and newest. *)
Lemma addKey_wf key s :
  wf s → key ≠ "" → key ∉ orderedPodKeys s →
  wf (addKey key s) ∧ focusNewest (addKey key s).
Proof.
  intros (Hnd & Hne & Hf) Hkey Hfresh. unfold addKey, push.
  rewrite (proj2 (includes_false _ _)) by done.
  unfold wf, focusNewest, focusListed. stack_simpl.
  rewrite NoDup_snoc, last_snoc. split_and!; eauto; set_solver.
Qed.

(** A key that is listed already is not added again. *)
Lemma addKey_listed key s : key ∈ orderedPodKeys s → addKey key s = s.
Proof. intros. unfold addKey. by rewrite (proj2 (includes_true _ _)). Qed.

Lemma addKey_preserves_wf key s : wf s → key ≠ "" → wf (addKey key s).
Proof.
  intros. destruct (decide (key ∈ orderedPodKeys s)).
  - by rewrite addKey_listed.
  - by apply addKey_wf.
Qed.

Lemma setFocus_wf f s : wf s → f ∈ orderedPodKeys s → wf (setFocus (Some f) s).
Proof. intros (? & ? & ?) ?. split_and!; [done..|]. by intros ? [= <-]. Qed.

(** The layout pass leaves a valid focus whenever a pod is listed. *)
Lemma defaultFocus_valid s :
  "" ∉ orderedPodKeys s → orderedPodKeys s ≠ [] →
  validFocus (defaultFocus s) = true.
Proof.
  intros Hne Hk. unfold defaultFocus.
  destruct (validFocus s) eqn:Hv; simpl; [done|].
  rewrite bool_decide_true by (destruct (orderedPodKeys s); simpl; [done|lia]).
  destruct (last_is_Some _ Hk) as [f Hf]. apply validFocus_true. exists f.
  unfold setFocus. stack_simpl.
  split_and!; [done| |by apply last_elem_of]. intros ->. by apply Hne, last_elem_of.
Qed.

Lemma defaultFocus_wf s : wf s → wf (defaultFocus s).
Proof.
  intros Hwf. unfold defaultFocus. case_match; [|done].
  destruct Hwf as (? & ? & ?). split_and!; [done..|].
  intros f. unfold setFocus. stack_simpl. apply last_elem_of.
Qed.

(** Replacing a key by a key that is not listed yet preserves the
    invariant and moves the focus along with the key. *)
Theorem renameKey_wf old new s :
  wf s → new ≠ "" → new ∉ orderedPodKeys s → wf (renameKey old new s).
Proof.
  intros (Hnd & Hne & Hf) Hnew Hfresh. unfold wf, renameKey, focusListed.
  stack_simpl. split_and!; [by apply NoDup_replace_first| |].
  - destruct (decide (old ∈ orderedPodKeys s));
      [rewrite elem_of_replace_first by done; naive_solver
      |by rewrite replace_first_fresh].
  - intros f. destruct (decide (old ∈ orderedPodKeys s)) as [Hold|Hold].
    + rewrite elem_of_replace_first by done. case_bool_decide; [naive_solver|].
      intros Hs. right. split; [by apply Hf | congruence].
    + rewrite replace_first_fresh, bool_decide_false by naive_solver. apply Hf.
Qed.

(** Renaming a key to a key that is not listed and renaming it back
    restores the list and the focus: what an undo does to the stack after a
    rename. *)
Theorem renameKey_undo old new s :
  wf s → new ∉ orderedPodKeys s →
  renameKey new old (renameKey old new s) = s.
Proof.
  intros (_ & _ & Hf) Hnew. destruct s as [keys foc d]. unfold renameKey.
  stack_simpl. rewrite replace_first_undo by done. f_equal.
  repeat case_bool_decide; simplify_eq; try done.
  exfalso. apply Hnew, Hf. done.
Qed.

(** ** Concrete runs *)

(** Three pods, the newest focused: the state after three downloads. *)
Definition three : t :=
  mk ["/dl/a.png"; "/dl/b.zip"; "/dl/c.pdf"] (Some "/dl/c.pdf") None.

(** Four pods with the second one focused: the state after a progress
    event of the second download moved the focus to it. *)
Definition four_focus_second : t :=
  mk ["A"; "B"; "C"; "D"] (Some "B") None.

Lemma scroll_keeps_stack_witness :
  wf (scroll 120 three) ∧
  orderedPodKeys (scroll 120 three) ≡ₚ orderedPodKeys three ∧
  (¬ sameStack (scroll 120 three) three →
   focusNewest (scroll 120 three) ∧
   focusedDownloadKey (scroll 120 three) ≠ focusedDownloadKey three).
Proof. apply scroll_keeps_stack. compute_done. Defined.

Lemma scroll_backward_forward_witness :
  sameStack (scroll 120 (scroll (-120) three)) three.
Proof. apply scroll_backward_forward; [compute_done..|done|done]. Defined.

Lemma scroll_n_roundtrip_witness :
  sameStack (Nat.iter 5 (scroll (-1)) (Nat.iter 5 (scroll 1) three)) three.
Proof. apply scroll_n_roundtrip; [compute_done..|done|done]. Defined.

Lemma removeKey_focus_neighbour_witness :
  removeKey "B" (mk (["A"] ++ "B" :: ["C"; "D"]) (Some "B") None)
  = mk (["A"] ++ ["C"; "D"]) (Some "C") None.
Proof. apply (removeKey_focus_neighbour ["A"] "B" ["C"; "D"]). compute_done. Defined.

Lemma renameKey_wf_witness :
  wf (renameKey "/dl/c.pdf" "/dl/invoice-march.pdf" three).
Proof. apply renameKey_wf; compute_done. Defined.

Lemma renameKey_undo_witness :
  renameKey "/dl/invoice-march.pdf" "/dl/c.pdf"
    (renameKey "/dl/c.pdf" "/dl/invoice-march.pdf" three) = three.
Proof. apply renameKey_undo; compute_done. Defined.

(** Replacing a key by a key that is already listed (a rename or an
    undo whose target path is the key of another pod) lists that key
    twice: the invariant is lost. *)
Theorem renameKey_onto_listed_key :
  wf three ∧
  orderedPodKeys (renameKey "/dl/c.pdf" "/dl/a.png" three)
  = ["/dl/a.png"; "/dl/b.zip"; "/dl/a.png"].
Proof. split; [compute_done | reflexivity]. Qed.

(** The round trip of the rotation does not hold in every well-formed
    state: with the focus on a key that is not the newest, one step forward
    and one step backward return the focus but leave the keys in another
    order. *)
Theorem scroll_roundtrip_needs_newest :
  wf four_focus_second ∧
  scroll (-1) (scroll 1 four_focus_second)
  = mk ["A"; "C"; "D"; "B"] (Some "B") (Some backward).
Proof. split; [compute_done | reflexivity]. Qed.

End Stack.
