(* ===== verification/Layout.v ===== *)
(** * Layout: the visible slots of the layout pass

    [managePodVisibilityAndAnimations] of [src/tidy-downloads.uc.js] gives
    the focused pod the slot at offset 0 and walks the pile (the other
    keys, newest first), giving each pod the next offset and the next lower
    z-index until the pile is exhausted, the count bound is reached or a
    pod no longer fits beside the tooltip.  This file models the slot
    computation ([computeLayout], with the loop as [pileSlots]) and the
    guards of the pass that depend on the stack only ([layoutStack]).

    The theorems give the loop a closed form, show that its width test
    cannot fail (the count bound is the stronger one), bound the positions
    and order the z-indices. *)

From S2P Require Import Prelude JsArray Stack.

Module Layout.
Import Stack.

#[local] Open Scope Z_scope.
#[local] Coercion Z.of_nat : nat >-> Z.

(** The sizes of the pass, in pixels, and the base of the z-indices. *)
Definition podNominalWidth : Z := 56.
Definition podOverlapAmount : Z := 40.
Definition baseZIndex : Z := 10.

(** [Math.floor((tooltipWidth - podNominalWidth) /
    (podNominalWidth - podOverlapAmount)) + 1]. *)
Definition maxVisiblePodsInPile (tooltipWidth : Z) : Z :=
  (tooltipWidth - podNominalWidth) `div` (podNominalWidth - podOverlapAmount) + 1.

(** An entry of [visiblePodsLayoutData]. *)
Record slot := mkSlot {
  slot_key : string;
  slot_x : Z;
  slot_zIndex : Z;
  slot_isFocused : bool;
}.

#[global] Instance slot_eq_dec : EqDecision slot.
Proof. solve_decision. Defined.

(** The loop over the pile: [i] is the index into [pileKeys], [pileCount]
    the number of slots given so far and [currentX] the next offset. *)
Fixpoint pileSlots (tooltipWidth : Z) (pileLength : nat) (i : nat)
    (pileCount currentX : Z) (pile : list string) : list slot :=
  match pile with
  | [] => []
  | podKeyInPile :: pile =>
      if bool_decide (pileCount < maxVisiblePodsInPile tooltipWidth - 1) then
        if bool_decide (currentX + podNominalWidth ≤ tooltipWidth + podOverlapAmount)
        then
          mkSlot podKeyInPile currentX (baseZIndex + pileLength - i) false
          :: pileSlots tooltipWidth pileLength (S i) (pileCount + 1)
               (currentX + (podNominalWidth - podOverlapAmount)) pile
        else []
      else []
  end.

(** The focused slot and the slots of the pile. *)
Definition computeLayout (tooltipWidth : Z) (keys : list string)
    (focused : string) : list slot :=
  let pile := pileKeys keys focused in
  mkSlot focused 0 (baseZIndex + length keys + 1) true
  :: pileSlots tooltipWidth (length pile) 0 0
       (0 + (podNominalWidth - podOverlapAmount)) pile.

(** The part of the pass that reads and writes the stack: nothing is laid
    out without pods or while the tooltip has no width; a missing or
    unlisted focus becomes the newest key (twice in the source: the check
    at the top and the failsafe on [indexOf]); without a focus nothing is
    laid out. *)
Definition layoutStack (tooltipWidth : Z) (s : t) : t * list slot :=
  if bool_decide (length (orderedPodKeys s) = 0%nat) then (s, [])
  else if bool_decide (tooltipWidth = 0) then (s, [])
  else
    let s := defaultFocus s in
    let focusedIndexInOrdered :=
      focusedDownloadKey s ≫= λ f, indexOf f (orderedPodKeys s) in
    let s :=
      if bool_decide (focusedIndexInOrdered = None)
      then setFocus (last (orderedPodKeys s)) s else s in
    match focusedDownloadKey s with
    | Some f =>
        if truthy (Some f)
        then (s, computeLayout tooltipWidth (orderedPodKeys s) f)
        else (s, [])
    | None => (s, [])
    end.

(** ** Reference definitions *)

(** The number of pile pods the count bound admits. *)
Definition visiblePileCount (tooltipWidth : Z) : nat :=
  Z.to_nat (maxVisiblePodsInPile tooltipWidth - 1).

(** The slot of the [j]-th pod of the pile counted from index [i]. *)
Definition pileSlot (pileLength i j : nat) (key : string) : slot :=
  mkSlot key ((podNominalWidth - podOverlapAmount) * (i + j + 1)%nat)
    (baseZIndex + pileLength - (i + j)%nat) false.

(** The layout without a loop: the focused slot, then the first
    [visiblePileCount] pods of the pile at multiples of the step. *)
Definition layoutRef (tooltipWidth : Z) (keys : list string)
    (focused : string) : list slot :=
  let pile := pileKeys keys focused in
  mkSlot focused 0 (baseZIndex + length keys + 1) true
  :: imap (pileSlot (length pile) 0) (take (visiblePileCount tooltipWidth) pile).

(** Higher in the list means higher on the screen. *)
Definition above (a b : slot) : Prop := slot_zIndex b < slot_zIndex a.

(** ** The loop and its closed form *)

Lemma maxVisible_fits tooltipWidth (i : nat) :
  i < maxVisiblePodsInPile tooltipWidth - 1 →
  (podNominalWidth - podOverlapAmount) * (i + 1) + podNominalWidth ≤ tooltipWidth.
Proof.
  unfold maxVisiblePodsInPile, podNominalWidth, podOverlapAmount. intros Hi.
  pose proof (Z.mul_div_le (tooltipWidth - 56) (56 - 40) ltac:(lia)). lia.
Qed.

Lemma pileSlots_closed tooltipWidth pileLength i pile :
  pileSlots tooltipWidth pileLength i i
    ((podNominalWidth - podOverlapAmount) * (i + 1)) pile
  = imap (pileSlot pileLength i) (take (visiblePileCount tooltipWidth - i) pile).
Proof.
  revert i. induction pile as [|k pile IH]; intros i; [by rewrite take_nil|].
  cbn [pileSlots]. unfold visiblePileCount in *. case_bool_decide as Hc.
  - rewrite bool_decide_true
      by (pose proof (maxVisible_fits _ _ Hc);
          unfold podNominalWidth, podOverlapAmount in *; lia).
    replace (Z.to_nat (maxVisiblePodsInPile tooltipWidth - 1) - i)%nat
      with (S (Z.to_nat (maxVisiblePodsInPile tooltipWidth - 1) - S i)) by lia.
    cbn [take]. rewrite imap_cons. f_equal.
    + unfold pileSlot. f_equal; lia.
    + replace (i + 1) with (Z.of_nat (S i)) by lia.
      replace ((podNominalWidth - podOverlapAmount) * (i + 1) +
               (podNominalWidth - podOverlapAmount))
        with ((podNominalWidth - podOverlapAmount) * (S i + 1)) by lia.
      rewrite IH. apply imap_ext. intros j x _. unfold pileSlot. simpl.
      f_equal; lia.
  - by replace (Z.to_nat (maxVisiblePodsInPile tooltipWidth - 1) - i)%nat
      with 0%nat by lia.
Qed.

Lemma computeLayout_layoutRef tooltipWidth keys focused :
  computeLayout tooltipWidth keys focused = layoutRef tooltipWidth keys focused.
Proof.
  unfold computeLayout, layoutRef. f_equal.
  rewrite <-(Nat.sub_0_r (visiblePileCount tooltipWidth)).
  by rewrite <-pileSlots_closed.
Qed.

(** C25. The loop of the layout pass computes the closed form: the focused
    pod at offset 0 and the first [visiblePileCount] pods of the pile at
    multiples of 16 px with descending z-indices, so that the pass shows
    the focused pod and as many pods of the pile as there are, up to the
    count bound.  In particular the width test inside the loop never ends
    it: the count bound is reached first. *)
Theorem computeLayout_closed_form tooltipWidth keys focused :
  computeLayout tooltipWidth keys focused = layoutRef tooltipWidth keys focused ∧
  length (computeLayout tooltipWidth keys focused)
  = S (visiblePileCount tooltipWidth `min` length (pileKeys keys focused)).
Proof.
  rewrite computeLayout_layoutRef. split; [done|]. unfold layoutRef. simpl.
  by rewrite length_imap, length_take.
Qed.

(** ** Consequences of the closed form *)

Lemma length_pileKeys keys f : (length (pileKeys keys f) ≤ length keys)%nat.
Proof.
  unfold pileKeys. etrans; [apply length_filter|]. by rewrite length_reverse.
Qed.

(** The slots by index: the focused slot first, then the pile. *)
Lemma computeLayout_lookup tooltipWidth keys f (i : nat) sl :
  computeLayout tooltipWidth keys f !! i = Some sl ↔
  (i = 0%nat ∧ sl = mkSlot f 0 (baseZIndex + length keys + 1) true) ∨
  (∃ (j : nat) k, i = S j ∧ (j < visiblePileCount tooltipWidth)%nat ∧
     pileKeys keys f !! j = Some k ∧
     sl = pileSlot (length (pileKeys keys f)) 0 j k).
Proof.
  rewrite computeLayout_layoutRef. unfold layoutRef.
  destruct i as [|j]; simpl; [naive_solver|].
  rewrite list_lookup_imap, fmap_Some. setoid_rewrite lookup_take_Some.
  naive_solver.
Qed.

(** The keys of the slots: the focus and a prefix of the pile. *)
Lemma computeLayout_keys tooltipWidth keys f :
  slot_key <$> computeLayout tooltipWidth keys f
  = f :: take (visiblePileCount tooltipWidth) (pileKeys keys f).
Proof.
  rewrite computeLayout_layoutRef. unfold layoutRef. cbn [fmap list_fmap].
  f_equal. rewrite fmap_imap. rewrite <-(list_fmap_id (take _ _)) at 2.
  rewrite <-imap_const. by apply imap_ext.
Qed.

(** C11. Every pod of the pile that the pass shows lies inside the
    tooltip's width: its left edge is at a positive multiple of 16 px and
    its right edge does not pass [tooltipWidth] (the source comments that
    the last pod may show partially; the count bound excludes it). *)
Theorem computeLayout_pile_fits tooltipWidth keys f :
  Forall (λ sl, slot_isFocused sl = false →
            podNominalWidth - podOverlapAmount ≤ slot_x sl ∧
            slot_x sl + podNominalWidth ≤ tooltipWidth)
    (computeLayout tooltipWidth keys f).
Proof.
  apply Forall_lookup. intros i sl Hsl.
  apply computeLayout_lookup in Hsl as [[_ ->]|(j & k & _ & Hj & _ & ->)];
    [done|]. intros _. cbn [pileSlot slot_x].
  assert (j < maxVisiblePodsInPile tooltipWidth - 1) as Hfit
    by (unfold visiblePileCount in Hj; lia).
  apply maxVisible_fits in Hfit.
  unfold podNominalWidth, podOverlapAmount in *. lia.
Qed.

(** The z-indices descend along the layout: the focused pod is above
    every pod of the pile, and a newer pod of the pile is above an older
    one. *)
Theorem computeLayout_zIndex_descends tooltipWidth keys f (i j : nat) a b :
  (i < j)%nat →
  computeLayout tooltipWidth keys f !! i = Some a →
  computeLayout tooltipWidth keys f !! j = Some b →
  above a b.
Proof.
  intros Hij Ha Hb. pose proof (length_pileKeys keys f).
  apply computeLayout_lookup in Ha as [[-> ->]|(i' & ka & -> & _ & _ & ->)];
    apply computeLayout_lookup in Hb as [[? ->]|(j' & kb & -> & _ & _ & ->)];
    unfold above; cbn [pileSlot slot_zIndex]; lia.
Qed.

(** In a stack with distinct keys no pod gets two slots, and every
    slot belongs to a listed key. *)
Theorem computeLayout_keys_NoDup tooltipWidth keys f :
  NoDup keys → f ∈ keys →
  NoDup (slot_key <$> computeLayout tooltipWidth keys f) ∧
  (slot_key <$> computeLayout tooltipWidth keys f) ⊆ keys.
Proof.
  intros Hnd Hf. rewrite computeLayout_keys.
  assert (NoDup (pileKeys keys f))
    by (by apply NoDup_filter, NoDup_reverse).
  assert (∀ k, k ∈ take (visiblePileCount tooltipWidth) (pileKeys keys f) →
               k ≠ f ∧ k ∈ keys) as Hk
    by (intros k ?%elem_of_take_inv%elem_of_pileKeys; done).
  split.
  - apply NoDup_cons. split; [naive_solver|]. by apply NoDup_take.
  - intros k [->|?%Hk]%elem_of_cons; tauto.
Qed.

(** ** The guards of the pass *)

Lemma orderedPodKeys_defaultFocus s :
  orderedPodKeys (defaultFocus s) = orderedPodKeys s.
Proof. unfold defaultFocus. by case_match. Qed.

(** With pods listed and a tooltip that has a width, the pass lays
    out the stack around a listed, non-empty focus: the focus it found, or
    the newest key when the focus was missing or not listed.  The failsafe
    on [indexOf] changes nothing. *)
Theorem layoutStack_focus tooltipWidth s :
  "" ∉ orderedPodKeys s → orderedPodKeys s ≠ [] → tooltipWidth ≠ 0 →
  ∃ f, focusedDownloadKey (defaultFocus s) = Some f ∧
       f ≠ "" ∧ f ∈ orderedPodKeys s ∧
       layoutStack tooltipWidth s
       = (defaultFocus s, computeLayout tooltipWidth (orderedPodKeys s) f).
Proof.
  intros Hne Hk Hw.
  destruct (proj1 (validFocus_true _) (defaultFocus_valid s Hne Hk))
    as (f & Hf & Hfne & Hfin).
  rewrite orderedPodKeys_defaultFocus in Hfin. exists f. split_and!; [done..|].
  unfold layoutStack.
  rewrite !bool_decide_false by (by try destruct (orderedPodKeys s)).
  cbn zeta. rewrite Hf, orderedPodKeys_defaultFocus. cbn [mbind option_bind].
  apply indexOf_is_Some in Hfin as [i Hi].
  rewrite Hi, bool_decide_false, Hf by done.
  by rewrite (proj2 (truthy_Some f)), orderedPodKeys_defaultFocus.
Qed.

(** Without pods, or while the tooltip has no width, nothing is laid out
    and the stack is left alone. *)
Lemma layoutStack_idle tooltipWidth s :
  orderedPodKeys s = [] ∨ tooltipWidth = 0 → layoutStack tooltipWidth s = (s, []).
Proof.
  intros [Hk| ->]; unfold layoutStack; [by rewrite Hk|].
  by rewrite (bool_decide_true (0 = 0)), Tauto.if_same.
Qed.

(** ** Concrete runs *)

(** Three pods beside a tooltip of 350 px: the newest is focused, the two
    others follow at 16 and 32 px. *)
Example computeLayout_three :
  computeLayout 350 (orderedPodKeys three) "/dl/c.pdf"
  = [mkSlot "/dl/c.pdf" 0 14 true; mkSlot "/dl/b.zip" 16 12 false;
     mkSlot "/dl/a.png" 32 11 false].
Proof. reflexivity. Qed.

(** A tooltip of 90 px has room for the focused pod and two pods of the
    pile; the third pod of the pile gets no slot. *)
Example computeLayout_narrow :
  slot_key <$> computeLayout 90 ["a"; "b"; "c"; "d"] "d" = ["d"; "c"; "b"].
Proof. reflexivity. Qed.

Lemma computeLayout_zIndex_descends_witness :
  above (mkSlot "/dl/c.pdf" 0 14 true) (mkSlot "/dl/a.png" 32 11 false).
Proof.
  apply (computeLayout_zIndex_descends 350 (orderedPodKeys three) "/dl/c.pdf"
           0%nat 2%nat); [lia|reflexivity..].
Defined.

Lemma computeLayout_keys_NoDup_witness :
  NoDup (slot_key <$> computeLayout 350 (orderedPodKeys three) "/dl/c.pdf") ∧
  (slot_key <$> computeLayout 350 (orderedPodKeys three) "/dl/c.pdf")
    ⊆ orderedPodKeys three.
Proof. apply computeLayout_keys_NoDup; compute_done. Defined.

Lemma layoutStack_focus_witness :
  ∃ f, focusedDownloadKey (defaultFocus four_focus_second) = Some f ∧
       f ≠ "" ∧ f ∈ orderedPodKeys four_focus_second ∧
       layoutStack 350 four_focus_second
       = (defaultFocus four_focus_second,
          computeLayout 350 (orderedPodKeys four_focus_second) f).
Proof. apply layoutStack_focus; compute_done. Defined.

End Layout.
