(* ===== verification/Filename.v ===== *)
(** * Filename: the names of the rename workflow

    The string computations of [processDownloadForAIRenaming] and
    [renameDownloadFileAndUpdateRecord] in [src/tidy-downloads.uc.js]:

    - the extension of the downloaded file and its classification as an
      image ([extensionOf], [fileExtension], [isImage]);
    - the sanitizer of the suggested name ([cleanSuggestion], [sanitize])
      and the decision to use it ([decideName]);
    - the second cleaning of the name before the rename ([cleanNewName]) and
      the search for a name that no file has yet ([probe], [finalName],
      [newPath]).

    The host enters through two parameters only: the path separator of the
    platform and the existence test of a path. *)

From Stdlib Require Import Ascii.
From S2P Require Import Prelude JsArray JsString.

Module Filename.
Import JsString.

#[local] Open Scope char_scope.

(** ** Configuration *)

Definition AI_RENAMING_MAX_FILENAME_LENGTH : Z := 70.
Definition MAX_FILE_SIZE_FOR_AI : Z := 50 * 1024 * 1024.
Definition IMAGE_EXTENSIONS : list string :=
  [".jpg"; ".jpeg"; ".png"; ".gif"; ".webp"; ".bmp"; ".svg"; ".avif";
   ".ico"; ".tif"; ".tiff"; ".jfif"]%string.

(** ** Extension and classification *)

(** [name.includes(".") ? name.substring(name.lastIndexOf(".")) : ""]. *)
Definition extensionOf (name : string) : string :=
  if includesChar "." name
  then substringFrom (clamp (lastIndexOf "." name)) name
  else ""%string.

(** The extension the workflow works with: lower case. *)
Definition fileExtension (currentFilename : string) : string :=
  toLowerCase (extensionOf currentFilename).

Definition isImage (fileExtension : string) : bool :=
  bool_decide (fileExtension ∈ IMAGE_EXTENSIONS).

(** ** The sanitizer *)

(** The class [[a-zA-Z0-9\-_\.]]. *)
Definition allowedChar (c : ascii) : bool :=
  isLower c || isUpper c || isDigit c ||
  bool_decide (c = "-") || bool_decide (c = "_") || bool_decide (c = ".").

(** [suggestedName.replace(/[^a-zA-Z0-9\-_\.]/g, "").replace(/\s+/g, "-")
    .toLowerCase()]. *)
Definition cleanSuggestion (suggestedName : string) : string :=
  toLowerCase
    (replaceRuns isSpace "-"
       (removeChars (λ c, negb (allowedChar c)) suggestedName)).

(** [s.substring(0, n)] with a bound that may be negative. *)
Definition truncate (n : Z) (s : string) : string :=
  if bool_decide (n < Z.of_nat (String.length s))%Z
  then substringTo (Z.to_nat n) s else s.

(** The name is cut to the maximal length less the extension, and the
    extension is appended unless the name ends with it. *)
Definition sanitize (suggestedName fileExtension : string) : string :=
  let cleanName := cleanSuggestion suggestedName in
  let cleanName :=
    truncate
      (AI_RENAMING_MAX_FILENAME_LENGTH - Z.of_nat (String.length fileExtension))
      cleanName in
  if truthy (Some fileExtension) &&
     negb (endsWith (toLowerCase cleanName) (toLowerCase fileExtension))
  then cleanName +:+ fileExtension
  else cleanName.

(** What the workflow does with the model's answer: [null] or an empty
    answer, the rate-limit sentinel, a name that is too short or the same
    as the current one, or a name to rename to. *)
Inductive nameDecision :=
  | NoSuggestion
  | RateLimited
  | NotSuitable
  | RenameTo (cleanName : string).

#[global] Instance nameDecision_eq_dec : EqDecision nameDecision.
Proof. solve_decision. Defined.

Definition decideName (suggestedName : option string)
    (currentFilename : string) : nameDecision :=
  match suggestedName with
  | None => NoSuggestion
  | Some suggested =>
      if negb (truthy suggestedName) then NoSuggestion
      else if bool_decide (suggested = "rate-limited"%string) then RateLimited
      else
        let cleanName := sanitize suggested (fileExtension currentFilename) in
        if bool_decide (String.length cleanName ≤ 2)%nat ||
           bool_decide (toLowerCase cleanName = toLowerCase currentFilename)
        then NotSuitable
        else RenameTo cleanName
  end.

(** ** The name on disk *)

(** The class of the characters no file name may hold: backslash, slash,
    colon, star, question mark, double quote (code 34), angle brackets and
    the bar. *)
Definition illegalChar (c : ascii) : bool :=
  bool_decide
    (c ∈ ["\"; "/"; ":"; "*"; "?"; ascii_of_nat 34; "<"; ">"; "|"]).

(** [oldPath.substring(0, oldPath.lastIndexOf(PATH_SEPARATOR))]. *)
Definition directoryOf (sep : ascii) (oldPath : string) : string :=
  substringTo (clamp (lastIndexOf sep oldPath)) oldPath.

(** [newName.trim()] without the illegal characters, with the extension of
    the old file name (in its own case) appended unless the name ends with
    it. *)
Definition cleanNewName (newName fileExt : string) : string :=
  let cleanNewName := removeChars illegalChar (trim newName) in
  if truthy (Some fileExt) && negb (endsWith cleanNewName fileExt)
  then cleanNewName +:+ fileExt
  else cleanNewName.

Definition baseName (cleanNewName : string) : string :=
  if includesChar "." cleanNewName
  then substringTo (clamp (lastIndexOf "." cleanNewName)) cleanNewName
  else cleanNewName.

(** [`${baseName}-${counter}${fileExt}`]. *)
Definition candidate (cleanNewName fileExt : string) (counter : nat) : string :=
  baseName cleanNewName +:+ "-" +:+ pretty counter +:+ fileExt.

Definition joinPath (sep : ascii) (directory name : string) : string :=
  directory +:+ String sep name.

Section probe.
Context (exists_ : string → bool) (sep : ascii).

(** The loop [while (counter < 100)]: [remaining] is [100 - counter], the
    number of probes the loop may still make. *)
Fixpoint probe (directory cleanNewName fileExt : string)
    (remaining counter : nat) (finalName : string) : string :=
  match remaining with
  | O => finalName
  | S remaining =>
      if exists_ (joinPath sep directory finalName)
      then probe directory cleanNewName fileExt remaining (S counter)
             (candidate cleanNewName fileExt counter)
      else finalName
  end.

(** The name the file gets, from the old path and the sanitized name. *)
Definition finalName (oldPath newName : string) : string :=
  let directory := directoryOf sep oldPath in
  let oldFileName := lastSegment sep oldPath in
  let fileExt := extensionOf oldFileName in
  let cleanNewName := cleanNewName newName fileExt in
  probe directory cleanNewName fileExt 99 1 cleanNewName.

Definition newPath (oldPath newName : string) : string :=
  joinPath sep (directoryOf sep oldPath) (finalName oldPath newName).

End probe.

(** ** Specification vocabulary *)

(** The class the sanitizer promises: [[a-z0-9\-_\.]]. *)
Definition sanitizedChar (c : ascii) : bool :=
  isLower c || isDigit c ||
  bool_decide (c = "-") || bool_decide (c = "_") || bool_decide (c = ".").

Definition sanitized (s : string) : Prop :=
  Forall (λ c, sanitizedChar c = true) (chars s).

#[global] Instance sanitized_dec s : Decision (sanitized s).
Proof. unfold sanitized. apply _. Defined.

(** The names the search tries, in order: the clean name, then the
    numbered candidates. *)
Definition nthName (cleanNewName fileExt : string) (k : nat) : string :=
  match k with
  | O => cleanNewName
  | S _ => candidate cleanNewName fileExt k
  end.

(** The files of a download directory, as the existence test of the host. *)
Definition filesOf (paths : list string) : string → bool :=
  λ path, bool_decide (path ∈ paths).

(** ** Characters *)

Lemma allowedChar_not_space c : allowedChar c = true → isSpace c = false.
Proof. by ascii_cases c. Qed.

Lemma toLowerChar_sanitized c :
  allowedChar c = true → sanitizedChar (toLowerChar c) = true.
Proof. by ascii_cases c. Qed.

Lemma sanitizedChar_lower c : sanitizedChar c = true → toLowerChar c = c.
Proof. by ascii_cases c. Qed.

Lemma sanitizedChar_legal c : sanitizedChar c = true → illegalChar c = false.
Proof. by ascii_cases c. Qed.

Lemma sanitizedChar_not_space c : sanitizedChar c = true → isSpace c = false.
Proof. by ascii_cases c. Qed.

(** ** The sanitizer *)

Lemma chars_cleanSuggestion s :
  chars (cleanSuggestion s) =
  toLowerChar <$> filter (λ c, negb (allowedChar c) = false) (chars s).
Proof.
  unfold cleanSuggestion. autorewrite with tidy_rw.
  rewrite replaceRunsL_none; [done|].
  apply Forall_forall. intros c [Hc _]%list_elem_of_filter.
  apply allowedChar_not_space. by destruct (allowedChar c).
Qed.

(** The sanitizer's second step never fires: after the first step has
    removed every character outside [[a-zA-Z0-9\-_\.]] no white space is
    left, so white space is dropped and never turned into a hyphen. *)
Theorem cleanSuggestion_drops_whitespace s :
  cleanSuggestion s = toLowerCase (removeChars (λ c, negb (allowedChar c)) s).
Proof.
  apply (inj chars). rewrite chars_cleanSuggestion. by autorewrite with tidy_rw.
Qed.

Lemma cleanSuggestion_sanitized s : sanitized (cleanSuggestion s).
Proof.
  unfold sanitized. rewrite chars_cleanSuggestion, Forall_fmap.
  apply Forall_forall. intros c [Hc _]%list_elem_of_filter.
  apply toLowerChar_sanitized. by destruct (allowedChar c).
Qed.

Lemma truncate_sanitized n s : sanitized s → sanitized (truncate n s).
Proof.
  unfold sanitized, truncate. intros. case_bool_decide; [|done].
  rewrite chars_substringTo. by apply Forall_take.
Qed.

Lemma length_truncate n s :
  (0 ≤ n)%Z → (Z.of_nat (String.length (truncate n s)) ≤ n)%Z.
Proof.
  intros. unfold truncate. case_bool_decide; [|lia].
  rewrite length_substringTo. lia.
Qed.

Lemma sanitized_app s1 s2 : sanitized (s1 +:+ s2) ↔ sanitized s1 ∧ sanitized s2.
Proof. unfold sanitized. by rewrite chars_app, Forall_app. Qed.

Lemma sanitized_toLowerCase s : sanitized s → toLowerCase s = s.
Proof.
  intros Hs. apply toLowerCase_fixed.
  eapply Forall_impl; [exact Hs|]. apply sanitizedChar_lower.
Qed.

(** The sanitizer's output before the extension is appended. *)
Lemma sanitize_cases suggestedName ext :
  let cleanName :=
    truncate (AI_RENAMING_MAX_FILENAME_LENGTH - Z.of_nat (String.length ext))
      (cleanSuggestion suggestedName) in
  sanitized cleanName ∧
  (sanitize suggestedName ext = cleanName +:+ ext ∨
   sanitize suggestedName ext = cleanName ∧
   (ext = "" ∨ endsWith cleanName (toLowerCase ext) = true))%string.
Proof.
  intros cleanName.
  assert (sanitized cleanName) as Hs
    by apply truncate_sanitized, cleanSuggestion_sanitized.
  split; [done|]. unfold sanitize. fold cleanName.
  rewrite (sanitized_toLowerCase cleanName) by done.
  destruct (truthy (Some ext)) eqn:Ht; simpl.
  - destruct (endsWith cleanName (toLowerCase ext)); simpl; eauto.
  - right. split; [done|]. left. apply dec_stable.
    intros Hne%truthy_Some. congruence.
Qed.

(** The sanitized name is made of [[a-z0-9\-_\.]] only, provided the
    extension of the downloaded file is. *)
Lemma sanitize_sanitized suggestedName ext :
  sanitized ext → sanitized (sanitize suggestedName ext).
Proof.
  intros. destruct (sanitize_cases suggestedName ext) as [? [-> | [-> _]]];
    [by apply sanitized_app | done].
Qed.

(** The sanitized name is at most 70 characters long, provided the
    extension is. *)
Lemma sanitize_length suggestedName ext :
  (Z.of_nat (String.length ext) ≤ AI_RENAMING_MAX_FILENAME_LENGTH)%Z →
  (Z.of_nat (String.length (sanitize suggestedName ext))
   ≤ AI_RENAMING_MAX_FILENAME_LENGTH)%Z.
Proof.
  intros Hext.
  pose proof (length_truncate
    (AI_RENAMING_MAX_FILENAME_LENGTH - Z.of_nat (String.length ext))
    (cleanSuggestion suggestedName) ltac:(lia)).
  destruct (sanitize_cases suggestedName ext) as [_ [-> | [-> _]]];
    rewrite ?length_string_app; lia.
Qed.

(** The sanitized name ends with the extension of the downloaded file. *)
Lemma sanitize_endsWith suggestedName currentFilename :
  endsWith (sanitize suggestedName (fileExtension currentFilename))
    (fileExtension currentFilename) = true.
Proof.
  destruct (sanitize_cases suggestedName (fileExtension currentFilename))
    as [_ [-> | [-> [-> | Hend]]]].
  - apply endsWith_app.
  - apply endsWith_empty.
  - unfold fileExtension in *. by rewrite toLowerCase_idemp in Hend.
Qed.

(** C7. The name the sanitizer makes from a suggestion of the model and the
    name of the downloaded file: when the lower-cased extension of the
    file is made of [[a-z0-9\-_\.]] and is at most 70 characters long, the
    sanitized name is made of [[a-z0-9\-_\.]] only, is at most 70
    characters long and ends with that extension. *)
Theorem sanitize_spec suggestedName currentFilename :
  sanitized (fileExtension currentFilename) →
  (Z.of_nat (String.length (fileExtension currentFilename))
   ≤ AI_RENAMING_MAX_FILENAME_LENGTH)%Z →
  sanitized (sanitize suggestedName (fileExtension currentFilename)) ∧
  (Z.of_nat (String.length (sanitize suggestedName (fileExtension currentFilename)))
   ≤ AI_RENAMING_MAX_FILENAME_LENGTH)%Z ∧
  endsWith (sanitize suggestedName (fileExtension currentFilename))
    (fileExtension currentFilename) = true.
Proof.
  intros. split_and!;
    [by apply sanitize_sanitized | by apply sanitize_length | apply sanitize_endsWith].
Qed.

(** ** The decision *)

(** A name the workflow renames to is the sanitized suggestion; it is
    longer than two characters, differs from the current name also when
    case is ignored, and ends with the extension of the current name. *)
Theorem decideName_RenameTo suggestedName currentFilename cleanName :
  decideName suggestedName currentFilename = RenameTo cleanName →
  ∃ suggested, suggestedName = Some suggested ∧
    suggested ≠ "rate-limited"%string ∧
    cleanName = sanitize suggested (fileExtension currentFilename) ∧
    2 < String.length cleanName ∧
    toLowerCase cleanName ≠ toLowerCase currentFilename ∧
    endsWith cleanName (fileExtension currentFilename) = true.
Proof.
  unfold decideName. intros Hd. destruct suggestedName as [suggested|]; [|done].
  exists suggested. repeat case_match; simplify_eq.
  repeat case_bool_decide; simplify_eq/=.
  split_and!; [done..|lia|done|apply sanitize_endsWith].
Qed.

(** The branches that end the workflow without a rename. *)
Lemma decideName_not_truthy suggestedName currentFilename :
  truthy suggestedName = false →
  decideName suggestedName currentFilename = NoSuggestion.
Proof. unfold decideName. destruct suggestedName; [by intros ->|done]. Qed.

Lemma decideName_rate_limited currentFilename :
  decideName (Some "rate-limited"%string) currentFilename = RateLimited.
Proof. done. Qed.

(** ** The second cleaning *)

Lemma cleanNewName_fixed newName fileExt :
  sanitized newName → endsWith newName fileExt = true →
  cleanNewName newName fileExt = newName.
Proof.
  intros Hs Hend. unfold cleanNewName.
  rewrite trim_no_space, removeChars_none, Hend, andb_false_r; [done|..];
    (eapply Forall_impl; [exact Hs|]);
    [apply sanitizedChar_legal | apply sanitizedChar_not_space].
Qed.

(** When the extension of the downloaded file is lower case and made
    of [[a-z0-9\-_\.]], the rename keeps the sanitized name as it is. *)
Theorem cleanNewName_sanitize suggestedName currentFilename :
  sanitized (extensionOf currentFilename) →
  cleanNewName (sanitize suggestedName (fileExtension currentFilename))
    (extensionOf currentFilename)
  = sanitize suggestedName (fileExtension currentFilename).
Proof.
  intros Hext. pose proof (sanitize_endsWith suggestedName currentFilename).
  unfold fileExtension in *. rewrite (sanitized_toLowerCase _ Hext) in *.
  apply cleanNewName_fixed; [by apply sanitize_sanitized | done].
Qed.

(** ** The search for a free name *)

Section probe_facts.
Context (exists_ : string → bool) (sep : ascii).
Context (directory cleanNewName fileExt : string).

Notation name k := (nthName cleanNewName fileExt k).
Notation taken k := (exists_ (joinPath sep directory (name k)) = true).
Notation probeFrom r k :=
  (probe exists_ sep directory cleanNewName fileExt r (S k) (name k)).

Lemma probe_step r k : taken k → probeFrom (S r) k = probeFrom r (S k).
Proof. intros Hk. simpl. by rewrite Hk. Qed.

Lemma probe_stop r k : ¬ taken k → probeFrom (S r) k = name k.
Proof. intros Hk%not_true_is_false. simpl. by rewrite Hk. Qed.

(** The loop skips a run of taken names. *)
Lemma probe_skip m r k :
  (∀ j, k ≤ j < k + m → taken j) → probeFrom (m + r) k = probeFrom r (k + m).
Proof.
  revert k. induction m as [|m IH]; intros k Hj.
  - by rewrite Nat.add_0_r.
  - rewrite Nat.add_succ_l, probe_step by (apply Hj; lia).
    rewrite IH by (intros; apply Hj; lia). by rewrite Nat.add_succ_r.
Qed.

Lemma probe_first_free r k :
  k < r → (∀ j, j < k → taken j) → ¬ taken k → probeFrom r 0 = name k.
Proof.
  intros Hk Hj Hfree. replace r with (k + S (r - S k)) by lia.
  rewrite probe_skip by (intros; apply Hj; lia). by apply probe_stop.
Qed.

Lemma probe_exhausted r : (∀ j, j < r → taken j) → probeFrom r 0 = name r.
Proof.
  intros Hj. rewrite <-(Nat.add_0_r r) at 1.
  by rewrite probe_skip by (intros; apply Hj; lia).
Qed.

Lemma probe_free_or_last r k :
  ¬ exists_ (joinPath sep directory (probeFrom r k)) = true ∨
  probeFrom r k = name (k + r).
Proof.
  revert k. induction r as [|r IH]; intros k.
  - right. by rewrite Nat.add_0_r.
  - destruct (decide (taken k)) as [Hk|Hk].
    + rewrite probe_step, Nat.add_succ_r by done. apply IH.
    + rewrite probe_stop by done. by left.
Qed.

End probe_facts.

Section finalName_facts.
Context (exists_ : string → bool) (sep : ascii) (oldPath newName : string).

Notation directory := (directoryOf sep oldPath).
Notation fileExt := (extensionOf (lastSegment sep oldPath)).
Notation clean := (cleanNewName newName fileExt).
Notation taken k :=
  (exists_ (joinPath sep directory (nthName clean fileExt k)) = true).

(** C8. The rename takes the first name of the sequence [name.ext],
    [name-1.ext], [name-2.ext], ... that no file has, when one of the first
    99 is free. *)
Theorem finalName_first_free k :
  k < 99 → (∀ j, j < k → taken j) → ¬ taken k →
  finalName exists_ sep oldPath newName = nthName clean fileExt k.
Proof. apply probe_first_free. Qed.

(** When the clean name and the candidates 1 to 98 are all taken, the
    rename uses candidate 99 without testing whether a file has that
    name. *)
Theorem finalName_last_unprobed :
  (∀ j, j < 99 → taken j) →
  finalName exists_ sep oldPath newName = candidate clean fileExt 99.
Proof. apply probe_exhausted. Qed.

(** The name the rename uses is free, or it is candidate 99. *)
Lemma finalName_free_or_last :
  exists_ (newPath exists_ sep oldPath newName) ≠ true ∨
  finalName exists_ sep oldPath newName = candidate clean fileExt 99.
Proof. apply (probe_free_or_last exists_ sep directory clean fileExt 99 0). Qed.

End finalName_facts.

(** ** Paths *)

Lemma directoryOf_joinPath sep directory name :
  sep ∉ chars name → directoryOf sep (joinPath sep directory name) = directory.
Proof.
  intros. unfold directoryOf, joinPath. rewrite lastIndexOf_app by done.
  apply (inj chars). rewrite chars_substringTo, chars_app, <-length_chars.
  apply take_app_length.
Qed.

Lemma lastSegment_joinPath sep directory name :
  sep ∉ chars name → lastSegment sep (joinPath sep directory name) = name.
Proof. apply lastSegment_app. Qed.

Lemma lastSegment_fresh sep s : sep ∉ chars (lastSegment sep s).
Proof.
  unfold lastSegment. destruct (lastIndexOf sep s) as [i|] eqn:Hi.
  - apply lastIndexOfL_Some in Hi as (l1 & l2 & Hs & ? & <-).
    rewrite chars_substringFrom, Hs, cons_middle, (assoc_L (++)).
    rewrite drop_app_length'; [done|]. rewrite length_app. simpl. lia.
  - by apply lastIndexOfL_None.
Qed.

Lemma extensionOf_fresh c name : c ∉ chars name → c ∉ chars (extensionOf name).
Proof.
  unfold extensionOf. case_match; [|intros _; apply not_elem_of_nil].
  rewrite chars_substringFrom. intros Hc Hin. by apply subseteq_drop in Hin.
Qed.

Lemma baseName_fresh c s : c ∉ chars s → c ∉ chars (baseName s).
Proof.
  unfold baseName. case_match; [|done].
  rewrite chars_substringTo. intros Hc ?%elem_of_take_inv. done.
Qed.

Lemma cleanNewName_fresh c newName fileExt :
  illegalChar c = true → c ∉ chars fileExt →
  c ∉ chars (cleanNewName newName fileExt).
Proof.
  intros Hc He. unfold cleanNewName.
  assert (c ∉ chars (removeChars illegalChar (trim newName))).
  { rewrite chars_removeChars, list_elem_of_filter. intros [? _]. congruence. }
  case_match; [|done]. rewrite chars_app. set_solver.
Qed.

Lemma illegalChar_not_digit c : illegalChar c = true → isDigit c = false.
Proof. by ascii_cases c. Qed.

(** The counters of the search print as digits. *)
Lemma pretty_digits k :
  k < 100 → Forall (λ c, isDigit c = true) (chars (pretty k)).
Proof.
  intros Hk. assert (k ∈ seq 0 100) as Hin by (apply elem_of_seq; lia).
  clear Hk. revert k Hin. apply Forall_forall.
  apply (bool_decide_unpack _). by vm_compute.
Qed.

Lemma candidate_fresh c cleanNewName fileExt k :
  illegalChar c = true → k < 100 →
  c ∉ chars cleanNewName → c ∉ chars fileExt →
  c ∉ chars (candidate cleanNewName fileExt k).
Proof.
  intros Hc Hk Hn He. unfold candidate. rewrite !chars_app.
  pose proof (baseName_fresh c _ Hn).
  assert (c ∉ chars (pretty k)).
  { intros Hin. pose proof (pretty_digits k Hk) as Hd.
    rewrite Forall_forall in Hd. apply Hd in Hin.
    by rewrite illegalChar_not_digit in Hin. }
  assert (c ∉ chars "-") by (intros ->%list_elem_of_singleton; done).
  set_solver.
Qed.

Lemma probe_fresh exists_ sep c directory cleanNewName fileExt r counter name :
  illegalChar c = true → counter + r ≤ 100 →
  c ∉ chars cleanNewName → c ∉ chars fileExt → c ∉ chars name →
  c ∉ chars (probe exists_ sep directory cleanNewName fileExt r counter name).
Proof.
  intros Hc Hr Hn He. revert counter name Hr.
  induction r as [|r IH]; intros counter name Hr Hname; [done|].
  simpl. case_match; [|done].
  apply IH; [lia|]. apply candidate_fresh; [done|lia|done..].
Qed.

(** The renamed file stays in the directory of the old path, and the
    last segment of the new path is the name the search chose. *)
Theorem newPath_same_directory exists_ sep oldPath newName :
  illegalChar sep = true →
  directoryOf sep (newPath exists_ sep oldPath newName) = directoryOf sep oldPath ∧
  lastSegment sep (newPath exists_ sep oldPath newName)
  = finalName exists_ sep oldPath newName.
Proof.
  intros Hsep.
  assert (sep ∉ chars (finalName exists_ sep oldPath newName)).
  { pose proof (extensionOf_fresh sep _ (lastSegment_fresh sep oldPath)).
    pose proof (cleanNewName_fresh sep newName _ Hsep ltac:(done)).
    by apply probe_fresh; [done|lia|..]. }
  unfold newPath. by rewrite directoryOf_joinPath, lastSegment_joinPath.
Qed.

(** ** Concrete names *)

#[local] Open Scope string_scope.

(** A suggestion that is too long for a picture. *)
Definition longSuggestion : string :=
  "a very long description of a picture of a mountain lake at sunset in the autumn of last year".

Lemma sanitize_spec_witness :
  sanitized (sanitize longSuggestion (fileExtension "IMG_0001.JPEG")) ∧
  (Z.of_nat (String.length (sanitize longSuggestion (fileExtension "IMG_0001.JPEG")))
   ≤ AI_RENAMING_MAX_FILENAME_LENGTH)%Z ∧
  endsWith (sanitize longSuggestion (fileExtension "IMG_0001.JPEG"))
    (fileExtension "IMG_0001.JPEG") = true.
Proof.
  apply sanitize_spec; [by apply (bool_decide_unpack _) | by vm_compute].
Defined.

(** The suggestion is cut so that the extension still fits in 70
    characters. *)
Example sanitize_long :
  sanitize longSuggestion (fileExtension "IMG_0001.JPEG")
  = "averylongdescriptionofapictureofamountainlakeatsunsetintheautumno.jpeg".
Proof. reflexivity. Qed.

Lemma decideName_RenameTo_witness :
  ∃ suggested, Some "cat on sofa" = Some suggested ∧
    suggested ≠ "rate-limited" ∧
    "catonsofa.jpg" = sanitize suggested (fileExtension "IMG_0001.JPG") ∧
    2 < String.length "catonsofa.jpg" ∧
    toLowerCase "catonsofa.jpg" ≠ toLowerCase "IMG_0001.JPG" ∧
    endsWith "catonsofa.jpg" (fileExtension "IMG_0001.JPG") = true.
Proof. apply (decideName_RenameTo (Some "cat on sofa") "IMG_0001.JPG"). reflexivity. Defined.

Lemma cleanNewName_sanitize_witness :
  cleanNewName (sanitize "cat on sofa" (fileExtension "img_0001.jpg"))
    (extensionOf "img_0001.jpg")
  = sanitize "cat on sofa" (fileExtension "img_0001.jpg").
Proof. apply cleanNewName_sanitize. by apply (bool_decide_unpack _). Defined.

(** The collisions of the specification: with [name.ext] taken the rename
    goes to [name-1.ext], with both taken to [name-2.ext]. *)
Lemma finalName_first_free_witness :
  finalName (filesOf ["/dl/name.ext"]) "/" "/dl/old.ext" "name.ext" = "name-1.ext" ∧
  finalName (filesOf ["/dl/name.ext"; "/dl/name-1.ext"]) "/" "/dl/old.ext" "name.ext"
  = "name-2.ext".
Proof.
  split.
  - apply (finalName_first_free _ "/"%char "/dl/old.ext" "name.ext" 1);
      [lia | intros [|j] ?; [reflexivity | lia] | discriminate].
  - apply (finalName_first_free _ "/"%char "/dl/old.ext" "name.ext" 2);
      [lia | intros [|[|j]] ?; [reflexivity | reflexivity | lia] | discriminate].
Defined.

Lemma finalName_last_unprobed_witness :
  finalName (λ _, true) "/" "/dl/old.ext" "name.ext" = "name-99.ext".
Proof.
  apply (finalName_last_unprobed (λ _, true) "/"%char "/dl/old.ext" "name.ext").
  reflexivity.
Defined.

Lemma newPath_same_directory_witness :
  directoryOf "/" (newPath (filesOf ["/dl/name.ext"]) "/" "/dl/old.ext" "name.ext")
  = directoryOf "/" "/dl/old.ext" ∧
  lastSegment "/" (newPath (filesOf ["/dl/name.ext"]) "/" "/dl/old.ext" "name.ext")
  = finalName (filesOf ["/dl/name.ext"]) "/" "/dl/old.ext" "name.ext".
Proof. apply newPath_same_directory. reflexivity. Defined.

(** The sanitizer appends the extension as it is: an extension with a
    character outside [[a-z0-9\-_\.]] puts that character in the name. *)
Example sanitize_keeps_extension_chars :
  sanitize "quarterly report" (fileExtension "Report.Final (1)")
  = "quarterlyreport.final (1)".
Proof. reflexivity. Qed.

(** The rename compares with the extension in its original case while
    the sanitizer appended it in lower case: a file with an upper-case
    extension gets both. *)
Example finalName_double_extension :
  decideName (Some "sunset") "Photo.PNG" = RenameTo "sunset.png" ∧
  finalName (filesOf []) "/" "/dl/Photo.PNG" "sunset.png" = "sunset.png.PNG".
Proof. split; reflexivity. Qed.

(** The length test counts the extension: a suggestion of which
    nothing is left is accepted as the bare extension. *)
Example decideName_accepts_bare_extension :
  decideName (Some "???") "IMG_0001.png" = RenameTo ".png".
Proof. reflexivity. Qed.

End Filename.
