(* ===== verification/State.v ===== *)
(** * State: the objects of [tidy-downloads.uc.js]

    The script keeps its state in module-level variables (lines 37-47) and in
    objects that several closures share: the download objects of the host,
    the card records of [activeDownloadCards] and the pod element of each
    card.  An object that is shared is kept in a store under its identity (a
    [ref]), so that a timer that captured a card still reads and writes that
    card after the map has been re-keyed or the card has been deleted from
    it.

    The state is the one after [initDownloadManager] has built the master
    tooltip and the row of pods: both elements exist, and so do the title,
    status, progress, original-name and undo elements of the tooltip. *)

From S2P Require Import Prelude JsArray JsString Stack.

Module State.

(** The identity of an object. *)
Definition ref := nat.

(** ** The download objects of the host *)

Record downloadError := mkError { message : option string }.

Record download := mkDownload {
  target_path : option string;
  id_ : option string;
  filename : option string;
  source_url : option string;
  url : option string;
  contentType : option string;
  succeeded : bool;
  error : option downloadError;
  canceled : bool;
  currentBytes : option Z;
  totalBytes : Z;
  hasProgress : bool;
  aiName : option string
}.

(** ** Pod elements *)

(** The values the script gives to [style.transform] of a pod. *)
Inductive transform :=
  | EntranceInitial          (* scale(0.3) translateY(30px) *)
  | ExitSlide                (* translateX(-60px) scale(0.8) *)
  | Target (x : Z)           (* translateX(x px) scale(1) translateY(0) *)
  | EntranceFrom (x : Z)     (* translateX(x px) scale(0.8) translateY(0) *)
  | OutDefault               (* scale(0.8) translateX(-30px) *)
  | OutRotated.              (* scale(0.8) translateX(-60px) *)

(** The icon [setGenericIcon] chooses. *)
Inductive icon :=
  | IconFile | IconImage | IconVideo | IconAudio | IconText | IconPdf
  | IconArchive | IconPackage.

(** What the preview container of a pod shows. *)
Inductive preview :=
  | PreviewEmpty
  | PreviewIcon (i : icon)
  | PreviewSnippet (text : string)
  | PreviewImage (src : string)
  | PreviewFailed.

Record podElement := mkPod {
  pod_id : string;
  dataset_downloadKey : string;
  classList : gset string;
  style_opacity : string;
  style_transform : transform;
  style_display : string;
  style_zIndex : option Z;
  parentNode : bool;
  previewContent : preview;
  preview_title : string;
  preview_pointerEvents : string
}.

(** ** Cards *)

Record cardData := mkCard {
  podElement_ : podElement;
  download_ : ref;
  complete : bool;
  key : string;
  originalFilename : string;
  trueOriginalPathBeforeAIRename : option string;
  trueOriginalSimpleNameBeforeAIRename : option string;
  lastInteractionTime : Z;
  isVisible : bool;
  isWaitingForZenAnimation : bool;
  domAppended : bool;
  intendedTargetTransform : option transform;
  intendedTargetOpacity : option string;
  isBeingRemoved : bool
}.

(** ** The master tooltip *)

Record tooltip := mkTooltip {
  tt_display : string;
  tt_opacity : string;
  tt_transform : string;
  tt_width : string;
  title_text : string;
  status_text : string;
  status_color : string;
  progress_text : string;
  progress_display : string;
  original_text : string;
  original_display : string;
  original_lineThrough : bool;
  undo_display : string
}.

(** ** Callbacks the handlers leave behind *)

(** A timer, an animation frame, an observer or a promise that a handler
    has set up, with the values its closure captured; [CancelRequest] is
    the call of [download.cancel()], which the host answers with a later
    change event. *)
Inductive task :=
  | CloseTimer (keyToRemove : string) (cardData : option ref)
  | RemoveTimer (downloadKey : string) (card : ref)
  | RenameTimer (download : ref) (cardDataToFocus : ref) (keyToFocus : string)
  | LayoutFrame
  | EntranceSignal (downloadKey : string)
  | SnippetRead (card : ref) (path : string)
  | ImageLoad (card : ref)
  | CancelRequest (download : ref)
  | TooltipHideTimer
  | TooltipShowTimer
  | PodFrame (card : ref) (opacity : string) (target : transform)
  | PodFrameOuter (card : ref) (opacity : string) (target : transform)
  | RotationResetTimer
  | SidebarResizeTimer (entries : nat).

(** ** The variables of the script *)

Record t := mk {
  downloads : gmap ref download;
  cards : gmap ref cardData;
  activeDownloadCards : gmap string ref;
  cardUpdateThrottle : gmap string Z;
  renamedFiles : gset string;
  stack : Stack.t;
  masterTooltip : tooltip;
  aiRenamingPossible : bool;
  ENABLE_AI_RENAMING : bool;
  currentZenSidebarWidth : string;
  podsRow_height : string
}.

#[global] Instance downloadError_eq_dec : EqDecision downloadError.
Proof. solve_decision. Defined.
#[global] Instance download_eq_dec : EqDecision download.
Proof. solve_decision. Defined.
#[global] Instance transform_eq_dec : EqDecision transform.
Proof. solve_decision. Defined.
#[global] Instance icon_eq_dec : EqDecision icon.
Proof. solve_decision. Defined.
#[global] Instance preview_eq_dec : EqDecision preview.
Proof. solve_decision. Defined.
#[global] Instance podElement_eq_dec : EqDecision podElement.
Proof. solve_decision. Defined.
#[global] Instance cardData_eq_dec : EqDecision cardData.
Proof. solve_decision. Defined.
#[global] Instance tooltip_eq_dec : EqDecision tooltip.
Proof. solve_decision. Defined.
#[global] Instance task_eq_dec : EqDecision task.
Proof. solve_decision. Defined.
#[global] Instance t_eq_dec : EqDecision t.
Proof. solve_decision. Defined.

(** ** Field updates *)

Definition set_podElement (f : podElement → podElement) (c : cardData) : cardData :=
  mkCard (f (podElement_ c)) (download_ c) (complete c) (key c)
    (originalFilename c) (trueOriginalPathBeforeAIRename c)
    (trueOriginalSimpleNameBeforeAIRename c) (lastInteractionTime c)
    (isVisible c) (isWaitingForZenAnimation c) (domAppended c)
    (intendedTargetTransform c) (intendedTargetOpacity c) (isBeingRemoved c).

Definition set_download (d : ref) (c : cardData) : cardData :=
  mkCard (podElement_ c) d (complete c) (key c)
    (originalFilename c) (trueOriginalPathBeforeAIRename c)
    (trueOriginalSimpleNameBeforeAIRename c) (lastInteractionTime c)
    (isVisible c) (isWaitingForZenAnimation c) (domAppended c)
    (intendedTargetTransform c) (intendedTargetOpacity c) (isBeingRemoved c).

Definition set_complete (b : bool) (c : cardData) : cardData :=
  mkCard (podElement_ c) (download_ c) b (key c)
    (originalFilename c) (trueOriginalPathBeforeAIRename c)
    (trueOriginalSimpleNameBeforeAIRename c) (lastInteractionTime c)
    (isVisible c) (isWaitingForZenAnimation c) (domAppended c)
    (intendedTargetTransform c) (intendedTargetOpacity c) (isBeingRemoved c).

Definition set_key (k : string) (c : cardData) : cardData :=
  mkCard (podElement_ c) (download_ c) (complete c) k
    (originalFilename c) (trueOriginalPathBeforeAIRename c)
    (trueOriginalSimpleNameBeforeAIRename c) (lastInteractionTime c)
    (isVisible c) (isWaitingForZenAnimation c) (domAppended c)
    (intendedTargetTransform c) (intendedTargetOpacity c) (isBeingRemoved c).

Definition set_originalFilename (n : string) (c : cardData) : cardData :=
  mkCard (podElement_ c) (download_ c) (complete c) (key c)
    n (trueOriginalPathBeforeAIRename c)
    (trueOriginalSimpleNameBeforeAIRename c) (lastInteractionTime c)
    (isVisible c) (isWaitingForZenAnimation c) (domAppended c)
    (intendedTargetTransform c) (intendedTargetOpacity c) (isBeingRemoved c).

Definition set_trueOriginal (path name : option string) (c : cardData) : cardData :=
  mkCard (podElement_ c) (download_ c) (complete c) (key c)
    (originalFilename c) path name (lastInteractionTime c)
    (isVisible c) (isWaitingForZenAnimation c) (domAppended c)
    (intendedTargetTransform c) (intendedTargetOpacity c) (isBeingRemoved c).

Definition set_lastInteractionTime (now : Z) (c : cardData) : cardData :=
  mkCard (podElement_ c) (download_ c) (complete c) (key c)
    (originalFilename c) (trueOriginalPathBeforeAIRename c)
    (trueOriginalSimpleNameBeforeAIRename c) now
    (isVisible c) (isWaitingForZenAnimation c) (domAppended c)
    (intendedTargetTransform c) (intendedTargetOpacity c) (isBeingRemoved c).

Definition set_isVisible (b : bool) (c : cardData) : cardData :=
  mkCard (podElement_ c) (download_ c) (complete c) (key c)
    (originalFilename c) (trueOriginalPathBeforeAIRename c)
    (trueOriginalSimpleNameBeforeAIRename c) (lastInteractionTime c)
    b (isWaitingForZenAnimation c) (domAppended c)
    (intendedTargetTransform c) (intendedTargetOpacity c) (isBeingRemoved c).

Definition set_isWaitingForZenAnimation (b : bool) (c : cardData) : cardData :=
  mkCard (podElement_ c) (download_ c) (complete c) (key c)
    (originalFilename c) (trueOriginalPathBeforeAIRename c)
    (trueOriginalSimpleNameBeforeAIRename c) (lastInteractionTime c)
    (isVisible c) b (domAppended c)
    (intendedTargetTransform c) (intendedTargetOpacity c) (isBeingRemoved c).

Definition set_domAppended (b : bool) (c : cardData) : cardData :=
  mkCard (podElement_ c) (download_ c) (complete c) (key c)
    (originalFilename c) (trueOriginalPathBeforeAIRename c)
    (trueOriginalSimpleNameBeforeAIRename c) (lastInteractionTime c)
    (isVisible c) (isWaitingForZenAnimation c) b
    (intendedTargetTransform c) (intendedTargetOpacity c) (isBeingRemoved c).

Definition set_intended (tr : option transform) (op : option string)
    (c : cardData) : cardData :=
  mkCard (podElement_ c) (download_ c) (complete c) (key c)
    (originalFilename c) (trueOriginalPathBeforeAIRename c)
    (trueOriginalSimpleNameBeforeAIRename c) (lastInteractionTime c)
    (isVisible c) (isWaitingForZenAnimation c) (domAppended c)
    tr op (isBeingRemoved c).

Definition set_isBeingRemoved (b : bool) (c : cardData) : cardData :=
  mkCard (podElement_ c) (download_ c) (complete c) (key c)
    (originalFilename c) (trueOriginalPathBeforeAIRename c)
    (trueOriginalSimpleNameBeforeAIRename c) (lastInteractionTime c)
    (isVisible c) (isWaitingForZenAnimation c) (domAppended c)
    (intendedTargetTransform c) (intendedTargetOpacity c) b.

(** Updates of a download object: the two fields the script writes. *)
Definition set_target_path (path : option string) (d : download) : download :=
  mkDownload path (id_ d) (filename d) (source_url d) (url d) (contentType d)
    (succeeded d) (error d) (canceled d) (currentBytes d) (totalBytes d)
    (hasProgress d) (aiName d).

Definition set_aiName (name : option string) (d : download) : download :=
  mkDownload (target_path d) (id_ d) (filename d) (source_url d) (url d)
    (contentType d) (succeeded d) (error d) (canceled d) (currentBytes d)
    (totalBytes d) (hasProgress d) name.

(** Updates of a pod element. *)
Definition set_dataset_downloadKey (k : string) (p : podElement) : podElement :=
  mkPod (pod_id p) k (classList p) (style_opacity p) (style_transform p)
    (style_display p) (style_zIndex p) (parentNode p) (previewContent p)
    (preview_title p) (preview_pointerEvents p).

Definition set_classList (f : gset string → gset string) (p : podElement) : podElement :=
  mkPod (pod_id p) (dataset_downloadKey p) (f (classList p)) (style_opacity p)
    (style_transform p) (style_display p) (style_zIndex p) (parentNode p)
    (previewContent p) (preview_title p) (preview_pointerEvents p).

Definition classList_add (c : string) : podElement → podElement :=
  set_classList (λ cl, {[c]} ∪ cl).
Definition classList_remove (c : string) : podElement → podElement :=
  set_classList (λ cl, cl ∖ {[c]}).
Definition classList_contains (c : string) (p : podElement) : bool :=
  bool_decide (c ∈ classList p).

Definition set_style (opacity : string) (tr : transform) (p : podElement) : podElement :=
  mkPod (pod_id p) (dataset_downloadKey p) (classList p) opacity tr
    (style_display p) (style_zIndex p) (parentNode p) (previewContent p)
    (preview_title p) (preview_pointerEvents p).

Definition set_style_opacity (opacity : string) (p : podElement) : podElement :=
  set_style opacity (style_transform p) p.

Definition set_shown (display : string) (z : option Z) (p : podElement) : podElement :=
  mkPod (pod_id p) (dataset_downloadKey p) (classList p) (style_opacity p)
    (style_transform p) display z (parentNode p) (previewContent p)
    (preview_title p) (preview_pointerEvents p).

Definition set_parentNode (b : bool) (p : podElement) : podElement :=
  mkPod (pod_id p) (dataset_downloadKey p) (classList p) (style_opacity p)
    (style_transform p) (style_display p) (style_zIndex p) b (previewContent p)
    (preview_title p) (preview_pointerEvents p).

Definition set_previewContent (v : preview) (p : podElement) : podElement :=
  mkPod (pod_id p) (dataset_downloadKey p) (classList p) (style_opacity p)
    (style_transform p) (style_display p) (style_zIndex p) (parentNode p) v
    (preview_title p) (preview_pointerEvents p).

Definition set_previewLock (title pointerEvents : string) (p : podElement) : podElement :=
  mkPod (pod_id p) (dataset_downloadKey p) (classList p) (style_opacity p)
    (style_transform p) (style_display p) (style_zIndex p) (parentNode p)
    (previewContent p) title pointerEvents.

(** Updates of the variables. *)
Definition set_downloads (f : gmap ref download → gmap ref download) (s : t) : t :=
  mk (f (downloads s)) (cards s) (activeDownloadCards s) (cardUpdateThrottle s)
    (renamedFiles s) (stack s) (masterTooltip s) (aiRenamingPossible s)
    (ENABLE_AI_RENAMING s) (currentZenSidebarWidth s) (podsRow_height s).

Definition set_cards (f : gmap ref cardData → gmap ref cardData) (s : t) : t :=
  mk (downloads s) (f (cards s)) (activeDownloadCards s) (cardUpdateThrottle s)
    (renamedFiles s) (stack s) (masterTooltip s) (aiRenamingPossible s)
    (ENABLE_AI_RENAMING s) (currentZenSidebarWidth s) (podsRow_height s).

Definition set_activeDownloadCards (f : gmap string ref → gmap string ref)
    (s : t) : t :=
  mk (downloads s) (cards s) (f (activeDownloadCards s)) (cardUpdateThrottle s)
    (renamedFiles s) (stack s) (masterTooltip s) (aiRenamingPossible s)
    (ENABLE_AI_RENAMING s) (currentZenSidebarWidth s) (podsRow_height s).

Definition set_cardUpdateThrottle (f : gmap string Z → gmap string Z) (s : t) : t :=
  mk (downloads s) (cards s) (activeDownloadCards s) (f (cardUpdateThrottle s))
    (renamedFiles s) (stack s) (masterTooltip s) (aiRenamingPossible s)
    (ENABLE_AI_RENAMING s) (currentZenSidebarWidth s) (podsRow_height s).

Definition set_renamedFiles (f : gset string → gset string) (s : t) : t :=
  mk (downloads s) (cards s) (activeDownloadCards s) (cardUpdateThrottle s)
    (f (renamedFiles s)) (stack s) (masterTooltip s) (aiRenamingPossible s)
    (ENABLE_AI_RENAMING s) (currentZenSidebarWidth s) (podsRow_height s).

Definition set_stack (f : Stack.t → Stack.t) (s : t) : t :=
  mk (downloads s) (cards s) (activeDownloadCards s) (cardUpdateThrottle s)
    (renamedFiles s) (f (stack s)) (masterTooltip s) (aiRenamingPossible s)
    (ENABLE_AI_RENAMING s) (currentZenSidebarWidth s) (podsRow_height s).

Definition set_masterTooltip (f : tooltip → tooltip) (s : t) : t :=
  mk (downloads s) (cards s) (activeDownloadCards s) (cardUpdateThrottle s)
    (renamedFiles s) (stack s) (f (masterTooltip s)) (aiRenamingPossible s)
    (ENABLE_AI_RENAMING s) (currentZenSidebarWidth s) (podsRow_height s).

Definition set_currentZenSidebarWidth (w : string) (s : t) : t :=
  mk (downloads s) (cards s) (activeDownloadCards s) (cardUpdateThrottle s)
    (renamedFiles s) (stack s) (masterTooltip s) (aiRenamingPossible s)
    (ENABLE_AI_RENAMING s) w (podsRow_height s).

(** ** Reading through the stores *)

(** [activeDownloadCards.get(key)]: the card object a key leads to. *)
Definition getCardRef (s : t) (key : string) : option ref :=
  activeDownloadCards s !! key.

Definition getCard (s : t) (key : string) : option cardData :=
  getCardRef s key ≫= λ r, cards s !! r.

(** An assignment to a field of a card object. *)
Definition updCard (r : ref) (f : cardData → cardData) : t → t :=
  set_cards (alter f r).

Definition updPod (r : ref) (f : podElement → podElement) : t → t :=
  updCard r (set_podElement f).

(** An assignment to a field of a download object. *)
Definition updDownload (r : ref) (f : download → download) : t → t :=
  set_downloads (alter f r).

Definition orderedPodKeys (s : t) : list string := Stack.orderedPodKeys (stack s).
Definition focusedDownloadKey (s : t) : option string :=
  Stack.focusedDownloadKey (stack s).

(** The timer of the resize observer, and the callbacks among which there
    is none. *)
Definition isResizeTimer (task : task) : bool :=
  match task with
  | SidebarResizeTimer _ => true
  | _ => false
  end.

Definition noResizeTimer (tasks : list task) : Prop :=
  Forall (λ task, isResizeTimer task = false) tasks.

(** The width of the tooltip and the variable it is computed from. *)
Definition widths (s : t) : string * string :=
  (tt_width (masterTooltip s), currentZenSidebarWidth s).

(** The state when the listeners are attached. *)
Definition initialTooltip : tooltip :=
  mkTooltip "flex" "0" "scaleY(0.8) translateY(10px)" "350px"
    "Tooltip Title" "Tooltip Status" "#a0a0a0" "Tooltip Progress" ""
    "Original Filename" "none" true "none".

(** The connection test has set [aiRenamingPossible] and
    [ENABLE_AI_RENAMING] by then, to the same value. *)
Definition initial (aiRenamingPossible : bool) : t :=
  mk ∅ ∅ ∅ ∅ ∅ Stack.initial initialTooltip aiRenamingPossible
    aiRenamingPossible "" "0px".

Definition set_podsRow_height (h : string) (s : t) : t :=
  mk (downloads s) (cards s) (activeDownloadCards s) (cardUpdateThrottle s)
    (renamedFiles s) (stack s) (masterTooltip s) (aiRenamingPossible s)
    (ENABLE_AI_RENAMING s) (currentZenSidebarWidth s) h.

(** ** The invariant of the stores

    The key a card is filed under is the key the card records and the key
    its pod element carries; the keys of the map are the keys of the
    ordered list, which has no duplicates; the focus is a listed key. *)

(** The two places a card records its key in. *)
Definition keysOf (c : cardData) : string * string :=
  (key c, dataset_downloadKey (podElement_ c)).

Definition cardKeys (s : t) : gmap ref (string * string) := keysOf <$> cards s.

Definition cardsAgree (s : t) : Prop :=
  ∀ key r, activeDownloadCards s !! key = Some r → cardKeys s !! r = Some (key, key).

Definition keysAgree (s : t) : Prop :=
  dom (activeDownloadCards s) = list_to_set (orderedPodKeys s).

Definition wf (s : t) : Prop :=
  Stack.wf (stack s) ∧ keysAgree s ∧ cardsAgree s.

(** States with the same cards under the same keys, which may differ in the
    focus, in the tooltip and in what the cards show. *)
Definition sameCards (s s' : t) : Prop :=
  orderedPodKeys s' = orderedPodKeys s ∧
  activeDownloadCards s' = activeDownloadCards s ∧
  cardKeys s' = cardKeys s ∧
  downloads s' = downloads s ∧
  renamedFiles s' = renamedFiles s.

(** What the invariant reads of a state. *)
Definition storeOf (s : t) : Stack.t * gmap string ref * gmap ref (string * string) :=
  (stack s, activeDownloadCards s, cardKeys s).

#[global] Instance keysAgree_dec s : Decision (keysAgree s).
Proof. unfold keysAgree. apply _. Defined.

#[global] Instance cardsAgree_dec s : Decision (cardsAgree s).
Proof.
  refine (cast_if (decide (map_Forall
    (λ key r, cardKeys s !! r = Some (key, key)) (activeDownloadCards s))));
    by unfold cardsAgree.
Defined.

#[global] Instance wf_dec s : Decision (wf s).
Proof. unfold wf. apply _. Defined.

(** ** Lemmas on the stores *)

Lemma fmap_alter_preserved {A B} (g : A → B) (f : A → A) (r : ref)
    (m : gmap ref A) :
  (∀ x, g (f x) = g x) → g <$> alter f r m = g <$> m.
Proof.
  intros Hf. rewrite (fmap_alter g f id) by (intros; apply Hf).
  apply alter_id. done.
Qed.

Lemma fmap_foldr_alter_preserved {A B} (g : A → B) (f : A → A)
    (refs : list ref) (m : gmap ref A) :
  (∀ x, g (f x) = g x) → g <$> foldr (alter f) m refs = g <$> m.
Proof.
  intros Hf. induction refs as [|r refs IH]; [done|]. simpl.
  by rewrite fmap_alter_preserved.
Qed.

(** An update that is idempotent reaches each listed object once. *)
Lemma lookup_foldr_alter {A} (f : A → A) (refs : list ref) (m : gmap ref A) r :
  (∀ x, f (f x) = f x) →
  foldr (alter f) m refs !! r = if decide (r ∈ refs) then f <$> m !! r else m !! r.
Proof.
  intros Hf. induction refs as [|r' refs IH]; [done|]. simpl.
  destruct (decide (r = r')) as [->|Hne].
  - rewrite lookup_alter_eq, IH.
    rewrite (decide_True (P := r' ∈ r' :: refs)) by apply list_elem_of_here.
    case_decide; [|done]. destruct (m !! r'); simpl; by rewrite ?Hf.
  - rewrite lookup_alter_ne, IH by done.
    do 2 case_decide; [done| | |done]; exfalso; set_solver.
Qed.

Lemma cardKeys_updCard r f s :
  (∀ c, keysOf (f c) = keysOf c) → cardKeys (updCard r f s) = cardKeys s.
Proof. intros. by apply fmap_alter_preserved. Qed.

Lemma cardKeys_updPod r f s :
  (∀ p, dataset_downloadKey (f p) = dataset_downloadKey p) →
  cardKeys (updPod r f s) = cardKeys s.
Proof.
  intros Hf. apply cardKeys_updCard. intros c. unfold keysOf. simpl. by rewrite Hf.
Qed.

Lemma getCard_Some s key c :
  getCard s key = Some c ↔
  ∃ r, activeDownloadCards s !! key = Some r ∧ cards s !! r = Some c.
Proof. unfold getCard, getCardRef. rewrite bind_Some. done. Qed.

(** A key of a well-formed state leads to a card that records it. *)
Lemma cardsAgree_lookup s key r :
  cardsAgree s → activeDownloadCards s !! key = Some r →
  ∃ c, cards s !! r = Some c ∧ State.key c = key ∧
       dataset_downloadKey (podElement_ c) = key.
Proof.
  intros Hs Hr. apply Hs in Hr. unfold cardKeys, keysOf in Hr.
  rewrite lookup_fmap in Hr. destruct (cards s !! r) as [c|]; simplify_eq/=.
  eauto.
Qed.

(** No card is filed under two keys. *)
Lemma cardsAgree_inj s key1 key2 r :
  cardsAgree s → activeDownloadCards s !! key1 = Some r →
  activeDownloadCards s !! key2 = Some r → key1 = key2.
Proof. intros Hs H1%Hs H2%Hs. congruence. Qed.

Lemma keysAgree_elem_of s key :
  keysAgree s → key ∈ orderedPodKeys s ↔ is_Some (activeDownloadCards s !! key).
Proof.
  unfold keysAgree. intros Hs. by rewrite <-elem_of_dom, Hs, elem_of_list_to_set.
Qed.

#[global] Instance sameCards_preorder : PreOrder sameCards.
Proof.
  split; [done|]. intros s1 s2 s3 (?&?&?&?&?) (?&?&?&?&?).
  unfold sameCards. split_and!; congruence.
Qed.

(** The invariant looks at the cards, the keys and the focus only. *)
Lemma wf_sameCards s s' :
  sameCards s s' → wf s →
  (∀ f, focusedDownloadKey s' = Some f → f ∈ orderedPodKeys s') → wf s'.
Proof.
  unfold sameCards, wf, Stack.wf, keysAgree, cardsAgree, orderedPodKeys.
  intros (Hk & Hm & Hc & _) ((? & ? & _) & ? & ?) Hf. rewrite Hk, Hm, Hc. done.
Qed.

Lemma sameCards_set_masterTooltip f s : sameCards s (set_masterTooltip f s).
Proof. done. Qed.

Lemma sameCards_updCard r f s :
  (∀ c, keysOf (f c) = keysOf c) → sameCards s (updCard r f s).
Proof. intros Hf. unfold sameCards. by rewrite cardKeys_updCard. Qed.

Lemma sameCards_updPod r f s :
  (∀ p, dataset_downloadKey (f p) = dataset_downloadKey p) →
  sameCards s (updPod r f s).
Proof. intros Hf. unfold sameCards. by rewrite cardKeys_updPod. Qed.

Lemma sameCards_setFocus k s : sameCards s (set_stack (Stack.setFocus k) s).
Proof. done. Qed.

(** Goals [sameCards s s'] where [s'] is [s] after updates of cards that
    leave their keys alone. *)
Ltac solve_sameCards :=
  unfold sameCards, cardKeys, orderedPodKeys, updPod, updCard;
  repeat case_goal_match; simpl; split_and!; try done;
  rewrite ?fmap_alter_preserved
    by (intros; repeat case_goal_match;
        first [done | unfold keysOf; simpl; f_equal; auto]);
  first [done | reflexivity].

(** Goals [noResizeTimer tasks] for the callbacks of a handler that is
    written out. *)
Ltac solve_noResizeTimer :=
  unfold noResizeTimer; repeat case_goal_match; simplify_eq/=;
  rewrite ?Forall_app; repeat first [split | constructor | assumption].

Lemma noResizeTimer_app l k :
  noResizeTimer l → noResizeTimer k → noResizeTimer (l ++ k).
Proof. unfold noResizeTimer. rewrite Forall_app. tauto. Qed.

Lemma noResizeTimer_filter tasks :
  noResizeTimer tasks → filter (λ task, isResizeTimer task = true) tasks = [].
Proof.
  intros Hq. apply filter_none. intros task Hin.
  by rewrite (proj1 (Forall_forall _ _) Hq task Hin).
Qed.

(** The card a fresh reference gets is new to the store. *)
Lemma fresh_card s : cards s !! fresh (dom (cards s)) = None.
Proof. apply not_elem_of_dom, is_fresh. Qed.

Lemma list_to_set_remove_first (k : string) (keys : list string) :
  NoDup keys →
  list_to_set (C := gset string) (remove_first k keys) = list_to_set keys ∖ {[k]}.
Proof.
  intros Hnd. apply set_eq. intros x.
  rewrite elem_of_difference, !elem_of_list_to_set, not_elem_of_singleton.
  split.
  - intros Hx. split; [by eapply elem_of_remove_first_inv|].
    intros ->. by eapply not_elem_of_remove_first.
  - intros [? ?]. by apply elem_of_remove_first_ne.
Qed.

Lemma list_to_set_replace_first (k k' : string) (keys : list string) :
  NoDup keys → k ∈ keys →
  list_to_set (C := gset string) (replace_first k k' keys)
  = {[k']} ∪ list_to_set keys ∖ {[k]}.
Proof.
  intros Hnd Hk. apply set_eq. intros x.
  rewrite elem_of_union, elem_of_difference, !elem_of_list_to_set,
    elem_of_singleton, not_elem_of_singleton.
  by apply elem_of_replace_first.
Qed.

Lemma initial_wf ai : wf (initial ai).
Proof.
  split_and!; [|done|done]. split_and!; [constructor|set_solver|done].
Qed.

(** ** The part of the state the invariant reads *)

Lemma wf_storeOf s s' : storeOf s' = storeOf s → wf s → wf s'.
Proof.
  unfold storeOf, wf, keysAgree, cardsAgree, orderedPodKeys.
  intros [= Hs Hm Hc]. by rewrite Hs, Hm, Hc.
Qed.

Lemma storeOf_updDownload r f s : storeOf (updDownload r f s) = storeOf s.
Proof. done. Qed.

Lemma sameCards_set_currentZenSidebarWidth w s :
  sameCards s (set_currentZenSidebarWidth w s).
Proof. done. Qed.

Lemma storeOf_set_currentZenSidebarWidth w s :
  storeOf (set_currentZenSidebarWidth w s) = storeOf s.
Proof. done. Qed.

Lemma storeOf_set_masterTooltip f s : storeOf (set_masterTooltip f s) = storeOf s.
Proof. done. Qed.

Lemma storeOf_set_renamedFiles f s : storeOf (set_renamedFiles f s) = storeOf s.
Proof. done. Qed.

Lemma storeOf_updPod r f s :
  (∀ p, dataset_downloadKey (f p) = dataset_downloadKey p) →
  storeOf (updPod r f s) = storeOf s.
Proof. intros. unfold storeOf. by rewrite cardKeys_updPod. Qed.

Lemma storeOf_set_stack f s s' :
  storeOf s' = storeOf s → storeOf (set_stack f s') = storeOf (set_stack f s).
Proof. unfold storeOf, cardKeys. simpl. by intros [= -> -> ->]. Qed.

(** Re-keying a card: the card under [key] is filed under a new key that
    no pod has and that takes the place of [key] in the list, and the focus
    is the new key or another listed key.  The state is well formed
    again. *)
Lemma rekeyed_wf key newPath r s s' :
  wf s → activeDownloadCards s !! key = Some r →
  newPath ≠ "" → newPath ∉ orderedPodKeys s →
  orderedPodKeys s' = replace_first key newPath (orderedPodKeys s) →
  (∀ f, focusedDownloadKey s' = Some f →
        f = newPath ∨ f ∈ orderedPodKeys s ∧ f ≠ key) →
  activeDownloadCards s' = <[newPath := r]> (delete key (activeDownloadCards s)) →
  cardKeys s' = <[r := (newPath, newPath)]> (cardKeys s) →
  wf s'.
Proof.
  intros ((Hnd & Hne & _) & Hk & Hc) Hr Hnew Hfresh Hkeys Hfoc Hmap Hcards.
  assert (key ∈ orderedPodKeys s) as Hin
    by (apply keysAgree_elem_of; [done|eauto]).
  split_and!; [split_and!|..].
  - fold (orderedPodKeys s'). rewrite Hkeys. by apply NoDup_replace_first.
  - fold (orderedPodKeys s'). rewrite Hkeys, elem_of_replace_first by done.
    naive_solver.
  - intros f Hf%Hfoc. fold (orderedPodKeys s').
    by rewrite Hkeys, elem_of_replace_first by done.
  - unfold keysAgree in *. rewrite Hmap, Hkeys, dom_insert_L, dom_delete_L, Hk.
    by rewrite list_to_set_replace_first.
  - intros k' r'. rewrite Hmap, Hcards.
    intros [[<- <-]|[? [? Hr']%lookup_delete_Some]]%lookup_insert_Some;
      [by rewrite lookup_insert_eq|].
    rewrite lookup_insert_ne; [by apply Hc|].
    intros <-. by destruct (cardsAgree_inj s key k' r Hc Hr Hr').
Qed.

End State.
