(* ===== verification/Tooltip.v ===== *)
(** * Tooltip: what the master tooltip shows

    [updateUIForFocusedDownload] of [src/tidy-downloads.uc.js] (lines
    533-711): it moves the focus to the key it is given, fills the tooltip
    from the download of the focused card, starts the rename of a download
    that has just completed, asks for a layout pass and marks the focused
    pod.  [formatBytes] (lines 1653-1658) prints the sizes.

    Numbers are exact: [Math.round] of a quotient and the quotient of
    logarithms in [formatBytes] are computed on integers, which agrees with
    the script's floating point for byte counts below 2^53. *)

From Stdlib Require Import Ascii.
From S2P Require Import Prelude JsArray JsString Stack State.

Module Tooltip.
Import JsString State.

#[local] Open Scope Z_scope.

(** ** Numbers *)

(** [Math.round(a / b)] for a positive [b]: the nearest integer, halves
    upwards. *)
Definition roundDiv (a b : Z) : Z := (2 * a + b) `div` (2 * b).

(** A number of hundredths printed as [parseFloat(x.toFixed(2))] prints:
    without trailing zeros. *)
Definition showHundredths (h : Z) : string :=
  let whole := h `div` 100 in
  let frac := h `mod` 100 in
  if bool_decide (frac = 0) then pretty whole
  else if bool_decide (frac `mod` 10 = 0)
  then pretty whole +:+ "." +:+ pretty (frac `div` 10)
  else pretty whole +:+ "." +:+ (if bool_decide (frac < 10) then "0" else "")
         +:+ pretty frac.

Definition sizes : list string := ["B"; "KB"; "MB"; "GB"; "TB"].

Definition formatBytes (b : Z) : string :=
  if bool_decide (b = 0) then "0 B"
  else if bool_decide (b < 0) then "NaN undefined"
  else
    let i := Z.log2 b `div` 10 in
    showHundredths (roundDiv (100 * b) (1024 ^ i)) +:+ " " +:+
    default "undefined" (sizes !! Z.to_nat i).

(** ** The texts *)

Definition displayName (d : download) (c : cardData) : string :=
  default "" (aiName d ||| Some (originalFilename c) ||| Some "File").

(** [!download.succeeded && !download.error && !download.canceled]. *)
Definition inProgress (d : download) : bool :=
  negb (succeeded d) && negb (bool_decide (is_Some (error d))) && negb (canceled d).

(** The status line and its colour in the states that are not "renamed". *)
Definition statusOf (d : download) : string * string :=
  match error d with
  | Some e =>
      ("Error: " +:+ default "" (message e ||| Some "Download failed"), "#ff6b6b")
  | None =>
      if canceled d then ("Download canceled", "#ff9f43")
      else if succeeded d then ("Download completed", "#1dd1a1")
      else if bool_decide (is_Some (currentBytes d)) &&
              bool_decide (0 < totalBytes d) && hasProgress d
      then ("Downloading... " +:+
              pretty (roundDiv (100 * default 0 (currentBytes d)) (totalBytes d))
              +:+ "%", "#54a0ff")
      else if inProgress d then ("Downloading...", "#54a0ff")
      else ("Starting download...", "#b5b5b5")
  end.

(** The progress line, when it is shown. *)
Definition progressOf (d : download) : string :=
  if succeeded d then
    let finalSize :=
      match currentBytes d with
      | Some current => if bool_decide (0 < current) then current else totalBytes d
      | None => totalBytes d
      end in
    formatBytes finalSize
  else if bool_decide (is_Some (currentBytes d)) && bool_decide (0 < totalBytes d)
  then formatBytes (default 0 (currentBytes d)) +:+ " / " +:+
       formatBytes (totalBytes d)
  else if inProgress d then "Processing..."
  else "Calculating size...".

(** [!isNaN(parseFloat(w))]: after leading white space and a sign come a
    digit, a dot and a digit, or [Infinity]. *)
Definition parsesAsNumber (w : string) : bool :=
  let l := trimStartL (chars w) in
  let l := match l with
           | c :: l' => if bool_decide (c = "+"%char ∨ c = "-"%char) then l' else l
           | [] => l
           end in
  match l with
  | c :: l' =>
      isDigit c ||
      (bool_decide (c = "."%char) && from_option isDigit false (head l')) ||
      bool_decide (chars "Infinity" `prefix_of` l)
  | [] => false
  end.

Definition widthOf (currentZenSidebarWidth : string) : string :=
  if truthy (Some currentZenSidebarWidth) &&
     bool_decide (currentZenSidebarWidth ≠ "0px") &&
     parsesAsNumber currentZenSidebarWidth
  then "calc(" +:+ currentZenSidebarWidth +:+ " - 20px)"
  else "350px".

(** ** Updates of the tooltip *)

Definition hide (tt : tooltip) : tooltip :=
  mkTooltip (tt_display tt) "0" "scaleY(0.8) translateY(10px)" (tt_width tt)
    (title_text tt) (status_text tt) (status_color tt) (progress_text tt)
    (progress_display tt) (original_text tt) (original_display tt)
    (original_lineThrough tt) (undo_display tt).

Definition set_display (d : string) (tt : tooltip) : tooltip :=
  mkTooltip d (tt_opacity tt) (tt_transform tt) (tt_width tt)
    (title_text tt) (status_text tt) (status_color tt) (progress_text tt)
    (progress_display tt) (original_text tt) (original_display tt)
    (original_lineThrough tt) (undo_display tt).

Definition set_width (w : string) (tt : tooltip) : tooltip :=
  mkTooltip (tt_display tt) (tt_opacity tt) (tt_transform tt) w
    (title_text tt) (status_text tt) (status_color tt) (progress_text tt)
    (progress_display tt) (original_text tt) (original_display tt)
    (original_lineThrough tt) (undo_display tt).

Definition set_title (n : string) (tt : tooltip) : tooltip :=
  mkTooltip (tt_display tt) (tt_opacity tt) (tt_transform tt) (tt_width tt)
    n (status_text tt) (status_color tt) (progress_text tt)
    (progress_display tt) (original_text tt) (original_display tt)
    (original_lineThrough tt) (undo_display tt).

Definition set_status (text color : string) (tt : tooltip) : tooltip :=
  mkTooltip (tt_display tt) (tt_opacity tt) (tt_transform tt) (tt_width tt)
    (title_text tt) text color (progress_text tt)
    (progress_display tt) (original_text tt) (original_display tt)
    (original_lineThrough tt) (undo_display tt).

Definition set_status_text (text : string) (tt : tooltip) : tooltip :=
  set_status text (status_color tt) tt.

Definition set_progress_text (text : string) (tt : tooltip) : tooltip :=
  mkTooltip (tt_display tt) (tt_opacity tt) (tt_transform tt) (tt_width tt)
    (title_text tt) (status_text tt) (status_color tt) text
    (progress_display tt) (original_text tt) (original_display tt)
    (original_lineThrough tt) (undo_display tt).

(** The three elements that are shown or hidden together. *)
Definition set_displays (progress original undo : string) (tt : tooltip) : tooltip :=
  mkTooltip (tt_display tt) (tt_opacity tt) (tt_transform tt) (tt_width tt)
    (title_text tt) (status_text tt) (status_color tt) (progress_text tt)
    progress (original_text tt) original (original_lineThrough tt) undo.

Definition set_original (text : string) (lineThrough : bool) (tt : tooltip) : tooltip :=
  mkTooltip (tt_display tt) (tt_opacity tt) (tt_transform tt) (tt_width tt)
    (title_text tt) (status_text tt) (status_color tt) (progress_text tt)
    (progress_display tt) text (original_display tt) lineThrough (undo_display tt).

Definition set_undo_display (d : string) (tt : tooltip) : tooltip :=
  set_displays (progress_display tt) (original_display tt) d tt.

(** ** The content of the tooltip for a download *)

(** Title, status, original name, progress and undo button (step 1 of
    the function). *)
Definition fillContent (d : download) (c : cardData) (tt : tooltip) : tooltip :=
  let tt := set_title (displayName d c) tt in
  let tt :=
    if truthy (aiName d) && succeeded d then
      set_displays "none" "block" "inline-flex"
        (set_original (originalFilename c) (original_lineThrough tt)
           (set_status "Download renamed to:" "#a0a0a0" tt))
    else
      let '(text, color) := statusOf d in
      set_status text color (set_displays "block" "none" "none" tt) in
  if bool_decide (progress_display tt ≠ "none")
  then set_progress_text (progressOf d) tt else tt.

(** ** The rename trigger *)

(** The condition under which a completed download is sent to the rename
    workflow (step 5). *)
Definition shouldRename (s : t) (d : download) (c : cardData) : bool :=
  ENABLE_AI_RENAMING s && aiRenamingPossible s && succeeded d && complete c &&
  truthy (target_path d) &&
  negb (bool_decide (default "" (target_path d) ∈ renamedFiles s)) &&
  negb (classList_contains "renaming-initiated" (podElement_ c)).

(** ** The focused pod *)

(** Step 6: the pod of each card of the map gets or loses the class
    [focused-pod]. *)
Definition markFocused (focused : option string) (c : cardData) : cardData :=
  if bool_decide (Some (key c) = focused)
  then set_podElement (classList_add "focused-pod") c
  else set_podElement (classList_remove "focused-pod") c.

Definition markFocusedPods (s : t) : t :=
  let refs := (map_to_list (activeDownloadCards s)).*2 in
  set_cards (λ cs, foldr (alter (markFocused (focusedDownloadKey s))) cs refs) s.

(** ** The function *)

(** [activeDownloadCards.get(focusedDownloadKey)] for a key that is not
    [null]: the card object and its content. *)
Definition focusedCard (s : t) (keyToFocus : option string) : option (ref * cardData) :=
  if truthy keyToFocus then
    key ← keyToFocus; r ← getCardRef s key; c ← cards s !! r; Some (r, c)
  else None.

(** The branch for a focused key that has a card: the tooltip is shown and
    filled, and the rename of a download that has just completed is
    started. *)
Definition showCard (oldFocusedKey keyToFocus : option string)
    (isNewOrSignificantUpdate : bool) (r : ref) (cardDataToFocus : cardData)
    (s : t) : t * list task :=
  let s := set_masterTooltip (set_display "flex") s in
  let s :=
    if bool_decide (oldFocusedKey ≠ keyToFocus) || isNewOrSignificantUpdate
    then set_masterTooltip hide s else s in
  match downloads s !! download_ cardDataToFocus with
  | None =>
      (if bool_decide (tt_opacity (masterTooltip s) ≠ "0")
       then set_masterTooltip hide s else s, [])
  | Some download =>
      let s := set_masterTooltip (fillContent download cardDataToFocus) s in
      let s :=
        set_masterTooltip (set_width (widthOf (currentZenSidebarWidth s))) s in
      if shouldRename s download cardDataToFocus then
        let s := updPod r (classList_add "renaming-initiated") s in
        let s :=
          set_masterTooltip
            (λ tt, set_undo_display "none"
                     (set_status_text "Analyzing for rename..." tt)) s in
        (s, [RenameTimer (download_ cardDataToFocus) r (default "" keyToFocus)])
      else (s, [])
  end.

Definition updateUIForFocusedDownload (keyToFocus : option string)
    (isNewOrSignificantUpdate : bool) (s : t) : t * list task :=
  let oldFocusedKey := focusedDownloadKey s in
  let s := set_stack (Stack.setFocus keyToFocus) s in
  let '(s, tasks) :=
    match focusedCard s keyToFocus with
    | Some (r, cardDataToFocus) =>
        showCard oldFocusedKey keyToFocus isNewOrSignificantUpdate r
          cardDataToFocus s
    | None => (set_masterTooltip hide s, [])
    end in
  (markFocusedPods s, tasks ++ [LayoutFrame]).

(** The width of the tooltip is the one the variable asks for. *)
Definition widthSynced (s : t) : Prop := (widths s).1 = widthOf (widths s).2.

#[global] Instance widthSynced_dec s : Decision (widthSynced s).
Proof. unfold widthSynced. apply _. Defined.

(** ** Sample downloads *)

Definition downloading (path : string) (current total : Z) : download :=
  mkDownload (Some path) None None None None None false None false
    (Some current) total true None.

Definition completed (path : string) (size : Z) : download :=
  mkDownload (Some path) None None None None None true None false
    (Some size) size true None.

(** ** Numbers *)

Lemma roundDiv_spec a b :
  0 < b → 2 * b * roundDiv a b ≤ 2 * a + b < 2 * b * (roundDiv a b + 1).
Proof. intros. unfold roundDiv. by apply Zdiv_floor_spec; [lia|]. Qed.

(** The percentage of a download that has not received more than its
    total is between 0 and 100. *)
Theorem percent_bounds current total :
  0 ≤ current ≤ total → 0 < total →
  0 ≤ roundDiv (100 * current) total ≤ 100.
Proof. intros. pose proof (roundDiv_spec (100 * current) total). nia. Qed.

Lemma percent_bounds_witness : 0 ≤ roundDiv (100 * 512) 2048 ≤ 100.
Proof. apply percent_bounds; lia. Defined.

(** Sizes print as the script prints them; a size of 1024^5 bytes or
    more has no unit. *)
Example formatBytes_examples :
  formatBytes 0 = "0 B" ∧ formatBytes 1536 = "1.5 KB" ∧
  formatBytes 1048575 = "1024 KB" ∧ formatBytes 123456789 = "117.74 MB" ∧
  formatBytes (1024 ^ 5) = "1 undefined".
Proof. by vm_compute. Qed.

(** ** The texts *)

(** The status line has one of four colours: the grey of "Starting
    download..." is never used, because a download that has not ended, has
    no error and was not cancelled is "Downloading...". *)
Lemma statusOf_color d :
  (statusOf d).2 ∈ ["#ff6b6b"; "#ff9f43"; "#1dd1a1"; "#54a0ff"].
Proof.
  unfold statusOf, inProgress.
  destruct (error d), (canceled d), (succeeded d); simpl.
  all: repeat case_match; simplify_eq/=.
  all: set_solver.
Qed.

(** The undo button is shown exactly for a download that has succeeded and
    carries a name given by the rename. *)
Lemma fillContent_undo d c tt :
  undo_display (fillContent d c tt) =
  if truthy (aiName d) && succeeded d then "inline-flex" else "none".
Proof.
  unfold fillContent. destruct (truthy (aiName d) && succeeded d); simpl.
  - by repeat case_bool_decide.
  - destruct (statusOf d). by repeat case_bool_decide.
Qed.

Lemma fillContent_title d c tt : title_text (fillContent d c tt) = displayName d c.
Proof.
  unfold fillContent. destruct (truthy (aiName d) && succeeded d); simpl.
  - by repeat case_bool_decide.
  - destruct (statusOf d). by repeat case_bool_decide.
Qed.

(** The name the rename gave comes first, then the name of the card. *)
Lemma displayName_aiName d c name :
  aiName d = Some name → name ≠ "" → displayName d c = name.
Proof.
  intros Hd Hn. unfold displayName. rewrite Hd.
  rewrite (js_or_truthy_l (Some name)) by by apply truthy_Some.
  by rewrite js_or_truthy_l by by apply truthy_Some.
Qed.

(** ** The focused pod *)

Lemma markFocused_keysOf focused c : keysOf (markFocused focused c) = keysOf c.
Proof. unfold markFocused. by case_bool_decide. Qed.

Lemma markFocused_idemp focused c :
  markFocused focused (markFocused focused c) = markFocused focused c.
Proof.
  unfold markFocused.
  destruct (bool_decide (Some (key c) = focused)) eqn:Hk;
    cbn [key set_podElement]; rewrite Hk.
  all: unfold set_podElement, classList_add, classList_remove, set_classList.
  all: simpl; do 2 f_equal; set_solver.
Qed.

Lemma sameCards_markFocusedPods s : sameCards s (markFocusedPods s).
Proof.
  unfold sameCards, markFocusedPods, cardKeys. simpl.
  rewrite fmap_foldr_alter_preserved by apply markFocused_keysOf. done.
Qed.

Lemma stack_markFocusedPods s : stack (markFocusedPods s) = stack s.
Proof. done. Qed.

(** The pods of the map after the pass: the class is on the pod whose card
    records the focused key, and on no other. *)
Lemma markFocusedPods_lookup s key r :
  activeDownloadCards s !! key = Some r →
  cards (markFocusedPods s) !! r = markFocused (focusedDownloadKey s) <$> cards s !! r.
Proof.
  intros Hr. unfold markFocusedPods. simpl.
  rewrite lookup_foldr_alter by apply markFocused_idemp.
  rewrite decide_True; [done|].
  apply list_elem_of_fmap. exists (key, r). by rewrite elem_of_map_to_list.
Qed.

(** ** The function *)

Lemma showCard_sameCards old k b r c s :
  sameCards s (showCard old k b r c s).1.
Proof.
  unfold showCard, sameCards, cardKeys, orderedPodKeys.
  repeat case_match; simpl; split_and!; try done.
  all: by apply fmap_alter_preserved.
Qed.

Lemma showCard_stack old k b r c s : stack (showCard old k b r c s).1 = stack s.
Proof. unfold showCard. by repeat case_match. Qed.

Lemma updateUIForFocusedDownload_sameCards k b s :
  sameCards s (updateUIForFocusedDownload k b s).1.
Proof.
  unfold updateUIForFocusedDownload.
  destruct (focusedCard _ k) as [[r c]|].
  - destruct (showCard _ _ _ _ _ _) as [s' tasks] eqn:Hs'. simpl.
    etrans; [|apply sameCards_markFocusedPods].
    etrans; [apply (sameCards_setFocus k)|].
    change s' with (s', tasks).1. rewrite <-Hs'. apply showCard_sameCards.
  - simpl. etrans; [|apply sameCards_markFocusedPods]. done.
Qed.

Lemma widthSynced_widths s s' : widths s' = widths s → widthSynced s → widthSynced s'.
Proof. unfold widthSynced. by intros ->. Qed.

(** The presenter leaves the tooltip as wide as the variable asks. *)
Lemma showCard_widthSynced old k b r c s :
  widthSynced s → widthSynced (showCard old k b r c s).1.
Proof.
  unfold widthSynced, widths, showCard. intros Hs.
  by repeat case_goal_match.
Qed.

Lemma updateUIForFocusedDownload_widthSynced k b s :
  widthSynced s → widthSynced (updateUIForFocusedDownload k b s).1.
Proof.
  intros Hs. unfold updateUIForFocusedDownload.
  destruct (focusedCard _ k) as [[r c]|]; [|done].
  pose proof (showCard_widthSynced (focusedDownloadKey s) k b r c
                (set_stack (Stack.setFocus k) s) Hs) as Hs'.
  by destruct (showCard _ _ _ _ _ _) as [s' tasks].
Qed.

Lemma showCard_noResizeTimer old k b r c s :
  noResizeTimer (showCard old k b r c s).2.
Proof. unfold showCard. solve_noResizeTimer. Qed.

Lemma updateUIForFocusedDownload_noResizeTimer k b s :
  noResizeTimer (updateUIForFocusedDownload k b s).2.
Proof.
  unfold updateUIForFocusedDownload.
  destruct (focusedCard _ k) as [[r c]|]; [|solve_noResizeTimer].
  pose proof (showCard_noResizeTimer (focusedDownloadKey s) k b r c
                (set_stack (Stack.setFocus k) s)).
  destruct (showCard _ _ _ _ _ _) as [s' tasks].
  by apply noResizeTimer_app; [|solve_noResizeTimer].
Qed.

Lemma updateUIForFocusedDownload_stack k b s :
  stack (updateUIForFocusedDownload k b s).1 = Stack.setFocus k (stack s).
Proof.
  unfold updateUIForFocusedDownload.
  destruct (focusedCard _ k) as [[r c]|]; [|done].
  destruct (showCard _ _ _ _ _ _) as [s' tasks] eqn:Hs'. simpl.
  change s' with (s', tasks).1. by rewrite <-Hs', showCard_stack.
Qed.

Lemma focusedDownloadKey_updateUI k b s :
  focusedDownloadKey (updateUIForFocusedDownload k b s).1 = k.
Proof. unfold focusedDownloadKey. by rewrite updateUIForFocusedDownload_stack. Qed.

Lemma orderedPodKeys_updateUI k b s :
  orderedPodKeys (updateUIForFocusedDownload k b s).1 = orderedPodKeys s.
Proof. apply updateUIForFocusedDownload_sameCards. Qed.

(** The function moves the focus to the key it is given, whatever the
    key is, and leaves the keys and the cards where they are. *)
Theorem updateUIForFocusedDownload_focus k b s :
  focusedDownloadKey (updateUIForFocusedDownload k b s).1 = k ∧
  orderedPodKeys (updateUIForFocusedDownload k b s).1 = orderedPodKeys s ∧
  activeDownloadCards (updateUIForFocusedDownload k b s).1 = activeDownloadCards s.
Proof.
  pose proof (updateUIForFocusedDownload_sameCards k b s) as (? & ? & _).
  unfold focusedDownloadKey. by rewrite updateUIForFocusedDownload_stack.
Qed.

(** The invariant is kept when the key is a listed one or none. *)
Lemma updateUIForFocusedDownload_wf k b s :
  wf s → (∀ key, k = Some key → key ∈ orderedPodKeys s) →
  wf (updateUIForFocusedDownload k b s).1.
Proof.
  intros Hs Hk. apply (wf_sameCards s); [apply updateUIForFocusedDownload_sameCards|done|].
  by rewrite focusedDownloadKey_updateUI, orderedPodKeys_updateUI.
Qed.

(** The state of the last step of the function: the cards are those of the
    state at the call and the focus is the key of the call. *)
Lemma updateUIForFocusedDownload_marked k b s :
  ∃ s1, sameCards s s1 ∧ focusedDownloadKey s1 = k ∧
        (updateUIForFocusedDownload k b s).1 = markFocusedPods s1.
Proof.
  unfold updateUIForFocusedDownload.
  destruct (focusedCard _ k) as [[r c]|].
  - destruct (showCard _ _ _ _ _ _) as [s' tasks] eqn:Hs'. simpl.
    exists s'. split_and!; [| |done]; change s' with (s', tasks).1; rewrite <-Hs'.
    + etrans; [apply (sameCards_setFocus k)|apply showCard_sameCards].
    + unfold focusedDownloadKey. by rewrite showCard_stack.
  - simpl. eexists. by split_and!; [| |done].
Qed.

Lemma markFocused_class focused c :
  classList_contains "focused-pod" (podElement_ (markFocused focused c)) = true
  ↔ focused = Some (key c).
Proof.
  unfold markFocused, classList_contains, classList_add, classList_remove.
  rewrite bool_decide_eq_true. case_bool_decide; simpl; set_solver.
Qed.

(** C18. After the function has run the class [focused-pod] is on the pod
    of the focused key and on no other pod of the map: the pod of each key
    of the map carries the class exactly when its key is the key that was
    passed. *)
Theorem updateUIForFocusedDownload_focused_pod k b s key r :
  cardsAgree s → activeDownloadCards s !! key = Some r →
  ∃ c, cards (updateUIForFocusedDownload k b s).1 !! r = Some c ∧
       State.key c = key ∧
       (classList_contains "focused-pod" (podElement_ c) = true ↔ k = Some key).
Proof.
  intros Hs Hr.
  destruct (updateUIForFocusedDownload_marked k b s)
    as (s1 & (_ & Hmap & Hkeys & _) & Hf & ->).
  assert (cardsAgree s1) as Hs1 by (unfold cardsAgree; by rewrite Hmap, Hkeys).
  rewrite <-Hmap in Hr. rewrite (markFocusedPods_lookup s1 key r Hr), Hf.
  destruct (cardsAgree_lookup s1 key r Hs1 Hr) as (c & -> & <- & _).
  exists (markFocused k c). split_and!; [done| |apply markFocused_class].
  by pose proof (markFocused_keysOf k c) as [= ->].
Qed.

(** ** Two pods *)

Definition samplePod (key : string) (classes : gset string) : podElement :=
  mkPod "pod" key classes "1" (Target 0) "flex" None true PreviewEmpty "" "auto".

Definition sampleCard (key : string) (d : ref) (classes : gset string) : cardData :=
  mkCard (samplePod key classes) d false key "file" None None 0 true false true
    None None false.

(** Two downloads in progress; the pod of the first one carries the class
    of the focus. *)
Definition twoPods : t :=
  set_stack (λ _, Stack.mk ["/dl/a.zip"; "/dl/b.zip"] (Some "/dl/a.zip") None)
    (set_activeDownloadCards (λ _, {[ "/dl/a.zip" := 0%nat; "/dl/b.zip" := 1%nat ]})
       (set_cards (λ _, {[ 0%nat := sampleCard "/dl/a.zip" 0%nat {[ "focused-pod" ]};
                          1%nat := sampleCard "/dl/b.zip" 1%nat ∅ ]})
          (set_downloads (λ _, {[ 0%nat := downloading "/dl/a.zip" 10 100;
                                  1%nat := downloading "/dl/b.zip" 20 100 ]})
             (State.initial true)))).

Lemma twoPods_cardsAgree : cardsAgree twoPods.
Proof.
  intros key r Hr.
  change (activeDownloadCards twoPods)
    with ({[ "/dl/a.zip" := 0%nat; "/dl/b.zip" := 1%nat ]} : gmap string ref) in Hr.
  apply lookup_insert_Some in Hr as [[<- <-]|[_ [<- <-]%lookup_singleton_Some]];
    reflexivity.
Qed.

(** The focus moves from the first pod to the second: the first pod loses
    the class. *)
Lemma updateUIForFocusedDownload_focused_pod_witness :
  ∃ c, cards (updateUIForFocusedDownload (Some "/dl/b.zip") false twoPods).1 !! 0%nat
       = Some c ∧
       State.key c = "/dl/a.zip" ∧
       (classList_contains "focused-pod" (podElement_ c) = true
        ↔ Some "/dl/b.zip" = Some "/dl/a.zip").
Proof.
  apply updateUIForFocusedDownload_focused_pod;
    [apply twoPods_cardsAgree | reflexivity].
Defined.

End Tooltip.
