(* ===== verification/Pods.v ===== *)
(** * Pods: the cards of the downloads

    The part of [src/tidy-downloads.uc.js] that creates, updates and removes
    the card of a download: [getDownloadKey], [getSafeFilename],
    [setGenericIcon], [setCompletedFilePreview], [createOrUpdatePodElement]
    with the entrance signal of [initZenAnimationObserver] and
    [triggerCardEntrance], the throttle [throttledCreateOrUpdateCard],
    [removeCard] with the body of its timer, and the close button of the
    tooltip.

    A handler takes the state and returns the new state with the callbacks
    it has set up.  What the host decides is an argument: the time, whether
    the animation element of the browser is present, whether [cancel]
    throws. *)

From Stdlib Require Import Ascii.
From S2P Require Import Prelude JsArray JsString Stack Filename State Tooltip.

Module Pods.
Import JsString State Tooltip.

#[local] Open Scope Z_scope.

Definition CARD_AUTOHIDE_DELAY_MS : Z := 20000.
Definition CARD_INTERACTION_GRACE_PERIOD_MS : Z := 5000.

(** ** Keys and names *)

Definition getDownloadKey (now : Z) (d : download) : string :=
  if truthy (target_path d) then default "" (target_path d)
  else if truthy (id_ d) then default "" (id_ d)
  else "temp_" +:+ default "" (source_url d ||| url d ||| Some "unknown")
         +:+ "_" +:+ pretty now.

(** [url.match(/\/([^\/\?]+)$/)]: what follows the last slash, when it is
    not empty and holds no question mark. *)
Definition urlFileName (url : string) : option string :=
  match lastIndexOf "/" url with
  | Some i =>
      let segment := substringFrom (S i) url in
      if bool_decide (segment ≠ "") && negb (includesChar "?" segment)
      then Some segment else None
  | None => None
  end.

Definition isPathSeparator (c : ascii) : bool :=
  bool_decide (c = "\"%char ∨ c = "/"%char).

Definition getSafeFilename (d : download) : string :=
  if truthy (filename d) then default "" (filename d)
  else if truthy (target_path d)
  then lastSegmentBy isPathSeparator (default "" (target_path d))
  else
    match (if truthy (source_url d) then source_url d ≫= urlFileName else None) with
    | Some name => name
    | None => "Untitled"
    end.

(** ** Previews *)

Definition genericIcon (contentType : option string) : icon :=
  match contentType with
  | Some contentType =>
      if includes contentType "image/" then IconImage
      else if includes contentType "video/" then IconVideo
      else if includes contentType "audio/" then IconAudio
      else if includes contentType "text/" then IconText
      else if includes contentType "application/pdf" then IconPdf
      else if includes contentType "application/zip" ||
              includes contentType "application/x-rar" then IconArchive
      else if includes contentType "application/" then IconPackage
      else IconFile
  | None => IconFile
  end.

Definition setGenericIcon (contentType : option string) : podElement → podElement :=
  set_previewContent (PreviewIcon (genericIcon contentType)).

Definition textMimeTypes : list string :=
  ["text/plain"; "text/markdown"; "application/javascript"; "text/javascript";
   "text/css"; "text/html"; "application/json"; "application/xml"; "text/xml"].

Definition startsWith (s pre : string) : bool :=
  bool_decide (chars pre `prefix_of` chars s).

(** [`file:///${path.replace(/\\/g, '/')}`]. *)
Definition imageSrc (path : string) : string :=
  "file:///" +:+ replaceEach (λ c, bool_decide (c = "\"%char)) "/" path.

(** The part of [setCompletedFilePreview] that runs before its first
    [await]: a text file waits for its snippet, an image gets an [img]
    element, anything else the generic icon. *)
Definition setCompletedFilePreview (r : ref) (d : download)
    : (podElement → podElement) * list task :=
  if truthy (target_path d) &&
     from_option (λ ct, bool_decide (toLowerCase ct ∈ textMimeTypes)) false
       (contentType d)
  then (id, [SnippetRead r (default "" (target_path d))])
  else if from_option (λ ct, startsWith ct "image/") false (contentType d) &&
          truthy (target_path d)
  then (set_previewContent (PreviewImage (imageSrc (default "" (target_path d)))),
        [ImageLoad r])
  else if truthy (target_path d) then
    let filePath := toLowerCase (default "" (target_path d)) in
    if bool_decide (Exists (λ ext, endsWith filePath ext = true)
                      Filename.IMAGE_EXTENSIONS)
    then (set_previewContent (PreviewImage (imageSrc (default "" (target_path d)))),
          [ImageLoad r])
    else (setGenericIcon (contentType d), [])
  else (setGenericIcon None, []).

(** The two callbacks of the preview: the snippet has been read, the image
    failed to load. *)
Definition snippetRead (r : ref) (snippet : option string) : t → t :=
  if truthy snippet
  then updPod r (set_previewContent (PreviewSnippet (default "" snippet)))
  else id.

Definition imageError (r : ref) : t → t :=
  updPod r (setGenericIcon (Some "image/generic")).

(** ** A new card *)

Definition isWordChar (c : ascii) : bool :=
  isLower c || isUpper c || isDigit c || bool_decide (c = "_"%char).

Definition podId (key : string) : string :=
  "download-pod-" +:+ replaceEach (λ c, negb (isWordChar c)) "-" key.

Definition newPodElement (key : string) (d : download) : podElement :=
  setGenericIcon (contentType d ||| Some "application/octet-stream")
    (mkPod (podId key) key {["download-pod"]} "0" EntranceInitial "flex" None
       false PreviewEmpty "Click to open file" "").

Definition newCardData (podElement : podElement) (download : ref)
    (key safeFilename : string) (now : Z) : cardData :=
  mkCard podElement download false key safeFilename None None now
    false false false None None false.

(** [podsRowContainerElement.querySelector(`#${podElement.id}`)]: a pod of
    the row has this id. *)
Definition existingDOMPod (s : t) (podId : string) : bool :=
  bool_decide (map_Exists (λ _ c, parentNode (podElement_ c) = true ∧
                                  pod_id (podElement_ c) = podId) (cards s)).

(** [podsRowContainerElement.appendChild(podElement)] with the flag. *)
Definition appendToRow (c : cardData) : cardData :=
  set_domAppended true (set_podElement (set_parentNode true) c).

(** ** The entrance signal *)

Definition triggerCardEntrance (downloadKeyToTrigger : string) (s : t)
    : t * list task :=
  match getCardRef s downloadKeyToTrigger with
  | Some r =>
      match cards s !! r with
      | Some cardData =>
          if isWaitingForZenAnimation cardData then
            let s := updCard r (set_isWaitingForZenAnimation false) s in
            let s := if negb (domAppended cardData)
                     then updCard r appendToRow s else s in
            updateUIForFocusedDownload
              (focusedDownloadKey s ||| Some downloadKeyToTrigger) false s
          else (s, [])
      | None => (s, [])
      end
  | None => (s, [])
  end.

(** With the animation element of the browser present the signal comes
    later (from the observer, or after three seconds); without it the
    signal is given at once. *)
Definition initZenAnimationObserver (zenHost : bool) (downloadKey : string)
    (s : t) : t * list task :=
  if zenHost then (s, [EntranceSignal downloadKey])
  else triggerCardEntrance downloadKey s.

(** ** Create or update *)

(** The branch for a key without a card. *)
Definition createPod (zenHost : bool) (now : Z) (dref : ref) (download : download)
    (key : string) (s : t) : ref * t * list task :=
  let podElement := newPodElement key download in
  let r := fresh (dom (cards s)) in
  let cardData := newCardData podElement dref key (getSafeFilename download) now in
  let s := set_cards <[r := cardData]> s in
  let s := set_activeDownloadCards <[key := r]> s in
  let s := set_stack (Stack.addKey key) s in
  let '(s, tasks) :=
    if negb (existingDOMPod s (pod_id podElement)) then
      initZenAnimationObserver zenHost key
        (updCard r (set_isWaitingForZenAnimation true) s)
    else
      (updCard r (λ c, set_isVisible false
                         (set_podElement (set_style_opacity "0")
                            (set_domAppended true c))) s, []) in
  let s :=
    if negb (from_option (λ c, parentNode (podElement_ c)) true (cards s !! r))
    then updCard r appendToRow s else s in
  (r, s, tasks).

(** The branch for a key that has a card. *)
Definition updatePod (now : Z) (dref : ref) (download : download) (r : ref)
    (s : t) : t :=
  let safeFilename := getSafeFilename download in
  updCard r (λ c,
    let c := set_lastInteractionTime now (set_download dref c) in
    if bool_decide (safeFilename ≠ originalFilename c) && negb (truthy (aiName download))
    then set_originalFilename safeFilename c else c) s.

(** The preview and the marks of a download that has ended. *)
Definition markOutcome (download : download) (r : ref) (s : t) : t * list task :=
  let complete_ := from_option complete false (cards s !! r) in
  let '(s, tasks) :=
    if succeeded download then
      if negb complete_ then
        let '(preview, tasks) := setCompletedFilePreview r download in
        (updPod r preview s, tasks)
      else (s, [])
    else if bool_decide (is_Some (error download)) || canceled download
    then (updPod r (setGenericIcon (Some "application/octet-stream")) s, [])
    else (s, []) in
  let s :=
    if succeeded download && negb complete_
    then updCard r (λ c, set_complete true
                           (set_podElement (classList_add "completed") c)) s
    else s in
  let s := if bool_decide (is_Some (error download))
           then updPod r (classList_add "error") s else s in
  let s := if canceled download then updPod r (classList_add "canceled") s else s in
  (s, tasks).

(** The function returns the pod element, or [null] for a download without
    a key: here the card of the pod, with the state and the callbacks. *)
Definition createOrUpdatePodElement (zenHost : bool) (now : Z) (dref : ref)
    (download : download) (s : t) : option (ref * t * list task) :=
  let key := getDownloadKey now download in
  if negb (truthy (Some key)) then None
  else
    let '(r, s, tasks) :=
      match getCardRef s key with
      | None => createPod zenHost now dref download key s
      | Some r => (r, updatePod now dref download r s, [])
      end in
    let '(s, tasks') := markOutcome download r s in
    Some (r, s, tasks ++ tasks').

(** ** The throttle *)

Definition throttledCreateOrUpdateCard (zenHost : bool) (now : Z) (dref : ref)
    (download : download) (s : t) : t * list task :=
  let key := getDownloadKey now download in
  let lastUpdate := default 0 (cardUpdateThrottle s !! key) in
  if bool_decide (now - lastUpdate < 100) && inProgress download then (s, [])
  else
    let s := set_cardUpdateThrottle <[key := now]> s in
    match createOrUpdatePodElement zenHost now dref download s with
    | Some (_, s, tasks) =>
        let '(s, tasks') := updateUIForFocusedDownload (Some key) true s in
        (s, tasks ++ tasks')
    | None => (s, [])
    end.

(** ** Removal *)

(** The part of [removeCard] that runs at once; the flag is what the
    function returns. *)
Definition removeCard (now : Z) (downloadKey : string) (force : bool) (s : t)
    : t * list task * bool :=
  match getCardRef s downloadKey with
  | Some r =>
      match cards s !! r with
      | Some cardData =>
          if negb force && bool_decide (lastInteractionTime cardData ≠ 0) &&
             bool_decide (now - lastInteractionTime cardData
                          < CARD_INTERACTION_GRACE_PERIOD_MS)
          then (s, [], false)
          else
            (updCard r (λ c, set_podElement (set_style "0" ExitSlide)
                               (set_isBeingRemoved true c)) s,
             [RemoveTimer downloadKey r], true)
      | None => (s, [], false)
      end
  | None => (s, [], false)
  end.

(** The body of the timer of [removeCard], 300 ms later. *)
Definition removeCardTimer (downloadKey : string) (r : ref) (s : t) : t * list task :=
  let s := updPod r (set_parentNode false) s in
  let s := set_activeDownloadCards (delete downloadKey) s in
  let s := set_cardUpdateThrottle (delete downloadKey) s in
  let s := set_stack (Stack.removeKey downloadKey) s in
  updateUIForFocusedDownload (focusedDownloadKey s) false s.

(** [scheduleCardRemoval]: the timer of the automatic removal, unless the
    preference turns it off.  Nothing in the script calls it. *)
Definition scheduleCardRemoval (disableAutohide : bool) (downloadKey : string)
    : list (Z * string) :=
  if disableAutohide then [] else [(CARD_AUTOHIDE_DELAY_MS, downloadKey)].

(** ** The close button *)

Definition masterCloseHandler (s : t) : t * list task :=
  if truthy (focusedDownloadKey s) then
    let keyToRemove := default "" (focusedDownloadKey s) in
    (set_masterTooltip hide s, [CloseTimer keyToRemove (getCardRef s keyToRemove)])
  else (s, []).

(** The body of the timer of the close button: a download in progress is
    cancelled (and its card removed when [cancel] throws), any other card is
    removed. *)
Definition closeTimer (now : Z) (cancelThrows : bool) (keyToRemove : string)
    (cardData : option ref) (s : t) : t * list task :=
  match cardData ≫= (cards s !!.) with
  | Some c =>
      if from_option inProgress false (downloads s !! download_ c) then
        if cancelThrows then (removeCard now keyToRemove true s).1
        else (s, [CancelRequest (download_ c)])
      else (removeCard now keyToRemove true s).1
  | None => (s, [])
  end.

(** ** The events of the host *)

Definition onDownloadChanged (zenHost : bool) (now : Z) (dref : ref) (s : t)
    : t * list task :=
  match downloads s !! dref with
  | Some download => throttledCreateOrUpdateCard zenHost now dref download s
  | None => (s, [])
  end.

Definition onDownloadRemoved (now : Z) (dref : ref) (s : t) : t * list task :=
  match downloads s !! dref with
  | Some download => (removeCard now (getDownloadKey now download) false s).1
  | None => (s, [])
  end.

(** ** Keys and names *)

(** Every download has a key: the branch of [createOrUpdatePodElement] for
    a download without one is never taken. *)
Lemma getDownloadKey_nonempty now d : getDownloadKey now d ≠ "".
Proof.
  unfold getDownloadKey.
  destruct (target_path d) as [p|] eqn:Hp; simpl;
    [case_bool_decide; [done|]|];
    (destruct (id_ d) as [i|] eqn:Hi; simpl; [case_bool_decide; [done|]|]);
    done.
Qed.

Lemma getDownloadKey_path now d path :
  target_path d = Some path → path ≠ "" → getDownloadKey now d = path.
Proof.
  intros Hp Hne. unfold getDownloadKey. rewrite Hp. simpl.
  by rewrite bool_decide_true.
Qed.

Lemma getSafeFilename_path d dir name :
  filename d = None → Forall (λ c, isPathSeparator c = false) (chars name) →
  name ≠ "" → target_path d = Some (dir +:+ String "/" name) →
  getSafeFilename d = name.
Proof.
  intros Hf Hname Hne Hp. unfold getSafeFilename. rewrite Hf, Hp. simpl.
  rewrite bool_decide_true by (by destruct dir).
  unfold lastSegmentBy. rewrite chars_app, chars_String, reverse_app, reverse_cons.
  rewrite <-(assoc_L (++)). cbn [app].
  rewrite takeWhileL_app, reverse_involutive, ofChars_chars; [done| |done].
  apply Forall_reverse. eapply Forall_impl; [exact Hname|].
  intros c Hc. simpl in Hc. by rewrite Hc.
Qed.

(** ** The entrance signal *)

Lemma triggerCardEntrance_sameCards key s :
  sameCards s (triggerCardEntrance key s).1.
Proof.
  unfold triggerCardEntrance. repeat case_match; try done.
  all: etrans; [|apply updateUIForFocusedDownload_sameCards].
  all: solve_sameCards.
Qed.

(** The signal leaves the focus where it is, or moves it to the key of the
    signal when nothing was focused. *)
Lemma triggerCardEntrance_focus key s f :
  focusedDownloadKey (triggerCardEntrance key s).1 = Some f →
  focusedDownloadKey s = Some f ∨
  f = key ∧ is_Some (activeDownloadCards s !! key).
Proof.
  unfold triggerCardEntrance, getCardRef.
  destruct (activeDownloadCards s !! key) as [r|] eqn:Hr; [|by left].
  repeat case_match; try (by left).
  all: rewrite focusedDownloadKey_updateUI; unfold js_or.
  all: change (focusedDownloadKey (updCard _ _ _)) with (focusedDownloadKey s).
  all: case_match; intros; simplify_eq; eauto.
Qed.

Lemma triggerCardEntrance_keeps_focus key s f :
  focusedDownloadKey s = Some f → f ≠ "" →
  focusedDownloadKey (triggerCardEntrance key s).1 = Some f.
Proof.
  intros Hf Hne. unfold triggerCardEntrance. repeat case_match; try done.
  all: rewrite focusedDownloadKey_updateUI.
  all: change (focusedDownloadKey (updCard _ _ _)) with (focusedDownloadKey s).
  all: rewrite Hf; apply js_or_truthy_l; by apply truthy_Some.
Qed.

Lemma initZenAnimationObserver_sameCards zenHost key s :
  sameCards s (initZenAnimationObserver zenHost key s).1.
Proof.
  unfold initZenAnimationObserver. destruct zenHost; [done|].
  apply triggerCardEntrance_sameCards.
Qed.

Lemma initZenAnimationObserver_keeps_focus zenHost key s f :
  focusedDownloadKey s = Some f → f ≠ "" →
  focusedDownloadKey (initZenAnimationObserver zenHost key s).1 = Some f.
Proof.
  unfold initZenAnimationObserver. destruct zenHost; [done|].
  apply triggerCardEntrance_keeps_focus.
Qed.

(** ** A new card *)

(** Filing a new card under a key that has none keeps the invariant. *)
Lemma fileCard_wf s key r c :
  wf s → key ≠ "" → activeDownloadCards s !! key = None →
  cards s !! r = None → keysOf c = (key, key) →
  wf (set_stack (Stack.addKey key)
        (set_activeDownloadCards <[key := r]> (set_cards <[r := c]> s))).
Proof.
  intros (Hst & Hk & Hc) Hne Hfresh Hr Hkeys.
  assert (key ∉ orderedPodKeys s) as Hnew.
  { rewrite keysAgree_elem_of, Hfresh by done. by intros [? ?]. }
  split_and!.
  - by apply Stack.addKey_preserves_wf.
  - unfold keysAgree, orderedPodKeys, Stack.addKey, push in *. simpl.
    rewrite (proj2 (includes_false _ _)) by done. simpl.
    rewrite dom_insert_L, list_to_set_app_L, Hk. set_solver.
  - intros k' r'. unfold cardKeys. simpl. rewrite lookup_fmap.
    intros [[-> ->]|[? Hr']]%lookup_insert_Some.
    + by rewrite lookup_insert_eq; simpl; rewrite Hkeys.
    + apply Hc in Hr'. unfold cardKeys in Hr'. rewrite lookup_fmap in Hr'.
      rewrite lookup_insert_ne; [done|]. intros ->. by rewrite Hr in Hr'.
Qed.

(** A download without a card gets one: its key becomes the newest of the
    list and takes the focus. *)
Lemma createPod_spec zenHost now dref d key s :
  wf s → key ≠ "" → activeDownloadCards s !! key = None →
  ∃ r s' tasks, createPod zenHost now dref d key s = (r, s', tasks) ∧
    wf s' ∧
    orderedPodKeys s' = orderedPodKeys s ++ [key] ∧
    focusedDownloadKey s' = Some key ∧
    activeDownloadCards s' = <[key := r]> (activeDownloadCards s) ∧
    cards s !! r = None ∧ downloads s' = downloads s.
Proof.
  intros Hwf Hne Hfresh. unfold createPod.
  set (r := fresh (dom (cards s))).
  set (c := newCardData _ _ _ _ _).
  set (s1 := set_stack _ _).
  assert (wf s1) as Hwf1 by (by apply fileCard_wf; [..|apply fresh_card|]).
  assert (key ∉ orderedPodKeys s) as Hnew.
  { destruct Hwf as (_ & Hk & _). rewrite keysAgree_elem_of, Hfresh by done.
    by intros [? ?]. }
  assert (orderedPodKeys s1 = orderedPodKeys s ++ [key] ∧
          focusedDownloadKey s1 = Some key) as [Hkeys1 Hfocus1].
  { unfold s1, orderedPodKeys, focusedDownloadKey, Stack.addKey, push. simpl.
    by rewrite (proj2 (includes_false _ _)). }
  destruct (if negb (existingDOMPod s1 _) then _ else _) as [s2 tasks] eqn:Hs2.
  assert (sameCards s1 s2 ∧ focusedDownloadKey s2 = Some key) as [Hsame2 Hfocus2].
  { destruct (existingDOMPod s1 _); simpl in Hs2.
    - injection Hs2 as <- <-. split; [solve_sameCards|exact Hfocus1].
    - rewrite (surjective_pairing (initZenAnimationObserver _ _ _)) in Hs2.
      injection Hs2 as <- <-. split.
      + etrans; [|apply initZenAnimationObserver_sameCards]. solve_sameCards.
      + by apply initZenAnimationObserver_keeps_focus. }
  eexists r, _, tasks. split; [done|].
  set (s3 := if negb _ then _ else s2).
  assert (sameCards s2 s3 ∧ focusedDownloadKey s3 = focusedDownloadKey s2)
    as [Hsame3 Hfocus3]
    by (unfold s3; destruct (from_option _ true _); simpl; split;
        first [reflexivity | solve_sameCards]).
  assert (sameCards s1 s3) as (Hk3 & Hm3 & _ & Hd3 & _) by by etrans.
  split_and!.
  - apply (wf_sameCards s1); [by etrans|done|].
    rewrite Hfocus3, Hfocus2, Hk3, Hkeys1. intros f [= <-]. set_solver.
  - by rewrite Hk3.
  - by rewrite Hfocus3.
  - by rewrite Hm3.
  - apply fresh_card.
  - by rewrite Hd3.
Qed.

(** ** Create or update *)

Lemma updatePod_sameCards now dref d r s : sameCards s (updatePod now dref d r s).
Proof. unfold updatePod. solve_sameCards. Qed.

Lemma setCompletedFilePreview_dataset r d p :
  dataset_downloadKey ((setCompletedFilePreview r d).1 p) = dataset_downloadKey p.
Proof. unfold setCompletedFilePreview. by repeat case_goal_match. Qed.

Lemma markOutcome_sameCards d r s : sameCards s (markOutcome d r s).1.
Proof.
  unfold markOutcome.
  pose proof (setCompletedFilePreview_dataset r d) as Hp.
  destruct (setCompletedFilePreview r d) as [preview tasks]. simpl in Hp.
  destruct (succeeded d), (from_option complete false _),
    (bool_decide (is_Some (error d))), (canceled d); simpl; solve_sameCards.
Qed.

Lemma markOutcome_stack d r s : stack (markOutcome d r s).1 = stack s.
Proof.
  unfold markOutcome. destruct (setCompletedFilePreview r d) as [preview tasks].
  by destruct (succeeded d), (from_option complete false _),
    (bool_decide (is_Some (error d))), (canceled d).
Qed.

(** The function finds or makes the card of the download, and leaves its
    key listed; the list grows by that key exactly when the key is new. *)
Lemma createOrUpdatePodElement_spec zenHost now dref d s :
  wf s →
  ∃ r s' tasks,
    createOrUpdatePodElement zenHost now dref d s = Some (r, s', tasks) ∧
    wf s' ∧
    activeDownloadCards s' !! getDownloadKey now d = Some r ∧
    orderedPodKeys s' =
      (if decide (getDownloadKey now d ∈ orderedPodKeys s)
       then orderedPodKeys s
       else orderedPodKeys s ++ [getDownloadKey now d]) ∧
    downloads s' = downloads s.
Proof.
  intros Hwf. unfold createOrUpdatePodElement.
  pose proof (getDownloadKey_nonempty now d) as Hne.
  set (key := getDownloadKey now d) in *.
  rewrite (proj2 (truthy_Some key)) by done. simpl.
  assert (key ∈ orderedPodKeys s ↔ is_Some (activeDownloadCards s !! key))
    as Hlisted by (apply keysAgree_elem_of, Hwf).
  unfold getCardRef. destruct (activeDownloadCards s !! key) as [r|] eqn:Hr.
  - rewrite decide_True by (apply Hlisted; eauto).
    pose proof (updatePod_sameCards now dref d r s) as Hu.
    set (s1 := updatePod now dref d r s) in *.
    pose proof (markOutcome_sameCards d r s1) as Hm.
    pose proof (markOutcome_stack d r s1) as Hst.
    destruct (markOutcome d r s1) as [s2 tasks]. simpl in *.
    eexists r, s2, _. split; [done|].
    assert (sameCards s s2) as (Hk & Hmap & _ & Hd & _) by by etrans.
    split_and!; [|congruence..].
    apply (wf_sameCards s); [by etrans|done|].
    unfold focusedDownloadKey, orderedPodKeys. rewrite Hst. apply Hwf.
  - rewrite decide_False by (rewrite Hlisted; by intros [? ?]).
    destruct (createPod_spec zenHost now dref d key s Hwf Hne Hr)
      as (r & s1 & tasks & -> & Hwf1 & Hk1 & Hf1 & Hm1 & _ & Hd1).
    pose proof (markOutcome_sameCards d r s1) as Hm.
    pose proof (markOutcome_stack d r s1) as Hst.
    destruct (markOutcome d r s1) as [s2 tasks']. simpl in *.
    eexists r, s2, _. split; [done|].
    pose proof Hm as (Hk & Hmap & _ & Hd & _).
    split_and!; [| |congruence..].
    + apply (wf_sameCards s1); [done..|].
      unfold focusedDownloadKey, orderedPodKeys. rewrite Hst. apply Hwf1.
    + by rewrite Hmap, Hm1, lookup_insert_eq.
Qed.

(** ** The throttle *)

(** An event of a download in progress that arrives less than 100 ms
    after the last accepted event of the same key is dropped: the state is
    left as it is and no callback is set up. *)
Theorem throttledCreateOrUpdateCard_dropped zenHost now dref d s last :
  cardUpdateThrottle s !! getDownloadKey now d = Some last →
  now - last < 100 → inProgress d = true →
  throttledCreateOrUpdateCard zenHost now dref d s = (s, []).
Proof.
  intros Hl Hlt Hp. unfold throttledCreateOrUpdateCard. rewrite Hl, Hp. simpl.
  by rewrite bool_decide_true.
Qed.

Lemma throttledCreateOrUpdateCard_wf zenHost now dref d s :
  wf s → wf (throttledCreateOrUpdateCard zenHost now dref d s).1.
Proof.
  intros Hwf. unfold throttledCreateOrUpdateCard. case_goal_match; [done|].
  set (s0 := set_cardUpdateThrottle _ s).
  destruct (createOrUpdatePodElement_spec zenHost now dref d s0)
    as (r & s1 & tasks & -> & Hwf1 & Hr & _); [done|].
  pose proof (updateUIForFocusedDownload_wf (Some (getDownloadKey now d)) true s1)
    as Hui.
  destruct (updateUIForFocusedDownload _ true s1) as [s2 tasks']. simpl in *.
  apply Hui; [done|]. intros key [= <-].
  apply keysAgree_elem_of; [apply Hwf1 | eauto].
Qed.

(** C14. An event that passes the throttle (the download has ended, or the
    last accepted event of its key is at least 100 ms old) leaves a
    well-formed state in which the key of the download has a card, is
    listed once (appended when it was not listed, left in its place when it
    was) and is the focused key. *)
Theorem throttledCreateOrUpdateCard_accepted zenHost now dref d s :
  wf s →
  100 ≤ now - default 0 (cardUpdateThrottle s !! getDownloadKey now d)
    ∨ inProgress d = false →
  wf (throttledCreateOrUpdateCard zenHost now dref d s).1 ∧
  focusedDownloadKey (throttledCreateOrUpdateCard zenHost now dref d s).1
    = Some (getDownloadKey now d) ∧
  is_Some (activeDownloadCards (throttledCreateOrUpdateCard zenHost now dref d s).1
             !! getDownloadKey now d) ∧
  orderedPodKeys (throttledCreateOrUpdateCard zenHost now dref d s).1 =
    (if decide (getDownloadKey now d ∈ orderedPodKeys s) then orderedPodKeys s
     else orderedPodKeys s ++ [getDownloadKey now d]).
Proof.
  intros Hwf Hpass. split; [by apply throttledCreateOrUpdateCard_wf|].
  unfold throttledCreateOrUpdateCard.
  replace (bool_decide _ && inProgress d) with false
    by (symmetry; apply andb_false_iff; rewrite bool_decide_eq_false; intuition lia).
  set (s0 := set_cardUpdateThrottle _ s).
  destruct (createOrUpdatePodElement_spec zenHost now dref d s0)
    as (r & s1 & tasks & -> & _ & Hr & Hkeys & _); [done|].
  pose proof (updateUIForFocusedDownload_sameCards
    (Some (getDownloadKey now d)) true s1) as (Hk & Hm & _).
  pose proof (focusedDownloadKey_updateUI (Some (getDownloadKey now d)) true s1).
  destruct (updateUIForFocusedDownload _ true s1) as [s2 tasks']. simpl in *.
  rewrite Hk, Hm, Hr. eauto.
Qed.

(** ** Removal *)

Lemma removeCard_sameCards now key force s :
  sameCards s (removeCard now key force s).1.1.
Proof. unfold removeCard. repeat case_goal_match; simpl; solve_sameCards. Qed.

Lemma removeCard_stack now key force s :
  stack (removeCard now key force s).1.1 = stack s.
Proof. unfold removeCard. by repeat case_goal_match. Qed.

Lemma removeCard_wf now key force s : wf s → wf (removeCard now key force s).1.1.
Proof.
  intros Hwf. apply (wf_sameCards s); [apply removeCard_sameCards|done|].
  unfold focusedDownloadKey, orderedPodKeys. rewrite removeCard_stack. apply Hwf.
Qed.

(** C37. A card that was touched less than five seconds ago is not
    removed, unless the removal is forced: the call answers [false], leaves
    the state as it is and sets up no timer. *)
Theorem removeCard_grace now key s last :
  lastInteractionTime <$> getCard s key = Some last →
  last ≠ 0 → now - last < CARD_INTERACTION_GRACE_PERIOD_MS →
  removeCard now key false s = (s, [], false).
Proof.
  unfold getCard, removeCard. intros Hc Hne Hlt.
  destruct (getCardRef s key) as [r|]; [|done]. simpl in Hc.
  destruct (cards s !! r) as [c|]; [|done]. simplify_eq/=.
  by rewrite !bool_decide_true.
Qed.

(** A removal that goes ahead marks the card and sets up the timer. *)
Lemma removeCard_starts now key force s r c :
  activeDownloadCards s !! key = Some r → cards s !! r = Some c →
  force = true ∨ lastInteractionTime c = 0 ∨
    CARD_INTERACTION_GRACE_PERIOD_MS ≤ now - lastInteractionTime c →
  ∃ s', removeCard now key force s = (s', [RemoveTimer key r], true) ∧
        isBeingRemoved <$> cards s' !! r = Some true.
Proof.
  intros Hr Hc Hgo. unfold removeCard, getCardRef. rewrite Hr, Hc.
  destruct (negb force && _ && _) eqn:Hskip.
  - exfalso. rewrite !andb_true_iff, negb_true_iff in Hskip.
    rewrite !bool_decide_eq_true in Hskip. naive_solver lia.
  - eexists. split; [done|]. unfold updCard. simpl.
    by rewrite lookup_alter_eq, Hc.
Qed.

(** The timer keeps the invariant: the pod that was next to a removed
    focus takes the focus (see [Stack.removeKey]). *)
Lemma removeCardTimer_wf key r s : wf s → wf (removeCardTimer key r s).1.
Proof.
  intros (Hst & Hk & Hc). unfold removeCardTimer.
  set (s4 := set_stack _ _).
  assert (wf s4) as Hwf4.
  { split_and!.
    - by apply Stack.removeKey_wf.
    - unfold keysAgree, orderedPodKeys in *. simpl.
      rewrite dom_delete_L, list_to_set_remove_first, Hk; [done|apply Hst].
    - intros k' r'. simpl. intros [? Hr']%lookup_delete_Some.
      apply Hc in Hr'. unfold cardKeys in *. simpl.
      by rewrite fmap_alter_preserved. }
  apply updateUIForFocusedDownload_wf; [done|]. apply Hwf4.
Qed.

(** When the timer of a removal has run, the key is neither listed
    nor a key of the map of the cards. *)
Theorem removeCardTimer_removed key r s :
  wf s →
  key ∉ orderedPodKeys (removeCardTimer key r s).1 ∧
  activeDownloadCards (removeCardTimer key r s).1 !! key = None.
Proof.
  intros (Hst & _). unfold removeCardTimer.
  pose proof (updateUIForFocusedDownload_sameCards) as Hui.
  set (s4 := set_stack _ _). destruct (Hui (focusedDownloadKey s4) false s4)
    as (-> & -> & _). split.
  - by apply Stack.removeKey_wf.
  - simpl. apply lookup_delete_eq.
Qed.

(** ** The close button *)

Lemma masterCloseHandler_sameCards s : sameCards s (masterCloseHandler s).1.
Proof. unfold masterCloseHandler. by case_goal_match. Qed.

Lemma closeTimer_wf now cancelThrows key cardData s :
  wf s → wf (closeTimer now cancelThrows key cardData s).1.
Proof.
  intros. unfold closeTimer. repeat case_goal_match; try done.
  all: by apply removeCard_wf.
Qed.

(** ** The events of the host *)

Lemma onDownloadChanged_wf zenHost now dref s :
  wf s → wf (onDownloadChanged zenHost now dref s).1.
Proof.
  intros. unfold onDownloadChanged. case_goal_match; [|done].
  by apply throttledCreateOrUpdateCard_wf.
Qed.

Lemma onDownloadRemoved_wf now dref s :
  wf s → wf (onDownloadRemoved now dref s).1.
Proof.
  intros. unfold onDownloadRemoved. case_goal_match; [|done].
  by apply removeCard_wf.
Qed.

(** ** The width of the tooltip

    Every handler leaves the tooltip as wide as [currentZenSidebarWidth]
    asks: the handlers write the width through the presenter only. *)

Lemma triggerCardEntrance_widthSynced key s :
  widthSynced s → widthSynced (triggerCardEntrance key s).1.
Proof.
  intros Hs. unfold triggerCardEntrance. repeat case_goal_match; try done.
  all: by apply updateUIForFocusedDownload_widthSynced.
Qed.

Lemma initZenAnimationObserver_widthSynced zenHost key s :
  widthSynced s → widthSynced (initZenAnimationObserver zenHost key s).1.
Proof.
  intros Hs. unfold initZenAnimationObserver. case_goal_match; [done|].
  by apply triggerCardEntrance_widthSynced.
Qed.

Lemma createPod_widthSynced zenHost now dref d key s :
  widthSynced s → widthSynced (createPod zenHost now dref d key s).1.2.
Proof.
  intros Hs. unfold createPod. cbv zeta.
  destruct (negb (existingDOMPod _ _)); [|by case_goal_match].
  match goal with |- context [initZenAnimationObserver zenHost key ?s0] =>
    pose proof (initZenAnimationObserver_widthSynced zenHost key s0 Hs) as Hi;
    destruct (initZenAnimationObserver zenHost key s0) as [s1 tasks] end.
  by case_goal_match.
Qed.

Lemma markOutcome_widths d r s : widths (markOutcome d r s).1 = widths s.
Proof.
  unfold markOutcome. destruct (setCompletedFilePreview r d) as [preview tasks].
  by destruct (succeeded d), (from_option complete false _),
    (bool_decide (is_Some (error d))), (canceled d).
Qed.

Lemma createOrUpdatePodElement_widthSynced zenHost now dref d s r s' tasks :
  createOrUpdatePodElement zenHost now dref d s = Some (r, s', tasks) →
  widthSynced s → widthSynced s'.
Proof.
  unfold createOrUpdatePodElement. intros Hc Hs.
  case_match; [done|]. destruct (getCardRef s _) as [r0|].
  - pose proof (widthSynced_widths _ _
      (markOutcome_widths d r0 (updatePod now dref d r0 s)) Hs) as Hw.
    destruct (markOutcome _ _ _) as [s1 t1]. by simplify_eq.
  - pose proof (createPod_widthSynced zenHost now dref d
                  (getDownloadKey now d) s Hs) as Hp.
    destruct (createPod _ _ _ _ _ _) as [[r1 s1] t1].
    pose proof (widthSynced_widths _ _ (markOutcome_widths d r1 s1) Hp) as Hw.
    destruct (markOutcome _ _ _) as [s2 t2]. by simplify_eq.
Qed.

Lemma throttledCreateOrUpdateCard_widthSynced zenHost now dref d s :
  widthSynced s → widthSynced (throttledCreateOrUpdateCard zenHost now dref d s).1.
Proof.
  intros Hs. unfold throttledCreateOrUpdateCard. case_goal_match; [done|].
  destruct (createOrUpdatePodElement _ _ _ _ _) as [[[r s1] tasks]|] eqn:Hc;
    [|done].
  apply createOrUpdatePodElement_widthSynced in Hc; [|done].
  pose proof (updateUIForFocusedDownload_widthSynced
                (Some (getDownloadKey now d)) true s1 Hc) as Hui.
  by destruct (updateUIForFocusedDownload _ true s1).
Qed.

Lemma removeCard_widths now key force s :
  widths (removeCard now key force s).1.1 = widths s.
Proof. unfold removeCard. by repeat case_goal_match. Qed.

Lemma removeCardTimer_widthSynced key r s :
  widthSynced s → widthSynced (removeCardTimer key r s).1.
Proof. intros Hs. by apply updateUIForFocusedDownload_widthSynced. Qed.

Lemma masterCloseHandler_widths s : widths (masterCloseHandler s).1 = widths s.
Proof. unfold masterCloseHandler. by case_goal_match. Qed.

Lemma closeTimer_widths now cancelThrows key cardData s :
  widths (closeTimer now cancelThrows key cardData s).1 = widths s.
Proof.
  unfold closeTimer. repeat case_goal_match; try done.
  all: apply removeCard_widths.
Qed.

Lemma onDownloadChanged_widthSynced zenHost now dref s :
  widthSynced s → widthSynced (onDownloadChanged zenHost now dref s).1.
Proof.
  intros. unfold onDownloadChanged. case_goal_match; [|done].
  by apply throttledCreateOrUpdateCard_widthSynced.
Qed.

Lemma onDownloadRemoved_widths now dref s :
  widths (onDownloadRemoved now dref s).1 = widths s.
Proof.
  unfold onDownloadRemoved. case_goal_match; [|done]. apply removeCard_widths.
Qed.

(** ** The callbacks of the handlers

    No handler of the pods sets the timer of the resize observer. *)

Lemma triggerCardEntrance_noResizeTimer key s :
  noResizeTimer (triggerCardEntrance key s).2.
Proof.
  unfold triggerCardEntrance. repeat case_goal_match; try solve_noResizeTimer.
  all: apply updateUIForFocusedDownload_noResizeTimer.
Qed.

Lemma initZenAnimationObserver_noResizeTimer zenHost key s :
  noResizeTimer (initZenAnimationObserver zenHost key s).2.
Proof.
  unfold initZenAnimationObserver. case_goal_match; [solve_noResizeTimer|].
  apply triggerCardEntrance_noResizeTimer.
Qed.

Lemma createPod_noResizeTimer zenHost now dref d key s :
  noResizeTimer (createPod zenHost now dref d key s).2.
Proof.
  unfold createPod. cbv zeta.
  destruct (negb (existingDOMPod _ _)); [|case_goal_match; solve_noResizeTimer].
  match goal with |- context [initZenAnimationObserver zenHost key ?s0] =>
    pose proof (initZenAnimationObserver_noResizeTimer zenHost key s0) as Hi;
    destruct (initZenAnimationObserver zenHost key s0) as [s1 tasks] end.
  by case_goal_match.
Qed.

Lemma setCompletedFilePreview_noResizeTimer r d :
  noResizeTimer (setCompletedFilePreview r d).2.
Proof. unfold setCompletedFilePreview. solve_noResizeTimer. Qed.

Lemma markOutcome_noResizeTimer d r s : noResizeTimer (markOutcome d r s).2.
Proof.
  unfold markOutcome. pose proof (setCompletedFilePreview_noResizeTimer r d).
  destruct (setCompletedFilePreview r d) as [preview tasks].
  destruct (succeeded d), (from_option complete false _),
    (bool_decide (is_Some (error d))), (canceled d); simpl;
    first [done|constructor].
Qed.

Lemma createOrUpdatePodElement_noResizeTimer zenHost now dref d s r s' tasks :
  createOrUpdatePodElement zenHost now dref d s = Some (r, s', tasks) →
  noResizeTimer tasks.
Proof.
  unfold createOrUpdatePodElement. intros Hc.
  case_match; [done|]. destruct (getCardRef s _) as [r0|].
  - pose proof (markOutcome_noResizeTimer d r0 (updatePod now dref d r0 s)) as Hw.
    destruct (markOutcome _ _ _) as [s1 t1]. by simplify_eq.
  - pose proof (createPod_noResizeTimer zenHost now dref d
                  (getDownloadKey now d) s) as Hp.
    destruct (createPod _ _ _ _ _ _) as [[r1 s1] t1].
    pose proof (markOutcome_noResizeTimer d r1 s1) as Hw.
    destruct (markOutcome _ _ _) as [s2 t2]. simplify_eq.
    by apply noResizeTimer_app.
Qed.

Lemma throttledCreateOrUpdateCard_noResizeTimer zenHost now dref d s :
  noResizeTimer (throttledCreateOrUpdateCard zenHost now dref d s).2.
Proof.
  unfold throttledCreateOrUpdateCard. case_goal_match; [constructor|].
  destruct (createOrUpdatePodElement _ _ _ _ _) as [[[r s1] tasks]|] eqn:Hc;
    [|constructor].
  apply createOrUpdatePodElement_noResizeTimer in Hc.
  pose proof (updateUIForFocusedDownload_noResizeTimer
                (Some (getDownloadKey now d)) true s1).
  destruct (updateUIForFocusedDownload _ true s1). by apply noResizeTimer_app.
Qed.

Lemma removeCard_noResizeTimer now key force s :
  noResizeTimer (removeCard now key force s).1.2.
Proof. unfold removeCard. solve_noResizeTimer. Qed.

Lemma closeTimer_noResizeTimer now cancelThrows key cardData s :
  noResizeTimer (closeTimer now cancelThrows key cardData s).2.
Proof.
  unfold closeTimer. repeat case_goal_match; try solve_noResizeTimer.
  all: apply removeCard_noResizeTimer.
Qed.

Lemma masterCloseHandler_noResizeTimer s : noResizeTimer (masterCloseHandler s).2.
Proof. unfold masterCloseHandler. solve_noResizeTimer. Qed.

Lemma onDownloadChanged_noResizeTimer zenHost now dref s :
  noResizeTimer (onDownloadChanged zenHost now dref s).2.
Proof.
  unfold onDownloadChanged. case_goal_match; [|constructor].
  apply throttledCreateOrUpdateCard_noResizeTimer.
Qed.

Lemma onDownloadRemoved_noResizeTimer now dref s :
  noResizeTimer (onDownloadRemoved now dref s).2.
Proof.
  unfold onDownloadRemoved. case_goal_match; [|constructor].
  apply removeCard_noResizeTimer.
Qed.

(** ** A download in progress *)

Definition incoming : download := downloading "/dl/b.zip" 512 2048.

(** The state after the first event of the download, at time 1000. *)
Definition shown : t :=
  (onDownloadChanged false 1000 0%nat
     (set_downloads (λ _, {[ 0%nat := incoming ]}) (State.initial true))).1.

Lemma shown_wf : wf shown.
Proof. apply onDownloadChanged_wf. exact (initial_wf true). Qed.

Lemma throttledCreateOrUpdateCard_dropped_witness :
  throttledCreateOrUpdateCard false 1050 0%nat incoming shown = (shown, []).
Proof.
  apply (throttledCreateOrUpdateCard_dropped false 1050 0%nat incoming shown 1000);
    [by vm_compute | lia | reflexivity].
Defined.

Lemma throttledCreateOrUpdateCard_accepted_witness :
  wf (throttledCreateOrUpdateCard false 1100 0%nat incoming shown).1 ∧
  focusedDownloadKey (throttledCreateOrUpdateCard false 1100 0%nat incoming shown).1
    = Some (getDownloadKey 1100 incoming) ∧
  is_Some (activeDownloadCards
             (throttledCreateOrUpdateCard false 1100 0%nat incoming shown).1
             !! getDownloadKey 1100 incoming) ∧
  orderedPodKeys (throttledCreateOrUpdateCard false 1100 0%nat incoming shown).1 =
    (if decide (getDownloadKey 1100 incoming ∈ orderedPodKeys shown)
     then orderedPodKeys shown
     else orderedPodKeys shown ++ [getDownloadKey 1100 incoming]).
Proof.
  apply throttledCreateOrUpdateCard_accepted; [apply shown_wf|].
  left. by vm_compute.
Defined.

Lemma removeCard_grace_witness :
  removeCard 1500 "/dl/b.zip" false shown = (shown, [], false).
Proof. apply (removeCard_grace 1500 "/dl/b.zip" shown 1000); by vm_compute. Defined.

Lemma removeCardTimer_removed_witness :
  "/dl/b.zip" ∉ orderedPodKeys (removeCardTimer "/dl/b.zip" 0%nat shown).1 ∧
  activeDownloadCards (removeCardTimer "/dl/b.zip" 0%nat shown).1 !! "/dl/b.zip"
  = None.
Proof. apply removeCardTimer_removed. apply shown_wf. Defined.

(** The first event of a download creates its pod, focuses it and records
    the time of the event; an event 50 ms later changes nothing. *)
Example first_event :
  orderedPodKeys shown = ["/dl/b.zip"] ∧
  focusedDownloadKey shown = Some "/dl/b.zip" ∧
  map_to_list (activeDownloadCards shown) = [("/dl/b.zip", 0%nat)] ∧
  map_to_list (cardUpdateThrottle shown) = [("/dl/b.zip", 1000)] ∧
  (onDownloadChanged false 1050 0%nat shown).1 = shown.
Proof. tidy_compute. Qed.

End Pods.
