(* ===== verification/LayoutPass.v ===== *)
(** * LayoutPass: the layout pass on the pods and the tooltip

    [managePodVisibilityAndAnimations] of [src/tidy-downloads.uc.js] (lines
    714-970) in full: the guards on the empty stack and on a tooltip without
    width, the default focus, the loop that puts the pods into the row, the
    slots of [Layout.computeLayout], the loop that writes the styles of the
    pods and sets up their animation frames, the height of the row and the
    timer that forgets the rotation direction.  [Layout.layoutStack] is the
    part of this function that reads and writes the stack
    ([managePodVisibilityAndAnimations_stack]).

    The width of the tooltip ([offsetWidth]) is a fact of the host and an
    argument of the pass.  A pod is created with [position: absolute] (line
    369) and nothing writes another value, so the branch of lines 768-779
    never runs and is not part of the model; the [gap] of the row (line 734)
    is not a field of the state.

    The theorems: the pass keeps the invariant of the stores; a pod with a
    slot is shown at the place and the height of its slot and a pod without
    one is hidden; a second pass with nothing in between changes nothing and
    sets up no animation frame; once the frames of a pass have run the style
    of every pod the pass laid out is the one the card records as
    intended. *)

From S2P Require Import Prelude JsArray JsString Stack Layout State Tooltip Pods.

Module LayoutPass.
Import State Tooltip Pods.

#[local] Open Scope Z_scope.

(** ** Without pods, without width *)

(** Lines 725-736: the tooltip fades out and a timer takes it off the
    screen 300 ms later. *)
Definition hideTooltip (s : t) : t * list task :=
  if bool_decide (tt_opacity (masterTooltip s) ≠ "0")
  then (set_masterTooltip hide s, [TooltipHideTimer])
  else (s, []).

(** The timer of lines 729-731. *)
Definition tooltipHideTimer (s : t) : t :=
  if bool_decide (tt_opacity (masterTooltip s) = "0")
  then set_masterTooltip (set_display "none") s
  else s.

(** Lines 738-745: a row that has collapsed gets the height of a pod. *)
Definition awaitWidth (s : t) : t :=
  if bool_decide (podsRow_height s = "0px") then set_podsRow_height "56px" s else s.

(** ** The pods of the row *)

(** The body of the loop of lines 759-781: a card that does not wait for
    the animation of the browser is put into the row. *)
Definition ensureInDom (s : t) (key : string) : t :=
  match getCardRef s key with
  | Some r =>
      match cards s !! r with
      | Some cd =>
          if negb (isWaitingForZenAnimation cd) && negb (domAppended cd)
          then updCard r appendToRow s
          else s
      | None => s
      end
  | None => s
  end.

(** The body of the loop of lines 794-806, which runs when there is no
    focus after all. *)
Definition hideVisible (cd : cardData) : cardData :=
  if isVisible cd
  then set_isVisible false (set_podElement (set_style "0" OutDefault) cd)
  else cd.

Definition hideCard (s : t) (key : string) : t :=
  match getCardRef s key with
  | Some r => updCard r hideVisible s
  | None => s
  end.

(** ** One pod *)

(** What the loop of lines 843-951 reads besides the card: the slots, the
    focus, the rotation direction and the opacity of the tooltip. *)
Record pass := mkPass {
  visiblePodsLayoutData : list Layout.slot;
  focused : option string;
  direction : option Stack.direction;
  tooltipOpacity : string
}.

Definition targetTransform (layoutData : Layout.slot) : transform :=
  Target (Layout.slot_x layoutData).

Definition targetOpacity (layoutData : Layout.slot) : string :=
  if Layout.slot_isFocused layoutData then "1" else "0.75".

(** Lines 873-881: both directions enter from the right. *)
Definition entranceTransform (d : Stack.direction) (layoutData : Layout.slot)
    : transform :=
  match d with
  | Stack.forward => EntranceFrom (Layout.slot_x layoutData + 80)
  | Stack.backward => EntranceFrom (Layout.slot_x layoutData + 80)
  end.

(** Lines 868-903: the animation towards the slot, set up when the pod
    becomes visible or its intended place changes. *)
Definition animateIn (p : pass) (layoutData : Layout.slot) (r : ref)
    (cd : cardData) : cardData * list task :=
  if negb (isVisible cd)
     || bool_decide (intendedTargetTransform cd
                     ≠ Some (targetTransform layoutData))
     || bool_decide (intendedTargetOpacity cd
                     ≠ Some (targetOpacity layoutData))
  then
    match direction p with
    | Some d =>
        if Layout.slot_isFocused layoutData && negb (isVisible cd) then
          (set_podElement (set_style "0" (entranceTransform d layoutData)) cd,
           [PodFrameOuter r (targetOpacity layoutData) (targetTransform layoutData)])
        else
          (cd,
           [PodFrame r (targetOpacity layoutData) (targetTransform layoutData)])
    | None =>
        (cd,
         [PodFrame r (targetOpacity layoutData) (targetTransform layoutData)])
    end
  else (cd, []).

(** Lines 860-917: a pod that has a slot. *)
Definition showPod (p : pass) (layoutData : Layout.slot) (r : ref)
    (cd : cardData) : cardData * list task :=
  let cd :=
    set_podElement (set_shown "flex" (Some (Layout.slot_zIndex layoutData)))
      cd in
  let '(cd, frames) := animateIn p layoutData r cd in
  let cd :=
    set_intended (Some (targetTransform layoutData))
      (Some (targetOpacity layoutData)) cd in
  let cd := set_isVisible true cd in
  (cd,
   frames ++
   if Layout.slot_isFocused layoutData && bool_decide (tooltipOpacity p = "0")
   then [TooltipShowTimer] else []).

(** Lines 925-938. *)
Definition targetTransformOut (p : pass) (cd : cardData) : transform :=
  match direction p with
  | Some d =>
      if bool_decide (Some (key cd) = focused p) then OutDefault
      else match d with
           | Stack.forward => OutRotated
           | Stack.backward => OutRotated
           end
  | None => OutDefault
  end.

(** Lines 919-950: a pod that has none. *)
Definition hidePod (p : pass) (cd : cardData) : cardData :=
  let cd :=
    if isVisible cd
       || bool_decide (style_opacity (podElement_ cd) ≠ "0")
    then
      let out := targetTransformOut p cd in
      let cd :=
        if bool_decide (intendedTargetTransform cd ≠ Some out)
           || bool_decide (intendedTargetOpacity cd ≠ Some "0")
        then set_podElement (set_style "0" out) cd
        else cd in
      set_intended (Some out) (Some "0") cd
    else cd in
  set_isVisible false cd.

(** Lines 845-854: the pods the loop passes over. *)
Definition skipped (cd : cardData) : bool :=
  negb (domAppended cd) || isWaitingForZenAnimation cd
  || isBeingRemoved cd || negb (parentNode (podElement_ cd)).

(** [visiblePodsLayoutData.find(p => p.key === key)]. *)
Definition findSlot (p : pass) (key : string) : option Layout.slot :=
  snd <$> list_find (λ sl, Layout.slot_key sl = key) (visiblePodsLayoutData p).

Definition layoutCard (p : pass) (key : string) (r : ref) (cd : cardData)
    : cardData * list task :=
  if skipped cd then (cd, [])
  else
    match findSlot p key with
    | Some layoutData => showPod p layoutData r cd
    | None => (hidePod p cd, [])
    end.

(** The body of the loop of lines 843-951. *)
Definition applyLayout (p : pass) (key : string) (s : t) : t * list task :=
  match getCardRef s key with
  | Some r =>
      match cards s !! r with
      | Some cd =>
          let '(cd, tasks) := layoutCard p key r cd in
          (updCard r (λ _, cd) s, tasks)
      | None => (s, [])
      end
  | None => (s, [])
  end.

(** ** The pass *)

(** What the loop over the slots reads in a state (lines 808-838 compute
    the slots). *)
Definition passOf (tooltipWidth : Z) (focusedDownloadKey : string) (s : t) : pass :=
  mkPass (Layout.computeLayout tooltipWidth (orderedPodKeys s) focusedDownloadKey)
    (Some focusedDownloadKey) (Stack.lastRotationDirection (stack s))
    (tt_opacity (masterTooltip s)).

(** Lines 955-959: the row is as high as a pod when a pod has a slot. *)
Definition rowHeight (p : pass) : string :=
  if bool_decide (0 < length (visiblePodsLayoutData p))%nat then "56px" else "0px".

(** Lines 808-969: the slots, the styles, the height of the row and the
    timer of the rotation direction. *)
Definition layOut (tooltipWidth : Z) (focusedDownloadKey : string) (s : t)
    : t * list task :=
  let p := passOf tooltipWidth focusedDownloadKey s in
  let '(s, tasks) := forEach (applyLayout p) (orderedPodKeys s) s in
  let s := set_podsRow_height (rowHeight p) s in
  (s, tasks ++ if Stack.lastRotationDirection (stack s)
               then [RotationResetTimer] else []).

Definition managePodVisibilityAndAnimations (tooltipWidth : Z) (s : t)
    : t * list task :=
  if bool_decide (length (orderedPodKeys s) = 0%nat) then hideTooltip s
  else if bool_decide (tooltipWidth = 0) then (awaitWidth s, [])
  else
    let s := set_stack Stack.defaultFocus s in
    let s := foldl ensureInDom s (orderedPodKeys s) in
    let focusedIndexInOrdered :=
      focusedDownloadKey s ≫= λ f, indexOf f (orderedPodKeys s) in
    let s :=
      if bool_decide (focusedIndexInOrdered = None)
      then set_stack (Stack.setFocus (last (orderedPodKeys s))) s else s in
    match focusedDownloadKey s with
    | Some f =>
        if truthy (Some f) then layOut tooltipWidth f s
        else (foldl hideCard s (orderedPodKeys s), [])
    | None => (foldl hideCard s (orderedPodKeys s), [])
    end.

(** ** The callbacks of the pass *)

(** An animation frame of lines 892-902: the pod gets its target. *)
Definition podFrame (r : ref) (opacity : string) (target : transform) : t → t :=
  updPod r (set_style opacity target).

(** The timer of lines 911-914: the tooltip comes in. *)
Definition showTooltip (tt : tooltip) : tooltip :=
  mkTooltip (tt_display tt) "1" "scaleY(1) translateY(0)" (tt_width tt)
    (title_text tt) (status_text tt) (status_color tt) (progress_text tt)
    (progress_display tt) (original_text tt) (original_display tt)
    (original_lineThrough tt) (undo_display tt).

(** What a callback of the pass does when it runs. *)
Definition runFrame (tooltipWidth : Z) (task : task) (s : t)
    : option (t * list State.task) :=
  match task with
  | LayoutFrame => Some (managePodVisibilityAndAnimations tooltipWidth s)
  | PodFrameOuter r opacity target => Some (s, [PodFrame r opacity target])
  | PodFrame r opacity target => Some (podFrame r opacity target s, [])
  | TooltipShowTimer => Some (set_masterTooltip showTooltip s, [])
  | TooltipHideTimer => Some (tooltipHideTimer s, [])
  | RotationResetTimer => Some (set_stack Stack.resetRotation s, [])
  | _ => None
  end.

(** ** Loops over the keys

    The loops of the pass take the card of each listed key and update it.
    In a state where no key is listed twice and no card is filed under two
    keys, the card of a key is updated once, by the body for that key. *)

(** The fields of a state other than the cards. *)
Definition shellOf (s : t) : t := set_cards (λ _, ∅) s.

Lemma shellOf_fields s s' :
  shellOf s' = shellOf s →
  stack s' = stack s ∧ activeDownloadCards s' = activeDownloadCards s ∧
  downloads s' = downloads s ∧ renamedFiles s' = renamedFiles s ∧
  masterTooltip s' = masterTooltip s ∧ podsRow_height s' = podsRow_height s.
Proof.
  intros H. split_and!;
    [exact (f_equal stack H)|exact (f_equal activeDownloadCards H)
    |exact (f_equal downloads H)|exact (f_equal renamedFiles H)
    |exact (f_equal masterTooltip H)|exact (f_equal podsRow_height H)].
Qed.

(** An assignment that writes what the card holds. *)
Lemma updCard_id r f s :
  (∀ c, cards s !! r = Some c → f c = c) → updCard r f s = s.
Proof.
  intros Hf. destruct s. unfold updCard, set_cards. cbn in *. f_equal.
  by apply alter_id.
Qed.

Lemma updCard_ext r f g s :
  (∀ c, cards s !! r = Some c → f c = g c) → updCard r f s = updCard r g s.
Proof.
  intros Hf. unfold updCard, set_cards. f_equal. apply map_eq. intros r'.
  destruct (decide (r' = r)) as [->|?];
    [rewrite !lookup_alter_eq|by rewrite !lookup_alter_ne].
  destruct (cards s !! r) as [c|] eqn:Hc; [|done]. cbn. f_equal. by apply Hf.
Qed.

Section per_key.
Context (F : string → ref → cardData → cardData).

Definition perKey (s : t) (k : string) : t :=
  match getCardRef s k with
  | Some r => updCard r (F k r) s
  | None => s
  end.

Lemma shellOf_updCard r f s : shellOf (updCard r f s) = shellOf s.
Proof. done. Qed.

Lemma shellOf_perKey s k : shellOf (perKey s k) = shellOf s.
Proof. unfold perKey. by case_match. Qed.

Lemma activeDownloadCards_perKey s k :
  activeDownloadCards (perKey s k) = activeDownloadCards s.
Proof. exact (f_equal activeDownloadCards (shellOf_perKey s k)). Qed.

Lemma shellOf_foldl_perKey keys s : shellOf (foldl perKey s keys) = shellOf s.
Proof.
  apply (foldl_invariant (λ s', shellOf s' = shellOf s)); [done|].
  intros s0 k <- _. apply shellOf_perKey.
Qed.

Lemma activeDownloadCards_foldl_perKey keys s :
  activeDownloadCards (foldl perKey s keys) = activeDownloadCards s.
Proof. exact (f_equal activeDownloadCards (shellOf_foldl_perKey keys s)). Qed.

Lemma cardKeys_foldl_perKey keys s :
  (∀ k r c, keysOf (F k r c) = keysOf c) →
  cardKeys (foldl perKey s keys) = cardKeys s.
Proof.
  intros HF. apply (foldl_invariant (λ s', cardKeys s' = cardKeys s)); [done|].
  intros s0 k <- _. unfold perKey. case_match; [|done]. by apply cardKeys_updCard.
Qed.

(** A card no listed key leads to is left alone. *)
Lemma lookup_foldl_perKey_other keys s r :
  (∀ k, k ∈ keys → activeDownloadCards s !! k ≠ Some r) →
  cards (foldl perKey s keys) !! r = cards s !! r.
Proof.
  revert s. induction keys as [|k keys IH]; intros s Hr; [done|]. cbn [foldl].
  rewrite IH.
  - unfold perKey, getCardRef. destruct (activeDownloadCards s !! k) as [r'|] eqn:Hk;
      [|done].
    cbn. apply lookup_alter_ne. intros ->. apply (Hr k); [set_solver|done].
  - intros k' Hk'. rewrite activeDownloadCards_perKey. apply Hr. set_solver.
Qed.

(** The card of a listed key is updated by the body for that key. *)
Lemma lookup_foldl_perKey keys s k r :
  NoDup keys →
  (∀ k', k' ∈ keys → activeDownloadCards s !! k' = Some r → k' = k) →
  k ∈ keys → activeDownloadCards s !! k = Some r →
  cards (foldl perKey s keys) !! r = F k r <$> cards s !! r.
Proof.
  revert s. induction keys as [|k0 keys IH]; intros s Hnd Hinj Hk Hr; [set_solver|].
  apply NoDup_cons in Hnd as [Hk0 Hnd]. cbn [foldl].
  pose proof (activeDownloadCards_perKey s k0) as Hadc. destruct (decide (k = k0)) as [->|Hne].
  - rewrite lookup_foldl_perKey_other.
    + unfold perKey, getCardRef. rewrite Hr. cbn. apply lookup_alter_eq.
    + intros k' Hk' Hr'. rewrite Hadc in Hr'.
      apply Hk0. rewrite <-(Hinj k'); [done|set_solver|done].
  - rewrite IH; [|done|..].
    + f_equal. unfold perKey, getCardRef.
      destruct (activeDownloadCards s !! k0) as [r0|] eqn:Hr0; [|done].
      cbn. apply lookup_alter_ne. intros ->. apply Hne. symmetry.
      apply Hinj; [set_solver|done].
    + intros k' Hk' Hr'. rewrite Hadc in Hr'. apply Hinj; [set_solver|done].
    + set_solver.
    + by rewrite Hadc.
Qed.

(** A loop whose body changes no card of a listed key changes nothing. *)
Lemma foldl_perKey_fixed keys s :
  (∀ k r c, k ∈ keys → activeDownloadCards s !! k = Some r →
            cards s !! r = Some c → F k r c = c) →
  foldl perKey s keys = s.
Proof.
  intros HF. apply (foldl_invariant (λ s', s' = s)); [done|].
  intros ? k -> Hk. unfold perKey, getCardRef.
  destruct (activeDownloadCards s !! k) as [r|] eqn:Hr; [|done].
  apply updCard_id. intros c Hc. by eapply HF.
Qed.
End per_key.

(** ** The loops of the pass as loops over the keys *)

Definition appendReady (c : cardData) : cardData :=
  if negb (isWaitingForZenAnimation c) && negb (domAppended c)
  then appendToRow c else c.

Definition laidOut (p : pass) (k : string) (r : ref) (c : cardData) : cardData :=
  (layoutCard p k r c).1.

Lemma ensureInDom_perKey s k : ensureInDom s k = perKey (λ _ _, appendReady) s k.
Proof.
  unfold ensureInDom, perKey. destruct (getCardRef s k) as [r|]; [|done].
  destruct (cards s !! r) as [c|] eqn:Hc.
  - destruct (negb _ && negb _) eqn:Hgo.
    + apply updCard_ext. intros c' ?. assert (c' = c) as -> by congruence.
      unfold appendReady. by rewrite Hgo.
    + symmetry. apply updCard_id. intros c' ?.
      assert (c' = c) as -> by congruence. unfold appendReady. by rewrite Hgo.
  - symmetry. apply updCard_id. congruence.
Qed.

Lemma applyLayout_perKey p k s : (applyLayout p k s).1 = perKey (laidOut p) s k.
Proof.
  unfold applyLayout, perKey, laidOut. destruct (getCardRef s k) as [r|]; [|done].
  destruct (cards s !! r) as [c|] eqn:Hc.
  - destruct (layoutCard p k r c) as [c' tasks] eqn:Hl. cbn.
    apply updCard_ext. intros c0 ?. assert (c0 = c) as -> by congruence.
    by rewrite Hl.
  - cbn. symmetry. apply updCard_id. congruence.
Qed.

Lemma foldl_ensureInDom keys s :
  foldl ensureInDom s keys = foldl (perKey (λ _ _, appendReady)) s keys.
Proof. apply foldl_ext. intros. apply ensureInDom_perKey. Qed.

Lemma forEach_applyLayout p keys s :
  (forEach (applyLayout p) keys s).1 = foldl (perKey (laidOut p)) s keys.
Proof. rewrite forEach_fst. apply foldl_ext. intros. apply applyLayout_perKey. Qed.

(** ** One card *)

Lemma keysOf_appendReady c : keysOf (appendReady c) = keysOf c.
Proof. unfold appendReady. by case_match. Qed.

Lemma keysOf_hideVisible c : keysOf (hideVisible c) = keysOf c.
Proof. unfold hideVisible. by case_match. Qed.

(** What the loop over the slots does not write of a card: everything
    but the style of the pod, the intended target and [isVisible]. *)
Definition unstyled (c : cardData) : cardData :=
  set_isVisible false
    (set_intended None None
       (set_podElement (λ p, set_shown "" None (set_style "" OutDefault p)) c)).

Lemma unstyled_animateIn p sl r c : unstyled (animateIn p sl r c).1 = unstyled c.
Proof. unfold animateIn. by repeat case_goal_match. Qed.

Lemma unstyled_showPod p sl r c : unstyled (showPod p sl r c).1 = unstyled c.
Proof.
  unfold showPod.
  pose proof (unstyled_animateIn p sl r
    (set_podElement (set_shown "flex" (Some (Layout.slot_zIndex sl))) c)) as H.
  destruct (animateIn _ _ _ _) as [c0 frames]. exact H.
Qed.

Lemma unstyled_hidePod p c : unstyled (hidePod p c) = unstyled c.
Proof. unfold hidePod. by repeat case_goal_match. Qed.

Lemma unstyled_laidOut p k r c : unstyled (laidOut p k r c) = unstyled c.
Proof.
  unfold laidOut, layoutCard. repeat case_goal_match; cbn [fst];
    [done|apply unstyled_showPod|apply unstyled_hidePod].
Qed.

Lemma keysOf_laidOut p k r c : keysOf (laidOut p k r c) = keysOf c.
Proof. exact (f_equal keysOf (unstyled_laidOut p k r c)). Qed.

(** The pass does not touch what decides whether a pod is passed over. *)
Lemma skipped_laidOut p k r c : skipped (laidOut p k r c) = skipped c.
Proof. exact (f_equal skipped (unstyled_laidOut p k r c)). Qed.


(** ** A second pass *)

(** The callbacks that start an animation of a pod. *)
Definition isFrame (task : task) : bool :=
  match task with
  | PodFrame _ _ _ | PodFrameOuter _ _ _ => true
  | _ => false
  end.

Lemma hidePod_settled p c : hidePod p (hidePod p c) = hidePod p c.
Proof.
  destruct c as [[] ? ? ? ? ? ? ? ? ? ? ? ? ?]. unfold hidePod, targetTransformOut.
  cbn. repeat case_goal_match; simplify_eq/=; try done;
    tidy_bools; simplify_eq/=; naive_solver.
Qed.

(** The animation towards a slot leaves the card alone or puts the pod at
    the start of its entrance. *)
Lemma animateIn_cases p sl r c :
  (animateIn p sl r c).1 = c ∨
  ∃ d, (animateIn p sl r c).1
       = set_podElement (set_style "0" (entranceTransform d sl)) c.
Proof. unfold animateIn. repeat case_goal_match; eauto. Qed.

(** No animation is set up for a visible pod that is where it should be. *)
Lemma animateIn_settled p sl r c :
  isVisible c = true →
  intendedTargetTransform c = Some (targetTransform sl) →
  intendedTargetOpacity c = Some (targetOpacity sl) →
  animateIn p sl r c = (c, []).
Proof.
  intros Hv Ht Ho. unfold animateIn.
  by rewrite Hv, Ht, Ho, !bool_decide_false by naive_solver.
Qed.

(** A pod that has a slot ends up shown, with the slot as its intended
    target; its style is left for the frame, or set to the start of the
    entrance. *)
Lemma showPod_fst p sl r c :
  let shown := set_podElement (set_shown "flex" (Some (Layout.slot_zIndex sl))) c in
  ∃ c0, (showPod p sl r c).1
        = set_isVisible true
            (set_intended (Some (targetTransform sl)) (Some (targetOpacity sl)) c0) ∧
        (c0 = shown ∨
         ∃ d, c0 = set_podElement (set_style "0" (entranceTransform d sl)) shown).
Proof.
  intros shown. unfold showPod. fold shown.
  pose proof (animateIn_cases p sl r shown) as Hc.
  destruct (animateIn _ _ _ _) as [c0 frames]. by exists c0.
Qed.

Lemma showPod_settled p sl r c :
  (showPod p sl r (showPod p sl r c).1).1 = (showPod p sl r c).1 ∧
  Forall (λ task, isFrame task = false) (showPod p sl r (showPod p sl r c).1).2.
Proof.
  destruct (showPod_fst p sl r c) as (c0 & -> & Hc0). unfold showPod.
  rewrite animateIn_settled by done. cbn [fst snd app].
  split; [|case_match; by repeat constructor].
  destruct c as [[] ? ? ? ? ? ? ? ? ? ? ? ? ?]. by destruct Hc0 as [->|[d ->]].
Qed.

Lemma layoutCard_settled p k r c :
  laidOut p k r (laidOut p k r c) = laidOut p k r c ∧
  Forall (λ task, isFrame task = false) (layoutCard p k r (laidOut p k r c)).2.
Proof.
  pose proof (skipped_laidOut p k r c) as Hs. unfold laidOut in *.
  set (c1 := (layoutCard p k r c).1) in *. unfold layoutCard. rewrite Hs.
  destruct (skipped c) eqn:Hc; [by split|].
  subst c1. unfold layoutCard. rewrite Hc.
  destruct (findSlot p k) as [sl|]; cbn [fst snd].
  - apply showPod_settled.
  - split; [apply hidePod_settled|constructor].
Qed.

(** ** The loop over the slots *)

(** No card is filed under two keys. *)
Definition filedOnce (s : t) : Prop :=
  ∀ k1 k2 r, activeDownloadCards s !! k1 = Some r →
             activeDownloadCards s !! k2 = Some r → k1 = k2.

Lemma wf_filedOnce s : wf s → filedOnce s.
Proof. intros (_ & _ & Hc) k1 k2 r. by apply cardsAgree_inj. Qed.

Lemma passOf_shellOf tooltipWidth f s s' :
  shellOf s' = shellOf s → passOf tooltipWidth f s' = passOf tooltipWidth f s.
Proof.
  intros Hs. unfold passOf, orderedPodKeys.
  by rewrite (f_equal stack Hs : stack s' = stack s),
    (f_equal masterTooltip Hs : masterTooltip s' = masterTooltip s).
Qed.

(** The callbacks a round sets up depend on the card of its key only. *)
Lemma applyLayout_tasks_other F p k k0 s :
  (∀ r, activeDownloadCards s !! k0 = Some r → activeDownloadCards s !! k ≠ Some r) →
  (applyLayout p k (perKey F s k0)).2 = (applyLayout p k s).2.
Proof.
  intros Hr. unfold applyLayout, perKey, getCardRef.
  destruct (activeDownloadCards s !! k0) as [r0|] eqn:Hk0; [|done].
  cbn. destruct (activeDownloadCards s !! k) as [r|] eqn:Hk; [|done].
  rewrite lookup_alter_ne; [by repeat case_goal_match|]. intros ->. by eapply Hr.
Qed.

Lemma forEach_applyLayout_tasks p keys s :
  NoDup keys → filedOnce s →
  (forEach (applyLayout p) keys s).2 = keys ≫= λ k, (applyLayout p k s).2.
Proof.
  revert s. induction keys as [|k0 keys IH]; intros s Hnd Hinj; [done|].
  apply NoDup_cons in Hnd as [Hk0 Hnd]. rewrite forEach_cons. cbn. f_equal.
  rewrite applyLayout_perKey, IH; [|done|].
  - apply bind_ext_elem. intros k Hk. apply applyLayout_tasks_other.
    intros r Hr0 Hr. apply Hk0. by rewrite (Hinj k0 k r).
  - intros k1 k2 r. rewrite !activeDownloadCards_perKey. apply Hinj.
Qed.

(** The card of a listed key after the loop. *)
Lemma forEach_applyLayout_lookup p keys s k r :
  NoDup keys → filedOnce s → k ∈ keys → activeDownloadCards s !! k = Some r →
  cards (forEach (applyLayout p) keys s).1 !! r = laidOut p k r <$> cards s !! r.
Proof.
  intros Hnd Hinj Hk Hr. rewrite forEach_applyLayout.
  apply lookup_foldl_perKey; [done| |done..]. intros k' _ Hr'. by apply (Hinj k' k r).
Qed.

Lemma foldl_ensureInDom_lookup keys s k r :
  NoDup keys → filedOnce s → k ∈ keys → activeDownloadCards s !! k = Some r →
  cards (foldl ensureInDom s keys) !! r = appendReady <$> cards s !! r.
Proof.
  intros Hnd Hinj Hk Hr. rewrite foldl_ensureInDom.
  apply (lookup_foldl_perKey (λ _ _, appendReady) keys s k r); [done| |done..].
  intros k' _ Hr'. by apply (Hinj k' k r).
Qed.

Lemma shellOf_foldl_ensureInDom keys s :
  shellOf (foldl ensureInDom s keys) = shellOf s.
Proof. rewrite foldl_ensureInDom. apply shellOf_foldl_perKey. Qed.

Lemma shellOf_forEach_applyLayout p keys s :
  shellOf (forEach (applyLayout p) keys s).1 = shellOf s.
Proof. rewrite forEach_applyLayout. apply shellOf_foldl_perKey. Qed.

Lemma shellOf_foldl_hideCard keys s : shellOf (foldl hideCard s keys) = shellOf s.
Proof. apply (shellOf_foldl_perKey (λ _ _, hideVisible)). Qed.

(** Every card of a listed key is as the loop over the slots leaves it. *)
Definition settled (p : pass) (keys : list string) (s : t) : Prop :=
  ∀ k r c1, k ∈ keys → activeDownloadCards s !! k = Some r →
            cards s !! r = Some c1 → ∃ c, c1 = laidOut p k r c.

Lemma forEach_applyLayout_settles p keys s :
  NoDup keys → filedOnce s → settled p keys (forEach (applyLayout p) keys s).1.
Proof.
  intros Hnd Hinj k r c1 Hk Hr Hc.
  rewrite (proj1 (proj2 (shellOf_fields _ _ (shellOf_forEach_applyLayout p keys s))))
    in Hr.
  rewrite (forEach_applyLayout_lookup p keys s k r) in Hc by done.
  apply fmap_Some in Hc as (c & _ & ->). eauto.
Qed.

(** A loop over the slots of a state that is settled changes nothing and
    sets up no animation. *)
Lemma forEach_applyLayout_settled p keys s :
  NoDup keys → filedOnce s → settled p keys s →
  (forEach (applyLayout p) keys s).1 = s ∧
  Forall (λ task, isFrame task = false) (forEach (applyLayout p) keys s).2.
Proof.
  intros Hnd Hinj Hc1. split.
  - rewrite forEach_applyLayout. apply foldl_perKey_fixed.
    intros k r c1 Hk Hr Hc. destruct (Hc1 k r c1) as [c ->]; [done..|].
    apply layoutCard_settled.
  - rewrite forEach_applyLayout_tasks by done.
    apply Forall_bind, Forall_forall. intros k Hk.
    unfold compose, applyLayout, getCardRef.
    destruct (activeDownloadCards s !! k) as [r|] eqn:Hr; [|by constructor].
    destruct (cards s !! r) as [c1|] eqn:Hc; [|by constructor].
    destruct (Hc1 k r c1) as [c ->]; [done..|].
    pose proof (proj2 (layoutCard_settled p k r c)) as Hf.
    by destruct (layoutCard p k r (laidOut p k r c)).
Qed.

(** ** The pass *)

Lemma sameCards_foldl_perKey F keys s :
  (∀ k r c, keysOf (F k r c) = keysOf c) → sameCards s (foldl (perKey F) s keys).
Proof.
  intros HF. destruct (shellOf_fields _ _ (shellOf_foldl_perKey F keys s))
    as (Hst & Hadc & Hd & Hrf & _).
  unfold sameCards, orderedPodKeys.
  by rewrite Hst, Hadc, Hd, Hrf, cardKeys_foldl_perKey.
Qed.

Lemma set_stack_id f s : f (stack s) = stack s → set_stack f s = s.
Proof. destruct s. unfold set_stack. cbn. by intros ->. Qed.

Lemma set_podsRow_height_id h s : podsRow_height s = h → set_podsRow_height h s = s.
Proof. destruct s. unfold set_podsRow_height. cbn. by intros ->. Qed.

Lemma layOut_eq tooltipWidth f s :
  let p := passOf tooltipWidth f s in
  let loop := forEach (applyLayout p) (orderedPodKeys s) s in
  layOut tooltipWidth f s
  = (set_podsRow_height (rowHeight p) loop.1,
     loop.2 ++ if Stack.lastRotationDirection (stack s)
               then [RotationResetTimer] else []).
Proof.
  intros p loop. unfold layOut. fold p. fold loop.
  destruct (shellOf_fields _ _
    (shellOf_forEach_applyLayout p (orderedPodKeys s) s)) as (Hst & _).
  fold loop in Hst. destruct loop as [s' tasks]. cbn in *. by rewrite Hst.
Qed.

Lemma sameCards_layOut tooltipWidth f s : sameCards s (layOut tooltipWidth f s).1.
Proof.
  rewrite layOut_eq. cbn. rewrite forEach_applyLayout.
  apply (sameCards_foldl_perKey (laidOut _)), keysOf_laidOut.
Qed.

Lemma stack_layOut tooltipWidth f s : stack (layOut tooltipWidth f s).1 = stack s.
Proof.
  rewrite layOut_eq. cbn.
  apply (shellOf_fields _ _ (shellOf_forEach_applyLayout _ _ s)).
Qed.

Lemma stack_foldl_hideCard keys s : stack (foldl hideCard s keys) = stack s.
Proof. apply (shellOf_fields _ _ (shellOf_foldl_hideCard keys s)). Qed.

Lemma stack_foldl_ensureInDom keys s : stack (foldl ensureInDom s keys) = stack s.
Proof. apply (shellOf_fields _ _ (shellOf_foldl_ensureInDom keys s)). Qed.

(** The pass reads and writes the stack as [Layout.layoutStack] does. *)
Lemma managePodVisibilityAndAnimations_stack tooltipWidth s :
  stack (managePodVisibilityAndAnimations tooltipWidth s).1
  = (Layout.layoutStack tooltipWidth (stack s)).1.
Proof.
  unfold managePodVisibilityAndAnimations, Layout.layoutStack.
  destruct (decide (length (orderedPodKeys s) = 0%nat)).
  { rewrite !bool_decide_true by done. unfold hideTooltip. by case_match. }
  rewrite !(bool_decide_false (length _ = _)) by done.
  destruct (decide (tooltipWidth = 0)).
  { rewrite !bool_decide_true by done. unfold awaitWidth. by case_match. }
  rewrite !(bool_decide_false (tooltipWidth = 0)) by done. cbn zeta.
  set (s0 := foldl ensureInDom _ _).
  assert (stack s0 = Stack.defaultFocus (stack s)) as Hs0
    by apply stack_foldl_ensureInDom.
  unfold focusedDownloadKey, orderedPodKeys. rewrite Hs0.
  case_bool_decide as Hi; cbn [stack set_stack]; rewrite ?Hs0;
    repeat case_goal_match; cbn [fst];
    rewrite ?stack_layOut, ?stack_foldl_hideCard; unfold set_stack;
    cbn [stack fst]; by rewrite ?Hs0.
Qed.

(** The state the loop over the slots starts from. *)
Definition prepared (s : t) : t :=
  let s := set_stack Stack.defaultFocus s in
  foldl ensureInDom s (orderedPodKeys s).

(** With pods listed and a tooltip that has a width, the pass of a
    consistent state is the loop over the slots around the focus
    [Stack.defaultFocus] leaves. *)
Lemma managePodVisibilityAndAnimations_eq tooltipWidth s :
  wf s → orderedPodKeys s ≠ [] → tooltipWidth ≠ 0 →
  ∃ f, Stack.focusedDownloadKey (Stack.defaultFocus (stack s)) = Some f ∧
       f ∈ orderedPodKeys s ∧
       managePodVisibilityAndAnimations tooltipWidth s
       = layOut tooltipWidth f (prepared s).
Proof.
  intros ((_ & Hne & _) & _) Hk Hw.
  destruct (proj1 (Stack.validFocus_true _) (Stack.defaultFocus_valid _ Hne Hk))
    as (f & Hf & Hfne & Hfin).
  rewrite Layout.orderedPodKeys_defaultFocus in Hfin. exists f.
  split_and!; [done..|].
  apply indexOf_is_Some in Hfin as [i Hi].
  unfold managePodVisibilityAndAnimations, prepared.
  rewrite !bool_decide_false by (by try destruct (orderedPodKeys s)). cbn zeta.
  unfold focusedDownloadKey, orderedPodKeys.
  rewrite !stack_foldl_ensureInDom. cbn [stack set_stack].
  rewrite Layout.orderedPodKeys_defaultFocus, Hf. cbn [mbind option_bind].
  unfold orderedPodKeys in Hi. rewrite Hi, bool_decide_false by done.
  rewrite stack_foldl_ensureInDom. cbn [stack set_stack].
  by rewrite Hf, (proj2 (truthy_Some f)).
Qed.

Lemma shellOf_prepared s : shellOf (prepared s) = shellOf (set_stack Stack.defaultFocus s).
Proof. apply shellOf_foldl_ensureInDom. Qed.

Lemma orderedPodKeys_prepared s : orderedPodKeys (prepared s) = orderedPodKeys s.
Proof.
  unfold orderedPodKeys.
  rewrite (proj1 (shellOf_fields _ _ (shellOf_prepared s))).
  apply Layout.orderedPodKeys_defaultFocus.
Qed.

Lemma activeDownloadCards_prepared s :
  activeDownloadCards (prepared s) = activeDownloadCards s.
Proof. apply (shellOf_fields _ _ (shellOf_prepared s)). Qed.

Lemma sameCards_prepared s : sameCards s (prepared s).
Proof.
  unfold prepared. cbn zeta. rewrite foldl_ensureInDom.
  etrans; [|apply sameCards_foldl_perKey; intros; apply keysOf_appendReady].
  unfold sameCards, orderedPodKeys. cbn.
  by rewrite Layout.orderedPodKeys_defaultFocus.
Qed.

Lemma sameCards_managePodVisibilityAndAnimations tooltipWidth s :
  sameCards s (managePodVisibilityAndAnimations tooltipWidth s).1.
Proof.
  unfold managePodVisibilityAndAnimations.
  case_bool_decide; [unfold hideTooltip; by case_match|].
  case_bool_decide; [unfold awaitWidth; by case_match|]. cbn zeta.
  change (foldl ensureInDom _ _) with (prepared s).
  etrans; [apply sameCards_prepared|].
  set (s1 := if bool_decide _ then _ else prepared s).
  assert (sameCards (prepared s) s1) as -> by (unfold s1; by case_match).
  repeat case_goal_match; cbn [fst];
    first [apply sameCards_layOut
          |apply (sameCards_foldl_perKey (λ _ _, hideVisible));
           intros; apply keysOf_hideVisible].
Qed.

(** The pass keeps the stores consistent. *)
Lemma managePodVisibilityAndAnimations_wf tooltipWidth s :
  wf s → wf (managePodVisibilityAndAnimations tooltipWidth s).1.
Proof.
  intros Hwf.
  apply (wf_sameCards s); [apply sameCards_managePodVisibilityAndAnimations|done|].
  destruct (sameCards_managePodVisibilityAndAnimations tooltipWidth s) as (-> & _).
  unfold focusedDownloadKey. rewrite managePodVisibilityAndAnimations_stack.
  destruct Hwf as (Hst & _).
  destruct (decide (orderedPodKeys s = [] ∨ tooltipWidth = 0)) as [Hi|Hi].
  - rewrite Layout.layoutStack_idle by done. apply Hst.
  - destruct (Layout.layoutStack_focus tooltipWidth (stack s))
      as (f & Hf & _ & Hin & ->); [apply Hst|naive_solver..|].
    cbn [fst]. intros ? ?. by simplify_eq.
Qed.

Lemma wf_prepared s : wf s → wf (prepared s).
Proof.
  intros Hwf. apply (wf_sameCards s); [apply sameCards_prepared|done|].
  destruct (sameCards_prepared s) as (-> & _). unfold focusedDownloadKey.
  rewrite (proj1 (shellOf_fields _ _ (shellOf_prepared s))).
  destruct (Stack.defaultFocus_wf (stack s)) as (_ & _ & Hf); [apply Hwf|].
  intros f. unfold orderedPodKeys.
  rewrite <-(Layout.orderedPodKeys_defaultFocus (stack s)). apply Hf.
Qed.

Lemma passOf_prepared tooltipWidth f s :
  passOf tooltipWidth f (prepared s) = passOf tooltipWidth f s.
Proof.
  rewrite (passOf_shellOf _ _ _ _ (shellOf_prepared s)). unfold passOf, orderedPodKeys.
  cbn [stack set_stack masterTooltip]. rewrite Layout.orderedPodKeys_defaultFocus.
  f_equal. unfold Stack.defaultFocus. by case_match.
Qed.

Lemma lookup_prepared s k r :
  wf s → k ∈ orderedPodKeys s → activeDownloadCards s !! k = Some r →
  cards (prepared s) !! r = appendReady <$> cards s !! r.
Proof.
  intros Hwf Hk Hr. unfold prepared. cbn zeta.
  rewrite (foldl_ensureInDom_lookup _ _ k r); [done|..|done].
  - unfold orderedPodKeys. cbn. rewrite Layout.orderedPodKeys_defaultFocus.
    apply Hwf.
  - by apply wf_filedOnce in Hwf.
  - unfold orderedPodKeys. cbn. by rewrite Layout.orderedPodKeys_defaultFocus.
Qed.

(** The card of a listed key after the pass: the card is put into the row
    unless it waits for the animation of the browser, and then laid out
    according to its own slot, whatever the other cards are. *)
Lemma managePodVisibilityAndAnimations_lookup tooltipWidth s f k r :
  wf s → tooltipWidth ≠ 0 →
  Stack.focusedDownloadKey (Stack.defaultFocus (stack s)) = Some f →
  k ∈ orderedPodKeys s → activeDownloadCards s !! k = Some r →
  cards (managePodVisibilityAndAnimations tooltipWidth s).1 !! r
  = (λ c, laidOut (passOf tooltipWidth f s) k r (appendReady c)) <$> cards s !! r.
Proof.
  intros Hwf Hw Hf Hk Hr.
  destruct (managePodVisibilityAndAnimations_eq tooltipWidth s)
    as (f' & Hf' & _ & ->); [done|by destruct (orderedPodKeys s); set_solver|done|].
  assert (f' = f) as -> by congruence.
  pose proof (wf_prepared s Hwf) as Hwf'.
  rewrite layOut_eq. cbn [fst]. change (cards (set_podsRow_height ?h ?s)) with (cards s).
  rewrite (forEach_applyLayout_lookup _ _ _ k r);
    [|apply Hwf'|by apply wf_filedOnce
     |by rewrite orderedPodKeys_prepared|by rewrite activeDownloadCards_prepared].
  rewrite passOf_prepared, (lookup_prepared s k r) by done.
  by rewrite <-option_fmap_compose.
Qed.

(** A frame of a card carries the target the card records as intended. *)
Lemma layoutCard_frames p k r c task :
  task ∈ (layoutCard p k r c).2 → isFrame task = true →
  ∃ opacity target,
    (task = PodFrame r opacity target ∨ task = PodFrameOuter r opacity target) ∧
    isVisible (laidOut p k r c) = true ∧
    intendedTargetTransform (laidOut p k r c) = Some target ∧
    intendedTargetOpacity (laidOut p k r c) = Some opacity.
Proof.
  unfold laidOut, layoutCard. destruct (skipped c); [set_solver|].
  destruct (findSlot p k) as [sl|]; [|set_solver]. unfold showPod.
  destruct (animateIn _ _ _ _) as [c0 frames] eqn:Ha. cbn [fst snd].
  intros [Hin|Hin]%elem_of_app Hfr; [|case_match; set_solver].
  exists (targetOpacity sl), (targetTransform sl). split; [|done].
  unfold animateIn in Ha. repeat case_match; simplify_eq; set_solver.
Qed.

(** ** What the pass shows *)

Section laid_out.
Context (tooltipWidth : Z) (s : t) (f k : string) (r : ref) (c : cardData).
Context (Hwf : wf s) (Hw : tooltipWidth ≠ 0).
Context (Hf : Stack.focusedDownloadKey (Stack.defaultFocus (stack s)) = Some f).
Context (Hk : k ∈ orderedPodKeys s) (Hr : activeDownloadCards s !! k = Some r).
Context (Hc : cards s !! r = Some c) (Hgo : skipped (appendReady c) = false).

(** C13. A pod that has a slot is shown at the height of its slot, and the card
    records the place and the opacity of the slot as its intended target. *)
Theorem managePodVisibilityAndAnimations_shows layoutData :
  findSlot (passOf tooltipWidth f s) k = Some layoutData →
  ∃ c', cards (managePodVisibilityAndAnimations tooltipWidth s).1 !! r = Some c' ∧ isVisible c' = true ∧
        style_display (podElement_ c') = "flex" ∧
        style_zIndex (podElement_ c') = Some (Layout.slot_zIndex layoutData) ∧
        intendedTargetTransform c' = Some (Target (Layout.slot_x layoutData)) ∧
        intendedTargetOpacity c'
        = Some (if Layout.slot_isFocused layoutData then "1" else "0.75").
Proof.
  intros Hsl. eexists. split.
  { by rewrite (managePodVisibilityAndAnimations_lookup _ s f k r), Hc. }
  unfold laidOut, layoutCard. rewrite Hgo, Hsl.
  destruct (showPod_fst (passOf tooltipWidth f s) layoutData r (appendReady c))
    as (c0 & -> & [->|[d ->]]); by split_and!.
Qed.

(** C32. A pod that has no slot is not visible; if it was, or if its pod was not
    transparent, the card records opacity 0 as its intended target. *)
Theorem managePodVisibilityAndAnimations_hides :
  findSlot (passOf tooltipWidth f s) k = None →
  ∃ c', cards (managePodVisibilityAndAnimations tooltipWidth s).1 !! r = Some c' ∧ isVisible c' = false ∧
        (isVisible c = true ∨ style_opacity (podElement_ c) ≠ "0" →
         intendedTargetOpacity c' = Some "0" ∧
         (intendedTargetOpacity c ≠ Some "0" →
          style_opacity (podElement_ c') = "0")).
Proof.
  intros Hsl. eexists. split.
  { by rewrite (managePodVisibilityAndAnimations_lookup _ s f k r), Hc. }
  unfold laidOut, layoutCard. rewrite Hgo, Hsl. cbn [fst].
  assert (isVisible (appendReady c) = isVisible c ∧
          style_opacity (podElement_ (appendReady c)) = style_opacity (podElement_ c) ∧
          intendedTargetOpacity (appendReady c) = intendedTargetOpacity c)
    as (Hv & Ho & Hi) by (unfold appendReady; by case_match).
  unfold hidePod. rewrite Hv, Ho, Hi. split; [done|]. intros Hshown.
  rewrite (proj2 (orb_true_iff _ _)) by (rewrite bool_decide_eq_true; tauto).
  split; [done|]. intros Hne.
  by rewrite (bool_decide_true (_ ≠ Some "0")), orb_true_r by done.
Qed.
End laid_out.

(** ** The frames of a pass *)

Lemma managePodVisibilityAndAnimations_nil tooltipWidth s :
  orderedPodKeys s = [] →
  managePodVisibilityAndAnimations tooltipWidth s = hideTooltip s.
Proof.
  intros Hk. unfold managePodVisibilityAndAnimations.
  by rewrite bool_decide_true by (by rewrite Hk).
Qed.

Lemma managePodVisibilityAndAnimations_zero s :
  orderedPodKeys s ≠ [] → managePodVisibilityAndAnimations 0 s = (awaitWidth s, []).
Proof.
  intros Hk. unfold managePodVisibilityAndAnimations.
  by rewrite bool_decide_false, bool_decide_true
    by (by try destruct (orderedPodKeys s)).
Qed.

Lemma frame_not_in task tasks :
  Forall (λ task, isFrame task = false) tasks → task ∈ tasks →
  isFrame task = true → False.
Proof. rewrite Forall_forall. intros H ?%H. congruence. Qed.

(** C24. Every animation frame a pass sets up carries the target the pass has
    recorded as intended in the card of that pod, and the card is marked
    visible. *)
Theorem managePodVisibilityAndAnimations_frames tooltipWidth s task :
  wf s → task ∈ (managePodVisibilityAndAnimations tooltipWidth s).2 →
  isFrame task = true →
  ∃ r opacity target c',
    (task = PodFrame r opacity target ∨ task = PodFrameOuter r opacity target) ∧
    cards (managePodVisibilityAndAnimations tooltipWidth s).1 !! r = Some c' ∧
    isVisible c' = true ∧ intendedTargetTransform c' = Some target ∧
    intendedTargetOpacity c' = Some opacity.
Proof.
  intros Hwf Hin Hfr. pose proof (wf_prepared s Hwf) as Hwf'.
  destruct (decide (orderedPodKeys s = [])) as [Hk|Hk].
  { rewrite managePodVisibilityAndAnimations_nil in Hin by done.
    unfold hideTooltip in Hin. exfalso.
    eapply frame_not_in; [|exact Hin|exact Hfr]. case_match; by repeat constructor. }
  destruct (decide (tooltipWidth = 0)) as [->|Hw].
  { rewrite managePodVisibilityAndAnimations_zero in Hin by done. set_solver. }
  destruct (managePodVisibilityAndAnimations_eq tooltipWidth s)
    as (f & Hf & _ & Heq); [done..|].
  rewrite Heq, layOut_eq in Hin. cbn [snd] in Hin.
  apply elem_of_app in Hin as [Hin|Hin].
  2: { exfalso. eapply frame_not_in; [|exact Hin|exact Hfr].
       case_match; by repeat constructor. }
  rewrite forEach_applyLayout_tasks in Hin
    by first [apply Hwf'|by apply wf_filedOnce].
  apply list_elem_of_bind in Hin as (k & Hin & Hk').
  rewrite orderedPodKeys_prepared in Hk'. unfold applyLayout, getCardRef in Hin.
  destruct (activeDownloadCards (prepared s) !! k) as [r|] eqn:Hr; [|set_solver].
  destruct (cards (prepared s) !! r) as [c|] eqn:Hc; [|set_solver].
  rewrite activeDownloadCards_prepared in Hr.
  rewrite (lookup_prepared s k r), passOf_prepared in * by done.
  apply fmap_Some in Hc as (c0 & Hc0 & ->).
  destruct (layoutCard_frames (passOf tooltipWidth f s) k r (appendReady c0) task)
    as (opacity & target & Htask & Hc'); [by destruct (layoutCard _ _ _ _)|done|].
  exists r, opacity, target. eexists. split; [done|]. split; [|exact Hc'].
  by rewrite (managePodVisibilityAndAnimations_lookup _ s f k r), Hc0.
Qed.

(** ** A second pass *)

Lemma appendReady_laidOut p k r c :
  appendReady (laidOut p k r (appendReady c)) = laidOut p k r (appendReady c).
Proof.
  pose proof (unstyled_laidOut p k r (appendReady c)) as Hu.
  set (c' := laidOut p k r (appendReady c)) in *.
  assert (isWaitingForZenAnimation c' = isWaitingForZenAnimation (appendReady c))
    as Hw by exact (f_equal isWaitingForZenAnimation Hu).
  assert (domAppended c' = domAppended (appendReady c))
    as Hd by exact (f_equal domAppended Hu).
  unfold appendReady at 1. rewrite Hw, Hd. unfold appendReady.
  destruct (isWaitingForZenAnimation c) eqn:Hw', (domAppended c) eqn:Hd'; cbn;
    by rewrite ?Hw', ?Hd'.
Qed.

(** The state a pass leaves, with pods listed and a tooltip that has a
    width: every card is laid out and in the row, the focus is valid, and
    the row has the height of the layout. *)
Lemma managePodVisibilityAndAnimations_leaves tooltipWidth s f :
  wf s → orderedPodKeys s ≠ [] → tooltipWidth ≠ 0 →
  Stack.focusedDownloadKey (Stack.defaultFocus (stack s)) = Some f →
  let s' := (managePodVisibilityAndAnimations tooltipWidth s).1 in
  prepared s' = s' ∧ passOf tooltipWidth f s' = passOf tooltipWidth f s ∧
  settled (passOf tooltipWidth f s) (orderedPodKeys s') s' ∧
  podsRow_height s' = rowHeight (passOf tooltipWidth f s) ∧
  Stack.focusedDownloadKey (Stack.defaultFocus (stack s')) = Some f.
Proof.
  intros Hwf Hk Hw Hf s'.
  destruct (sameCards_managePodVisibilityAndAnimations tooltipWidth s)
    as (Hkeys & Hadc & _). fold s' in Hkeys, Hadc.
  assert (∀ k r c1, k ∈ orderedPodKeys s' → activeDownloadCards s' !! k = Some r →
            cards s' !! r = Some c1 →
            ∃ c, c1 = laidOut (passOf tooltipWidth f s) k r (appendReady c)) as Hc1.
  { intros k r c1. rewrite Hkeys, Hadc. intros Hk' Hr. unfold s'.
    rewrite (managePodVisibilityAndAnimations_lookup _ s f k r) by done.
    intros (c & _ & ->)%fmap_Some. eauto. }
  assert (stack s' = Stack.defaultFocus (stack s)) as Hst.
  { unfold s'. rewrite managePodVisibilityAndAnimations_stack.
    destruct (Layout.layoutStack_focus tooltipWidth (stack s)) as (? & _ & _ & _ & ->);
      [apply Hwf|done..]. }
  assert (Stack.defaultFocus (stack s') = stack s') as Hdf.
  { rewrite Hst. unfold Stack.defaultFocus at 1.
    by rewrite Stack.defaultFocus_valid by (first [apply Hwf|done]). }
  split_and!.
  - unfold prepared. cbn zeta. rewrite set_stack_id by done.
    rewrite foldl_ensureInDom. apply foldl_perKey_fixed.
    intros k r c1 Hk' Hr Hc. destruct (Hc1 k r c1) as [c ->]; [done..|].
    apply appendReady_laidOut.
  - destruct (managePodVisibilityAndAnimations_eq tooltipWidth s)
      as (f' & Hf' & _ & Heq); [done..|]. unfold s'. rewrite Heq, layOut_eq.
    cbn [fst]. rewrite <-(passOf_prepared _ _ s).
    etrans; [|apply (passOf_shellOf _ _ (prepared s)), shellOf_forEach_applyLayout].
    done.
  - intros k r c1 Hk' Hr Hc. destruct (Hc1 k r c1) as [c ->]; eauto.
  - destruct (managePodVisibilityAndAnimations_eq tooltipWidth s)
      as (f' & Hf' & _ & Heq); [done..|]. unfold s'. rewrite Heq, layOut_eq.
    cbn [fst podsRow_height set_podsRow_height]. rewrite passOf_prepared. congruence.
  - by rewrite Hdf, Hst.
Qed.

Lemma hideTooltip_settled s : hideTooltip (hideTooltip s).1 = ((hideTooltip s).1, []).
Proof.
  unfold hideTooltip. destruct (decide (tt_opacity (masterTooltip s) = "0")) as [Ho|Ho].
  - rewrite !(bool_decide_false (tt_opacity (masterTooltip s) ≠ "0")) by naive_solver.
    cbn [fst]. by rewrite ?bool_decide_false by naive_solver.
  - rewrite !(bool_decide_true (tt_opacity (masterTooltip s) ≠ "0")) by done.
    cbn [fst]. by rewrite bool_decide_false by (cbn; naive_solver).
Qed.

Lemma awaitWidth_settled s : awaitWidth (awaitWidth s) = awaitWidth s.
Proof.
  unfold awaitWidth. destruct (decide (podsRow_height s = "0px")) as [Hh|Hh].
  - rewrite !(bool_decide_true (podsRow_height s = "0px")) by done.
    by rewrite bool_decide_false.
  - by rewrite !(bool_decide_false (podsRow_height s = "0px")) by done.
Qed.

(** C4. A second pass with nothing in between changes nothing and sets up no
    animation frame. *)
Theorem managePodVisibilityAndAnimations_idempotent tooltipWidth s :
  wf s →
  let s' := (managePodVisibilityAndAnimations tooltipWidth s).1 in
  (managePodVisibilityAndAnimations tooltipWidth s').1 = s' ∧
  Forall (λ task, isFrame task = false)
    (managePodVisibilityAndAnimations tooltipWidth s').2.
Proof.
  intros Hwf s'. pose proof (managePodVisibilityAndAnimations_wf tooltipWidth s Hwf)
    as Hwf'. fold s' in Hwf'.
  destruct (sameCards_managePodVisibilityAndAnimations tooltipWidth s) as (Hkeys & _).
  fold s' in Hkeys.
  destruct (decide (orderedPodKeys s = [])) as [Hk|Hk].
  { rewrite managePodVisibilityAndAnimations_nil by (by rewrite Hkeys).
    unfold s'. rewrite managePodVisibilityAndAnimations_nil by done.
    by rewrite hideTooltip_settled. }
  destruct (decide (tooltipWidth = 0)) as [->|Hw].
  { rewrite managePodVisibilityAndAnimations_zero by (by rewrite Hkeys).
    unfold s'. rewrite managePodVisibilityAndAnimations_zero by done.
    cbn [fst snd]. by rewrite awaitWidth_settled. }
  destruct (managePodVisibilityAndAnimations_eq tooltipWidth s)
    as (f & Hf & _ & _); [done..|].
  destruct (managePodVisibilityAndAnimations_leaves tooltipWidth s f)
    as (Hprep & Hp & Hset & Hh & Hf'); [done..|]. fold s' in Hprep, Hp, Hset, Hh, Hf'.
  destruct (managePodVisibilityAndAnimations_eq tooltipWidth s')
    as (f' & Hf'' & _ & ->); [done|by rewrite Hkeys|done|].
  assert (f' = f) as -> by congruence.
  rewrite Hprep, layOut_eq, Hp. cbn [fst snd].
  destruct (forEach_applyLayout_settled (passOf tooltipWidth f s)
    (orderedPodKeys s') s') as [-> Hfr];
    [apply Hwf'|by apply wf_filedOnce|done|].
  split; [by apply set_podsRow_height_id|].
  apply Forall_app. split; [done|]. case_match; by repeat constructor.
Qed.

(** ** Three pods

    Three downloads start one after the other; the third one has the
    focus.  [laidOutThree] is the state after a pass beside a tooltip of
    350 px and the frames of that pass. *)

Definition arrive (dref : ref) (d : download) (now : Z) (s : t) : t :=
  (onDownloadChanged false now dref (set_downloads <[dref := d]> s)).1.

Definition three : t :=
  arrive 2%nat (downloading "/dl/c.zip" 30 100) 1200
    (arrive 1%nat (downloading "/dl/b.zip" 20 100) 1100
       (arrive 0%nat (downloading "/dl/a.zip" 10 100) 1000 (State.initial true))).

Definition runFrames (tasks : list task) (s : t) : t :=
  foldl (λ s task, match task with
                   | PodFrame r opacity target => podFrame r opacity target s
                   | _ => s
                   end) s tasks.

Definition laidOutThree : t :=
  let '(s, tasks) := managePodVisibilityAndAnimations 350 three in
  runFrames tasks s.

(** What a pod shows. *)
Definition styleOf (s : t) (k : string)
    : option (string * option Z * string * transform * bool) :=
  c ← getCard s k;
  Some (style_display (podElement_ c), style_zIndex (podElement_ c),
        style_opacity (podElement_ c), style_transform (podElement_ c),
        isVisible c).

Lemma arrive_wf dref d now s : wf s → wf (arrive dref d now s).
Proof. intros Hwf. unfold arrive. apply onDownloadChanged_wf. exact Hwf. Qed.

Lemma three_wf : wf three.
Proof. unfold three. do 3 apply arrive_wf. exact (initial_wf true). Qed.

Lemma podFrame_wf r opacity target s : wf s → wf (podFrame r opacity target s).
Proof.
  intros Hwf. apply (wf_sameCards s); [by apply sameCards_updPod|done|apply Hwf].
Qed.

Lemma runFrames_wf tasks s : wf s → wf (runFrames tasks s).
Proof.
  intros Hwf. unfold runFrames. apply foldl_invariant; [done|].
  intros s0 task Hs0 _. destruct task; try done. by apply podFrame_wf.
Qed.

Lemma laidOutThree_wf : wf laidOutThree.
Proof.
  unfold laidOutThree.
  pose proof (managePodVisibilityAndAnimations_wf 350 three three_wf).
  destruct (managePodVisibilityAndAnimations 350 three). by apply runFrames_wf.
Qed.

(** The pass beside a tooltip of 350 px sets up a frame for each of the
    three pods and the timer that brings the tooltip in; once the frames
    have run the pods stand at 0, 16 and 32 px, the focused one on top. *)
Example managePodVisibilityAndAnimations_three :
  (managePodVisibilityAndAnimations 350 three).2
  = [PodFrame 0%nat "0.75" (Target 32); PodFrame 1%nat "0.75" (Target 16);
     PodFrame 2%nat "1" (Target 0); TooltipShowTimer] ∧
  styleOf laidOutThree <$> orderedPodKeys laidOutThree
  = [Some ("flex", Some 11, "0.75", Target 32, true);
     Some ("flex", Some 12, "0.75", Target 16, true);
     Some ("flex", Some 14, "1", Target 0, true)] ∧
  podsRow_height laidOutThree = "56px".
Proof. vm_compute. by split_and!. Qed.

(** Beside a tooltip of 60 px only the focused pod has a slot: the two
    others fade out at once, without a frame. *)
Example managePodVisibilityAndAnimations_narrow :
  let '(s, tasks) := managePodVisibilityAndAnimations 60 laidOutThree in
  tasks = [TooltipShowTimer] ∧
  styleOf s <$> orderedPodKeys s
  = [Some ("flex", Some 11, "0", OutDefault, false);
     Some ("flex", Some 12, "0", OutDefault, false);
     Some ("flex", Some 14, "1", Target 0, true)].
Proof. by vm_compute. Qed.

Lemma managePodVisibilityAndAnimations_idempotent_witness :
  (managePodVisibilityAndAnimations 350
     (managePodVisibilityAndAnimations 350 three).1).1
  = (managePodVisibilityAndAnimations 350 three).1 ∧
  Forall (λ task, isFrame task = false)
    (managePodVisibilityAndAnimations 350
       (managePodVisibilityAndAnimations 350 three).1).2.
Proof. apply (managePodVisibilityAndAnimations_idempotent 350 three), three_wf. Defined.

Lemma managePodVisibilityAndAnimations_frames_witness :
  ∃ r opacity target c',
    (PodFrame 2%nat "1" (Target 0) = PodFrame r opacity target ∨
     PodFrame 2%nat "1" (Target 0) = PodFrameOuter r opacity target) ∧
    cards (managePodVisibilityAndAnimations 350 three).1 !! r = Some c' ∧
    isVisible c' = true ∧ intendedTargetTransform c' = Some target ∧
    intendedTargetOpacity c' = Some opacity.
Proof.
  apply (managePodVisibilityAndAnimations_frames 350 three);
    [apply three_wf|by vm_compute; set_solver|done].
Defined.

(** The cards of the second pod of [three] and of the first pod of
    [laidOutThree]. *)
Definition secondOfThree : cardData :=
  default (sampleCard "" 0%nat ∅) (cards three !! 1%nat).
Definition firstLaidOut : cardData :=
  default (sampleCard "" 0%nat ∅) (cards laidOutThree !! 0%nat).

Lemma managePodVisibilityAndAnimations_shows_witness :
  let layoutData := Layout.mkSlot "/dl/b.zip" 16 12 false in
  ∃ c', cards (managePodVisibilityAndAnimations 350 three).1 !! 1%nat = Some c' ∧
        isVisible c' = true ∧
        style_display (podElement_ c') = "flex" ∧
        style_zIndex (podElement_ c') = Some (Layout.slot_zIndex layoutData) ∧
        intendedTargetTransform c' = Some (Target (Layout.slot_x layoutData)) ∧
        intendedTargetOpacity c'
        = Some (if Layout.slot_isFocused layoutData then "1" else "0.75").
Proof.
  apply (managePodVisibilityAndAnimations_shows 350 three "/dl/c.zip" "/dl/b.zip"
           1%nat secondOfThree three_wf); [done|vm_compute; first [reflexivity|set_solver]..].
Defined.

Lemma managePodVisibilityAndAnimations_hides_witness :
  ∃ c', cards (managePodVisibilityAndAnimations 60 laidOutThree).1 !! 0%nat = Some c' ∧
        isVisible c' = false ∧
        (isVisible firstLaidOut = true ∨
         style_opacity (podElement_ firstLaidOut) ≠ "0" →
         intendedTargetOpacity c' = Some "0" ∧
         (intendedTargetOpacity firstLaidOut ≠ Some "0" →
          style_opacity (podElement_ c') = "0")).
Proof.
  apply (managePodVisibilityAndAnimations_hides 60 laidOutThree "/dl/c.zip"
           "/dl/a.zip" 0%nat firstLaidOut laidOutThree_wf); [done|vm_compute; first [reflexivity|set_solver]..].
Defined.

(** ** The callbacks keep the stores consistent *)

(** ** The width of the tooltip *)

Lemma widths_shellOf s s' : shellOf s' = shellOf s → widths s' = widths s.
Proof. intros H. exact (f_equal widths H). Qed.

Lemma layOut_widths tooltipWidth f s : widths (layOut tooltipWidth f s).1 = widths s.
Proof.
  rewrite layOut_eq. cbn [fst].
  exact (widths_shellOf _ _ (shellOf_forEach_applyLayout _ _ s)).
Qed.

Lemma foldl_hideCard_widths keys s : widths (foldl hideCard s keys) = widths s.
Proof. exact (widths_shellOf _ _ (shellOf_foldl_hideCard keys s)). Qed.

(** The pass leaves the width of the tooltip and the variable alone. *)
Lemma managePodVisibilityAndAnimations_widths tooltipWidth s :
  widths (managePodVisibilityAndAnimations tooltipWidth s).1 = widths s.
Proof.
  unfold managePodVisibilityAndAnimations.
  case_bool_decide; [unfold hideTooltip; by case_match|].
  case_bool_decide; [unfold awaitWidth; by case_match|]. cbn zeta.
  set (s0 := foldl ensureInDom _ _).
  assert (widths s0 = widths s) as Hs0
    by exact (widths_shellOf _ _ (shellOf_foldl_ensureInDom _ _)).
  case_bool_decide; repeat case_goal_match; cbn [fst];
    by rewrite ?layOut_widths, ?foldl_hideCard_widths.
Qed.

Lemma runFrame_widthSynced tooltipWidth task s s' tasks :
  runFrame tooltipWidth task s = Some (s', tasks) → widthSynced s → widthSynced s'.
Proof.
  intros Hrun. apply widthSynced_widths. change s' with (s', tasks).1.
  destruct task; simpl in Hrun; try done; injection Hrun as <-; cbn [fst];
    try done.
  - apply managePodVisibilityAndAnimations_widths.
  - unfold tooltipHideTimer. by case_match.
Qed.

(** ** The callbacks of the pass *)

Lemma animateIn_noResizeTimer p layoutData r cd :
  noResizeTimer (animateIn p layoutData r cd).2.
Proof. unfold animateIn. solve_noResizeTimer. Qed.

Lemma showPod_noResizeTimer p layoutData r cd :
  noResizeTimer (showPod p layoutData r cd).2.
Proof.
  unfold showPod. cbv zeta.
  match goal with |- context [animateIn p layoutData r ?cd0] =>
    pose proof (animateIn_noResizeTimer p layoutData r cd0);
    destruct (animateIn p layoutData r cd0) end.
  cbn [snd]. apply noResizeTimer_app; [done|]. solve_noResizeTimer.
Qed.

Lemma applyLayout_noResizeTimer p key s : noResizeTimer (applyLayout p key s).2.
Proof.
  unfold applyLayout, layoutCard.
  destruct (getCardRef s key) as [r|]; [|constructor].
  destruct (cards s !! r) as [cd|]; [|constructor].
  destruct (skipped cd); [constructor|].
  destruct (findSlot p key) as [layoutData|]; [|constructor].
  pose proof (showPod_noResizeTimer p layoutData r cd).
  by destruct (showPod p layoutData r cd).
Qed.

Lemma layOut_noResizeTimer tooltipWidth f s :
  noResizeTimer (layOut tooltipWidth f s).2.
Proof.
  rewrite layOut_eq. cbn [snd]. apply noResizeTimer_app.
  - apply (forEach_Forall (λ _, True)); [done|]. intros. split; [done|].
    apply applyLayout_noResizeTimer.
  - case_match; repeat constructor.
Qed.

Lemma managePodVisibilityAndAnimations_noResizeTimer tooltipWidth s :
  noResizeTimer (managePodVisibilityAndAnimations tooltipWidth s).2.
Proof.
  unfold managePodVisibilityAndAnimations.
  case_bool_decide; [unfold hideTooltip; solve_noResizeTimer|].
  case_bool_decide; [constructor|]. cbn zeta.
  destruct (focusedDownloadKey _) as [f|]; [|constructor].
  destruct (truthy (Some f)); [apply layOut_noResizeTimer|constructor].
Qed.

Lemma runFrame_noResizeTimer tooltipWidth task s s' tasks :
  runFrame tooltipWidth task s = Some (s', tasks) → noResizeTimer tasks.
Proof.
  intros Hrun. destruct task; simpl in Hrun; try done.
  - apply (f_equal (λ o, from_option snd [] o)) in Hrun. cbn in Hrun. subst.
    apply managePodVisibilityAndAnimations_noResizeTimer.
  - simplify_eq. constructor.
  - simplify_eq. constructor.
  - simplify_eq. constructor.
  - simplify_eq. by repeat constructor.
  - simplify_eq. constructor.
Qed.

Lemma runFrame_wf tooltipWidth task s s' tasks :
  runFrame tooltipWidth task s = Some (s', tasks) → wf s → wf s'.
Proof.
  intros Hrun Hwf. change s' with (s', tasks).1.
  destruct task; simpl in Hrun; try done; injection Hrun as <-; cbn [fst].
  - by apply managePodVisibilityAndAnimations_wf.
  - unfold tooltipHideTimer. by case_match.
  - done.
  - by apply podFrame_wf.
  - done.
  - apply (wf_sameCards s); [done..|apply Hwf].
Qed.

End LayoutPass.
