(* ===== verification/Sidebar.v ===== *)
(** * Sidebar: the width of the sidebar and the width of the tooltip

    The tooltip is as wide as the sidebar of the host less 20 pixels.  The
    script reads the width from the custom property [--zen-sidebar-width]
    of [#navigator-toolbox] ([updateCurrentZenSidebarWidth]), keeps it in
    [currentZenSidebarWidth] and writes the width of the tooltip whenever
    the value has changed ([applyGlobalWidthToAllTooltips]).  It reads
    again when the attribute [zen-compact-mode] of [#main-window] changes
    (a mutation observer) and 250 ms after the toolbox was resized (a
    resize observer with a timer that every resize restarts); both are set
    up by [initSidebarWidthSync] (lines 1980-2089 of
    [src/tidy-downloads.uc.js]).

    What the document holds is a fact of the host ([host]): whether the
    two elements are found and the computed value of the property.  The
    model starts when the tooltip exists, so the test of
    [applyGlobalWidthToAllTooltips] for a missing tooltip is not taken.

    The theorems: what a read leaves in [currentZenSidebarWidth]; a read
    keeps the width of the tooltip in step with the variable
    ([Tooltip.widthSynced]), as the presenter of the tooltip does; a
    second read of the same document changes nothing, so the number of
    mutations or entries an observer reports does not matter; a burst of
    resizes leaves one timer. *)

From S2P Require Import Prelude JsString State Tooltip.

Module Sidebar.
Import State Tooltip.

(** What the script finds in the document: [#main-window], and on
    [#navigator-toolbox], when there is one, the computed value of
    [--zen-sidebar-width] (the empty string when the property is not
    set). *)
Record host := mkHost {
  mainWindow : bool;
  navigatorToolbox : option string
}.

(** The observers [initSidebarWidthSync] has set up. *)
Record observers := mkObservers {
  mutationObserver : bool;
  resizeObserver : bool
}.

(** [applyGlobalWidthToAllTooltips]. *)
Definition applyGlobalWidthToAllTooltips (s : t) : t :=
  set_masterTooltip (set_width (widthOf (currentZenSidebarWidth s))) s.

(** [updateCurrentZenSidebarWidth]. *)
Definition updateCurrentZenSidebarWidth (h : host) (s : t) : t :=
  match navigatorToolbox h with
  | None => s
  | Some computed =>
      let value := JsString.trim computed in
      if truthy (Some value) && bool_decide (value ≠ "0px")
         && bool_decide (value ≠ "")
      then
        if bool_decide (currentZenSidebarWidth s ≠ value)
        then applyGlobalWidthToAllTooltips (set_currentZenSidebarWidth value s)
        else s
      else
        if bool_decide (currentZenSidebarWidth s ≠ "")
        then applyGlobalWidthToAllTooltips (set_currentZenSidebarWidth "" s)
        else s
  end.

(** The callback of the mutation observer: one read per mutation of the
    list (the filter of the observer lets only [zen-compact-mode]
    through). *)
Definition compactModeChanged (mutations : nat) (h : host) (s : t) : t :=
  Nat.iter mutations (updateCurrentZenSidebarWidth h) s.

(** The callback of the resize observer: [clearTimeout(resizeTimeoutId)]
    takes the pending timer of the observer away, and the new timer
    captures the entries. *)
Definition toolboxResized (entries : nat) (pending : list task) : list task :=
  filter (λ task, isResizeTimer task = false) pending
  ++ [SidebarResizeTimer entries].

(** The timer of the resize observer: one read per entry. *)
Definition resizeTimerFired (entries : nat) (h : host) (s : t) : t :=
  Nat.iter entries (updateCurrentZenSidebarWidth h) s.

(** [initSidebarWidthSync]: the observers of the elements that are found,
    and a first read. *)
Definition initSidebarWidthSync (h : host) (s : t) : t * observers :=
  (updateCurrentZenSidebarWidth h s,
   mkObservers (mainWindow h) (bool_decide (is_Some (navigatorToolbox h)))).

(** ** Reference definitions *)

(** The value a read keeps: the computed value without white space around
    it, or nothing for [0px]. *)
Definition widthRead (computed : string) : string :=
  let value := JsString.trim computed in
  if bool_decide (value = "0px") then "" else value.

(** ** What a read does *)

Lemma updateCurrentZenSidebarWidth_None h s :
  navigatorToolbox h = None → updateCurrentZenSidebarWidth h s = s.
Proof. intros Hh. unfold updateCurrentZenSidebarWidth. by rewrite Hh. Qed.

(** A read either leaves the state alone, because the variable has the
    value of the document, or sets the variable and the width. *)
Lemma updateCurrentZenSidebarWidth_cases h s computed :
  navigatorToolbox h = Some computed →
  (currentZenSidebarWidth s = widthRead computed ∧
   updateCurrentZenSidebarWidth h s = s) ∨
  (currentZenSidebarWidth s ≠ widthRead computed ∧
   updateCurrentZenSidebarWidth h s
   = applyGlobalWidthToAllTooltips
       (set_currentZenSidebarWidth (widthRead computed) s)).
Proof.
  intros Hh. unfold updateCurrentZenSidebarWidth, widthRead. rewrite Hh. cbn zeta.
  set (value := JsString.trim computed). unfold truthy.
  destruct (decide (value = "0px")) as [Hz|Hz].
  - rewrite (bool_decide_true (value = "0px")), (bool_decide_false (value ≠ "0px"))
      by (done || by intros []).
    rewrite andb_false_r. cbn [andb].
    case_bool_decide as Hc; [by right|by left].
  - rewrite (bool_decide_false (value = "0px")), (bool_decide_true (value ≠ "0px"))
      by done.
    destruct (decide (value = "")) as [He|He].
    + rewrite (bool_decide_false (value ≠ "")) by (by intros []). cbn [andb].
      rewrite He. case_bool_decide as Hc; [by right|by left].
    + rewrite (bool_decide_true (value ≠ "")) by done. cbn [andb].
      case_bool_decide as Hc; [by right|by left].
Qed.

Lemma updateCurrentZenSidebarWidth_width h s computed :
  navigatorToolbox h = Some computed →
  currentZenSidebarWidth (updateCurrentZenSidebarWidth h s) = widthRead computed.
Proof.
  intros Hh.
  by destruct (updateCurrentZenSidebarWidth_cases h s computed Hh)
    as [[? ->]|[_ ->]].
Qed.

Lemma updateCurrentZenSidebarWidth_idemp h s :
  updateCurrentZenSidebarWidth h (updateCurrentZenSidebarWidth h s)
  = updateCurrentZenSidebarWidth h s.
Proof.
  destruct (navigatorToolbox h) as [computed|] eqn:Hh;
    [|by rewrite !updateCurrentZenSidebarWidth_None].
  destruct (updateCurrentZenSidebarWidth_cases h
    (updateCurrentZenSidebarWidth h s) computed Hh) as [[_ ->]|[Hne _]]; [done|].
  by rewrite (updateCurrentZenSidebarWidth_width h s computed) in Hne.
Qed.

Lemma iter_updateCurrentZenSidebarWidth n h s :
  Nat.iter (S n) (updateCurrentZenSidebarWidth h) s
  = updateCurrentZenSidebarWidth h s.
Proof.
  induction n as [|n IH]; [done|].
  change (Nat.iter (S (S n)) ?f s) with (f (Nat.iter (S n) f s)).
  by rewrite IH, updateCurrentZenSidebarWidth_idemp.
Qed.

(** ** The invariants *)

Lemma widthSynced_applyGlobalWidthToAllTooltips s :
  widthSynced (applyGlobalWidthToAllTooltips s).
Proof. done. Qed.

Lemma updateCurrentZenSidebarWidth_widthSynced h s :
  widthSynced s → widthSynced (updateCurrentZenSidebarWidth h s).
Proof.
  intros Hs. destruct (navigatorToolbox h) as [computed|] eqn:Hh;
    [|by rewrite updateCurrentZenSidebarWidth_None].
  by destruct (updateCurrentZenSidebarWidth_cases h s computed Hh)
    as [[_ ->]|[_ ->]].
Qed.

Lemma updateCurrentZenSidebarWidth_sameCards h s :
  sameCards s (updateCurrentZenSidebarWidth h s) ∧
  stack (updateCurrentZenSidebarWidth h s) = stack s.
Proof.
  destruct (navigatorToolbox h) as [computed|] eqn:Hh;
    [|by rewrite updateCurrentZenSidebarWidth_None].
  by destruct (updateCurrentZenSidebarWidth_cases h s computed Hh)
    as [[_ ->]|[_ ->]].
Qed.

Lemma updateCurrentZenSidebarWidth_wf h s :
  wf s → wf (updateCurrentZenSidebarWidth h s).
Proof.
  intros Hwf. destruct (updateCurrentZenSidebarWidth_sameCards h s) as [Hs Hst].
  apply (wf_sameCards s); [done|done|]. intros f.
  rewrite (proj1 Hs). unfold focusedDownloadKey. rewrite Hst. apply Hwf.
Qed.

Lemma iter_invariant {A} (P : A → Prop) (f : A → A) n a :
  (∀ a, P a → P (f a)) → P a → P (Nat.iter n f a).
Proof. intros Hf Ha. induction n; [done|]. by apply Hf. Qed.

Lemma resizeTimerFired_wf entries h s : wf s → wf (resizeTimerFired entries h s).
Proof. apply iter_invariant, updateCurrentZenSidebarWidth_wf. Qed.

Lemma compactModeChanged_wf mutations h s :
  wf s → wf (compactModeChanged mutations h s).
Proof. apply iter_invariant, updateCurrentZenSidebarWidth_wf. Qed.

Lemma resizeTimerFired_widthSynced entries h s :
  widthSynced s → widthSynced (resizeTimerFired entries h s).
Proof. apply iter_invariant, updateCurrentZenSidebarWidth_widthSynced. Qed.

Lemma compactModeChanged_widthSynced mutations h s :
  widthSynced s → widthSynced (compactModeChanged mutations h s).
Proof. apply iter_invariant, updateCurrentZenSidebarWidth_widthSynced. Qed.

(** ** The timer of the resize observer *)

Lemma toolboxResized_timers entries pending :
  filter (λ task, isResizeTimer task = true) (toolboxResized entries pending)
  = [SidebarResizeTimer entries].
Proof.
  unfold toolboxResized. rewrite filter_app, filter_cons_True, filter_nil by done.
  rewrite filter_none; [done|].
  intros task [Hf _]%list_elem_of_filter. by rewrite Hf.
Qed.

Lemma toolboxResized_others entries pending :
  filter (λ task, isResizeTimer task = false) (toolboxResized entries pending)
  = filter (λ task, isResizeTimer task = false) pending.
Proof.
  unfold toolboxResized. rewrite filter_app, filter_cons_False, filter_nil by done.
  rewrite app_nil_r. apply list_filter_filter_l. tauto.
Qed.

(** ** A read *)

(** C26. A read of the property keeps its value without the white space around
    it (nothing for [0px] and for a property that is not set), leaves the
    tooltip [calc(value - 20px)] wide, or [350px] when the value is no
    length, and a second read of the same document changes nothing. *)
Theorem updateCurrentZenSidebarWidth_reads h s computed :
  navigatorToolbox h = Some computed → widthSynced s →
  let s' := updateCurrentZenSidebarWidth h s in
  currentZenSidebarWidth s' = widthRead computed ∧
  tt_width (masterTooltip s') = widthOf (widthRead computed) ∧
  updateCurrentZenSidebarWidth h s' = s'.
Proof.
  intros Hh Hs s'. pose proof (updateCurrentZenSidebarWidth_width h s _ Hh) as Hw.
  pose proof (updateCurrentZenSidebarWidth_widthSynced h s Hs) as Hs'.
  fold s' in Hw, Hs'. split_and!; [done| |apply updateCurrentZenSidebarWidth_idemp].
  by rewrite <-Hw.
Qed.

(** The observers read once, whatever the number of mutations or entries
    they report. *)
Lemma compactModeChanged_once mutations h s :
  compactModeChanged (S mutations) h s = updateCurrentZenSidebarWidth h s.
Proof. apply iter_updateCurrentZenSidebarWidth. Qed.

Lemma resizeTimerFired_once entries h s :
  resizeTimerFired (S entries) h s = updateCurrentZenSidebarWidth h s.
Proof. apply iter_updateCurrentZenSidebarWidth. Qed.

(** ** Instances *)

Lemma updateCurrentZenSidebarWidth_reads_witness :
  let s' := updateCurrentZenSidebarWidth (mkHost true (Some " 300px "))
              (State.initial true) in
  currentZenSidebarWidth s' = widthRead " 300px " ∧
  tt_width (masterTooltip s') = widthOf (widthRead " 300px ") ∧
  updateCurrentZenSidebarWidth (mkHost true (Some " 300px ")) s' = s'.
Proof.
  by apply (updateCurrentZenSidebarWidth_reads (mkHost true (Some " 300px "))
              (State.initial true) " 300px ").
Defined.

(** What a read keeps of some values of the property, and the width of the
    tooltip that follows. *)
Example widthRead_examples :
  (λ computed, (widthRead computed, widthOf (widthRead computed)))
    <$> [" 300px "; "0px"; ""; "18.5em"; "auto"]
  = [("300px", "calc(300px - 20px)"); ("", "350px"); ("", "350px");
     ("18.5em", "calc(18.5em - 20px)"); ("auto", "350px")].
Proof. tidy_compute. Qed.

End Sidebar.
