(* ===== verification/Rename.v ===== *)
(** * Rename: the rename workflow and its undo

    [processDownloadForAIRenaming], [renameDownloadFileAndUpdateRecord],
    [callMistralAPI], [getMimeTypeFromExtension] and [undoRename] of
    [src/tidy-downloads.uc.js].

    The files of the host are behind the interface [FileSystem]: existence,
    size, and the move of a file to a new name in its directory.  The
    workflow is asynchronous: it stops at each call of the remote API, and
    the handlers of other events run in between.  Each stretch between two
    stops is a function here ([renameStart], [renameFallback],
    [renameFinish]); the values the stretch hands to the next one are a
    [renameCtx].  The rename itself and what follows it run without a
    stop. *)

From Stdlib Require Import Ascii.
From S2P Require Import Prelude JsArray JsString Stack Filename State Tooltip Pods.

Module Rename.
Import JsString State Tooltip Pods Filename.

#[local] Open Scope Z_scope.

(** ** The files of the host *)

Class FileSystem (F : Type) := {
  fileExists : F → string → bool;
  (** [file.fileSize]; [None] when the host throws. *)
  fileSize : F → string → option Z;
  (** [file.moveTo(null, name)]: the file gets a new name in its directory;
      [None] when the host throws. *)
  moveTo : ascii → F → string → string → option F;
  moveTo_source sep f old name f' :
    moveTo sep f old name = Some f' → fileExists f old = true;
  moveTo_exists sep f old name f' p :
    moveTo sep f old name = Some f' →
    fileExists f' p =
      if decide (p = joinPath sep (directoryOf sep old) name) then true
      else if decide (p = old) then false else fileExists f p
}.

(** Files as a map from paths to sizes; a move onto the name of a file
    replaces that file. *)
Notation files := (gmap string Z).

Definition files_moveTo (sep : ascii) (f : files) (old name : string) : option files :=
  size ← f !! old;
  Some (<[joinPath sep (directoryOf sep old) name := size]> (delete old f)).

#[global, refine] Instance files_FileSystem : FileSystem files := {
  fileExists f p := bool_decide (is_Some (f !! p));
  fileSize f p := f !! p;
  moveTo := files_moveTo
}.
Proof.
  - intros sep f old name f'. unfold files_moveTo.
    intros (size & Hs & _)%bind_Some. rewrite bool_decide_eq_true. eauto.
  - intros sep f old name f' p. unfold files_moveTo.
    intros (size & Hs & [= <-])%bind_Some. cbv beta.
    repeat case_decide; subst.
    + rewrite lookup_insert_eq. by apply bool_decide_eq_true.
    + rewrite lookup_insert_ne, lookup_delete_eq by done.
      apply bool_decide_eq_false. by intros [? ?].
    + by rewrite lookup_insert_ne, lookup_delete_ne by done.
Defined.

(** ** The remote call *)

Inductive httpResponse :=
  | NetworkError
  | Response (ok : bool) (status : Z) (content : option string).

(** What [callMistralAPI] returns: [null] without a key or on a failure,
    the sentinel on status 429, else the trimmed answer, [null] when it is
    empty.  The flag says that a request was sent. *)
Definition callMistralAPI (apiKey : option string) (response : httpResponse)
    : option string * bool :=
  if negb (truthy apiKey) then (None, false)
  else
    match response with
    | NetworkError => (None, true)
    | Response ok status content =>
        if negb ok then
          if bool_decide (status = 429) then (Some "rate-limited", true)
          else (None, true)
        else ((trim <$> content) ||| None, true)
    end.

Definition getMimeTypeFromExtension (ext : option string) : string :=
  match toLowerCase <$> ext with
  | Some ".png" => "image/png"
  | Some ".gif" => "image/gif"
  | Some ".svg" => "image/svg+xml"
  | Some ".webp" => "image/webp"
  | Some ".bmp" => "image/bmp"
  | Some ".avif" => "image/avif"
  | Some ".ico" => "image/x-icon"
  | Some ".tif" => "image/tiff"
  | Some ".tiff" => "image/tiff"
  | Some ".jfif" => "image/jpeg"
  | _ => "image/jpeg"
  end.

(** ** The rename on disk *)

Section rename.
Context `{FileSystem F} (sep : ascii).

(** [orderedPodKeys.splice(oldKeyIndex, 1, newPath)]: the list only, the
    focus stays. *)
Definition replaceKey (old new : string) (st : Stack.t) : Stack.t :=
  Stack.mk (replace_first old new (Stack.orderedPodKeys st))
    (Stack.focusedDownloadKey st) (Stack.lastRotationDirection st).

(** The card found under [key] is filed under [newPath], in the map, in
    the card, on the pod element and in the list. *)
Definition rekeyCard (key newPath : string) (s : t) : t :=
  match getCardRef s key with
  | Some r =>
      let s := set_activeDownloadCards (λ m, <[newPath := r]> (delete key m)) s in
      let s := updCard r (λ c, set_podElement (set_dataset_downloadKey newPath)
                                 (set_key newPath c)) s in
      set_stack (replaceKey key newPath) s
  | None => s
  end.

Definition renameDownloadFileAndUpdateRecord (fs : F) (dref : ref)
    (newName key : string) (s : t) : t * F * bool :=
  match downloads s !! dref ≫= target_path with
  | Some oldPath =>
      if negb (truthy (Some oldPath)) then (s, fs, false)
      else
        let finalName := finalName (fileExists fs) sep oldPath newName in
        let newPath := joinPath sep (directoryOf sep oldPath) finalName in
        if negb (fileExists fs oldPath) then (s, fs, false)
        else
          match moveTo sep fs oldPath finalName with
          | Some fs' =>
              let s := updDownload dref (set_target_path (Some newPath)) s in
              (rekeyCard key newPath s, fs', true)
          | None => (s, fs, false)
          end
  | None => (s, fs, false)
  end.

(** ** Undo *)

(** The block of [undoRename] that follows the move of the file back to
    its name: the download, the card, the key of the card when the path has
    changed, the set of processed paths, the tooltip and the focus. *)
Definition undone (r : ref) (cardData : cardData)
    (keyOfAIRenamedFile targetOriginalPath originalSimpleName originalFullPath
       currentAIRenamedPath : string) (s : t) : t * list task :=
  let s := updDownload (download_ cardData)
             (λ d, set_aiName None
                     (set_target_path (Some targetOriginalPath) d)) s in
  let s := updCard r (set_originalFilename originalSimpleName) s in
  let s :=
    if bool_decide (keyOfAIRenamedFile ≠ targetOriginalPath) then
      let s := set_activeDownloadCards
                 (λ m, <[targetOriginalPath := r]>
                         (delete keyOfAIRenamedFile m)) s in
      let s := updCard r
                 (λ c, set_podElement
                         (set_dataset_downloadKey targetOriginalPath)
                         (set_key targetOriginalPath c)) s in
      set_stack (Stack.renameKey keyOfAIRenamedFile targetOriginalPath) s
    else s in
  let s := set_renamedFiles
             (λ rf, rf ∖ {[originalFullPath]} ∖ {[currentAIRenamedPath]}) s in
  let s :=
    if bool_decide (focusedDownloadKey s = Some targetOriginalPath)
    then set_masterTooltip
           (λ tt, set_displays "block" "none" "none"
                    (set_status "Download completed" "#1dd1a1"
                       (set_title originalSimpleName tt))) s
    else s in
  updateUIForFocusedDownload
    (focusedDownloadKey s ||| Some targetOriginalPath) true s.

Definition undoRename (fs : F) (keyOfAIRenamedFile : string) (s : t)
    : t * F * list task * bool :=
  match getCardRef s keyOfAIRenamedFile with
  | Some r =>
      match cards s !! r, cards s !! r ≫= (λ c, downloads s !! download_ c) with
      | Some cardData, Some download =>
          match target_path download,
                trueOriginalSimpleNameBeforeAIRename cardData,
                trueOriginalPathBeforeAIRename cardData with
          | Some currentAIRenamedPath, Some originalSimpleName, Some originalFullPath =>
              if negb (truthy (Some currentAIRenamedPath) &&
                       truthy (Some originalSimpleName) &&
                       truthy (Some originalFullPath))
              then (s, fs, [], false)
              else
                let targetOriginalPath :=
                  joinPath sep (directoryOf sep currentAIRenamedPath)
                    originalSimpleName in
                if negb (fileExists fs currentAIRenamedPath)
                then (set_masterTooltip (set_undo_display "none") s, fs, [], false)
                else
                  match moveTo sep fs currentAIRenamedPath originalSimpleName with
                  | None =>
                      (if bool_decide (focusedDownloadKey s = Some keyOfAIRenamedFile)
                       then set_masterTooltip
                              (set_status "Undo rename failed" "#ff6b6b") s
                       else s, fs, [], false)
                  | Some fs' =>
                      let '(s, tasks) :=
                        undone r cardData keyOfAIRenamedFile targetOriginalPath
                          originalSimpleName originalFullPath
                          currentAIRenamedPath s in
                      (s, fs', tasks, true)
                  end
          | _, _, _ => (s, fs, [], false)
          end
      | _, _ => (s, fs, [], false)
      end
  | None => (s, fs, [], false)
  end.

(** ** The workflow *)

(** What a run of the workflow captured when it started. *)
Record renameCtx := mkCtx {
  rc_download : ref;
  rc_key : string;
  rc_card : ref;
  rc_focused : bool;
  rc_downloadPath : string;
  rc_trueOriginalFilename : string;
  rc_originalPreviewTitle : string;
  rc_currentFilename : string;
  rc_fileExtension : string;
  rc_isImage : bool
}.

#[global] Instance renameCtx_eq_dec : EqDecision renameCtx.
Proof. solve_decision. Defined.

(** [if (statusElToUpdate) statusElToUpdate.textContent = text]: the status
    line of the tooltip is written when the download was focused at the
    start of the run. *)
Definition status (focused : bool) (text : string) (s : t) : t :=
  if focused then set_masterTooltip (set_status_text text) s else s.

(** From the call to the first request: the guards, the record for the
    undo, the mark in [renamedFiles] and the lock of the preview. *)
Definition renameStart (fs : F) (now : Z) (dref : ref)
    (keyOverride : option string) (s : t) : t * option renameCtx :=
  match downloads s !! dref with
  | Some download =>
      let key := default "" (keyOverride ||| Some (getDownloadKey now download)) in
      let focused := bool_decide (focusedDownloadKey s = Some key) in
      match getCardRef s key, getCardRef s key ≫= (cards s !!.),
            target_path download with
      | Some r, Some cardData, Some downloadPath =>
          if negb (truthy (Some downloadPath)) then (s, None)
          else if bool_decide (downloadPath ∈ renamedFiles s) then (s, None)
          else
            match fileSize fs downloadPath with
            | Some size =>
                if bool_decide (MAX_FILE_SIZE_FOR_AI < size)
                then (status focused "File too large for AI analysis" s, None)
                else
                  let currentFilename := lastSegment sep downloadPath in
                  let s := updCard r (set_trueOriginal (Some downloadPath)
                                        (Some currentFilename)) s in
                  let s := set_renamedFiles (λ rf, {[downloadPath]} ∪ rf) s in
                  let s := updPod r (classList_add "renaming-active") s in
                  let s := status focused "Analyzing file..." s in
                  let s := updPod r (set_previewLock "Renaming in progress..."
                                       "none") s in
                  let fileExtension := fileExtension currentFilename in
                  let isImage := isImage fileExtension in
                  let s := status focused
                             (if isImage then "Analyzing image..."
                              else "Generating better name...") s in
                  (s, Some (mkCtx dref key r focused downloadPath
                              (originalFilename cardData)
                              (preview_title (podElement_ cardData))
                              currentFilename fileExtension isImage))
            | None => (s, None)
            end
      | _, _, _ => (s, None)
      end
  | None => (s, None)
  end.

(** An image whose request brought no name gets a second request, with the
    name and the address only. *)
Definition needsFallback (ctx : renameCtx) (imageAnswer : option string) : bool :=
  rc_isImage ctx && negb (truthy imageAnswer).

Definition renameFallback (ctx : renameCtx) (s : t) : t :=
  status (rc_focused ctx) "Generating better name..." s.

(** The [finally] block: the preview is unlocked. *)
Definition releaseLock (ctx : renameCtx) (s : t) : t :=
  updPod (rc_card ctx) (classList_remove "renaming-active")
    (updPod (rc_card ctx)
       (set_previewLock (rc_originalPreviewTitle ctx) "auto") s).

(** A run that ends without a rename: the path is released and the pod may
    be sent to the workflow again. *)
Definition giveUp (ctx : renameCtx) (text : string) (s : t) : t :=
  let s := status (rc_focused ctx) text s in
  let s := set_renamedFiles (λ rf, rf ∖ {[rc_downloadPath ctx]}) s in
  updPod (rc_card ctx) (classList_remove "renaming-initiated")
    (updPod (rc_card ctx) (classList_remove "renaming-active") s).

(** What the tooltip shows after a rename, when the download was focused at
    the start of the run. *)
Definition showRenamed (ctx : renameCtx) (cleanName : string) (tt : tooltip) : tooltip :=
  set_displays "none" "block" (undo_display tt)
    (set_original (rc_trueOriginalFilename ctx) true
       (set_status "Download renamed to:" "#a0a0a0" (set_title cleanName tt))).

(** The block that follows a successful rename: the name of the model on
    the download, the tooltip, the classes of the pod, the focus and the
    final update of the tooltip. *)
Definition renamed (ctx : renameCtx) (cleanName : string) (s : t) : t * list task :=
  let newPath := default "" (downloads s !! rc_download ctx ≫= target_path) in
  let s := updDownload (rc_download ctx) (set_aiName (Some cleanName)) s in
  let s := if rc_focused ctx
           then set_masterTooltip (showRenamed ctx cleanName) s else s in
  let s := updPod (rc_card ctx)
             (λ p, classList_add "renamed-by-ai"
                     (classList_remove "renaming-active" p)) s in
  let focusedIsKey := bool_decide (focusedDownloadKey s = Some (rc_key ctx)) in
  let s := if focusedIsKey
           then set_stack (Stack.setFocus (Some newPath)) s else s in
  let keyForFinalUIUpdate := if focusedIsKey then newPath else rc_key ctx in
  updateUIForFocusedDownload (Some keyForFinalUIUpdate) true s.

(** From the answer of the remote model to the end of the run. *)
Definition renameFinish (fs : F) (ctx : renameCtx) (suggestedName : option string)
    (s : t) : t * F * list task * bool :=
  let '(s, fs, tasks, success) :=
    match decideName suggestedName (rc_currentFilename ctx) with
    | NoSuggestion => (giveUp ctx "Could not generate a better name" s, fs, [], false)
    | RateLimited => (giveUp ctx "API rate limit reached" s, fs, [], false)
    | NotSuitable => (giveUp ctx "Original name is suitable" s, fs, [], false)
    | RenameTo cleanName =>
        let s := status (rc_focused ctx) ("Renaming to: " +:+ cleanName) s in
        let '(s, fs, success) :=
          renameDownloadFileAndUpdateRecord fs (rc_download ctx) cleanName
            (rc_key ctx) s in
        if success then
          let '(s, tasks) := renamed ctx cleanName s in (s, fs, tasks, true)
        else (giveUp ctx "Rename failed" s, fs, [], false)
    end in
  (releaseLock ctx s, fs, tasks, success).

(** The [then] of the timer that started the run: the undo button is shown
    when the renamed download is the focused one. *)
Definition renameThen (dref : ref) (success : bool) (s : t) : t :=
  if success &&
     bool_decide (focusedDownloadKey s = downloads s !! dref ≫= target_path)
  then set_masterTooltip (set_undo_display "inline-flex") s else s.

(** The timer set up by [updateUIForFocusedDownload] fires: the run starts
    with the key that is focused now. *)
Definition renameTimer (fs : F) (now : Z) (dref : ref) (s : t)
    : t * option renameCtx :=
  renameStart fs now dref (focusedDownloadKey s) s.

(** ** The start of a run *)

Lemma renamedFiles_status focused text s :
  renamedFiles (status focused text s) = renamedFiles s.
Proof. by destruct focused. Qed.

Lemma downloads_status focused text s :
  downloads (status focused text s) = downloads s.
Proof. by destruct focused. Qed.

Lemma sameCards_status focused text s : sameCards s (status focused text s).
Proof. by destruct focused. Qed.

(** A run that starts has marked the path of the download, which was not
    marked before, and has recorded path and name for the undo. *)
Lemma renameStart_Some fs now dref keyOverride s s' ctx :
  renameStart fs now dref keyOverride s = (s', Some ctx) →
  rc_download ctx = dref ∧
  downloads s !! dref ≫= target_path = Some (rc_downloadPath ctx) ∧
  rc_downloadPath ctx ≠ "" ∧
  rc_downloadPath ctx ∉ renamedFiles s ∧
  renamedFiles s' = {[rc_downloadPath ctx]} ∪ renamedFiles s ∧
  activeDownloadCards s !! rc_key ctx = Some (rc_card ctx) ∧
  downloads s' = downloads s.
Proof.
  unfold renameStart, getCardRef. intros Hs.
  destruct (downloads s !! dref) as [d|] eqn:Hd; [|done]. simpl.
  repeat case_match; simplify_eq/=.
  all: repeat (rewrite ?renamedFiles_status, ?downloads_status; simpl).
  all: split_and!; try done.
  all: repeat match goal with
       | H : negb _ = false |- _ => apply negb_false_iff, truthy_Some in H
       | H : bool_decide _ = false |- _ => apply bool_decide_eq_false in H
       end; done.
Qed.

(** The size gate: a file above the limit of 50 MB ends the run
    before any request and leaves the path unmarked. *)
Theorem renameStart_too_large fs now dref keyOverride s d path size :
  downloads s !! dref = Some d → target_path d = Some path →
  fileSize fs path = Some size → MAX_FILE_SIZE_FOR_AI < size →
  (renameStart fs now dref keyOverride s).2 = None ∧
  renamedFiles (renameStart fs now dref keyOverride s).1 = renamedFiles s.
Proof.
  intros Hd Hp Hsize Hlt. unfold renameStart. rewrite Hd, Hp.
  repeat case_goal_match; simplify_eq/=; try done.
  all: try by rewrite renamedFiles_status.
  all: exfalso.
  all: repeat match goal with
       | H : bool_decide _ = false |- _ => apply bool_decide_eq_false in H
       end; lia.
Qed.

(** A path that is marked starts no second run. *)
Lemma renameStart_marked fs now dref keyOverride s d path :
  downloads s !! dref = Some d → target_path d = Some path →
  path ∈ renamedFiles s →
  renameStart fs now dref keyOverride s = (s, None).
Proof.
  intros Hd Hp Hin. unfold renameStart. rewrite Hd, Hp.
  rewrite (bool_decide_true (path ∈ renamedFiles s)) by done.
  by repeat case_goal_match.
Qed.

(** C19. A download is sent to the model at most once at a time: once a run
    has started, a second call for the same download, whatever the key, the
    time and the files, starts no run and leaves the state as it is. *)
Theorem renameStart_at_most_once fs fs' now now' dref keyOverride keyOverride' s s' ctx :
  renameStart fs now dref keyOverride s = (s', Some ctx) →
  renameStart fs' now' dref keyOverride' s' = (s', None).
Proof.
  intros (_ & Hp & _ & _ & Hm & _ & Hd)%renameStart_Some.
  destruct (downloads s !! dref) as [d|] eqn:Hdref; [|done].
  apply (renameStart_marked _ _ _ _ _ d (rc_downloadPath ctx));
    [by rewrite Hd | done | rewrite Hm; set_solver].
Qed.

(** ** The end of a run *)

Lemma renamedFiles_releaseLock ctx s :
  renamedFiles (releaseLock ctx s) = renamedFiles s.
Proof. done. Qed.

Lemma renamedFiles_giveUp ctx text s :
  renamedFiles (giveUp ctx text s) = renamedFiles s ∖ {[rc_downloadPath ctx]}.
Proof. unfold giveUp. simpl. by rewrite renamedFiles_status. Qed.

Lemma giveUp_classes ctx text s c :
  cards s !! rc_card ctx = Some c →
  ∃ c', cards (releaseLock ctx (giveUp ctx text s)) !! rc_card ctx = Some c' ∧
        classList_contains "renaming-initiated" (podElement_ c') = false.
Proof.
  intros Hc. unfold releaseLock, giveUp, updPod, updCard, status.
  destruct (rc_focused ctx); simpl; rewrite !lookup_alter_eq, Hc; simpl.
  all: eexists; split; [done|].
  all: unfold classList_contains; simpl; apply bool_decide_eq_false; set_solver.
Qed.

(** C38. A run that ends without a rename (no answer, the rate limit, a
    name that is not suitable, a move that fails) releases the path of the
    download, so that the download may be sent to the model again, and
    leaves the files as they are. *)
Theorem renameFinish_failure fs ctx suggestedName s :
  (renameFinish fs ctx suggestedName s).2 = false →
  renamedFiles (renameFinish fs ctx suggestedName s).1.1.1
  = renamedFiles s ∖ {[rc_downloadPath ctx]} ∧
  (renameFinish fs ctx suggestedName s).1.1.2 = fs.
Proof.
  unfold renameFinish.
  destruct (decideName _ _) as [| | |cleanName];
    try (intros _; cbn [fst snd];
         by rewrite renamedFiles_releaseLock, renamedFiles_giveUp).
  cbv zeta.
  destruct (renameDownloadFileAndUpdateRecord _ _ _ _ _) as [[s1 fs1] [|]] eqn:Hr.
  - destruct (renamed _ _ _). done.
  - intros _. cbn [fst snd].
    rewrite renamedFiles_releaseLock, renamedFiles_giveUp.
    revert Hr. unfold renameDownloadFileAndUpdateRecord.
    repeat case_goal_match; intros; simplify_eq/=; by rewrite renamedFiles_status.
Qed.

(** ** A rename of the focused download *)












(** ** The undo of a rename *)

(** With its card, its download and the three strings found and the file
    moved, [undoRename] runs the block [undone]. *)
Lemma undoRename_success fs key s r c d current name path fs' :
  activeDownloadCards s !! key = Some r → cards s !! r = Some c →
  downloads s !! download_ c = Some d →
  target_path d = Some current → current ≠ "" →
  trueOriginalSimpleNameBeforeAIRename c = Some name → name ≠ "" →
  trueOriginalPathBeforeAIRename c = Some path → path ≠ "" →
  moveTo sep fs current name = Some fs' →
  undoRename fs key s =
    ((undone r c key (joinPath sep (directoryOf sep current) name) name path
        current s).1, fs',
     (undone r c key (joinPath sep (directoryOf sep current) name) name path
        current s).2, true).
Proof.
  intros Hr Hc Hd Hcur ? Hname ? Hpath ? Hmove. unfold undoRename, getCardRef.
  rewrite Hr, Hc. cbn [mbind option_bind]. rewrite Hd, Hcur, Hname, Hpath.
  rewrite !(proj2 (truthy_Some _)) by done. cbn [andb negb].
  rewrite (moveTo_source _ _ _ _ _ Hmove), Hmove. cbn [negb].
  by destruct (undone _ _ _ _ _ _ _ _).
Qed.

(** The download and the set of processed paths after the block. *)
Lemma undone_downloads r c key target name path current s d :
  downloads s !! download_ c = Some d →
  downloads (undone r c key target name path current s).1 !! download_ c
  = Some (set_aiName None (set_target_path (Some target) d)) ∧
  renamedFiles (undone r c key target name path current s).1
  = renamedFiles s ∖ {[path]} ∖ {[current]}.
Proof.
  intros Hd. unfold undone.
  match goal with
  | |- context [updateUIForFocusedDownload ?k ?b ?s] =>
      destruct (updateUIForFocusedDownload_sameCards k b s) as (_ & _ & _ & -> & ->)
  end.
  split.
  - repeat case_goal_match; simpl; by rewrite lookup_alter_eq, Hd.
  - by repeat case_goal_match.
Qed.

(** The block keeps the invariant when the path it restores is the key of
    the card or the key of no pod. *)
Lemma undone_wf r c key target name path current s :
  wf s → activeDownloadCards s !! key = Some r → cards s !! r = Some c →
  target ≠ "" → target = key ∨ target ∉ orderedPodKeys s →
  wf (undone r c key target name path current s).1.
Proof.
  intros Hwf Hr Hc Hne Htarget. unfold undone.
  set (s2 := updCard r (set_originalFilename name) _).
  assert (storeOf s2 = storeOf s) as Hs2
    by (unfold storeOf, s2; by rewrite cardKeys_updCard by done).
  assert (key ∈ orderedPodKeys s) as Hin
    by (apply keysAgree_elem_of; [apply Hwf|eauto]).
  set (s3 := if bool_decide (key ≠ target) then _ else s2).
  assert (wf s3 ∧ target ∈ orderedPodKeys s3) as [Hwf3 Hin3].
  { unfold s3. case_bool_decide as Hkt.
    - destruct Htarget as [->|Hfresh]; [done|]. split.
      + apply (rekeyed_wf key target r s); try done.
        * intros f. unfold focusedDownloadKey. simpl.
          case_bool_decide; [intros [= <-]; by left|].
          intros Hf. right. split; [by apply Hwf|congruence].
        * apply map_eq. intros i. unfold cardKeys, s2, updCard. simpl.
          rewrite lookup_fmap. destruct (decide (i = r)) as [->|].
          -- by rewrite !lookup_alter_eq, lookup_insert_eq, Hc.
          -- by rewrite !lookup_alter_ne, lookup_insert_ne, lookup_fmap by done.
      + apply (elem_of_replace_first key target target); [apply Hwf|done|by left].
    - subst target. split; [by apply (wf_storeOf s)|exact Hin]. }
  set (s5 := if bool_decide _ then _ else set_renamedFiles _ s3).
  assert (storeOf s5 = storeOf s3) as Hs5 by (unfold s5; by case_goal_match).
  assert (wf s5) as Hwf5 by (revert Hwf3; by apply wf_storeOf).
  assert (target ∈ orderedPodKeys s5) as Hin5
    by (injection Hs5 as Hst _ _; unfold orderedPodKeys; by rewrite Hst).
  apply updateUIForFocusedDownload_wf; [done|].
  intros k. unfold js_or. case_goal_match; [apply Hwf5|by intros [= <-]].
Qed.

(** C16. The undo of a rename.  When the card of the key has recorded the
    name and the path the file had, its download has a path, and the host
    moves the file, then [undoRename] answers [true], the download has the
    path with the recorded name in the directory of the renamed file and no
    name of the model, the recorded path and the renamed path are no longer
    in the set of processed paths, so that the download may be sent to the
    model again, and the pod store is consistent, provided the restored
    path is the key of no other pod. *)
Theorem undoRename_restores fs key s r c d current name path fs' :
  wf s →
  activeDownloadCards s !! key = Some r → cards s !! r = Some c →
  downloads s !! download_ c = Some d →
  target_path d = Some current → current ≠ "" →
  trueOriginalSimpleNameBeforeAIRename c = Some name → name ≠ "" →
  trueOriginalPathBeforeAIRename c = Some path → path ≠ "" →
  moveTo sep fs current name = Some fs' →
  joinPath sep (directoryOf sep current) name = key ∨
  joinPath sep (directoryOf sep current) name ∉ orderedPodKeys s →
  (undoRename fs key s).2 = true ∧
  (undoRename fs key s).1.1.2 = fs' ∧
  downloads (undoRename fs key s).1.1.1 !! download_ c
  = Some (set_aiName None
            (set_target_path (Some (joinPath sep (directoryOf sep current) name)) d)) ∧
  renamedFiles (undoRename fs key s).1.1.1
  = renamedFiles s ∖ {[path]} ∖ {[current]} ∧
  wf (undoRename fs key s).1.1.1.
Proof.
  intros Hwf Hr Hc Hd Hcur ? Hname ? Hpath ? Hmove Htarget.
  rewrite (undoRename_success fs key s r c d current name path fs') by done.
  cbn [fst snd]. split_and!; [done|done|..].
  - by apply undone_downloads.
  - by apply (undone_downloads r c key _ name path current s d).
  - apply undone_wf; try done. unfold joinPath.
    by destruct (directoryOf sep current).
Qed.

End rename.

(** ** The remote call *)

(** Without a key no request is sent; status 429 gives the sentinel; an
    answer is never the empty string. *)
Lemma callMistralAPI_no_key response :
  callMistralAPI None response = (None, false) ∧
  callMistralAPI (Some "") response = (None, false).
Proof. done. Qed.

Lemma callMistralAPI_429 apiKey content :
  truthy apiKey = true →
  callMistralAPI apiKey (Response false 429 content) = (Some "rate-limited", true).
Proof. intros Hk. unfold callMistralAPI. by rewrite Hk. Qed.

Lemma callMistralAPI_truthy apiKey response name :
  (callMistralAPI apiKey response).1 = Some name → name ≠ "".
Proof.
  unfold callMistralAPI, js_or.
  repeat case_goal_match; simpl; intros Hn; simplify_eq/=; try done.
  apply truthy_Some. by rewrite <-Hn.
Qed.

(** ** Two downloads

    A photo that has completed and an archive that is still coming in, in
    the directory [/dl]; the runs below are the ones a session produces. *)

Definition photo : download :=
  mkDownload (Some "/dl/IMG_0001.jpg") None None None None (Some "image/jpeg")
    true None false (Some 2048) 2048 true None.

Definition archive : download :=
  mkDownload (Some "/dl/b.zip") None None None None (Some "application/zip")
    false None false (Some 512) 2048 true None.

Definition disk : files := {[ "/dl/IMG_0001.jpg" := 2048; "/dl/b.zip" := 512 ]}.

Definition slash : ascii := "/"%char.

(** The photo has been announced: its pod is focused and the timer of the
    rename is set. *)
Definition photoShown : t :=
  (onDownloadChanged false 1000 0%nat
     (set_downloads (λ _, {[ 0%nat := photo; 1%nat := archive ]})
        (State.initial true))).1.

Definition noCtx : renameCtx := mkCtx 0%nat "" 0%nat false "" "" "" "" "" false.

(** The run from the timer to the end, with the answer of the model. *)
Definition runFrom (answer : option string) (s : t) : t * files * list task * bool :=
  let '(s, ctx) := renameTimer slash disk 2500 0%nat s in
  match ctx with
  | Some ctx => renameFinish slash disk ctx answer s
  | None => (s, disk, [], false)
  end.

(** The state a test looks at. *)
Definition view (s : t) :=
  (orderedPodKeys s, focusedDownloadKey s, map_to_list (activeDownloadCards s),
   (λ d, (target_path d, aiName d)) <$> downloads s !! 0%nat,
   elements (renamedFiles s)).

(** The run has started: the state and what the run captured. *)
Definition started : t * option renameCtx := renameTimer slash disk 2500 0%nat photoShown.

(** The photo with a size above the limit. *)
Definition bigDisk : files := {[ "/dl/IMG_0001.jpg" := 60000000 ]}.




Lemma renameStart_at_most_once_witness :
  renameStart slash disk 3000 0%nat None started.1 = (started.1, None).
Proof.
  apply (renameStart_at_most_once slash disk disk 2500 3000 0%nat
           (focusedDownloadKey photoShown) None photoShown started.1
           (default noCtx started.2)).
  tidy_compute.
Defined.

Lemma renameStart_too_large_witness :
  (renameStart slash bigDisk 2500 0%nat None photoShown).2 = None ∧
  renamedFiles (renameStart slash bigDisk 2500 0%nat None photoShown).1
  = renamedFiles photoShown.
Proof.
  apply (renameStart_too_large slash bigDisk 2500 0%nat None photoShown photo
           "/dl/IMG_0001.jpg" 60000000); [tidy_compute|reflexivity|reflexivity|done].
Defined.

Lemma renameFinish_failure_witness :
  renamedFiles (renameFinish slash disk (default noCtx started.2) None started.1).1.1.1
  = renamedFiles started.1 ∖ {[rc_downloadPath (default noCtx started.2)]} ∧
  (renameFinish slash disk (default noCtx started.2) None started.1).1.1.2 = disk.
Proof. apply renameFinish_failure. reflexivity. Defined.

(** The timer fires while the photo is focused: the file, the
    download, the card, the list and the focus move to the new name. *)
Example rename_focused :
  let r := runFrom (Some "Cat on Sofa") photoShown in
  r.2 = true ∧
  r.1.1.2 = {[ "/dl/catonsofa.jpg" := 2048; "/dl/b.zip" := 512 ]} ∧
  view r.1.1.1 =
    (["/dl/catonsofa.jpg"], Some "/dl/catonsofa.jpg",
     [("/dl/catonsofa.jpg", 0%nat)],
     Some (Some "/dl/catonsofa.jpg", Some "catonsofa.jpg"),
     ["/dl/IMG_0001.jpg"]) ∧
  undo_display (masterTooltip r.1.1.1) = "inline-flex".
Proof. tidy_compute. Qed.


(** The state and the files after the rename of the photo, with the card
    and the download of the photo. *)
Definition renamedState : t := (runFrom (Some "Cat on Sofa") photoShown).1.1.1.
Definition renamedDisk : files := (runFrom (Some "Cat on Sofa") photoShown).1.1.2.
Definition renamedCard : cardData :=
  default (sampleCard "" 0%nat ∅) (cards renamedState !! 0%nat).
Definition renamedDownload : download :=
  default photo (downloads renamedState !! 0%nat).

Lemma undoRename_restores_witness :
  (undoRename slash renamedDisk "/dl/catonsofa.jpg" renamedState).2 = true ∧
  (undoRename slash renamedDisk "/dl/catonsofa.jpg" renamedState).1.1.2 = disk ∧
  downloads (undoRename slash renamedDisk "/dl/catonsofa.jpg" renamedState).1.1.1
    !! download_ renamedCard
  = Some (set_aiName None
            (set_target_path
               (Some (joinPath slash (directoryOf slash "/dl/catonsofa.jpg")
                        "IMG_0001.jpg")) renamedDownload)) ∧
  renamedFiles (undoRename slash renamedDisk "/dl/catonsofa.jpg" renamedState).1.1.1
  = renamedFiles renamedState ∖ {["/dl/IMG_0001.jpg"]} ∖ {["/dl/catonsofa.jpg"]} ∧
  wf (undoRename slash renamedDisk "/dl/catonsofa.jpg" renamedState).1.1.1.
Proof.
  apply (undoRename_restores slash renamedDisk "/dl/catonsofa.jpg" renamedState
           0%nat renamedCard renamedDownload "/dl/catonsofa.jpg" "IMG_0001.jpg"
           "/dl/IMG_0001.jpg" disk); tidy_compute.
Defined.

(** After the undo no path is in the set of processed paths, but the pod
    still carries the class [renaming-initiated] that the trigger of
    [updateUIForFocusedDownload] gave it: the trigger does not fire for
    this download again. *)
Example undo_no_retrigger :
  let u := (undoRename slash renamedDisk "/dl/catonsofa.jpg" renamedState).1.1.1 in
  renamedFiles u = ∅ ∧
  (classList_contains "renaming-initiated" ∘ podElement_) <$> cards u !! 0%nat
  = Some true ∧
  shouldRename u (default photo (downloads u !! 0%nat))
    (default renamedCard (cards u !! 0%nat)) = false.
Proof. tidy_compute. Qed.

(** Status 429: the run ends without a rename, the path is released and
    the pod may be sent to the workflow again. *)
Example rename_rate_limited :
  let r := runFrom (callMistralAPI (Some "key") (Response false 429 None)).1
             photoShown in
  r.2 = false ∧ r.1.1.2 = disk ∧
  view r.1.1.1 = view photoShown ∧
  status_text (masterTooltip r.1.1.1) = "API rate limit reached" ∧
  (classList_contains "renaming-initiated" ∘ podElement_) <$> cards r.1.1.1 !! 0%nat
  = Some false.
Proof. tidy_compute. Qed.



End Rename.
