(* ===== verification/System.v ===== *)
(** * System: the events of a session

    The handlers of [src/tidy-downloads.uc.js] as the steps of a transition
    system.  A state of the system is the state of the script together with
    the callbacks that are pending.  An event is a call of the host (a
    download was added, changed or removed, the wheel turned over the pods,
    the close button was pressed), a write of the host to one of its
    download objects, or the firing of a pending callback; the events may
    come in any order.

    The steps are those of the pods, of the layout pass and of the
    sidebar: an animation frame runs the pass
    ([LayoutPass.managePodVisibilityAndAnimations]) beside a tooltip of the
    width the host reports at that moment, and the frames and timers the
    pass sets up are steps as well; the observers of [Sidebar] read the
    width of the sidebar when the host reports a change.  The run of the
    rename workflow is not a step of this relation (see [Rename]); its
    timer stays pending. *)

From S2P Require Import Prelude JsArray JsString Stack State Tooltip Pods LayoutPass Sidebar.

Module System.
Import State Tooltip Pods LayoutPass.

#[local] Open Scope Z_scope.

(** ** The wheel *)

(** [handlePodScrollFocus] with its last call: the stack is rotated and the
    tooltip follows the new focus. *)
Definition handleWheel (deltaY : Z) (s : t) : t * list task :=
  let '(st, newFocusedKey) := Stack.handlePodScrollFocus deltaY (stack s) in
  match newFocusedKey with
  | Some key => updateUIForFocusedDownload (Some key) false (set_stack (λ _, st) s)
  | None => (s, [])
  end.

(** ** Events *)

Inductive event :=
  | HostWrites (dref : ref) (d : download)
  | DownloadChanged (zenHost : bool) (now : Z) (dref : ref)
  | DownloadRemoved (now : Z) (dref : ref)
  | Wheel (deltaY : Z)
  | CloseClick
  | Fire (i : nat) (now : Z) (cancelThrows : bool) (snippet : option string)
      (imageFails : bool)
  | Frame (i : nat) (tooltipWidth : Z)
  | CompactModeChanged (mutations : nat) (h : Sidebar.host)
  | ToolboxResized (entries : nat)
  | SidebarTimer (i : nat) (h : Sidebar.host).

(** What a pending callback does when it runs; [None] for the callbacks
    that are not steps of this relation. *)
Definition runTask (now : Z) (cancelThrows : bool) (snippet : option string)
    (imageFails : bool) (task : task) (s : t) : option (t * list State.task) :=
  match task with
  | RemoveTimer downloadKey r => Some (removeCardTimer downloadKey r s)
  | CloseTimer keyToRemove cardData =>
      Some (closeTimer now cancelThrows keyToRemove cardData s)
  | EntranceSignal downloadKey => Some (triggerCardEntrance downloadKey s)
  | SnippetRead r _ => Some (snippetRead r snippet s, [])
  | ImageLoad r => Some (if imageFails then imageError r s else s, [])
  | CancelRequest _ => Some (s, [])
  | _ => None
  end.

Record sys := mkSys { state : t; pending : list task }.

#[global] Instance sys_eq_dec : EqDecision sys.
Proof. solve_decision. Defined.

Definition handle (e : event) (σ : sys) : option sys :=
  match e with
  | HostWrites dref d =>
      Some (mkSys (set_downloads <[dref := d]> (state σ)) (pending σ))
  | DownloadChanged zenHost now dref =>
      let '(s, tasks) := onDownloadChanged zenHost now dref (state σ) in
      Some (mkSys s (pending σ ++ tasks))
  | DownloadRemoved now dref =>
      let '(s, tasks) := onDownloadRemoved now dref (state σ) in
      Some (mkSys s (pending σ ++ tasks))
  | Wheel deltaY =>
      let '(s, tasks) := handleWheel deltaY (state σ) in
      Some (mkSys s (pending σ ++ tasks))
  | CloseClick =>
      let '(s, tasks) := masterCloseHandler (state σ) in
      Some (mkSys s (pending σ ++ tasks))
  | Fire i now cancelThrows snippet imageFails =>
      task ← pending σ !! i;
      '(s, tasks) ← runTask now cancelThrows snippet imageFails task (state σ);
      Some (mkSys s (delete i (pending σ) ++ tasks))
  | Frame i tooltipWidth =>
      task ← pending σ !! i;
      '(s, tasks) ← runFrame tooltipWidth task (state σ);
      Some (mkSys s (delete i (pending σ) ++ tasks))
  | CompactModeChanged mutations h =>
      Some (mkSys (Sidebar.compactModeChanged mutations h (state σ)) (pending σ))
  | ToolboxResized entries =>
      Some (mkSys (state σ) (Sidebar.toolboxResized entries (pending σ)))
  | SidebarTimer i h =>
      task ← pending σ !! i;
      match task with
      | SidebarResizeTimer entries =>
          Some (mkSys (Sidebar.resizeTimerFired entries h (state σ))
                  (delete i (pending σ)))
      | _ => None
      end
  end.

Inductive step : sys → sys → Prop :=
  | step_event e σ σ' : handle e σ = Some σ' → step σ σ'.

(** The session starts when the listeners are attached. *)
Definition start (aiRenamingPossible : bool) : sys :=
  mkSys (State.initial aiRenamingPossible) [].

Definition reachable (aiRenamingPossible : bool) : sys → Prop :=
  rtc step (start aiRenamingPossible).

(** The events of a list, one after the other. *)
Fixpoint run (es : list event) (σ : sys) : option sys :=
  match es with
  | [] => Some σ
  | e :: es => handle e σ ≫= run es
  end.

(** The timers of the resize observer that are pending. *)
Definition resizeTimers (σ : sys) : list task :=
  filter (λ task, isResizeTimer task = true) (pending σ).

(** ** The invariant *)

Lemma handleWheel_wf deltaY s : wf s → wf (handleWheel deltaY s).1.
Proof.
  intros (Hst & Hk & Hc). unfold handleWheel.
  pose proof (Stack.scroll_wf deltaY _ Hst) as Hst'.
  pose proof (Stack.scroll_Permutation deltaY (stack s)) as Hp.
  pose proof (Stack.handlePodScrollFocus_Some deltaY (stack s)) as Hn.
  unfold Stack.scroll in *.
  destruct (Stack.handlePodScrollFocus deltaY (stack s)) as [st [n|]];
    [|by split_and!].
  simpl in *. apply updateUIForFocusedDownload_wf.
  - split_and!; [done| |done].
    unfold keysAgree, orderedPodKeys in *. simpl. rewrite Hk.
    apply set_eq. intros x. rewrite !elem_of_list_to_set. by rewrite Hp.
  - intros key [= <-]. unfold orderedPodKeys. simpl.
    destruct (Hn n eq_refl) as (_ & _ & _ & Hin & _). by rewrite Hp.
Qed.

Lemma snippetRead_wf r snippet s : wf s → wf (snippetRead r snippet s).
Proof.
  intros Hwf. unfold snippetRead. case_goal_match; [|done].
  apply (wf_sameCards s); [by apply sameCards_updPod|done|apply Hwf].
Qed.

Lemma imageError_wf r s : wf s → wf (imageError r s).
Proof.
  intros Hwf. apply (wf_sameCards s); [by apply sameCards_updPod|done|apply Hwf].
Qed.

Lemma triggerCardEntrance_wf key s : wf s → wf (triggerCardEntrance key s).1.
Proof.
  intros Hwf. apply (wf_sameCards s); [apply triggerCardEntrance_sameCards|done|].
  destruct (triggerCardEntrance_sameCards key s) as (-> & _).
  intros f [Hf|[-> Hk]]%triggerCardEntrance_focus.
  - by apply Hwf.
  - apply keysAgree_elem_of; [apply Hwf|done].
Qed.

Lemma masterCloseHandler_wf s : wf s → wf (masterCloseHandler s).1.
Proof.
  intros Hwf. apply (wf_sameCards s); [apply masterCloseHandler_sameCards|done|].
  unfold masterCloseHandler. case_goal_match; apply Hwf.
Qed.

Lemma runTask_wf now cancelThrows snippet imageFails task s s' tasks :
  runTask now cancelThrows snippet imageFails task s = Some (s', tasks) →
  wf s → wf s'.
Proof.
  intros Hrun Hwf. change s' with (s', tasks).1.
  destruct task; simpl in Hrun; try done; injection Hrun as <-.
  - by apply closeTimer_wf.
  - by apply removeCardTimer_wf.
  - by apply triggerCardEntrance_wf.
  - by apply snippetRead_wf.
  - simpl. case_goal_match; [by apply imageError_wf|done].
  - done.
Qed.

Lemma handle_wf e σ σ' : handle e σ = Some σ' → wf (state σ) → wf (state σ').
Proof.
  intros He Hwf. destruct e; simpl in He.
  - by simplify_eq/=.
  - pose proof (onDownloadChanged_wf zenHost now dref _ Hwf).
    destruct (onDownloadChanged _ _ _ _). by simplify_eq/=.
  - pose proof (onDownloadRemoved_wf now dref _ Hwf).
    destruct (onDownloadRemoved _ _ _). by simplify_eq/=.
  - pose proof (handleWheel_wf deltaY _ Hwf).
    destruct (handleWheel _ _). by simplify_eq/=.
  - pose proof (masterCloseHandler_wf _ Hwf).
    destruct (masterCloseHandler _). by simplify_eq/=.
  - destruct (pending σ !! i) as [task|]; [|done]. simpl in He.
    destruct (runTask _ _ _ _ _ _) as [[s tasks]|] eqn:Hrun; [|done].
    simplify_eq/=. by eapply runTask_wf.
  - destruct (pending σ !! i) as [task|]; [|done]. simpl in He.
    destruct (runFrame _ _ _) as [[s tasks]|] eqn:Hrun; [|done].
    simplify_eq/=. by eapply runFrame_wf.
  - simplify_eq/=. by apply Sidebar.compactModeChanged_wf.
  - by simplify_eq/=.
  - destruct (pending σ !! i) as [[]|]; simplify_eq/=.
    by apply Sidebar.resizeTimerFired_wf.
Qed.

(** ** The width of the tooltip *)

Lemma handleWheel_widthSynced deltaY s :
  widthSynced s → widthSynced (handleWheel deltaY s).1.
Proof.
  intros Hs. unfold handleWheel.
  destruct (Stack.handlePodScrollFocus deltaY (stack s)) as [st [n|]]; [|done].
  by apply updateUIForFocusedDownload_widthSynced.
Qed.

Lemma runTask_widthSynced now cancelThrows snippet imageFails task s s' tasks :
  runTask now cancelThrows snippet imageFails task s = Some (s', tasks) →
  widthSynced s → widthSynced s'.
Proof.
  intros Hrun Hs. change s' with (s', tasks).1.
  destruct task; simpl in Hrun; try done; injection Hrun as <-.
  - by apply (widthSynced_widths _ _ (closeTimer_widths _ _ _ _ _)).
  - by apply removeCardTimer_widthSynced.
  - by apply triggerCardEntrance_widthSynced.
  - unfold snippetRead. by case_goal_match.
  - by case_goal_match.
  - done.
Qed.

Lemma handle_widthSynced e σ σ' :
  handle e σ = Some σ' → widthSynced (state σ) → widthSynced (state σ').
Proof.
  intros He Hs. destruct e; simpl in He.
  - by simplify_eq/=.
  - pose proof (onDownloadChanged_widthSynced zenHost now dref _ Hs).
    destruct (onDownloadChanged _ _ _ _). by simplify_eq/=.
  - pose proof (widthSynced_widths _ _ (onDownloadRemoved_widths now dref _) Hs).
    destruct (onDownloadRemoved _ _ _). by simplify_eq/=.
  - pose proof (handleWheel_widthSynced deltaY _ Hs).
    destruct (handleWheel _ _). by simplify_eq/=.
  - pose proof (widthSynced_widths _ _ (masterCloseHandler_widths _) Hs).
    destruct (masterCloseHandler _). by simplify_eq/=.
  - destruct (pending σ !! i) as [task|]; [|done]. simpl in He.
    destruct (runTask _ _ _ _ _ _) as [[s tasks]|] eqn:Hrun; [|done].
    simplify_eq/=. by eapply runTask_widthSynced.
  - destruct (pending σ !! i) as [task|]; [|done]. simpl in He.
    destruct (runFrame _ _ _) as [[s tasks]|] eqn:Hrun; [|done].
    simplify_eq/=. by eapply runFrame_widthSynced.
  - simplify_eq/=. by apply Sidebar.compactModeChanged_widthSynced.
  - by simplify_eq/=.
  - destruct (pending σ !! i) as [[]|]; simplify_eq/=.
    by apply Sidebar.resizeTimerFired_widthSynced.
Qed.

Lemma reachable_wf aiRenamingPossible σ :
  reachable aiRenamingPossible σ → wf (state σ).
Proof.
  unfold reachable. revert σ.
  apply (rtc_ind_r (λ σ, wf (state σ))); [apply initial_wf|].
  intros σ1 σ2 _ [e ? ? He] IH. by eapply handle_wf.
Qed.

Lemma run_reachable es σ σ' : run es σ = Some σ' → rtc step σ σ'.
Proof.
  revert σ. induction es as [|e es IH]; intros σ Hrun; simplify_eq/=; [done|].
  destruct (handle e σ) as [σ1|] eqn:He; [|done].
  eapply rtc_l; [by econstructor|by apply IH].
Qed.

(** C1. The pod store is consistent in every state that the events of the
    pods reach from the initial state (downloads added, changed and
    removed, writes of the host to its download objects, the wheel, the
    close button, the callbacks these leave behind, and the layout pass
    with its frames and timers beside a tooltip of any width), whatever
    the events and their order: no key is listed twice, the listed keys are
    exactly the keys of the map of the cards, the card filed under a key
    records that key, as does its pod element, and the focused key, when
    there is one, is a listed key. *)
Theorem reachable_consistent aiRenamingPossible σ :
  reachable aiRenamingPossible σ →
  NoDup (orderedPodKeys (state σ)) ∧
  (∀ key, key ∈ orderedPodKeys (state σ)
          ↔ is_Some (activeDownloadCards (state σ) !! key)) ∧
  (∀ key r, activeDownloadCards (state σ) !! key = Some r →
     ∃ c, cards (state σ) !! r = Some c ∧ State.key c = key ∧
          dataset_downloadKey (podElement_ c) = key) ∧
  (∀ key, focusedDownloadKey (state σ) = Some key →
          key ∈ orderedPodKeys (state σ)).
Proof.
  intros (Hst & Hk & Hc)%reachable_wf. split_and!.
  - apply Hst.
  - intros key. by apply keysAgree_elem_of.
  - intros key r. by apply cardsAgree_lookup.
  - apply Hst.
Qed.

(** ** The timer of the resize observer *)

Lemma handleWheel_noResizeTimer deltaY s : noResizeTimer (handleWheel deltaY s).2.
Proof.
  unfold handleWheel.
  destruct (Stack.handlePodScrollFocus deltaY (stack s)) as [st [n|]];
    [|constructor].
  apply updateUIForFocusedDownload_noResizeTimer.
Qed.

Lemma runTask_noResizeTimer now cancelThrows snippet imageFails task s s' tasks :
  runTask now cancelThrows snippet imageFails task s = Some (s', tasks) →
  noResizeTimer tasks.
Proof.
  intros Hrun. destruct task; simpl in Hrun; try done.
  1-3: apply (f_equal (from_option snd [])) in Hrun; cbn in Hrun; subst.
  - apply closeTimer_noResizeTimer.
  - apply updateUIForFocusedDownload_noResizeTimer.
  - apply triggerCardEntrance_noResizeTimer.
  - simplify_eq. constructor.
  - simplify_eq. constructor.
  - simplify_eq. constructor.
Qed.

(** Callbacks without such a timer add none to those that are pending, and
    a callback that has run leaves at most those that were. *)
Lemma resizeTimers_app s pending tasks :
  noResizeTimer tasks →
  resizeTimers (mkSys s (pending ++ tasks))
  = filter (λ task, isResizeTimer task = true) pending.
Proof.
  intros Hq. unfold resizeTimers. cbn [System.pending].
  by rewrite filter_app, (noResizeTimer_filter tasks Hq), app_nil_r.
Qed.

Lemma resizeTimers_fired s i σ tasks :
  noResizeTimer tasks →
  (length (resizeTimers (mkSys s (delete i (pending σ) ++ tasks)))
   ≤ length (resizeTimers σ))%nat.
Proof. intros Hq. rewrite resizeTimers_app by done. apply length_filter_delete. Qed.

Lemma handle_resizeTimers e σ σ' :
  handle e σ = Some σ' →
  (length (resizeTimers σ) ≤ 1)%nat → (length (resizeTimers σ') ≤ 1)%nat.
Proof.
  intros He Hn. destruct e; simpl in He.
  - by simplify_eq/=.
  - pose proof (onDownloadChanged_noResizeTimer zenHost now dref (state σ)).
    destruct (onDownloadChanged _ _ _ _). simplify_eq/=.
    by rewrite resizeTimers_app.
  - pose proof (onDownloadRemoved_noResizeTimer now dref (state σ)).
    destruct (onDownloadRemoved _ _ _). simplify_eq/=.
    by rewrite resizeTimers_app.
  - pose proof (handleWheel_noResizeTimer deltaY (state σ)).
    destruct (handleWheel _ _). simplify_eq/=. by rewrite resizeTimers_app.
  - pose proof (masterCloseHandler_noResizeTimer (state σ)).
    destruct (masterCloseHandler _). simplify_eq/=. by rewrite resizeTimers_app.
  - destruct (pending σ !! i) as [task|]; [|done]. simpl in He.
    destruct (runTask _ _ _ _ _ _) as [[s tasks]|] eqn:Hrun; [|done].
    simplify_eq/=. etrans; [|exact Hn].
    eapply resizeTimers_fired, runTask_noResizeTimer, Hrun.
  - destruct (pending σ !! i) as [task|]; [|done]. simpl in He.
    destruct (runFrame _ _ _) as [[s tasks]|] eqn:Hrun; [|done].
    simplify_eq/=. etrans; [|exact Hn].
    eapply resizeTimers_fired, runFrame_noResizeTimer, Hrun.
  - by simplify_eq/=.
  - simplify_eq/=. unfold resizeTimers. cbn [pending].
    by rewrite Sidebar.toolboxResized_timers.
  - destruct (pending σ !! i) as [[]|]; simplify_eq/=.
    etrans; [|exact Hn]. apply length_filter_delete.
Qed.

(** C5. The tooltip is as wide as the sidebar asks in every state that the
    events reach, reads of the sidebar width included: [calc(w - 20px)] for
    the width [w] the last read has kept, [350px] when it has kept none or
    one that is no length.  And the resize observer has at most one timer
    pending, however often the toolbox was resized. *)
Theorem reachable_widthSynced aiRenamingPossible σ :
  reachable aiRenamingPossible σ →
  tt_width (masterTooltip (state σ))
  = widthOf (currentZenSidebarWidth (state σ)) ∧
  (length (resizeTimers σ) ≤ 1)%nat.
Proof.
  unfold reachable. revert σ.
  apply (rtc_ind_r (λ σ, widthSynced (state σ) ∧ (length (resizeTimers σ) ≤ 1)%nat));
    [by split; [|cbn; lia]|].
  intros σ1 σ2 _ [e ? ? He] [Hw Hn].
  split; [by eapply handle_widthSynced|by eapply handle_resizeTimers].
Qed.

(** ** A session

    Two downloads start; the wheel brings the first one back into focus;
    the first download completes; the close button is pressed and the two
    timers of the removal fire. *)
Definition session : list event :=
  [HostWrites 0%nat (downloading "/dl/a.zip" 10 100);
   DownloadChanged false 1000 0%nat;
   HostWrites 1%nat (downloading "/dl/b.zip" 20 100);
   DownloadChanged false 1100 1%nat;
   Wheel 120;
   HostWrites 0%nat (completed "/dl/a.zip" 100);
   DownloadChanged false 2000 0%nat;
   CloseClick;
   Fire 7 2300 false None false;
   Fire 7 2600 false None false].

Definition sessionEnd : sys := default (start true) (run session (start true)).

Lemma session_runs : run session (start true) = Some sessionEnd.
Proof. tidy_compute. Qed.

Lemma reachable_consistent_witness :
  NoDup (orderedPodKeys (state sessionEnd)) ∧
  (∀ key, key ∈ orderedPodKeys (state sessionEnd)
          ↔ is_Some (activeDownloadCards (state sessionEnd) !! key)) ∧
  (∀ key r, activeDownloadCards (state sessionEnd) !! key = Some r →
     ∃ c, cards (state sessionEnd) !! r = Some c ∧ State.key c = key ∧
          dataset_downloadKey (podElement_ c) = key) ∧
  (∀ key, focusedDownloadKey (state sessionEnd) = Some key →
          key ∈ orderedPodKeys (state sessionEnd)).
Proof.
  apply (reachable_consistent true), (run_reachable session), session_runs.
Defined.

(** The states of the session: the second download takes the focus when
    it starts, the wheel moves the first one to the end of the list and
    focuses it, and the removal leaves the second one, focused. *)
Example session_states :
  let view := λ n,
    (λ σ, (orderedPodKeys (state σ), focusedDownloadKey (state σ)))
      <$> run (take n session) (start true) in
  view 4%nat = Some (["/dl/a.zip"; "/dl/b.zip"], Some "/dl/b.zip") ∧
  view 5%nat = Some (["/dl/b.zip"; "/dl/a.zip"], Some "/dl/a.zip") ∧
  view 9%nat = Some (["/dl/b.zip"; "/dl/a.zip"], Some "/dl/a.zip") ∧
  view 10%nat = Some (["/dl/b.zip"], Some "/dl/b.zip").
Proof. tidy_compute. Qed.

(** ** The sidebar is resized

    A download starts; the toolbox is resized three times before the timer
    of the observer fires, and the property then holds 300 pixels; later
    the compact mode hides the sidebar and the property holds nothing. *)
Definition resizes : list event :=
  [HostWrites 0%nat (downloading "/dl/a.zip" 10 100);
   DownloadChanged false 1000 0%nat;
   ToolboxResized 1; ToolboxResized 2; ToolboxResized 1;
   SidebarTimer 2 (Sidebar.mkHost true (Some " 300px"));
   CompactModeChanged 1 (Sidebar.mkHost true (Some ""))].

Definition resized : sys := default (start true) (run (take 6 resizes) (start true)).

Lemma resized_runs : run (take 6 resizes) (start true) = Some resized.
Proof. tidy_compute. Qed.

Lemma reachable_widthSynced_witness :
  tt_width (masterTooltip (state resized))
  = widthOf (currentZenSidebarWidth (state resized)) ∧
  (length (resizeTimers resized) ≤ 1)%nat.
Proof.
  apply (reachable_widthSynced true), (run_reachable (take 6 resizes)), resized_runs.
Defined.

(** One timer is pending after the three resizes; its read sets the
    variable and the width, and the read of the mutation observer brings
    the default back. *)
Example resizes_states :
  let view := λ n,
    (λ σ, (resizeTimers σ, currentZenSidebarWidth (state σ),
           tt_width (masterTooltip (state σ))))
      <$> run (take n resizes) (start true) in
  view 5%nat = Some ([SidebarResizeTimer 1], "", "350px") ∧
  view 6%nat = Some ([], "300px", "calc(300px - 20px)") ∧
  view 7%nat = Some ([], "", "350px").
Proof. tidy_compute. Qed.

(** ** Two turns of the wheel within two frames

    Two pods beside a tooltip of 60 px, where only the focused pod has a
    slot.  The wheel brings the first pod into focus: the pass starts its
    entrance, which takes two animation frames.  The wheel turns again
    before the first of them: that frame runs the outer callback of the
    entrance and then the pass, which takes the first pod out of the
    layout; the next frame runs the inner callback of the entrance. *)
Definition twoTurns : list event :=
  [HostWrites 0%nat (downloading "/dl/a.zip" 10 100);
   DownloadChanged false 1000 0%nat;
   HostWrites 1%nat (downloading "/dl/b.zip" 20 100);
   DownloadChanged false 1100 1%nat;
   Frame 0 60; Frame 0 60; Frame 0 60; Frame 0 60; Frame 0 60; Frame 0 60;
   Frame 0 60; Frame 0 60; Frame 0 60;
   Wheel 120; Frame 0 60;
   Wheel 120; Frame 0 60; Frame 1 60; Frame 1 60;
   Frame 1 60; Frame 2 60; Frame 0 60; Frame 0 60].

(** The callbacks run in the order they were set up.  At the end nothing
    is pending; the second pod is focused and shown; the first pod is not
    visible according to its card and has no slot, yet its element is
    opaque at offset 0 with the z-index of the focused pod: the inner
    callback of its entrance wrote the target the pass had given up. *)
Example stale_entrance_frame :
  (λ σ, (pending σ, focusedDownloadKey (state σ),
         styleOf (state σ) <$> orderedPodKeys (state σ)))
    <$> run twoTurns (start true)
  = Some ([], Some "/dl/b.zip",
          [Some ("flex", Some 13, "1", Target 0, false);
           Some ("flex", Some 13, "1", Target 0, true)]).
Proof. by vm_compute. Qed.

End System.
