(* ===== verification/Readers.v ===== *)
(** * Readers: the files the script reads and launches

    [readTextFileSnippet], [fileToBase64] and [openDownloadedFile] of
    [src/tidy-downloads.uc.js] (lines 1749-1921).  The file system is the
    host's: a file is what the host reports of it (whether it exists, its
    size, what the successive reads of its stream return, whether opening
    it raises).  The text of a file is a list of characters, one per byte;
    the decoder of the script is run in streaming mode, so that the text
    of the reads is the text of the file, and [reads] holds that text.

    The two loops that are not structural are defined by well-founded
    recursion: the loop over the complete lines of the buffer on the
    length of the buffer, the loop over the chunks of [fileToBase64] on the
    bytes that are left.

    The theorems: the snippet has at most [maxLines] lines of at most
    [maxLengthPerLine + 3] characters; the snippet of a text whose lines
    are all terminated is its first [maxLines] lines, trimmed and clipped;
    the snippet does not depend on how the host cuts the text into reads,
    as long as no read is empty; a last line that is
    not terminated comes twice when there is room for it; the chunks of
    [fileToBase64] join to the bytes that were read. *)

From Equations Require Import Equations.
From Stdlib Require Import Ascii.
From S2P Require Import Prelude JsArray JsString Filename State.

Module Readers.
Import JsString.

(** ** Files *)

Record file := mkFile {
  pathThrows : bool;        (* [initWithPath] raises *)
  exists_ : bool;
  isReadable : bool;
  fileSize : Z;
  streamThrows : bool;      (* opening or reading the stream raises *)
  bytes : list ascii;       (* [readBytes(fileSize)] *)
  reads : list string       (* the successive [read(bufferSize)], decoded *)
}.

(** The value of a test with the proof that it is that value. *)
Definition inspect {A} (a : A) : {b | a = b} := exist _ a eq_refl.

(** ** The snippet of a text file *)

Definition newline : ascii := ascii_of_nat 10.

(** [s.trimEnd()]. *)
Definition trimEnd (s : list ascii) : list ascii :=
  reverse (trimStartL (reverse s)).

(** Lines 1829-1831 (and 1850-1852, 1870-1872): a long line is cut and
    marked. *)
Definition clip (maxLengthPerLine : nat) (trimmedLine : list ascii) : string :=
  if bool_decide (maxLengthPerLine < length trimmedLine)
  then ofChars (take maxLengthPerLine trimmedLine) +:+ "..."
  else ofChars trimmedLine.

(** The variables of the loops. *)
Record lines := mkLines {
  lineBuffer : list ascii;
  linesRead : nat;
  outputLines : list string
}.

(** Lines 1848-1855: a line goes to the output and leaves the buffer. *)
Definition pushLine (maxLengthPerLine : nat) (currentLine rest : list ascii)
    (st : lines) : lines :=
  mkLines rest (S (linesRead st))
    (outputLines st ++ [clip maxLengthPerLine (trimEnd currentLine)]).

(** [lineBuffer += ...] (line 1843). *)
Definition append (text : list ascii) (st : lines) : lines :=
  mkLines (lineBuffer st ++ text) (linesRead st) (outputLines st).

Lemma indexOf_drop_lt (l : list ascii) i :
  indexOf newline l = Some i → length (drop (S i) l) < length l.
Proof. intros H%indexOf_lt. rewrite length_drop. lia. Qed.

(** The loop of lines 1846-1856 over the complete lines of the buffer. *)
Equations? completeLines (maxLines maxLengthPerLine : nat) (st : lines) : lines
    by wf (length (lineBuffer st)) lt :=
  completeLines maxLines maxLengthPerLine st
    with inspect (indexOf newline (lineBuffer st)) := {
    | exist _ (Some eolIndex) Heol
        with inspect (bool_decide (linesRead st < maxLines)) := {
        | exist _ true _ =>
            completeLines maxLines maxLengthPerLine
              (pushLine maxLengthPerLine (take eolIndex (lineBuffer st))
                 (drop (S eolIndex) (lineBuffer st)) st);
        | exist _ false _ => st };
    | exist _ None _ => st }.
Proof. cbn. by apply indexOf_drop_lt. Qed.

(** Lines 1826-1838: at the end of the stream what is left in the buffer
    is a line; the buffer is left as it is. *)
Definition atEOF (maxLengthPerLine : nat) (st : lines) : lines :=
  if bool_decide (0 < length (lineBuffer st))
  then pushLine maxLengthPerLine (lineBuffer st) (lineBuffer st) st
  else st.

(** The loop of lines 1823-1864 over the reads of the stream. *)
Fixpoint readLoop (maxLines maxLengthPerLine : nat) (reads : list string)
    (st : lines) : lines :=
  if bool_decide (linesRead st < maxLines) then
    match reads with
    | [] => atEOF maxLengthPerLine st
    | byteString :: reads =>
        if bool_decide (String.length byteString = 0)
        then atEOF maxLengthPerLine st
        else readLoop maxLines maxLengthPerLine reads
               (completeLines maxLines maxLengthPerLine
                  (append (chars byteString) st))
    end
  else st.

(** Lines 1867-1874: the line that is left after the loop. *)
Definition lastLine (maxLines maxLengthPerLine : nat) (st : lines) : list string :=
  if bool_decide (linesRead st < maxLines) && bool_decide (0 < length (lineBuffer st))
  then outputLines st ++ [clip maxLengthPerLine (trimEnd (lineBuffer st))]
  else outputLines st.

(** The lines of the snippet (lines 1816-1874). *)
Definition snippetLines (maxLines maxLengthPerLine : nat) (reads : list string)
    : list string :=
  lastLine maxLines maxLengthPerLine
    (readLoop maxLines maxLengthPerLine reads (mkLines [] 0 [])).

(** [l.join(sep)]. *)
Fixpoint join (sep : string) (l : list string) : string :=
  match l with
  | [] => ""
  | [x] => x
  | x :: l => x +:+ sep +:+ join sep l
  end.

Definition readTextFileSnippet (f : file) (maxLines maxLengthPerLine : nat)
    : option string :=
  if pathThrows f then Some "[Error reading file preview]"
  else if negb (exists_ f) || negb (isReadable f) then None
  else if bool_decide (fileSize f = 0)%Z then Some "[Empty file]"
  else if bool_decide (1 * 1024 * 1024 < fileSize f)%Z
  then Some "[File too large for preview]"
  else if streamThrows f then Some "[Error reading file preview]"
  else
    let outputLines := snippetLines maxLines maxLengthPerLine (reads f) in
    if bool_decide (length outputLines = 0)
    then Some "[Could not read snippet contents]"
    else Some (join (String newline "") outputLines).

(** ** The bytes of an image *)

Definition CHUNK_SIZE : nat := Z.to_nat 0x8000.

(** [String.fromCharCode.apply(null, s.split("").map(c => c.charCodeAt(0)))]. *)
Definition fromCharCodes (s : list ascii) : list ascii :=
  (λ c, ascii_of_nat (nat_of_ascii c)) <$> s.

Section chunks.
Context (size : nat) (Hsize : 0 < size).

(** The loop of lines 1774-1781 with chunks of [size] bytes. *)
Equations? chunksFrom (bytes : list ascii) (i : nat) (chunks : list (list ascii))
    : list (list ascii) by wf (length bytes - i) lt :=
  chunksFrom bytes i chunks with inspect (bool_decide (i < length bytes)) := {
    | exist _ true Hlt =>
        chunksFrom bytes (i + size)
          (chunks ++ [fromCharCodes (take size (drop i bytes))]);
    | exist _ false _ => chunks }.
Proof. apply bool_decide_eq_true in Hlt. lia. Qed.
End chunks.

Lemma CHUNK_SIZE_pos : 0 < CHUNK_SIZE.
Proof. unfold CHUNK_SIZE. lia. Qed.

Section base64.
(** [btoa] is the host's. *)
Context (btoa : list ascii → string).

Definition fileToBase64 (f : file) : option string :=
  if pathThrows f then None
  else if bool_decide (Filename.MAX_FILE_SIZE_FOR_AI < fileSize f)%Z then None
  else if streamThrows f then None
  else Some (btoa (concat (chunksFrom CHUNK_SIZE CHUNK_SIZE_pos (bytes f) 0 []))).
End base64.

(** ** Opening a file *)

(** [openDownloadedFile]: the path that is launched, if any. *)
Definition openDownloadedFile (download : option State.download)
    (files : string → file) : option string :=
  match download with
  | Some download =>
      if truthy (State.target_path download) then
        let filePath := default "" (State.target_path download) in
        if pathThrows (files filePath) then None
        else if exists_ (files filePath) && isReadable (files filePath)
        then Some filePath
        else None
      else None
  | None => None
  end.


(** ** The loop over the complete lines *)

(** One round of the loop. *)
Lemma completeLines_step maxLines maxLengthPerLine st :
  completeLines maxLines maxLengthPerLine st
  = match indexOf newline (lineBuffer st) with
    | Some eolIndex =>
        if bool_decide (linesRead st < maxLines)
        then completeLines maxLines maxLengthPerLine
               (pushLine maxLengthPerLine (take eolIndex (lineBuffer st))
                  (drop (S eolIndex) (lineBuffer st)) st)
        else st
    | None => st
    end.
Proof.
  funelim (completeLines maxLines maxLengthPerLine st);
    repeat match goal with
    | H : indexOf _ _ = _ |- _ => rewrite H
    | H : bool_decide _ = _ |- _ => rewrite H
    end; done.
Qed.

Lemma completeLines_no_newline maxLines maxLengthPerLine st :
  newline ∉ lineBuffer st → completeLines maxLines maxLengthPerLine st = st.
Proof. intros H%indexOf_None. by rewrite completeLines_step, H. Qed.

Lemma completeLines_full maxLines maxLengthPerLine st :
  maxLines ≤ linesRead st → completeLines maxLines maxLengthPerLine st = st.
Proof.
  intros. rewrite completeLines_step. case_match; [|done].
  by rewrite bool_decide_false by lia.
Qed.

Lemma drop_line (line rest : list ascii) :
  drop (S (length line)) (line ++ newline :: rest) = rest.
Proof.
  rewrite cons_middle, app_assoc. apply drop_app_length'.
  rewrite length_app. cbn. lia.
Qed.

Lemma completeLines_line maxLines maxLengthPerLine line rest n out :
  newline ∉ line → n < maxLines →
  completeLines maxLines maxLengthPerLine (mkLines (line ++ newline :: rest) n out)
  = completeLines maxLines maxLengthPerLine
      (mkLines rest (S n) (out ++ [clip maxLengthPerLine (trimEnd line)])).
Proof.
  intros Hl Hn. rewrite completeLines_step. cbn [lineBuffer linesRead].
  rewrite indexOf_app_fresh, bool_decide_true by done.
  by rewrite take_app_length, drop_line.
Qed.

(** What the rounds of the loop keep, the loop keeps. *)
Lemma completeLines_invariant (P : lines → Prop) maxLines maxLengthPerLine st :
  P st →
  (∀ st line rest, P st → linesRead st < maxLines →
                   P (pushLine maxLengthPerLine line rest st)) →
  P (completeLines maxLines maxLengthPerLine st).
Proof.
  intros Hst Hpush. funelim (completeLines maxLines maxLengthPerLine st);
    [done| |done].
  match goal with IH : ∀ _ : lines → Prop, _ |- _ => apply IH; [|done] end.
  apply Hpush; [done|].
  match goal with e : bool_decide _ = true |- _ => exact (bool_decide_eq_true_1 _ e) end.
Qed.

(** The text of lines that are all terminated. *)
Definition terminated (ls : list (list ascii)) : list ascii :=
  ls ≫= λ l, l ++ [newline].

(** What a line becomes in the snippet. *)
Definition shown (maxLengthPerLine : nat) (line : list ascii) : string :=
  clip maxLengthPerLine (trimEnd line).

(** The loop takes the terminated lines of the buffer one by one, as many
    as there is room for. *)
Lemma completeLines_terminated maxLines maxLengthPerLine ls last n out :
  Forall (λ l, newline ∉ l) ls → newline ∉ last →
  completeLines maxLines maxLengthPerLine (mkLines (terminated ls ++ last) n out)
  = mkLines (terminated (drop (maxLines - n) ls) ++ last)
      (n + length ls `min` (maxLines - n))
      (out ++ (shown maxLengthPerLine <$> take (maxLines - n) ls)).
Proof.
  intros Hls Hlast. revert n out.
  induction Hls as [|l ls Hl Hls IH]; intros n out.
  { rewrite completeLines_no_newline by done. rewrite drop_nil, take_nil. cbn.
    by rewrite Nat.add_0_r, app_nil_r. }
  destruct (decide (n < maxLines)) as [Hn|Hn].
  - cbn [terminated mbind list_bind]. fold (terminated ls).
    rewrite <-!app_assoc. cbn [app]. rewrite completeLines_line, IH by done.
    replace (maxLines - n) with (S (maxLines - S n)) by lia. cbn [drop take].
    rewrite fmap_cons, <-app_assoc. cbn [app length]. f_equal. lia.
  - rewrite completeLines_full by (cbn; lia).
    replace (maxLines - n) with 0 by lia. cbn.
    by rewrite Nat.add_0_r, app_nil_r.
Qed.

(** ** The loop as rounds

    One round of the loop, or [None] when its test fails; [rounds] runs at
    most [fuel] rounds. *)
Definition lineRound (maxLines maxLengthPerLine : nat) (st : lines) : option lines :=
  match indexOf newline (lineBuffer st) with
  | Some eolIndex =>
      if bool_decide (linesRead st < maxLines)
      then Some (pushLine maxLengthPerLine (take eolIndex (lineBuffer st))
                   (drop (S eolIndex) (lineBuffer st)) st)
      else None
  | None => None
  end.

Fixpoint rounds (maxLines maxLengthPerLine fuel : nat) (st : lines) : lines :=
  match fuel with
  | 0 => st
  | S fuel =>
      match lineRound maxLines maxLengthPerLine st with
      | Some st => rounds maxLines maxLengthPerLine fuel st
      | None => st
      end
  end.

(** C22. The loop over the complete lines ends: it makes at most as many rounds
    as lines may still be read, and at most as many as the buffer has
    characters, and then its test fails. *)
Theorem completeLines_terminates maxLines maxLengthPerLine st :
  ∃ n, n ≤ maxLines - linesRead st ∧ n ≤ length (lineBuffer st) ∧
       rounds maxLines maxLengthPerLine n st
       = completeLines maxLines maxLengthPerLine st ∧
       lineRound maxLines maxLengthPerLine
         (completeLines maxLines maxLengthPerLine st) = None.
Proof.
  funelim (completeLines maxLines maxLengthPerLine st).
  - exists 0. unfold lineRound.
    match goal with H : indexOf _ _ = None |- _ => rewrite H end.
    split_and!; [lia..|done|done].
  - match goal with
    | IH : ∃ _, _, He : indexOf _ _ = Some _, Hb : bool_decide _ = true |- _ =>
        destruct IH as (n & Hn & Hlen & Hr & Hexit);
        pose proof (indexOf_drop_lt _ _ He);
        pose proof (bool_decide_eq_true_1 _ Hb);
        exists (S n); cbn [rounds]; unfold lineRound at 1; rewrite He, Hb
    end.
    cbn [linesRead lineBuffer pushLine] in *. split_and!; [lia..|done|done].
  - exists 0. unfold lineRound.
    match goal with
    | He : indexOf _ _ = Some _, Hb : bool_decide _ = false |- _ => rewrite He, Hb
    end.
    split_and!; [lia..|done|done].
Qed.

(** ** Bounds of the snippet *)

Lemma length_ofChars l : String.length (ofChars l) = length l.
Proof. by rewrite <-length_chars, chars_ofChars. Qed.

Lemma length_clip maxLengthPerLine l :
  String.length (clip maxLengthPerLine l) ≤ maxLengthPerLine + 3.
Proof.
  unfold clip. case_bool_decide.
  - rewrite length_string_app, length_ofChars, length_take. cbn. lia.
  - rewrite length_ofChars. lia.
Qed.

(** The lines are counted, there are at most [maxLines] of them and none
    is longer than a clipped line. *)
Definition bounded (maxLines maxLengthPerLine : nat) (st : lines) : Prop :=
  linesRead st = length (outputLines st) ∧ linesRead st ≤ maxLines ∧
  Forall (λ l, String.length l ≤ maxLengthPerLine + 3) (outputLines st).

Lemma bounded_pushLine maxLines maxLengthPerLine line rest st :
  bounded maxLines maxLengthPerLine st → linesRead st < maxLines →
  bounded maxLines maxLengthPerLine (pushLine maxLengthPerLine line rest st).
Proof.
  intros (Hn & Hm & Hl) Hlt. unfold bounded, pushLine. cbn. split_and!.
  - rewrite length_app. cbn. lia.
  - lia.
  - apply Forall_app. split; [done|]. repeat constructor. apply length_clip.
Qed.

Lemma bounded_readLoop maxLines maxLengthPerLine reads st :
  bounded maxLines maxLengthPerLine st →
  bounded maxLines maxLengthPerLine (readLoop maxLines maxLengthPerLine reads st).
Proof.
  revert st. induction reads as [|byteString reads IH]; intros st Hst; cbn;
    case_bool_decide; try done; unfold atEOF;
    repeat case_bool_decide; try done; try (by apply bounded_pushLine).
  apply IH, completeLines_invariant; [done|].
  intros. by apply bounded_pushLine.
Qed.

(** C21. The snippet has at most [maxLines] lines, and a line has at most
    [maxLengthPerLine] characters and the three dots. *)
Theorem snippetLines_bounded maxLines maxLengthPerLine reads :
  length (snippetLines maxLines maxLengthPerLine reads) ≤ maxLines ∧
  Forall (λ l, String.length l ≤ maxLengthPerLine + 3)
    (snippetLines maxLines maxLengthPerLine reads).
Proof.
  unfold snippetLines, lastLine.
  destruct (bounded_readLoop maxLines maxLengthPerLine reads (mkLines [] 0 []))
    as (Hn & Hm & Hl); [by split_and!; [|cbn; lia|]|].
  destruct (_ && _) eqn:Hgo; [|split; [lia|done]].
  apply andb_true_iff in Hgo as [Hlt%bool_decide_eq_true _].
  rewrite length_app. cbn. split; [lia|].
  apply Forall_app. split; [done|]. repeat constructor. apply length_clip.
Qed.

(** ** The snippet of a text *)

Lemma append_nil st : append [] st = st.
Proof. destruct st. unfold append. cbn. by rewrite app_nil_r. Qed.

Lemma append_app t1 t2 st : append t2 (append t1 st) = append (t1 ++ t2) st.
Proof. unfold append. cbn. by rewrite app_assoc. Qed.

(** Text that arrives later does not change the lines the loop has taken:
    running the loop before and after the text arrives is running it
    after. *)
Lemma completeLines_append maxLines maxLengthPerLine text st :
  completeLines maxLines maxLengthPerLine
    (append text (completeLines maxLines maxLengthPerLine st))
  = completeLines maxLines maxLengthPerLine (append text st).
Proof.
  funelim (completeLines maxLines maxLengthPerLine st); [done| |done].
  match goal with IH : ∀ _ : list ascii, _ |- _ => rewrite IH end.
  rewrite (completeLines_step _ _ (append text st)). cbn [lineBuffer linesRead append].
  match goal with
  | He : indexOf _ _ = Some _, Hb : bool_decide _ = true |- _ =>
      rewrite (indexOf_app_l _ _ _ _ He), Hb;
      pose proof (indexOf_lt _ _ _ He)
  end.
  by rewrite take_app_le, drop_app_le by lia.
Qed.

Lemma completeLines_idemp maxLines maxLengthPerLine st :
  completeLines maxLines maxLengthPerLine (completeLines maxLines maxLengthPerLine st)
  = completeLines maxLines maxLengthPerLine st.
Proof.
  rewrite <-(append_nil (completeLines _ _ st)) at 1.
  by rewrite completeLines_append, append_nil.
Qed.

(** Two states of the loops that give the same snippet. *)
Definition sameSnippet (maxLines : nat) (st st' : lines) : Prop :=
  linesRead st = linesRead st' ∧ outputLines st = outputLines st' ∧
  (linesRead st < maxLines → lineBuffer st = lineBuffer st').

Lemma lastLine_sameSnippet maxLines maxLengthPerLine st st' :
  sameSnippet maxLines st st' →
  lastLine maxLines maxLengthPerLine st = lastLine maxLines maxLengthPerLine st'.
Proof.
  intros (Hn & Ho & Hb). unfold lastLine. rewrite <-Hn, <-Ho.
  case_bool_decide; [by rewrite Hb|done].
Qed.

(** The reads that are left, for a state the line loop has been run on. *)
Lemma readLoop_reads maxLines maxLengthPerLine reads st :
  Forall (λ byteString, byteString ≠ "") reads →
  completeLines maxLines maxLengthPerLine st = st →
  sameSnippet maxLines
    (readLoop maxLines maxLengthPerLine reads st)
    (readLoop maxLines maxLengthPerLine []
       (completeLines maxLines maxLengthPerLine (append (reads ≫= chars) st))).
Proof.
  intros Hreads. revert st.
  induction Hreads as [|byteString reads Hne _ IH]; intros st Hst.
  { cbn [mbind list_bind]. by rewrite append_nil, Hst. }
  cbn [readLoop mbind list_bind]. fold (reads ≫= chars).
  destruct (decide (linesRead st < maxLines)) as [Hlt|Hlt].
  - rewrite (bool_decide_true (linesRead st < maxLines)),
      (bool_decide_false (String.length byteString = 0))
      by (first [done|by destruct byteString]).
    rewrite <-append_app.
    rewrite <-(completeLines_append _ _ (reads ≫= chars) (append _ st)).
    apply IH, completeLines_idemp.
  - rewrite (bool_decide_false (linesRead st < maxLines)) by done.
    rewrite completeLines_full by (cbn; lia).
    cbn [linesRead append]. rewrite bool_decide_false by done.
    split_and!; [done..|]. intros. cbn in *. lia.
Qed.

(** C9. The snippet depends on the text of the reads only, not on how the host
    cuts the text. *)
Theorem snippetLines_reads maxLines maxLengthPerLine reads :
  Forall (λ byteString, byteString ≠ "") reads →
  snippetLines maxLines maxLengthPerLine reads
  = snippetLines maxLines maxLengthPerLine [ofChars (reads ≫= chars)].
Proof.
  intros Hreads. unfold snippetLines.
  etrans.
  { apply lastLine_sameSnippet, readLoop_reads; [done|].
    apply completeLines_no_newline. cbn. set_solver. }
  apply lastLine_sameSnippet.
  destruct (decide (0 < maxLines)) as [Hm|Hm].
  - cbn [readLoop linesRead]. rewrite (bool_decide_true (0 < maxLines)) by done.
    destruct (reads ≫= chars) as [|c text] eqn:Htext.
    + cbn. by rewrite completeLines_no_newline, bool_decide_true by (cbn; set_solver).
    + rewrite (bool_decide_false (String.length _ = 0))
        by (rewrite length_ofChars; done).
      by rewrite chars_ofChars.
  - rewrite completeLines_full by (cbn; lia). cbn [readLoop linesRead append].
    rewrite !(bool_decide_false (0 < maxLines)) by done.
    split_and!; [done..|]. cbn. lia.
Qed.

(** The single read of a text that is lines, all terminated, and a rest. *)
Lemma readLoop_text maxLines maxLengthPerLine ls last :
  Forall (λ l, newline ∉ l) ls → newline ∉ last → 0 < maxLines →
  readLoop maxLines maxLengthPerLine [ofChars (terminated ls ++ last)] (mkLines [] 0 [])
  = readLoop maxLines maxLengthPerLine []
      (mkLines (terminated (drop maxLines ls) ++ last) (length ls `min` maxLines)
         (shown maxLengthPerLine <$> take maxLines ls)).
Proof.
  intros Hls Hlast Hm.
  pose proof (completeLines_terminated maxLines maxLengthPerLine ls last 0 []
                Hls Hlast) as Hc.
  rewrite Nat.sub_0_r in Hc. cbn [app plus] in Hc.
  cbn [readLoop linesRead]. rewrite (bool_decide_true (0 < maxLines)) by done.
  destruct (terminated ls ++ last) as [|c text] eqn:Htext.
  - rewrite completeLines_no_newline in Hc by (cbn; set_solver).
    injection Hc as <- <- <-. cbn [readLoop linesRead String.length ofChars
      String.string_of_list_ascii].
    by rewrite (bool_decide_true (0 = 0)), (bool_decide_true (0 < maxLines)).
  - rewrite (bool_decide_false (String.length _ = 0))
      by (rewrite length_ofChars; done).
    rewrite chars_ofChars. unfold append. cbn [lineBuffer linesRead outputLines app].
    by rewrite Hc.
Qed.

(** C40. The snippet of a text whose lines are all terminated is its first
    [maxLines] lines, each trimmed at the end and clipped. *)
Theorem snippetLines_terminated maxLines maxLengthPerLine ls :
  Forall (λ l, newline ∉ l) ls →
  snippetLines maxLines maxLengthPerLine [ofChars (terminated ls)]
  = shown maxLengthPerLine <$> take maxLines ls.
Proof.
  intros Hls. unfold snippetLines. destruct (decide (0 < maxLines)) as [Hm|Hm].
  - pose proof (readLoop_text maxLines maxLengthPerLine ls [] Hls) as Hr.
    rewrite !app_nil_r in Hr. rewrite Hr by (first [done|set_solver]).
    cbn [readLoop linesRead]. unfold atEOF, lastLine. cbn [lineBuffer linesRead].
    destruct (decide (length ls < maxLines)).
    + rewrite drop_ge by lia. cbn [terminated mbind list_bind app length].
      rewrite !(bool_decide_true (_ `min` _ < maxLines)) by lia.
      by rewrite !(bool_decide_false (0 < 0)), andb_false_r by lia.
    + rewrite (bool_decide_false (_ `min` _ < maxLines)) by lia. cbn [linesRead].
      by rewrite (bool_decide_false (_ `min` _ < maxLines)) by lia.
  - replace maxLines with 0 by lia. cbn. by rewrite !(bool_decide_false (0 < 0)) by lia.
Qed.

(** C31. A last line that is not terminated is the last line of the snippet,
    and comes twice when a further line would have had room: the branch
    for the end of the stream (lines 1826-1838) pushes it and leaves it in
    the buffer, and the code after the loop (lines 1867-1874) pushes what is
    in the buffer. *)
Theorem snippetLines_last_line maxLines maxLengthPerLine ls last :
  Forall (λ l, newline ∉ l) ls → newline ∉ last → last ≠ [] →
  length ls < maxLines →
  snippetLines maxLines maxLengthPerLine [ofChars (terminated ls ++ last)]
  = (shown maxLengthPerLine <$> ls)
    ++ if bool_decide (S (length ls) < maxLines)
       then [shown maxLengthPerLine last; shown maxLengthPerLine last]
       else [shown maxLengthPerLine last].
Proof.
  intros Hls Hlast Hne Hlen. unfold snippetLines.
  rewrite readLoop_text by (first [done|lia]).
  rewrite drop_ge, take_ge, Nat.min_l by lia. cbn [readLoop linesRead terminated
    mbind list_bind app]. unfold atEOF, lastLine, pushLine.
  cbn [lineBuffer linesRead outputLines].
  rewrite !(bool_decide_true (length ls < maxLines)) by done.
  rewrite !(bool_decide_true (0 < length last)) by (destruct last; cbn; [done|lia]).
  cbn [lineBuffer linesRead outputLines]. rewrite andb_true_r.
  case_bool_decide; [by rewrite <-app_assoc|done].
Qed.

(** ** The chunks of [fileToBase64] *)

Lemma fromCharCodes_id s : fromCharCodes s = s.
Proof.
  unfold fromCharCodes. rewrite <-(list_fmap_id s) at 2.
  apply list_fmap_ext. intros _ c _. apply ascii_nat_embedding.
Qed.

(** The chunks are the bytes that were left, in order, after the chunks
    the loop started with. *)
Lemma chunksFrom_concat size Hsize bytes i chunks :
  concat (chunksFrom size Hsize bytes i chunks) = concat chunks ++ drop i bytes.
Proof.
  funelim (chunksFrom size Hsize bytes i chunks).
  - match goal with IH : concat _ = _ |- _ => rewrite IH end.
    rewrite concat_app, fromCharCodes_id, <-app_assoc. cbn [concat].
    by rewrite app_nil_r, <-drop_drop, take_drop.
  - match goal with H : bool_decide _ = false |- _ =>
      pose proof (bool_decide_eq_false_1 _ H) end.
    by rewrite drop_ge, app_nil_r by lia.
Qed.

(** No chunk is longer than the chunk size. *)
Lemma chunksFrom_sizes size Hsize bytes i chunks :
  Forall (λ c, length c ≤ size) chunks →
  Forall (λ c, length c ≤ size) (chunksFrom size Hsize bytes i chunks).
Proof.
  funelim (chunksFrom size Hsize bytes i chunks); [|done].
  intros Hc. match goal with IH : _ → Forall _ _ |- _ => apply IH end.
  apply Forall_app. split; [done|]. repeat constructor.
  rewrite fromCharCodes_id, length_take. lia.
Qed.

(** C23. [fileToBase64] encodes the bytes of the file: cutting them into chunks
    and joining the chunks changes nothing. *)
Theorem fileToBase64_whole btoa f :
  fileToBase64 btoa f
  = if pathThrows f || bool_decide (Filename.MAX_FILE_SIZE_FOR_AI < fileSize f)%Z
       || streamThrows f
    then None else Some (btoa (bytes f)).
Proof.
  unfold fileToBase64. rewrite chunksFrom_concat. cbn.
  by repeat case_match.
Qed.

(** ** Examples *)

(** Two terminated lines and the third without its end, read in pieces of
    four characters: the third line comes twice. *)
Example readTextFileSnippet_twice :
  readTextFileSnippet
    (mkFile false true true 11 false [] ["one"; String newline "two";
                                          String newline "thr"; "ee"]) 5 80
  = Some (ofChars (chars "one" ++ newline :: chars "two" ++ newline ::
                   chars "three" ++ newline :: chars "three")).
Proof. by vm_compute. Qed.

(** The chunks of eleven bytes in chunks of four. *)
Example chunksFrom_eleven :
  chunksFrom 4 ltac:(lia) (chars "hello world") 0 []
  = [chars "hell"; chars "o wo"; chars "rld"].
Proof. by vm_compute. Qed.

Lemma snippetLines_reads_witness :
  snippetLines 5 80 ["ab"; "cd"] = snippetLines 5 80 [ofChars (["ab"; "cd"] ≫= chars)].
Proof. apply snippetLines_reads. by repeat constructor. Defined.

Lemma snippetLines_terminated_witness :
  snippetLines 2 80 [ofChars (terminated [chars "a"; chars "b"; chars "c"])]
  = shown 80 <$> take 2 [chars "a"; chars "b"; chars "c"].
Proof.
  apply snippetLines_terminated. repeat constructor; by vm_compute; set_solver.
Defined.

Lemma snippetLines_last_line_witness :
  snippetLines 5 80 [ofChars (terminated [chars "a"] ++ chars "b")]
  = (shown 80 <$> [chars "a"])
    ++ if bool_decide (S (length [chars "a"]) < 5)
       then [shown 80 (chars "b"); shown 80 (chars "b")]
       else [shown 80 (chars "b")].
Proof.
  apply snippetLines_last_line;
    [repeat constructor; by vm_compute; set_solver|by vm_compute; set_solver
    |done|cbn; lia].
Defined.

End Readers.
