(* ===== verification/PileState.v ===== *)
(** * PileState: the objects of [zen-stuff.uc.js]

    The second script keeps a snapshot of every pod the first script has
    dismissed.  This file holds its data: the constants of [CONFIG], the
    snapshot of a pod, the element that shows it, the two kinds of
    position, the style of the container, the callbacks the handlers leave
    behind, and the variables of the script (lines 16-43 of the source) as
    one record [PileState.t] with its field updates.

    - [dismissedPods] is a [Map] whose order the script reads: a list of
      bindings, oldest first ([JsMap]).  The three other maps are read by
      key only and are [gmap]s.
    - The element of a pod is shared between the map [podElements] and the
      timers that captured it, so elements live in a store [elements] under
      their identity and [podElements] holds references.
    - Lengths and angles are rational numbers ([Qc]): the pile offsets are
      computed from [Math.random()], whose three values are an argument of
      the handler ([rand]).
    - A timer or an animation frame is a value of [task] that the handler
      returns. *)

From Stdlib Require Import Ascii QArith Qcanon.
From S2P Require Import Prelude JsArray JsString JsMap.

Module PileState.

(** The identity of an element. *)
Definition ref := nat.

(** ** [CONFIG] *)

Definition maxPileSize : nat := 20.
Definition pileDisplayCount : nat := 4.
Definition gridAnimationDelay : Z := 50.
Definition hoverDebounceMs : Z := 150.
Definition pileRotationRange : Z := 8.
Definition pileOffsetRange : Z := 8.
Definition gridPadding : Z := 12.
Definition minPodSize : Z := 45.
Definition animationDuration : Z := 400.
Definition containerAnimationDuration : Z := 100.

(** ** The snapshot of a dismissed pod *)

(** [previewData] of a snapshot: [{type, src}] or [{type, html}]. *)
Record previewInfo := mkPreviewInfo {
  type_ : string;
  src : option string;
  html : option string
}.

(** The fields of a snapshot this script reads. *)
Record podData := mkPodData {
  key : string;
  filename : string;
  contentType : option string;
  targetPath : option string;
  previewData : option previewInfo
}.

(** ** Elements *)

(** The pictograms of [getFileIcon]. *)
Inductive icon :=
  | IconPage | IconPicture | IconClapper | IconNotes | IconMemo | IconBook
  | IconClamp | IconPackage.

(** What the preview of a pod holds. *)
Inductive content :=
  | ContentImg (src : string)
  | ContentHtml (html : string)
  | ContentIcon (i : icon).

(** [style.transform]: [translate3d(x px, y px, 0) rotate(r deg)] when it
    has been set, followed by as many [scale(0.8)] as have been appended. *)
Record transform := mkTransform {
  tr_placed : option (Qc * Qc * Qc);
  tr_scales : nat
}.

(** The three values of [style.transition]. *)
Inductive transition :=
  | TransitionTransform      (* transform 400ms cubic-bezier(0.4, 0, 0.2, 1) *)
  | TransitionNone           (* none *)
  | TransitionFade.          (* opacity 0.3s ease, transform 0.3s ease *)

Record element := mkElement {
  dataset_podKey : string;
  title : string;
  preview : content;
  style_display : string;
  style_transform : transform;
  style_zIndex : option Z;
  style_opacity : string;
  style_transition : transition;
  parentNode : bool
}.

(** ** Positions *)

Record pilePosition := mkPilePosition {
  pp_x : Qc;
  pp_y : Qc;
  pp_rotation : Qc;
  pp_zIndex : Z
}.

Record gridPosition := mkGridPosition {
  gp_x : Z;
  gp_y : Z;
  gp_row : nat;
  gp_col : nat
}.

(** The values of the three calls of [Math.random()] in
    [generatePilePosition], in the order of the calls. *)
Record rand := mkRand { r_angle : Qc; r_offsetX : Qc; r_offsetY : Qc }.

(** ** The container *)

(** The style of [dynamicSizer] the script writes: lengths in pixels;
    [sz_width] is [None] until the first write, and [Some None] stands for
    the text [NaNpx]. *)
Record sizer := mkSizer {
  sz_height : Z;
  sz_pointerEvents : string;
  sz_paddingBottom : Z;
  sz_paddingLeft : Qc;
  sz_left : Qc;
  sz_width : option (option Qc)
}.

(** ** Callbacks *)

(** The callback [hoverTimeout] stands for. *)
Inductive hoverTask :=
  | ShowTimer
  | HideFromButton
  | HideFromSizer
  | HideFromPile.

(** The timers and frames that are never cancelled, with what their
    closures captured. *)
Inductive task :=
  | RemoveNode (podElement : ref)
  | RestoreTransition (podElement : ref)
  | GridMove (podElement : ref) (position : gridPosition) (delay : Z)
  | HideExcess.

(** ** The variables of the script *)

Record t := mk {
  dismissedPods : list (string * podData);
  podElements : gmap string ref;
  pilePositions : gmap string pilePosition;
  gridPositions : gmap string gridPosition;
  elements : gmap ref element;
  isGridMode : bool;
  hoverTimeout : option hoverTask;
  dynamicSizer : sizer;
  downloadsButton_display : string;
  currentZenSidebarWidthForPile : string;
  resizeTimeout : bool
}.

#[global] Instance previewInfo_eq_dec : EqDecision previewInfo.
Proof. solve_decision. Defined.
#[global] Instance podData_eq_dec : EqDecision podData.
Proof. solve_decision. Defined.
#[global] Instance icon_eq_dec : EqDecision icon.
Proof. solve_decision. Defined.
#[global] Instance content_eq_dec : EqDecision content.
Proof. solve_decision. Defined.
#[global] Instance transform_eq_dec : EqDecision transform.
Proof. solve_decision. Defined.
#[global] Instance transition_eq_dec : EqDecision transition.
Proof. solve_decision. Defined.
#[global] Instance element_eq_dec : EqDecision element.
Proof. solve_decision. Defined.
#[global] Instance pilePosition_eq_dec : EqDecision pilePosition.
Proof. solve_decision. Defined.
#[global] Instance gridPosition_eq_dec : EqDecision gridPosition.
Proof. solve_decision. Defined.
#[global] Instance sizer_eq_dec : EqDecision sizer.
Proof. solve_decision. Defined.
#[global] Instance hoverTask_eq_dec : EqDecision hoverTask.
Proof. solve_decision. Defined.
#[global] Instance task_eq_dec : EqDecision task.
Proof. solve_decision. Defined.
#[global] Instance t_eq_dec : EqDecision t.
Proof. solve_decision. Defined.

(** ** Field updates *)

Definition set_style_display (d : string) (e : element) : element :=
  mkElement (dataset_podKey e) (title e) (preview e) d (style_transform e)
    (style_zIndex e) (style_opacity e) (style_transition e) (parentNode e).

Definition set_style_transform (f : transform → transform) (e : element) : element :=
  mkElement (dataset_podKey e) (title e) (preview e) (style_display e)
    (f (style_transform e)) (style_zIndex e) (style_opacity e)
    (style_transition e) (parentNode e).

Definition set_style_zIndex (z : Z) (e : element) : element :=
  mkElement (dataset_podKey e) (title e) (preview e) (style_display e)
    (style_transform e) (Some z) (style_opacity e) (style_transition e)
    (parentNode e).

Definition set_style_opacity (o : string) (e : element) : element :=
  mkElement (dataset_podKey e) (title e) (preview e) (style_display e)
    (style_transform e) (style_zIndex e) o (style_transition e) (parentNode e).

Definition set_style_transition (tr : transition) (e : element) : element :=
  mkElement (dataset_podKey e) (title e) (preview e) (style_display e)
    (style_transform e) (style_zIndex e) (style_opacity e) tr (parentNode e).

Definition set_parentNode (b : bool) (e : element) : element :=
  mkElement (dataset_podKey e) (title e) (preview e) (style_display e)
    (style_transform e) (style_zIndex e) (style_opacity e)
    (style_transition e) b.

Definition set_preview (c : content) (e : element) : element :=
  mkElement (dataset_podKey e) (title e) c (style_display e)
    (style_transform e) (style_zIndex e) (style_opacity e)
    (style_transition e) (parentNode e).

Definition set_dismissedPods
    (f : list (string * podData) → list (string * podData)) (s : t) : t :=
  mk (f (dismissedPods s)) (podElements s) (pilePositions s) (gridPositions s)
    (elements s) (isGridMode s) (hoverTimeout s) (dynamicSizer s)
    (downloadsButton_display s) (currentZenSidebarWidthForPile s)
    (resizeTimeout s).

Definition set_podElements (f : gmap string ref → gmap string ref) (s : t) : t :=
  mk (dismissedPods s) (f (podElements s)) (pilePositions s) (gridPositions s)
    (elements s) (isGridMode s) (hoverTimeout s) (dynamicSizer s)
    (downloadsButton_display s) (currentZenSidebarWidthForPile s)
    (resizeTimeout s).

Definition set_pilePositions
    (f : gmap string pilePosition → gmap string pilePosition) (s : t) : t :=
  mk (dismissedPods s) (podElements s) (f (pilePositions s)) (gridPositions s)
    (elements s) (isGridMode s) (hoverTimeout s) (dynamicSizer s)
    (downloadsButton_display s) (currentZenSidebarWidthForPile s)
    (resizeTimeout s).

Definition set_gridPositions
    (f : gmap string gridPosition → gmap string gridPosition) (s : t) : t :=
  mk (dismissedPods s) (podElements s) (pilePositions s) (f (gridPositions s))
    (elements s) (isGridMode s) (hoverTimeout s) (dynamicSizer s)
    (downloadsButton_display s) (currentZenSidebarWidthForPile s)
    (resizeTimeout s).

Definition set_elements (f : gmap ref element → gmap ref element) (s : t) : t :=
  mk (dismissedPods s) (podElements s) (pilePositions s) (gridPositions s)
    (f (elements s)) (isGridMode s) (hoverTimeout s) (dynamicSizer s)
    (downloadsButton_display s) (currentZenSidebarWidthForPile s)
    (resizeTimeout s).

Definition set_isGridMode (b : bool) (s : t) : t :=
  mk (dismissedPods s) (podElements s) (pilePositions s) (gridPositions s)
    (elements s) b (hoverTimeout s) (dynamicSizer s)
    (downloadsButton_display s) (currentZenSidebarWidthForPile s)
    (resizeTimeout s).

Definition set_hoverTimeout (h : option hoverTask) (s : t) : t :=
  mk (dismissedPods s) (podElements s) (pilePositions s) (gridPositions s)
    (elements s) (isGridMode s) h (dynamicSizer s)
    (downloadsButton_display s) (currentZenSidebarWidthForPile s)
    (resizeTimeout s).

Definition set_dynamicSizer (f : sizer → sizer) (s : t) : t :=
  mk (dismissedPods s) (podElements s) (pilePositions s) (gridPositions s)
    (elements s) (isGridMode s) (hoverTimeout s) (f (dynamicSizer s))
    (downloadsButton_display s) (currentZenSidebarWidthForPile s)
    (resizeTimeout s).

Definition set_downloadsButton_display (d : string) (s : t) : t :=
  mk (dismissedPods s) (podElements s) (pilePositions s) (gridPositions s)
    (elements s) (isGridMode s) (hoverTimeout s) (dynamicSizer s)
    d (currentZenSidebarWidthForPile s) (resizeTimeout s).

Definition set_currentZenSidebarWidthForPile (w : string) (s : t) : t :=
  mk (dismissedPods s) (podElements s) (pilePositions s) (gridPositions s)
    (elements s) (isGridMode s) (hoverTimeout s) (dynamicSizer s)
    (downloadsButton_display s) w (resizeTimeout s).

Definition set_resizeTimeout (b : bool) (s : t) : t :=
  mk (dismissedPods s) (podElements s) (pilePositions s) (gridPositions s)
    (elements s) (isGridMode s) (hoverTimeout s) (dynamicSizer s)
    (downloadsButton_display s) (currentZenSidebarWidthForPile s) b.

(** An assignment to a property of an element. *)
Definition updElement (r : ref) (f : element → element) : t → t :=
  set_elements (alter f r).

(** [Array.from(dismissedPods.keys())] and [dismissedPods.size]. *)
Definition podKeys (s : t) : list string := JsMap.keys (dismissedPods s).
Definition podCount (s : t) : nat := JsMap.size (dismissedPods s).

(** The state once [init] has built the container (lines 115-148, 155-173):
    the sizer is collapsed and the button of the full list is hidden. *)
Definition initialSizer : sizer := mkSizer 0 "" 0 0 0 None.

Definition initial : t :=
  mk [] ∅ ∅ ∅ ∅ false None initialSizer "none" "" false.

End PileState.
