(* ===== verification/Pile.v ===== *)
(** * Pile: the pods of the dismissed pile

    The operations of [zen-stuff.uc.js] on the pods of the pile: the icon of
    a content type, the element of a pod ([createPodElement]), the two
    layouts ([generatePilePosition], [generateGridPosition]),
    [applyPilePosition], [applyGridPosition], [addPodToPile],
    [removePodFromPile], [updatePileVisibility], [transitionToGrid],
    [transitionToPile], [hidePile] and [loadExistingDismissedPods], each
    with the timers it sets up.

    The invariant of the pile ([wf]) says that the four maps of the script
    have the same keys, at most [maxPileSize] of them, and that the element
    registered for a key is in the document; [inv] adds that a timer which
    takes an element out of the document is pending only for elements that
    are no longer registered.  The theorems show that every operation keeps
    the invariant, what adding and removing do to the order of the pods,
    which pods the pile and the grid show, and where the grid puts them. *)

From Stdlib Require Import Ascii QArith Qcanon Lqa.
From S2P Require Import Prelude JsArray JsString JsMap PileState.

Module Pile.
Export PileState.

(** ** The element of a pod *)

(** [getFileIcon]: the first class of content types that matches. *)
Definition getFileIcon (contentType : option string) : icon :=
  match contentType with
  | None => IconPage
  | Some ct =>
      if negb (truthy (Some ct)) then IconPage
      else if JsString.includes ct "image/" then IconPicture
      else if JsString.includes ct "video/" then IconClapper
      else if JsString.includes ct "audio/" then IconNotes
      else if JsString.includes ct "text/" then IconMemo
      else if JsString.includes ct "application/pdf" then IconBook
      else if JsString.includes ct "application/zip"
              || JsString.includes ct "application/x-rar" then IconClamp
      else if JsString.includes ct "application/" then IconPackage
      else IconPage
  end.

Definition newline : string := String (ascii_of_nat 10) "".

(** The content [createPodElement] gives the preview. *)
Definition previewContent (podData : podData) : content :=
  match previewData podData with
  | Some pv =>
      if bool_decide (type_ pv = "image") && truthy (src pv)
      then ContentImg (default "" (src pv))
      else if truthy (html pv) then ContentHtml (default "" (html pv))
      else ContentIcon (getFileIcon (contentType podData))
  | None => ContentIcon (getFileIcon (contentType podData))
  end.

(** [createPodElement]: the element, not yet in the document. *)
Definition createPodElement (podData : podData) : element :=
  mkElement (key podData)
    (filename podData +:+ newline +:+ "Click: Open file" +:+ newline +:+
     "Double-click: Restore to downloads" +:+ newline +:+
     "Right-click: Delete permanently")
    (previewContent podData) "" (mkTransform None 0) None ""
    TransitionTransform false.

(** [img.onerror] of the preview of an element. *)
Definition imageError (podData : podData) (r : ref) : t → t :=
  updElement r (set_preview (ContentIcon (getFileIcon (contentType podData)))).

(** ** The two layouts *)

Definition half : Qc := Q2Qc (1 # 2).

(** [(Math.random() - 0.5) * range * 2]. *)
Definition spread (random : Qc) (range : Z) : Qc :=
  ((random - half) * Qc_of_Z range * Qc_of_Z 2)%Qc.

(** [generatePilePosition]: a pod lies above the pods before it in the
    map; [indexOf] gives [-1] for a key that is not there. *)
Definition generatePilePosition (rnd : rand) (podKey : string) (s : t) : t :=
  let angle := spread (r_angle rnd) pileRotationRange in
  let offsetX := spread (r_offsetX rnd) pileOffsetRange in
  let offsetY := spread (r_offsetY rnd) pileOffsetRange in
  let pods := podKeys s in
  let podIndex := indexOf podKey pods in
  let zIndex := match podIndex with Some i => (Z.of_nat i + 1)%Z | None => 0%Z end in
  set_pilePositions <[podKey := mkPilePosition offsetX offsetY angle zIndex]> s.

(** The cell of the pod at [index]: three columns, two rows that grow
    upwards, the first pod at the origin. *)
Definition gridCell (index : nat) : gridPosition :=
  let cols := 3 in
  let maxRows := 2 in
  let col := index mod cols in
  let logicalRow := index / cols in
  let visualRow := logicalRow mod maxRows in
  let podSize := minPodSize in
  let spacing := gridPadding in
  let '(x, y) :=
    if bool_decide (index = 0) then (0, 0)%Z
    else (Z.of_nat col * (podSize + spacing),
          - Z.of_nat visualRow * (podSize + spacing))%Z in
  mkGridPosition x y logicalRow col.

(** The place of a cell on the screen. *)
Definition cellAt (position : gridPosition) : Z * Z := (gp_x position, gp_y position).

(** [generateGridPosition]: the cell of a pod by its index among all pods. *)
Definition generateGridPosition (podKey : string) (s : t) : t :=
  let pods := podKeys s in
  match indexOf podKey pods with
  | None => s
  | Some index => set_gridPositions <[podKey := gridCell index]> s
  end.

Definition pileTransform (position : pilePosition) : transform :=
  mkTransform (Some (pp_x position, pp_y position, pp_rotation position)) 0.

Definition gridTransform (position : gridPosition) : transform :=
  mkTransform (Some (Qc_of_Z (gp_x position), Qc_of_Z (gp_y position), 0%Qc)) 0.

(** [applyPilePosition]. *)
Definition applyPilePosition (podKey : string) (animate : bool) (s : t) :
    t * list task :=
  match podElements s !! podKey, pilePositions s !! podKey with
  | Some podElement, Some position =>
      let s :=
        if negb animate
        then updElement podElement (set_style_transition TransitionNone) s
        else s in
      let s :=
        updElement podElement (set_style_transform (λ _, pileTransform position)) s in
      let s := updElement podElement (set_style_zIndex (pp_zIndex position)) s in
      (s, if negb animate then [RestoreTransition podElement] else [])
  | _, _ => (s, [])
  end.

(** The frame [applyPilePosition] asks for. *)
Definition restoreTransition (podElement : ref) : t → t :=
  updElement podElement (set_style_transition TransitionTransform).

(** [applyGridPosition]: the write happens in a timer. *)
Definition applyGridPosition (podKey : string) (delay : Z) (s : t) :
    t * list task :=
  match podElements s !! podKey, gridPositions s !! podKey with
  | Some podElement, Some position => (s, [GridMove podElement position delay])
  | _, _ => (s, [])
  end.

(** The timer of [applyGridPosition]. *)
Definition gridMove (podElement : ref) (position : gridPosition) (s : t) : t :=
  let s :=
    updElement podElement (set_style_transform (λ _, gridTransform position)) s in
  updElement podElement (set_style_zIndex 10) s.

(** ** Pile mode and grid mode *)

(** [transitionToPile]: every pod goes back to its place in the pile; the
    pods beyond the visible ones are hidden once the animation is over. *)
Definition transitionToPile (s : t) : t * list task :=
  if negb (isGridMode s) then (s, [])
  else
    let s := set_isGridMode false s in
    let '(s, tasks) := forEach (λ podKey, applyPilePosition podKey true) (podKeys s) s in
    (s, tasks ++ [HideExcess]).

Definition collapse (z : sizer) : sizer :=
  mkSizer 0 "none" 0 0 (sz_left z) (sz_width z).

(** [hidePile]. *)
Definition hidePile (s : t) : t * list task :=
  let s := set_dynamicSizer collapse s in
  if isGridMode s then transitionToPile s else (s, []).

(** The body of the loop of [updatePileVisibility]: the first
    [pileDisplayCount] pods that have an element are shown, the others are
    hidden in pile mode and shown in grid mode. *)
Definition showTopPod (acc : t * nat) (podKey : string) : t * nat :=
  let '(s, visibleCount) := acc in
  match podElements s !! podKey with
  | None => (s, visibleCount)
  | Some podElement =>
      if bool_decide (visibleCount < pileDisplayCount)
      then (updElement podElement (set_style_display "block") s, S visibleCount)
      else if negb (isGridMode s)
      then (updElement podElement (set_style_display "none") s, visibleCount)
      else (updElement podElement (set_style_display "block") s, visibleCount)
  end.

(** The loop, over the keys from the newest to the oldest. *)
Definition showTopPods (sortedPods : list string) (s : t) : t :=
  (foldl showTopPod (s, 0) sortedPods).1.

(** [updatePileVisibility]. *)
Definition updatePileVisibility (s : t) : t * list task :=
  if bool_decide (podCount s = 0) then
    if bool_decide (sz_height (dynamicSizer s) ≠ 0%Z) then hidePile s else (s, [])
  else (showTopPods (reverse (podKeys s)) s, []).

(** [updateDownloadsButtonVisibility]: the button of the full list is
    shown when the pile holds more pods than the grid has cells. *)
Definition updateDownloadsButtonVisibility (s : t) : t :=
  if bool_decide (6 < podCount s)
  then set_downloadsButton_display "flex" s
  else set_downloadsButton_display "none" s.

(** ** Removing and adding a pod *)

Definition fadeOut (e : element) : element :=
  set_style_transform (λ tr, mkTransform (tr_placed tr) (S (tr_scales tr)))
    (set_style_opacity "0" (set_style_transition TransitionFade e)).

(** The four [delete]s of [removePodFromPile] (lines 569-572). *)
Definition forgetPod (podKey : string) (s : t) : t :=
  let s := set_dismissedPods (JsMap.delete podKey) s in
  let s := set_podElements (delete podKey) s in
  let s := set_pilePositions (delete podKey) s in
  set_gridPositions (delete podKey) s.

(** [dismissedPods.forEach((_, key) => generateGridPosition(key))]. *)
Definition regrid (s : t) : t :=
  foldl (λ s key, generateGridPosition key s) s (podKeys s).

(** The timer of the element that was registered for a key. *)
Definition fading (podKey : string) (s : t) : list task :=
  from_option (λ r, [RemoveNode r]) [] (podElements s !! podKey).

(** [removePodFromPile]: the element fades and leaves the document 300 ms
    later; the key leaves the four maps at once and the grid is computed
    again for the pods that remain. *)
Definition removePodFromPile (podKey : string) (s : t) : t * list task :=
  let '(s, fading) :=
    match podElements s !! podKey with
    | Some podElement => (updElement podElement fadeOut s, [RemoveNode podElement])
    | None => (s, [])
    end in
  let s := forgetPod podKey s in
  let s := regrid s in
  let '(s, tasks) := updatePileVisibility s in
  let s := updateDownloadsButtonVisibility s in
  (s, fading ++ tasks).

(** The timer of [removePodFromPile]. *)
Definition removeNode (podElement : ref) : t → t :=
  updElement podElement (set_parentNode false).

(** The first step of [addPodToPile] (lines 283-286): a full pile loses its
    oldest pod. *)
Definition evictOldest (s : t) : t * list task :=
  if bool_decide (maxPileSize ≤ podCount s) then
    match head (podKeys s) with
    | Some oldestKey => removePodFromPile oldestKey s
    | None => (s, [])
    end
  else (s, []).

(** The next steps (lines 289-300): the snapshot is stored, its element is
    made, registered and appended to the pile, and the pod gets its two
    positions. *)
Definition storePod (rnd : rand) (podData : podData) (s : t) : t :=
  let s := set_dismissedPods (JsMap.set (key podData) podData) s in
  let podElement := fresh (dom (elements s)) in
  let s := set_elements <[podElement := createPodElement podData]> s in
  let s := set_podElements <[key podData := podElement]> s in
  let s := updElement podElement (set_parentNode true) s in
  let s := generatePilePosition rnd (key podData) s in
  generateGridPosition (key podData) s.

(** [addPodToPile]: a snapshot without a key is dropped. *)
Definition addPodToPile (rnd : rand) (podData : option podData)
    (animate : bool) (s : t) : t * list task :=
  match podData with
  | None => (s, [])
  | Some podData =>
      if negb (truthy (Some (key podData))) then (s, [])
      else
        let '(s, evicted) := evictOldest s in
        let s := storePod rnd podData s in
        let '(s, placed) := applyPilePosition (key podData) animate s in
        let '(s, tasks) := updatePileVisibility s in
        let s := updateDownloadsButtonVisibility s in
        (s, evicted ++ placed ++ tasks)
  end.

(** [loadExistingDismissedPods]: the snapshots the first script holds are
    added without animation. *)
Definition loadExistingDismissedPods (existingPods : list (rand * podData))
    (s : t) : t * list task :=
  forEach (λ '(rnd, podData), addPodToPile rnd (Some podData) false) existingPods s.

(** [allPods.slice(-6)]: the pods of the grid. *)
Definition lastSixPods (s : t) : list string :=
  drop (length (podKeys s) - 6) (podKeys s).

(** The first loop of [transitionToGrid]: the pods of the grid are shown,
    the others are hidden. *)
Definition showInGrid (lastSixPods : list string) (s : t) (podKey : string) : t :=
  match podElements s !! podKey with
  | None => s
  | Some podElement =>
      if includes podKey lastSixPods
      then updElement podElement (set_style_display "block") s
      else updElement podElement (set_style_display "none") s
  end.

(** The second loop: the cell of a pod by its index among the six. *)
Definition fillGrid (s : t) (entry : nat * string) : t :=
  let '(index, podKey) := entry in
  set_gridPositions <[podKey := gridCell index]> s.

(** The third loop: each pod moves 50 ms after the one before it. *)
Definition moveToGrid (entry : nat * string) : t → t * list task :=
  applyGridPosition entry.2 (Z.of_nat entry.1 * gridAnimationDelay).

(** [transitionToGrid]. *)
Definition transitionToGrid (s : t) : t * list task :=
  if isGridMode s then (s, [])
  else
    let s := set_isGridMode true s in
    let allPods := podKeys s in
    let lastSix := lastSixPods s in
    let s := foldl (showInGrid lastSix) s allPods in
    let s := foldl fillGrid s (imap pair lastSix) in
    forEach moveToGrid (imap pair lastSix) s.

(** ** Reference definitions and samples *)

(** The pods whose element is displayed, oldest first. *)
Definition shownPods (s : t) : list string :=
  filter (λ k, (podElements s !! k ≫= λ r, style_display <$> elements s !! r)
               = Some "block") (podKeys s).

Definition sampleRand : rand := mkRand (Q2Qc (1 # 4)) (Q2Qc (1 # 2)) (Q2Qc (3 # 4)).

(** The snapshot of a picture that was saved under the name of its key. *)
Definition snapshot (k : string) : podData :=
  mkPodData k (k +:+ ".png") (Some "image/png")
    (Some ("/downloads/" +:+ k +:+ ".png")) None.

(** The pile after seven dismissals. *)
Definition sevenPods : t :=
  (forEach (λ k, addPodToPile sampleRand (Some (snapshot k)) true)
     ["a"; "b"; "c"; "d"; "e"; "f"; "g"] initial).1.

(** ** The invariant of the pile

    The [Map] holds a key once and at most [maxPileSize] keys; a snapshot
    is filed under its own key, which is not empty; the three other maps
    have the keys of [dismissedPods]; the element registered for a key
    carries that key and is in the document. *)

(** What the invariant reads of an element. *)
Definition elKey (e : element) : string * bool := (dataset_podKey e, parentNode e).

Definition elKeys (s : t) : gmap ref (string * bool) := elKey <$> elements s.

Definition keyed (s : t) : Prop :=
  Forall (λ kv, key kv.2 = kv.1 ∧ kv.1 ≠ "") (dismissedPods s).

Definition attached (s : t) : Prop :=
  map_Forall (λ k r, elKeys s !! r = Some (k, true)) (podElements s).

Definition wf (s : t) : Prop :=
  JsMap.wf (dismissedPods s) ∧
  podCount s ≤ maxPileSize ∧
  keyed s ∧
  dom (podElements s) = list_to_set (podKeys s) ∧
  dom (pilePositions s) = list_to_set (podKeys s) ∧
  dom (gridPositions s) = list_to_set (podKeys s) ∧
  attached s.

#[global] Instance wf_dec s : Decision (wf s).
Proof. unfold wf, JsMap.wf, keyed, attached. apply _. Defined.

(** What the invariant reads of a state. *)
Definition store (s : t) :
    list (string * podData) * gmap string ref * gset string * gset string
    * gmap ref (string * bool) :=
  (dismissedPods s, podElements s, dom (pilePositions s), dom (gridPositions s),
   elKeys s).

(** A task that does not take an element out of the document. *)
Definition keepsNode (task : task) : Prop :=
  match task with RemoveNode _ => False | _ => True end.

(** A handler that leaves the store alone and removes no element. *)
Definition quiet (f : t → t * list task) : Prop :=
  ∀ s, wf s → store (f s).1 = store s ∧ Forall keepsNode (f s).2.

(** An element that is no longer registered for a key: the timer that
    takes an element out of the document is pending for such elements
    only. *)
Definition unregistered (s : t) (r : ref) : Prop :=
  r ∈ dom (elements s) ∧ map_Forall (λ _ r', r' ≠ r) (podElements s).

Definition taskOk (s : t) (task : task) : Prop :=
  match task with RemoveNode r => unregistered s r | _ => True end.

#[global] Instance taskOk_dec s task : Decision (taskOk s task).
Proof. destruct task; unfold taskOk, unregistered; apply _. Defined.

(** The invariant of a state and of the callbacks that are pending. *)
Definition inv (s : t) (pending : list task) : Prop :=
  wf s ∧ Forall (taskOk s) pending.

(** An update of an element that writes style properties only. *)
Definition styleOnly (f : element → element) : Prop := ∀ e, elKey (f e) = elKey e.

(** A state without its elements: what a step leaves alone when all it
    does is write properties of elements. *)
Definition shell (s : t) : t := set_elements (λ _, ∅) s.

(** ** Steps that keep the store *)

Lemma wf_store s s' : store s' = store s → wf s → wf s'.
Proof.
  unfold store, wf, keyed, attached, podCount, podKeys.
  intros [= -> -> -> -> ->]. done.
Qed.

Lemma styleOnly_display d : styleOnly (set_style_display d).
Proof. done. Qed.
Lemma styleOnly_transform f : styleOnly (set_style_transform f).
Proof. done. Qed.
Lemma styleOnly_zIndex z : styleOnly (set_style_zIndex z).
Proof. done. Qed.
Lemma styleOnly_opacity o : styleOnly (set_style_opacity o).
Proof. done. Qed.
Lemma styleOnly_transition tr : styleOnly (set_style_transition tr).
Proof. done. Qed.
Lemma styleOnly_preview c : styleOnly (set_preview c).
Proof. done. Qed.
Lemma styleOnly_fadeOut : styleOnly fadeOut.
Proof. done. Qed.

#[local] Hint Resolve styleOnly_display styleOnly_transform styleOnly_zIndex
  styleOnly_opacity styleOnly_transition styleOnly_preview styleOnly_fadeOut : tidy.

Lemma store_updElement r f s : styleOnly f → store (updElement r f s) = store s.
Proof.
  intros Hf. unfold store, elKeys. cbn. f_equal.
  apply map_eq. intros i. rewrite !lookup_fmap.
  destruct (decide (i = r)) as [->|]; [|by rewrite lookup_alter_ne].
  rewrite lookup_alter_eq. destruct (elements s !! r); cbn; [|done].
  by rewrite Hf.
Qed.

Lemma quiet_ret (f : t → t) :
  (∀ s, store (f s) = store s) → quiet (λ s, (f s, [])).
Proof. intros Hf s _. split; [apply Hf|constructor]. Qed.

Lemma quiet_forEach {A} (f : A → t → t * list task) l :
  (∀ a, quiet (f a)) → quiet (forEach f l).
Proof.
  intros Hf s Hwf. unfold forEach.
  assert (∀ acc, store acc.1 = store s → Forall keepsNode acc.2 →
    let r := foldl (λ '(s, tasks) a, let '(s, new) := f a s in (s, tasks ++ new))
               acc l in
    store r.1 = store s ∧ Forall keepsNode r.2) as Hgen.
  { induction l as [|a l IH]; intros [s0 ts] Hs Hts; cbn; [done|].
    destruct (Hf a s0) as [Hs' Hts']; [by apply (wf_store s)|].
    destruct (f a s0) as [s1 new].
    apply IH; cbn in *; [congruence|by apply Forall_app]. }
  by apply (Hgen (s, [])).
Qed.

Lemma quiet_applyPilePosition podKey animate : quiet (applyPilePosition podKey animate).
Proof.
  intros s _. unfold applyPilePosition.
  destruct (podElements s !! podKey), (pilePositions s !! podKey);
    try (by split; [|constructor]).
  cbn. split; [|destruct animate; repeat constructor].
  rewrite !store_updElement by tidy_auto.
  destruct animate; cbn; [done|]. by rewrite store_updElement by tidy_auto.
Qed.

Lemma quiet_transitionToPile : quiet transitionToPile.
Proof.
  intros s Hwf. unfold transitionToPile.
  destruct (isGridMode s); cbn [negb]; [|by split; [|constructor]].
  destruct (quiet_forEach (λ podKey, applyPilePosition podKey true)
    (podKeys (set_isGridMode false s)) (λ a, quiet_applyPilePosition a true)
    (set_isGridMode false s)) as [Hs Ht]; [done|].
  destruct (forEach _ _ _) as [s' ts]. split; [exact Hs|].
  apply Forall_app. split; [exact Ht|repeat constructor].
Qed.

Lemma quiet_hidePile : quiet hidePile.
Proof.
  intros s Hwf. unfold hidePile.
  change (isGridMode (set_dynamicSizer collapse s)) with (isGridMode s).
  destruct (isGridMode s) eqn:Hg; [|by split; [|constructor]].
  by apply (quiet_transitionToPile (set_dynamicSizer collapse s)).
Qed.

Lemma store_showTopPod acc podKey : store (showTopPod acc podKey).1 = store acc.1.
Proof.
  destruct acc as [s n]. unfold showTopPod.
  repeat case_goal_match; cbn; by rewrite ?store_updElement by tidy_auto.
Qed.

Lemma store_showTopPods l s : store (showTopPods l s) = store s.
Proof.
  unfold showTopPods.
  assert (∀ acc, store acc.1 = store s → store (foldl showTopPod acc l).1 = store s)
    as Hgen.
  { induction l as [|k l IH]; intros acc Hs; cbn; [done|]. apply IH.
    by rewrite store_showTopPod. }
  by apply (Hgen (s, 0)).
Qed.

Lemma quiet_updatePileVisibility : quiet updatePileVisibility.
Proof.
  intros s Hwf. unfold updatePileVisibility. repeat case_goal_match;
    try (by split; [|constructor]); [by apply quiet_hidePile|].
  split; [apply store_showTopPods|constructor].
Qed.

Lemma store_updateDownloadsButtonVisibility s :
  store (updateDownloadsButtonVisibility s) = store s.
Proof. unfold updateDownloadsButtonVisibility. by case_goal_match. Qed.

Lemma store_dismissedPods s s' :
  store s' = store s → dismissedPods s' = dismissedPods s.
Proof. by intros [= -> _ _ _ _]. Qed.

Lemma store_podKeys s s' : store s' = store s → podKeys s' = podKeys s.
Proof. unfold podKeys. by intros [= -> _ _ _ _]. Qed.

Lemma podCount_length s : podCount s = length (podKeys s).
Proof. unfold podCount, podKeys. by rewrite JsMap.size_keys. Qed.

Lemma store_podCount s s' : store s' = store s → podCount s' = podCount s.
Proof. unfold podCount. by intros [= -> _ _ _ _]. Qed.

Lemma store_podElements s s' : store s' = store s → podElements s' = podElements s.
Proof. by intros [= _ -> _ _ _]. Qed.

(** ** The grid *)

Lemma store_generateGridPosition podKey s :
  podKey ∈ dom (gridPositions s) ∨ podKey ∉ podKeys s →
  store (generateGridPosition podKey s) = store s.
Proof.
  intros Hk. unfold generateGridPosition.
  destruct (indexOf podKey (podKeys s)) as [i|] eqn:Hi; [|done].
  destruct Hk as [Hk|Hk%indexOf_None]; [|congruence].
  unfold store. cbn. rewrite dom_insert_L.
  by assert ({[podKey]} ∪ dom (gridPositions s) = dom (gridPositions s)) as ->
    by set_solver.
Qed.

Lemma store_regrid s :
  list_to_set (podKeys s) ⊆ dom (gridPositions s) → store (regrid s) = store s.
Proof.
  unfold regrid. generalize (podKeys s) as l. intros l Hl.
  assert (∀ s0, store s0 = store s →
    store (foldl (λ s key, generateGridPosition key s) s0 l) = store s) as Hgen.
  { induction l as [|k l IH]; intros s0 Hs; cbn; [done|].
    apply IH; [set_solver|]. rewrite <-Hs. apply store_generateGridPosition.
    left. injection Hs as _ _ _ -> _. set_solver. }
  by apply Hgen.
Qed.

Lemma store_foldl {A} (f : t → A → t) l s :
  (∀ s0 a, store s0 = store s → a ∈ l → store (f s0 a) = store s) →
  store (foldl f s l) = store s.
Proof.
  intros Hf. assert (∀ s0, store s0 = store s → store (foldl f s0 l) = store s) as Hgen.
  { induction l as [|a l IH]; intros s0 Hs; cbn; [done|].
    apply IH; [intros; apply Hf; set_solver|apply Hf; set_solver]. }
  by apply Hgen.
Qed.

Lemma store_gridPositions_insert podKey cell s :
  podKey ∈ dom (gridPositions s) →
  store (set_gridPositions <[podKey := cell]> s) = store s.
Proof.
  intros Hk. unfold store. cbn. rewrite dom_insert_L.
  by assert ({[podKey]} ∪ dom (gridPositions s) = dom (gridPositions s)) as ->
    by set_solver.
Qed.

Lemma quiet_applyGridPosition podKey delay : quiet (applyGridPosition podKey delay).
Proof.
  intros s _. unfold applyGridPosition. repeat case_goal_match;
    split; try done; repeat constructor.
Qed.

Lemma wf_grid_dom s podKey : wf s → podKey ∈ podKeys s → podKey ∈ dom (gridPositions s).
Proof. intros (_ & _ & _ & _ & _ & -> & _). set_solver. Qed.

Lemma store_wf_grid_dom s s0 podKey :
  wf s → store s0 = store s → podKey ∈ podKeys s → podKey ∈ dom (gridPositions s0).
Proof.
  intros Hwf Hs Hk. apply wf_grid_dom; [by apply (wf_store s)|].
  unfold podKeys. by injection Hs as -> _ _ _ _.
Qed.

Lemma store_showInGrid six s podKey : store (showInGrid six s podKey) = store s.
Proof.
  unfold showInGrid. repeat case_goal_match; by rewrite ?store_updElement by tidy_auto.
Qed.

Lemma lastSixPods_elem_of s k : k ∈ lastSixPods s → k ∈ podKeys s.
Proof. apply subseteq_drop. Qed.

Lemma store_lastSixPods s s' : store s' = store s → lastSixPods s' = lastSixPods s.
Proof. intros Hs. unfold lastSixPods. by rewrite (store_podKeys _ _ Hs). Qed.

Lemma quiet_moveToGrid entry : quiet (moveToGrid entry).
Proof. apply quiet_applyGridPosition. Qed.

Lemma quiet_transitionToGrid : quiet transitionToGrid.
Proof.
  intros s Hwf. unfold transitionToGrid.
  destruct (isGridMode s); [by split; [|constructor]|].
  set (s1 := set_isGridMode true s). cbv zeta.
  change (lastSixPods s1) with (lastSixPods s).
  set (s2 := foldl _ s1 (podKeys s1)). set (s3 := foldl _ s2 _).
  assert (store s2 = store s) as Hs2.
  { apply (store_foldl _ _ s1). intros s0 k Hs _. by rewrite store_showInGrid. }
  assert (store s3 = store s) as Hs3.
  { rewrite <-Hs2. apply store_foldl. intros s0 [i k] Hs Hk.
    unfold fillGrid. rewrite store_gridPositions_insert; [done|].
    apply (store_wf_grid_dom s); [done|congruence|].
    apply elem_of_lookup_imap in Hk as (? & ? & [= _ ->] & Hk).
    by apply list_elem_of_lookup_2, lastSixPods_elem_of in Hk. }
  destruct (quiet_forEach moveToGrid (imap pair (lastSixPods s)) quiet_moveToGrid s3)
    as [Hs Ht]; [by apply (wf_store s)|].
  split; [congruence|done].
Qed.

(** ** Callbacks that are pending *)

Lemma store_dom_elements s s' : store s' = store s → dom (elements s') = dom (elements s).
Proof.
  intros [= _ _ _ _ He]. unfold elKeys in He.
  by rewrite <-(dom_fmap_L elKey (elements s')), He, dom_fmap_L.
Qed.

Lemma taskOk_mono s s' task :
  dom (elements s) ⊆ dom (elements s') →
  (∀ k r, podElements s' !! k = Some r →
     podElements s !! k = Some r ∨ r ∉ dom (elements s)) →
  taskOk s task → taskOk s' task.
Proof.
  intros Hd Hp. destruct task as [r| | |]; try done. intros [Hr Hu].
  split; [set_solver|]. intros k r' Hk ->.
  destruct (Hp _ _ Hk) as [Hk'|Hk']; [by apply (Hu _ _ Hk')|done].
Qed.

Lemma taskOk_store s s' task : store s' = store s → taskOk s task → taskOk s' task.
Proof.
  intros Hs. apply taskOk_mono; [by rewrite (store_dom_elements s s')|].
  injection Hs as _ -> _ _ _. auto.
Qed.

Lemma taskOk_keepsNode s task : keepsNode task → taskOk s task.
Proof. by destruct task. Qed.

Lemma inv_store s s' pending new :
  store s' = store s → Forall keepsNode new → inv s pending → inv s' (pending ++ new).
Proof.
  intros Hs Hnew [Hwf Hp]. split; [by apply (wf_store s)|].
  apply Forall_app. split.
  - eapply Forall_impl; [done|]. intros task. by apply taskOk_store.
  - eapply Forall_impl; [done|]. apply taskOk_keepsNode.
Qed.

Lemma inv_quiet f s pending :
  quiet f → inv s pending → inv (f s).1 (pending ++ (f s).2).
Proof.
  intros Hf Hinv. destruct (Hf s) as [? ?]; [apply Hinv|]. by apply (inv_store s).
Qed.

(** ** Removal *)

Lemma podKeys_forgetPod k s :
  podKeys (forgetPod k s) = filter (λ k', k' ≠ k) (podKeys s).
Proof. apply JsMap.keys_delete. Qed.

Lemma list_to_set_podKeys_forgetPod k s :
  list_to_set (podKeys (forgetPod k s)) =@{gset string} list_to_set (podKeys s) ∖ {[k]}.
Proof.
  apply set_eq. intros x.
  rewrite podKeys_forgetPod, elem_of_difference, !elem_of_list_to_set,
    list_elem_of_filter. set_solver.
Qed.

Lemma store_forgetPod k s s' :
  store s' = store s → store (forgetPod k s') = store (forgetPod k s).
Proof.
  unfold store, elKeys. cbn. rewrite !dom_delete_L. by intros [= -> -> -> -> ->].
Qed.

Lemma wf_forgetPod k s : wf s → wf (forgetPod k s).
Proof.
  intros (Hm & Hn & Hk & Hpe & Hpp & Hgp & Ha).
  split_and!; rewrite ?list_to_set_podKeys_forgetPod.
  - by apply JsMap.wf_delete.
  - etrans; [|exact Hn]. apply JsMap.size_delete_le.
  - apply Forall_forall. intros kv [_ Hkv]%list_elem_of_filter.
    by apply (proj1 (Forall_forall _ _) Hk).
  - cbn. by rewrite dom_delete_L, Hpe.
  - cbn. by rewrite dom_delete_L, Hpp.
  - cbn. by rewrite dom_delete_L, Hgp.
  - by apply map_Forall_delete.
Qed.

(** Two keys never share an element. *)
Lemma attached_inj s k k' r :
  attached s → podElements s !! k = Some r → podElements s !! k' = Some r → k = k'.
Proof. intros Ha Hk Hk'. apply Ha in Hk, Hk'. congruence. Qed.

Lemma attached_dom s k r : attached s → podElements s !! k = Some r → r ∈ dom (elements s).
Proof.
  intros Ha Hk%Ha. unfold elKeys in Hk. rewrite lookup_fmap in Hk.
  apply elem_of_dom. by destruct (elements s !! r).
Qed.

Lemma inv_forgetPod k s pending :
  inv s pending → inv (forgetPod k s) (pending ++ fading k s).
Proof.
  intros [Hwf Hp]. split; [by apply wf_forgetPod|]. apply Forall_app. split.
  - eapply Forall_impl; [done|]. intros task. apply taskOk_mono; [done|].
    cbn. intros k' r [_ ?]%lookup_delete_Some. by left.
  - unfold fading. destruct (podElements s !! k) as [r|] eqn:Hr; repeat constructor.
    + by apply (attached_dom s k), Hr; apply Hwf.
    + cbn. intros k' r' [Hne Hk']%lookup_delete_Some ->.
      apply Hne. by apply (attached_inj s k k' r); [apply Hwf|..].
Qed.

(** [removePodFromPile] is the four [delete]s as far as the invariant can
    see, and its timers are the one of the element and quiet ones. *)
Lemma removePodFromPile_spec k s :
  wf s →
  ∃ tasks,
    store (removePodFromPile k s).1 = store (forgetPod k s) ∧
    (removePodFromPile k s).2 = fading k s ++ tasks ∧
    Forall keepsNode tasks.
Proof.
  intros Hwf. unfold removePodFromPile, fading.
  set (s0 := match podElements s !! k with
             | Some r => updElement r fadeOut s | None => s end).
  assert (store s0 = store s) as Hs0.
  { unfold s0. case_goal_match; [|done]. by rewrite store_updElement by tidy_auto. }
  replace (match podElements s !! k with
           | Some r => (updElement r fadeOut s, [RemoveNode r])
           | None => (s, []) end)
    with (s0, from_option (λ r, [RemoveNode r]) [] (podElements s !! k))
    by (unfold s0; by destruct (podElements s !! k)).
  assert (wf (forgetPod k s0)) as Hwf1 by (by apply wf_forgetPod, (wf_store s)).
  assert (store (regrid (forgetPod k s0)) = store (forgetPod k s0)) as Hs2.
  { apply store_regrid. destruct Hwf1 as (_ & _ & _ & _ & _ & -> & _). done. }
  destruct (quiet_updatePileVisibility (regrid (forgetPod k s0))) as [Hs3 Ht];
    [by apply (wf_store (forgetPod k s0))|].
  destruct (updatePileVisibility _) as [s3 ts]. cbn in *. exists ts.
  split_and!; [|done..].
  by rewrite store_updateDownloadsButtonVisibility, Hs3, Hs2, (store_forgetPod k s s0).
Qed.

Lemma inv_removePodFromPile k s pending :
  inv s pending →
  inv (removePodFromPile k s).1 (pending ++ (removePodFromPile k s).2).
Proof.
  intros Hinv. destruct (removePodFromPile_spec k s) as (ts & Hs & -> & Hts);
    [apply Hinv|].
  rewrite app_assoc. apply (inv_store (forgetPod k s)); [done..|].
  by apply inv_forgetPod.
Qed.

Lemma dismissedPods_removePodFromPile k s :
  wf s → dismissedPods (removePodFromPile k s).1 = JsMap.delete k (dismissedPods s).
Proof.
  intros Hwf. destruct (removePodFromPile_spec k s Hwf) as (ts & Hs & _).
  by rewrite (store_dismissedPods _ _ Hs).
Qed.

Lemma podKeys_removePodFromPile k s :
  wf s → podKeys (removePodFromPile k s).1 = filter (λ k', k' ≠ k) (podKeys s).
Proof.
  intros Hwf. unfold podKeys. rewrite dismissedPods_removePodFromPile by done.
  apply JsMap.keys_delete.
Qed.

Lemma podCount_removePodFromPile k s :
  wf s → k ∈ podKeys s → S (podCount (removePodFromPile k s).1) = podCount s.
Proof.
  intros Hwf Hk. destruct (removePodFromPile_spec k s Hwf) as (ts & Hs & _).
  rewrite (store_podCount _ _ Hs). apply JsMap.size_delete; [apply Hwf|done].
Qed.

(** ** Addition *)

Lemma inv_evictOldest s pending :
  inv s pending → inv (evictOldest s).1 (pending ++ (evictOldest s).2).
Proof.
  intros Hinv. unfold evictOldest.
  repeat case_goal_match; rewrite ?app_nil_r; try done.
  by apply inv_removePodFromPile.
Qed.

(** A pile that is full is not empty, so it has an oldest pod. *)
Lemma full_head s : maxPileSize ≤ podCount s → is_Some (head (podKeys s)).
Proof.
  rewrite podCount_length.
  destruct (podKeys s); cbn; [unfold maxPileSize; lia|eauto].
Qed.

Lemma dismissedPods_evictOldest s :
  wf s →
  dismissedPods (evictOldest s).1 =
  if bool_decide (maxPileSize ≤ podCount s) then tail (dismissedPods s)
  else dismissedPods s.
Proof.
  intros Hwf. unfold evictOldest. case_bool_decide as Hfull; [|done].
  destruct (full_head s Hfull) as [k Hk]. rewrite Hk.
  rewrite dismissedPods_removePodFromPile by done.
  apply JsMap.delete_head; [apply Hwf|done].
Qed.

Lemma podKeys_evictOldest s :
  wf s →
  podKeys (evictOldest s).1 =
  if bool_decide (maxPileSize ≤ podCount s) then tail (podKeys s) else podKeys s.
Proof.
  intros Hwf. unfold podKeys. rewrite dismissedPods_evictOldest by done.
  case_bool_decide; [|done]. by destruct (dismissedPods s).
Qed.

Lemma evictOldest_room s : wf s → podCount (evictOldest s).1 < maxPileSize.
Proof.
  intros Hwf. rewrite podCount_length, podKeys_evictOldest by done.
  destruct Hwf as (_ & Hn & _). rewrite podCount_length in *.
  unfold maxPileSize in *. case_bool_decide; [|lia].
  destruct (podKeys s); cbn in *; lia.
Qed.

Lemma storePod_eq rnd pd s :
  ∃ pos cell,
    storePod rnd pd s =
    mk (JsMap.set (key pd) pd (dismissedPods s))
      (<[key pd := fresh (dom (elements s))]> (podElements s))
      (<[key pd := pos]> (pilePositions s))
      (<[key pd := cell]> (gridPositions s))
      (alter (set_parentNode true) (fresh (dom (elements s)))
         (<[fresh (dom (elements s)) := createPodElement pd]> (elements s)))
      (isGridMode s) (hoverTimeout s) (dynamicSizer s)
      (downloadsButton_display s) (currentZenSidebarWidthForPile s)
      (resizeTimeout s).
Proof.
  unfold storePod, generateGridPosition.
  match goal with |- context [indexOf ?k ?l] => destruct (indexOf k l) as [i|] eqn:Hi end.
  - by eexists _, _.
  - apply indexOf_None in Hi. exfalso. apply Hi.
    apply JsMap.elem_of_keys_set. by left.
Qed.

Lemma list_to_set_keys_set k (pd : podData) m :
  list_to_set (JsMap.keys (JsMap.set k pd m)) =@{gset string}
  {[k]} ∪ list_to_set (JsMap.keys m).
Proof.
  apply set_eq. intros x.
  rewrite elem_of_union, !elem_of_list_to_set, JsMap.elem_of_keys_set. set_solver.
Qed.

Lemma Forall_set (P : string * podData → Prop) k pd m :
  P (k, pd) → Forall P m → Forall P (JsMap.set k pd m).
Proof.
  intros Hk. induction 1 as [|[k' pd'] m ? ? IH]; cbn; [by repeat constructor|].
  case_decide; by constructor.
Qed.

Lemma wf_storePod rnd pd s :
  wf s → podCount s < maxPileSize → key pd ≠ "" → wf (storePod rnd pd s).
Proof.
  intros (Hm & Hn & Hk & Hpe & Hpp & Hgp & Ha) Hroom Hne.
  destruct (storePod_eq rnd pd s) as (pos & cell & ->).
  unfold wf, podCount, podKeys, keyed, attached, elKeys in *.
  cbn [dismissedPods podElements pilePositions gridPositions elements].
  rewrite !dom_insert_L, list_to_set_keys_set, Hpe, Hpp, Hgp. split_and!; try done.
  - by apply JsMap.wf_set.
  - rewrite JsMap.size_set. case_goal_match; lia.
  - by apply Forall_set.
  - apply map_Forall_insert_2.
    + by rewrite lookup_fmap, lookup_alter_eq, lookup_insert_eq.
    + intros k r Hr. pose proof (attached_dom s k r Ha Hr) as Hd.
      rewrite lookup_fmap, lookup_alter_ne, lookup_insert_ne, <-lookup_fmap;
        [by apply Ha| |]; intros <-; by apply (is_fresh (dom (elements s))).
Qed.

Lemma inv_storePod rnd pd s pending :
  inv s pending → podCount s < maxPileSize → key pd ≠ "" →
  inv (storePod rnd pd s) pending.
Proof.
  intros [Hwf Hp] Hroom Hne. split; [by apply wf_storePod|].
  eapply Forall_impl; [done|]. intros task.
  destruct (storePod_eq rnd pd s) as (pos & cell & ->).
  apply taskOk_mono; cbn.
  - rewrite dom_alter_L, dom_insert_L. set_solver.
  - intros k r [[_ <-]|[_ ?]]%lookup_insert_Some; [right|by left].
    apply is_fresh.
Qed.

(** [addPodToPile] of a snapshot with a key is the eviction and the
    storing as far as the invariant can see, and the timers it adds to
    those of the eviction are quiet. *)
Lemma addPodToPile_spec rnd pd animate s :
  wf s → key pd ≠ "" →
  ∃ tasks,
    store (addPodToPile rnd (Some pd) animate s).1
    = store (storePod rnd pd (evictOldest s).1) ∧
    (addPodToPile rnd (Some pd) animate s).2 = (evictOldest s).2 ++ tasks ∧
    Forall keepsNode tasks.
Proof.
  intros Hwf Hk. unfold addPodToPile.
  rewrite (proj2 (truthy_Some (key pd)) Hk). cbn [negb].
  pose proof (inv_evictOldest s [] (conj Hwf (Forall_nil_2 _))) as [Hwf1 _].
  pose proof (evictOldest_room s Hwf) as Hroom.
  destruct (evictOldest s) as [s1 evicted]. cbn in Hwf1, Hroom |- *.
  pose proof (wf_storePod rnd pd s1 Hwf1 Hroom Hk) as Hwf2.
  destruct (quiet_applyPilePosition (key pd) animate _ Hwf2) as [Hs3 Ht3].
  destruct (applyPilePosition _ _ _) as [s3 placed]. cbn in Hs3, Ht3.
  destruct (quiet_updatePileVisibility s3) as [Hs4 Ht4]; [by apply (wf_store _ _ Hs3)|].
  destruct (updatePileVisibility s3) as [s4 tasks]. cbn in *.
  exists (placed ++ tasks). split_and!; [|done|by apply Forall_app].
  rewrite store_updateDownloadsButtonVisibility. congruence.
Qed.

Lemma inv_addPodToPile rnd podData animate s pending :
  inv s pending →
  inv (addPodToPile rnd podData animate s).1
    (pending ++ (addPodToPile rnd podData animate s).2).
Proof.
  intros Hinv. destruct podData as [pd|]; [|by rewrite app_nil_r].
  destruct (decide (key pd = "")) as [Hk|Hk].
  { unfold addPodToPile. rewrite Hk. cbn. by rewrite app_nil_r. }
  destruct (addPodToPile_spec rnd pd animate s) as (ts & Hs & -> & Hts);
    [apply Hinv|done|].
  pose proof (inv_evictOldest s pending Hinv) as H1.
  rewrite app_assoc. eapply inv_store; [exact Hs|done|].
  apply inv_storePod; [done|by apply evictOldest_room, Hinv|done].
Qed.

(** The snapshots after an addition: a full pile has lost its oldest pod;
    a key that is still there keeps its place, a new key is the newest. *)
Lemma dismissedPods_addPodToPile rnd pd animate s :
  wf s → key pd ≠ "" →
  dismissedPods (addPodToPile rnd (Some pd) animate s).1 =
  JsMap.set (key pd) pd
    (if bool_decide (maxPileSize ≤ podCount s) then tail (dismissedPods s)
     else dismissedPods s).
Proof.
  intros Hwf Hk. destruct (addPodToPile_spec rnd pd animate s Hwf Hk) as (ts & Hs & _).
  rewrite (store_dismissedPods _ _ Hs).
  destruct (storePod_eq rnd pd (evictOldest s).1) as (pos & cell & ->).
  cbn [dismissedPods]. by rewrite dismissedPods_evictOldest.
Qed.

Lemma podKeys_addPodToPile rnd pd animate s :
  wf s → key pd ≠ "" →
  podKeys (addPodToPile rnd (Some pd) animate s).1 =
  let kept :=
    if bool_decide (maxPileSize ≤ podCount s) then tail (podKeys s) else podKeys s in
  if bool_decide (key pd ∈ kept) then kept else kept ++ [key pd].
Proof.
  intros Hwf Hk. unfold podKeys at 1.
  rewrite dismissedPods_addPodToPile, JsMap.keys_set by done. unfold JsMap.has.
  rewrite <-(podKeys_evictOldest s Hwf), <-(dismissedPods_evictOldest s Hwf). done.
Qed.

(** ** Callbacks of elements *)

Lemma store_restoreTransition r s : store (restoreTransition r s) = store s.
Proof. by apply store_updElement. Qed.

Lemma store_gridMove r position s : store (gridMove r position s) = store s.
Proof. unfold gridMove. by rewrite !store_updElement by tidy_auto. Qed.

Lemma store_imageError pd r s : store (imageError pd r s) = store s.
Proof. by apply store_updElement. Qed.

Lemma inv_removeNode r s pending :
  inv s pending → unregistered s r → inv (removeNode r s) pending.
Proof.
  intros [(Hm & Hn & Hk & Hpe & Hpp & Hgp & Ha) Hp] [Hr Hu]. split.
  - split_and!; try done. intros k r' Hk'. unfold elKeys. cbn.
    rewrite lookup_fmap, lookup_alter_ne, <-lookup_fmap; [by apply Ha|].
    intros <-. by apply (Hu _ _ Hk').
  - eapply Forall_impl; [done|]. intros task. apply taskOk_mono; [|by left].
    cbn. by rewrite dom_alter_L.
Qed.

(** ** Steps that write elements only *)


Lemma shell_applyPilePosition podKey animate s :
  shell (applyPilePosition podKey animate s).1 = shell s.
Proof. unfold applyPilePosition. by repeat case_goal_match. Qed.

Lemma shell_transitionToPile s :
  shell (transitionToPile s).1 = shell (set_isGridMode false s).
Proof.
  unfold transitionToPile. destruct (isGridMode s) eqn:Hg; cbn [negb].
  - pose proof (forEach_invariant (λ s', shell s' = shell (set_isGridMode false s))
      (λ podKey, applyPilePosition podKey true) (podKeys (set_isGridMode false s))
      (set_isGridMode false s) eq_refl) as Hf.
    destruct (forEach _ _ _) as [s' ts]. apply Hf.
    intros k s0 <-. apply shell_applyPilePosition.
  - destruct s. cbn in *. by subst.
Qed.

Lemma shell_hidePile s :
  shell (hidePile s).1 = shell (set_isGridMode false (set_dynamicSizer collapse s)).
Proof.
  unfold hidePile. change (isGridMode (set_dynamicSizer collapse s)) with (isGridMode s).
  destruct (isGridMode s) eqn:Hg; [apply shell_transitionToPile|].
  destruct s. cbn in *. by subst.
Qed.

(** ** The cells of the grid *)

(** The cell without the special case of the first pod. *)
Lemma gridCell_closed index :
  gridCell index =
  mkGridPosition (Z.of_nat (index mod 3) * 57) (- Z.of_nat (index / 3 mod 2) * 57)
    (index / 3) (index mod 3).
Proof.
  unfold gridCell. case_bool_decide as H0; [by subst|]. done.
Qed.

Lemma gridCell_periodic index : cellAt (gridCell (index + 6)) = cellAt (gridCell index).
Proof.
  rewrite !gridCell_closed. unfold cellAt. cbn [gp_x gp_y].
  replace (index + 6) with (index + 2 * 3) by lia.
  rewrite Nat.Div0.mod_add, Nat.div_add by done.
  replace (index / 3 + 2) with (index / 3 + 1 * 2) by lia.
  by rewrite Nat.Div0.mod_add.
Qed.

Lemma gridCell_inj i j :
  i < 6 → j < 6 → cellAt (gridCell i) = cellAt (gridCell j) → i = j.
Proof.
  intros Hi Hj.
  do 6 (destruct i as [|i]; [do 6 (destruct j as [|j]; [by vm_compute|]); lia|]).
  lia.
Qed.

Lemma gridCell_bounds index :
  (0 ≤ gp_x (gridCell index) ≤ 114 ∧ -57 ≤ gp_y (gridCell index) ≤ 0)%Z.
Proof.
  rewrite gridCell_closed. cbn [gp_x gp_y].
  pose proof (Nat.mod_upper_bound index 3). pose proof (Nat.mod_upper_bound (index / 3) 2).
  lia.
Qed.

(** ** Loops *)



(** ** The grid of the last six pods *)

Lemma lastSixPods_length s : length (lastSixPods s) ≤ 6.
Proof. unfold lastSixPods. rewrite length_drop. lia. Qed.

Lemma lastSixPods_NoDup s : wf s → NoDup (lastSixPods s).
Proof.
  intros (Hnd & _). eapply sublist_NoDup; [apply Hnd|apply sublist_drop].
Qed.

(** The cells the loop over the six gives. *)
Lemma fillGrid_lookup l s j k :
  NoDup l → l !! j = Some k →
  gridPositions (foldl fillGrid s (imap pair l)) !! k = Some (gridCell j).
Proof.
  revert j k. induction l as [|x l IH] using rev_ind; intros j k Hnd Hj; [done|].
  apply NoDup_snoc in Hnd as [Hx Hnd].
  rewrite imap_app, foldl_app. cbn. rewrite Nat.add_0_r.
  apply lookup_app_Some in Hj as [Hj|[Hlen Hj]].
  - rewrite lookup_insert_ne; [by apply IH|].
    intros ->. apply Hx. by eapply list_elem_of_lookup_2.
  - apply list_lookup_singleton_Some in Hj as [Hj ->].
    replace j with (length l) by lia. by rewrite lookup_insert_eq.
Qed.

Lemma fillGrid_podElements (l : list (nat * string)) s :
  podElements (foldl fillGrid s l) = podElements s.
Proof.
  apply (foldl_invariant (λ s', podElements s' = podElements s)); [done|].
  by intros s0 [i k].
Qed.

Lemma showInGrid_fields six l s :
  let s' := foldl (showInGrid six) s l in
  podElements s' = podElements s ∧ gridPositions s' = gridPositions s.
Proof.
  apply (foldl_invariant (λ s', podElements s' = podElements s ∧
    gridPositions s' = gridPositions s)); [done|].
  intros s0 k [<- <-] _. unfold showInGrid. by repeat case_goal_match.
Qed.

(** A list of singletons, flattened. *)
Lemma bind_singletons {A B} (f : A → list B) (g : A → B) (l : list A) :
  (∀ x, x ∈ l → f x = [g x]) → l ≫= f = g <$> l.
Proof.
  induction l as [|x l IH]; intros Hf; [done|]. cbn.
  rewrite Hf, IH by set_solver. done.
Qed.

(** [transitionToGrid] out of pile mode: the state it reaches has the
    elements of [s] under the same keys and the cells of the six; the
    moves are those of the third loop in that state. *)
Lemma transitionToGrid_eq s :
  isGridMode s = false →
  ∃ s', transitionToGrid s =
          (s', imap pair (lastSixPods s) ≫= λ entry, (moveToGrid entry s').2) ∧
        podElements s' = podElements s ∧
        ∀ j k, NoDup (lastSixPods s) → lastSixPods s !! j = Some k →
               gridPositions s' !! k = Some (gridCell j).
Proof.
  intros Hg. unfold transitionToGrid. rewrite Hg. cbv zeta.
  change (podKeys (set_isGridMode true s)) with (podKeys s).
  change (lastSixPods (set_isGridMode true s)) with (lastSixPods s).
  set (s2 := foldl _ (set_isGridMode true s) (podKeys s)).
  set (s3 := foldl _ s2 _). exists s3.
  destruct (showInGrid_fields (lastSixPods s) (podKeys s) (set_isGridMode true s))
    as [Hpe2 Hgp2]. fold s2 in Hpe2, Hgp2.
  pose proof (fillGrid_podElements (imap pair (lastSixPods s)) s2) as Hpe3.
  fold s3 in Hpe3. split_and!.
  - rewrite forEach_pure; [done|]. intros [i k] s0.
    unfold moveToGrid, applyGridPosition. by repeat case_goal_match.
  - by rewrite Hpe3, Hpe2.
  - intros j k Hnd Hj. by apply fillGrid_lookup.
Qed.

Lemma wf_registered s k : wf s → k ∈ podKeys s → is_Some (podElements s !! k).
Proof.
  intros (_ & _ & _ & Hpe & _) Hk. apply elem_of_dom. rewrite Hpe. set_solver.
Qed.

Lemma transitionToGrid_tasks s :
  wf s → isGridMode s = false →
  ∃ moved : string → ref,
    (∀ k r, podElements s !! k = Some r → moved k = r) ∧
    (transitionToGrid s).2 =
    imap (λ j k, GridMove (moved k) (gridCell j) (Z.of_nat j * gridAnimationDelay))
      (lastSixPods s).
Proof.
  intros Hwf Hg. destruct (transitionToGrid_eq s Hg) as (s' & -> & Hpe & Hcells).
  exists (λ k, default (0 : ref) (podElements s !! k)).
  split; [intros k r Hr; cbn beta; by rewrite Hr|].
  cbn [snd]. rewrite (bind_singletons _ (λ entry,
    GridMove (default (0 : ref) (podElements s !! entry.2)) (gridCell entry.1)
      (Z.of_nat entry.1 * gridAnimationDelay))).
  - rewrite fmap_imap. by apply imap_ext.
  - intros [j k] (? & ? & [= <- <-] & Hj)%elem_of_lookup_imap.
    unfold moveToGrid, applyGridPosition. cbn [fst snd]. rewrite Hpe.
    destruct (wf_registered s k Hwf) as [r ->];
      [by eapply lastSixPods_elem_of, list_elem_of_lookup_2|].
    by rewrite (Hcells j k (lastSixPods_NoDup s Hwf) Hj).
Qed.

(** C12. In grid mode the [j]-th of the last six pods has the [j]-th cell of the
    grid, and its element moves there [j] times 50 ms after the pointer has
    entered the pile. *)
Theorem transitionToGrid_moves s j k r :
  wf s → isGridMode s = false →
  lastSixPods s !! j = Some k → podElements s !! k = Some r →
  gridPositions (transitionToGrid s).1 !! k = Some (gridCell j) ∧
  (transitionToGrid s).2 !! j
  = Some (GridMove r (gridCell j) (Z.of_nat j * gridAnimationDelay)).
Proof.
  intros Hwf Hg Hj Hr. split.
  - destruct (transitionToGrid_eq s Hg) as (s' & -> & _ & Hcells).
    by apply Hcells; [apply lastSixPods_NoDup|].
  - destruct (transitionToGrid_tasks s Hwf Hg) as (moved & Hm & ->).
    by rewrite list_lookup_imap, Hj, <-(Hm k r).
Qed.

(** C30. No two pods of the grid share a cell. *)
Theorem transitionToGrid_cells_inj s j j' k k' :
  wf s → isGridMode s = false →
  lastSixPods s !! j = Some k → lastSixPods s !! j' = Some k' →
  cellAt <$> gridPositions (transitionToGrid s).1 !! k
  = cellAt <$> gridPositions (transitionToGrid s).1 !! k' →
  k = k'.
Proof.
  intros Hwf Hg Hj Hj'.
  destruct (transitionToGrid_eq s Hg) as (s' & -> & _ & Hcells). cbn [fst].
  rewrite (Hcells j k), (Hcells j' k') by (by try apply lastSixPods_NoDup).
  intros [= Hx Hy]. assert (j = j') as <-; [|congruence].
  apply gridCell_inj; [..|by unfold cellAt; f_equal].
  - apply lookup_lt_Some in Hj. pose proof (lastSixPods_length s). lia.
  - apply lookup_lt_Some in Hj'. pose proof (lastSixPods_length s). lia.
Qed.

(** ** The pods the pile shows *)

(** After the loop over the keys of [l], each registered for an element of
    its own: the counter has counted the keys up to [pileDisplayCount], and
    in pile mode the first [pileDisplayCount] elements are shown and the
    others are hidden. *)
Lemma showTopPods_lookup l s :
  NoDup l → attached s → isGridMode s = false →
  (∀ k, k ∈ l → is_Some (podElements s !! k)) →
  let acc := foldl showTopPod (s, 0) l in
  acc.2 = length l `min` pileDisplayCount ∧
  store acc.1 = store s ∧ isGridMode acc.1 = false ∧
  ∀ i k r, l !! i = Some k → podElements s !! k = Some r →
    style_display <$> elements acc.1 !! r
    = Some (if bool_decide (i < pileDisplayCount) then "block" else "none").
Proof.
  intros Hnd Ha Hg. induction l as [|x l IH] using rev_ind; intros Hreg; [done|].
  apply NoDup_snoc in Hnd as [Hx Hnd]. rewrite foldl_app. cbn [foldl].
  destruct IH as (Hn & Hs & Hg' & Hd); [done|intros; apply Hreg; set_solver|].
  destruct (foldl showTopPod (s, 0) l) as [s1 n]. cbn [fst snd] in *.
  destruct (Hreg x) as [rx Hrx]; [set_solver|].
  pose proof (store_podElements _ _ Hs) as Hpe.
  assert (is_Some (elements s1 !! rx)) as [e He].
  { apply elem_of_dom. rewrite (store_dom_elements _ _ Hs). by eapply attached_dom. }
  unfold showTopPod. rewrite Hpe, Hrx, Hg'. rewrite length_app. cbn [length negb].
  assert (∀ d i k r, (l ++ [x]) !! i = Some k → podElements s !! k = Some r →
    (i = length l → d = if bool_decide (i < pileDisplayCount) then "block" else "none") →
    style_display <$> elements (updElement rx (set_style_display d) s1) !! r
    = Some (if bool_decide (i < pileDisplayCount) then "block" else "none")) as Hnew.
  { intros d i k r [Hi|[? Hi]]%lookup_app_Some Hr Hlast; cbn.
    - rewrite lookup_alter_ne; [by eapply Hd|]. intros <-.
      apply Hx. rewrite (attached_inj s x k rx Ha Hrx Hr).
      by eapply list_elem_of_lookup_2.
    - apply list_lookup_singleton_Some in Hi as [Hi <-].
      assert (r = rx) as -> by congruence.
      rewrite lookup_alter_eq, He. cbn. f_equal. apply Hlast. lia. }
  unfold pileDisplayCount in *. case_bool_decide; cbn [fst snd];
    (split_and!; [lia|by rewrite store_updElement by tidy_auto|done|]);
    intros i k r Hi Hr; apply (Hnew _ i k r Hi Hr); intros ->;
    by rewrite ?bool_decide_true, ?bool_decide_false by lia.
Qed.

(** C27. In pile mode the pile shows its four newest pods and hides the others. *)
Theorem updatePileVisibility_pile s i k r :
  wf s → isGridMode s = false →
  reverse (podKeys s) !! i = Some k → podElements s !! k = Some r →
  style_display <$> elements (updatePileVisibility s).1 !! r
  = Some (if bool_decide (i < pileDisplayCount) then "block" else "none").
Proof.
  intros Hwf Hg Hi Hr. unfold updatePileVisibility.
  rewrite bool_decide_false.
  2: { rewrite podCount_length. apply lookup_lt_Some in Hi.
       rewrite length_reverse in Hi. lia. }
  destruct (showTopPods_lookup (reverse (podKeys s)) s) as (_ & _ & _ & Hd);
    [apply NoDup_reverse, Hwf|apply Hwf|done| |exact (Hd i k r Hi Hr)].
  intros k' Hk'. rewrite elem_of_reverse in Hk'. by apply wf_registered.
Qed.

(** ** The place of a pod in the pile *)

(** The offsets and the angle of a pod stay within their range. *)
Lemma spread_bounds random range :
  (0 ≤ random)%Qc → (random < 1)%Qc → (0 < range)%Z →
  (Qc_of_Z (- range) ≤ spread random range)%Qc ∧
  (spread random range < Qc_of_Z range)%Qc.
Proof.
  intros H0 H1 Hr. unfold spread, half.
  assert (0 < inject_Z range)%Q as Hq by (by rewrite <-(Zlt_Qlt 0)).
  unfold Qcle, Qclt, Qcmult, Qcminus, Qcplus, Qcopp, Qc_of_Z, Q2Qc in *.
  cbn [this] in *. rewrite !Qred_correct in *. rewrite inject_Z_opp.
  change (inject_Z 2) with 2%Q.
  assert (0 <= this random * inject_Z range)%Q
    by (apply Qmult_le_0_compat; lra).
  assert (this random * inject_Z range < 1 * inject_Z range)%Q
    by (by apply Qmult_lt_r).
  split; lra.
Qed.

(** ** The operations keep the invariant *)

(** C20. Adding a pod, whatever the snapshot and whatever the pile, keeps the
    four maps on the same keys, at most twenty of them, each with an
    element in the document. *)
Theorem addPodToPile_wf rnd podData animate s :
  wf s → wf (addPodToPile rnd podData animate s).1.
Proof.
  intros Hwf. by destruct (inv_addPodToPile rnd podData animate s []
    (conj Hwf (Forall_nil_2 _))).
Qed.

(** C39. Removing a pod keeps the invariant, and leaves the other pods in
    their order. *)
Theorem removePodFromPile_wf podKey s :
  wf s →
  wf (removePodFromPile podKey s).1 ∧
  podKeys (removePodFromPile podKey s).1 = filter (λ k, k ≠ podKey) (podKeys s).
Proof.
  intros Hwf. split; [|by apply podKeys_removePodFromPile].
  by destruct (inv_removePodFromPile podKey s [] (conj Hwf (Forall_nil_2 _))).
Qed.

(** ** Instances *)

Lemma sevenPods_wf : wf sevenPods.
Proof. tidy_compute. Qed.

Lemma addPodToPile_wf_witness :
  wf (addPodToPile sampleRand (Some (snapshot "h")) true sevenPods).1.
Proof. apply addPodToPile_wf, sevenPods_wf. Defined.

Lemma removePodFromPile_wf_witness :
  wf (removePodFromPile "c" sevenPods).1 ∧
  podKeys (removePodFromPile "c" sevenPods).1
  = filter (λ k, k ≠ "c") (podKeys sevenPods).
Proof. apply removePodFromPile_wf, sevenPods_wf. Defined.

Lemma transitionToGrid_moves_witness :
  gridPositions (transitionToGrid sevenPods).1 !! "c" = Some (gridCell 1) ∧
  (transitionToGrid sevenPods).2 !! 1
  = Some (GridMove 2 (gridCell 1) (Z.of_nat 1 * gridAnimationDelay)).
Proof.
  apply (transitionToGrid_moves sevenPods 1 "c" 2);
    [apply sevenPods_wf|by vm_compute..].
Defined.

Lemma transitionToGrid_cells_inj_witness : "c" = "c".
Proof.
  apply (transitionToGrid_cells_inj sevenPods 1 1 "c" "c");
    [apply sevenPods_wf|by vm_compute..].
Defined.

Lemma updatePileVisibility_pile_witness :
  style_display <$> elements (updatePileVisibility sevenPods).1 !! 1
  = Some (if bool_decide (5 < pileDisplayCount) then "block" else "none").
Proof.
  apply (updatePileVisibility_pile sevenPods 5 "b" 1);
    [apply sevenPods_wf|by vm_compute..].
Defined.

Lemma spread_bounds_witness :
  (Qc_of_Z (- pileOffsetRange) ≤ spread (r_offsetX sampleRand) pileOffsetRange)%Qc ∧
  (spread (r_offsetX sampleRand) pileOffsetRange < Qc_of_Z pileOffsetRange)%Qc.
Proof. apply spread_bounds; by vm_compute. Defined.

(** The pile shows the four newest of seven pods. *)
Example sevenPods_shown : shownPods sevenPods = ["d"; "e"; "f"; "g"].
Proof. tidy_compute. Qed.

(** The grid shows the six newest. *)
Example sevenPods_grid : shownPods (transitionToGrid sevenPods).1 = ["b"; "c"; "d"; "e"; "f"; "g"].
Proof. tidy_compute. Qed.

End Pile.
