(* ===== verification/PileHover.v ===== *)
(** * PileHover: the container of the dismissed pile and the pointer

    The pile lives in a container ([dynamicSizer]) that is collapsed until
    the pointer rests on the downloads button.  This file models what
    [zen-stuff.uc.js] reads from the host when it opens the container
    ([host], [mainScript], [pointer]), the width and the place of the
    container ([updatePileContainerWidth], [showPile]),
    [recalculateLayout], the test that disables the hover
    ([shouldDisableHover]), the six hover handlers with the one timer they
    share ([hoverTimeout]), the handlers of a pod element and the retry of
    [init].

    [hoverTimeout] holds the timer that is pending, if any: every handler
    clears it before it sets its own, so the last handler wins.  The model
    keeps the callback of the pending timer in the state and runs it in
    [hoverTimerFired]. *)

From Stdlib Require Import Ascii QArith Qcanon Lqa.
From stdpp Require Import pretty.
From S2P Require Import Prelude JsArray JsString JsMap Pile.

Module PileHover.
Import Pile.

(** ** Numbers in style texts *)

Definition digit (c : ascii) : option Z :=
  if JsString.isDigit c then Some (Z.of_nat (nat_of_ascii c) - 48)%Z else None.

(** The decimal digits at the front of a text: their value, their number
    and the rest of the text. *)
Fixpoint digits (l : list ascii) (value : Z) (count : nat) : Z * nat * list ascii :=
  match l with
  | c :: rest =>
      match digit c with
      | Some d => digits rest (10 * value + d)%Z (S count)
      | None => (value, count, l)
      end
  | [] => (value, count, [])
  end.

(** [parseFloat] on a text of the form [sign digits . digits rest], after
    leading white space; [None] is [NaN].  Exponents and [Infinity] are
    not read. *)
Definition parseFloat (s : string) : option Qc :=
  let l := JsString.trimStartL (JsString.chars s) in
  let '(negative, l) :=
    match l with
    | "-"%char :: rest => (true, rest)
    | "+"%char :: rest => (false, rest)
    | _ => (false, l)
    end in
  let '(whole, n, l) := digits l 0 0 in
  let '(fraction, m, _) :=
    match l with
    | "."%char :: rest => digits rest 0 0
    | _ => (0%Z, 0, l)
    end in
  if bool_decide (n + m = 0) then None
  else
    let q := (Qc_of_Z whole + Qc_of_Z fraction / Qc_of_Z (10 ^ Z.of_nat m))%Qc in
    Some (if negative then (- q)%Qc else q).

(** [v || d] for a number: [NaN] and [0] are falsy. *)
Definition orNumber (v : option Qc) (d : Qc) : Qc :=
  match v with
  | Some q => if bool_decide (q = 0%Qc) then d else q
  | None => d
  end.

(** [Math.max]. *)
Definition Qcmax (a b : Qc) : Qc := if decide (a ≤ b)%Qc then b else a.

(** ** What the host shows *)

(** [#navigator-toolbox]: its rectangle and the value of
    [--zen-sidebar-width]. *)
Record toolbox := mkToolbox {
  rect_left : Qc;
  rect_right : Qc;
  zen_sidebar_width : string
}.

Record host := mkHost {
  navigatorToolbox : option toolbox;
  zen_right_side : bool;
  sidebarBox_clientWidth : option Z
}.

(** [#userchrome-download-cards-container] of the first script: its style,
    the number of its pods that are not transparent, whether the pointer is
    over it. *)
Record container := mkContainer {
  c_display : string;
  c_opacity : string;
  c_visiblePods : nat;
  c_hover : bool
}.

(** The first script as this one sees it: the size of
    [window.zenTidyDownloads.activeDownloadCards] when that is defined, and
    the container of the pods when it is in the document. *)
Record mainScript := mkMainScript {
  activeDownloadCards_size : option nat;
  mainDownloadContainer : option container
}.

(** Where the pointer is when a timer of the hover fires. *)
Record pointer := mkPointer {
  overButton : bool;
  overPile : bool;
  overSizer : bool
}.

(** ** The container *)

(** [updatePileContainerWidth]: the width of the sidebar from the custom
    property, else from [#sidebar-box], else 300 pixels; the container gets
    that width plus five pixels. *)
Definition updatePileContainerWidth (h : host) (s : t) : t :=
  let newWidth :=
    match navigatorToolbox h with
    | Some tb =>
        let value := JsString.trim (zen_sidebar_width tb) in
        if truthy (Some value) && bool_decide (value ≠ "0px")
           && bool_decide (value ≠ "")
        then value else ""
    | None => ""
    end in
  let newWidth :=
    if negb (truthy (Some newWidth)) then
      match sidebarBox_clientWidth h with
      | Some clientWidth =>
          if bool_decide (0 < clientWidth)%Z then pretty clientWidth +:+ "px"
          else "300px"
      | None => "300px"
      end
    else newWidth in
  let s := set_currentZenSidebarWidthForPile newWidth s in
  let numericWidth := parseFloat newWidth in
  let adjustedWidth := (λ n, n + Qc_of_Z 5)%Qc <$> numericWidth in
  set_dynamicSizer (λ z,
    mkSizer (sz_height z) (sz_pointerEvents z) (sz_paddingBottom z)
      (sz_paddingLeft z) (sz_left z) (Some adjustedWidth)) s.

Definition set_sz_left (left : Qc) (z : sizer) : sizer :=
  mkSizer (sz_height z) (sz_pointerEvents z) (sz_paddingBottom z)
    (sz_paddingLeft z) left (sz_width z).

(** The place of the container beside the sidebar (in [showPile] and again
    in [recalculateLayout]). *)
Definition positionSizer (h : host) (s : t) : t :=
  match navigatorToolbox h with
  | Some rect =>
      if zen_right_side h then
        let containerWidth :=
          orNumber (parseFloat (currentZenSidebarWidthForPile s)) (Qc_of_Z 300) in
        set_dynamicSizer (set_sz_left (rect_right rect - containerWidth)%Qc) s
      else set_dynamicSizer (set_sz_left (rect_left rect)) s
  | None => s
  end.

(** The left padding [showPile] computes so that the grid will be centred. *)
Definition smartLeftPadding (containerWidth : Qc) : Qc :=
  let cols := 3%Z in
  let podSize := minPodSize in
  let spacing := gridPadding in
  let gridWidth := Qc_of_Z (cols * podSize + (cols - 1) * spacing) in
  let gridCenterX := (containerWidth / Qc_of_Z 2)%Qc in
  let gridLeftEdge := (gridCenterX - gridWidth / Qc_of_Z 2)%Qc in
  (Qcmax (gridLeftEdge / Qc_of_Z 4) (Qc_of_Z 10) + Qc_of_Z 10)%Qc.

(** [showPile]. *)
Definition showPile (h : host) (s : t) : t :=
  if bool_decide (podCount s = 0) then s
  else
    let s := updatePileContainerWidth h s in
    let s := positionSizer h s in
    let containerWidth :=
      orNumber (parseFloat (currentZenSidebarWidthForPile s)) (Qc_of_Z 300) in
    let gridHeight := (minPodSize * 2 + 100)%Z in
    set_dynamicSizer (λ z,
      mkSizer gridHeight "auto" 60 (smartLeftPadding containerWidth)
        (sz_left z) (sz_width z)) s.

(** [recalculateLayout]: the grid by the index among all pods, the place
    of an open container, and in grid mode a move of every pod. *)
Definition recalculateLayout (h : host) (s : t) : t * list task :=
  if bool_decide (podCount s = 0) then (s, [])
  else
    let s := regrid s in
    let s :=
      if bool_decide (sz_height (dynamicSizer s) ≠ 0%Z) then positionSizer h s
      else s in
    if isGridMode s
    then forEach (λ podKey, applyGridPosition podKey 0) (podKeys s) s
    else (s, []).

(** [debounce(recalculateLayout, 250)]: a resize restarts the timer. *)
Definition onResize (s : t) : t := set_resizeTimeout true s.

Definition resizeTimerFired (h : host) (s : t) : t * list task :=
  if resizeTimeout s then recalculateLayout h (set_resizeTimeout false s)
  else (s, []).

(** ** The hover *)

(** [shouldDisableHover]: the pile stays closed while the first script
    shows pods. *)
Definition shouldDisableHover (m : mainScript) : bool :=
  if from_option (λ size, bool_decide (0 < size)) false (activeDownloadCards_size m)
  then true
  else
    match mainDownloadContainer m with
    | Some mainContainer =>
        if bool_decide (c_display mainContainer ≠ "none")
           && bool_decide (c_opacity mainContainer ≠ "0")
        then bool_decide (0 < c_visiblePods mainContainer)
        else false
    | None => false
    end.

Definition handleDownloadButtonHover (m : mainScript) (s : t) : t :=
  if bool_decide (podCount s = 0) then s
  else if shouldDisableHover m then s
  else set_hoverTimeout (Some ShowTimer) s.

Definition handleDownloadButtonLeave (m : mainScript) (s : t) : t :=
  if shouldDisableHover m then s
  else set_hoverTimeout (Some HideFromButton) s.

Definition handleDynamicSizerHover (h : host) (s : t) : t :=
  let s := set_hoverTimeout None s in
  if bool_decide (0 < podCount s) then showPile h s else s.

Definition handleDynamicSizerLeave (s : t) : t :=
  set_hoverTimeout (Some HideFromSizer) s.

Definition handlePileHover (s : t) : t * list task :=
  let s := set_hoverTimeout None s in
  if negb (isGridMode s) then transitionToGrid s else (s, []).

Definition handlePileLeave (s : t) : t :=
  set_hoverTimeout (Some HideFromPile) s.

(** The callback of the pending timer, [hoverDebounceMs] after the handler
    that set it. *)
Definition hoverTimerFired (m : mainScript) (p : pointer) (h : host) (s : t) :
    t * list task :=
  match hoverTimeout s with
  | None => (s, [])
  | Some callback =>
      let s := set_hoverTimeout None s in
      let isHoveringDownloadArea :=
        overButton p || from_option c_hover false (mainDownloadContainer m) in
      match callback with
      | ShowTimer => (showPile h s, [])
      | HideFromButton =>
          if negb isHoveringDownloadArea && negb (overPile p) && negb (overSizer p)
          then hidePile s else (s, [])
      | HideFromSizer =>
          if negb isHoveringDownloadArea && negb (overPile p)
          then hidePile s else (s, [])
      | HideFromPile =>
          if negb isHoveringDownloadArea && negb (overSizer p)
          then hidePile s else (s, [])
      end
  end.

(** ** The handlers of a pod element *)

(** What a click opens. *)
Inductive launched := LaunchFile | LaunchFolder | LaunchNothing.

(** The click handler: the file when it exists, else its folder. *)
Definition podClick (podData : podData) (fileExists : bool)
    (parentExists : option bool) : launched :=
  if truthy (targetPath podData) then
    if fileExists then LaunchFile
    else if from_option id false parentExists then LaunchFolder
    else LaunchNothing
  else LaunchNothing.

(** The continuation of [restorePod] after a double click. *)
Definition podRestored (podData : podData) (success : bool) (s : t) :
    t * list task :=
  if success then removePodFromPile (key podData) s else (s, []).

(** The context menu: the pod is removed once the user has confirmed. *)
Definition podContextMenu (podData : podData) (confirmed : bool) (s : t) :
    t * list task :=
  if confirmed then removePodFromPile (key podData) s else (s, []).

(** The listener of [onActualDownloadRemoved]. *)
Definition onActualDownloadRemoved (removedKey : string) (s : t) : t * list task :=
  if JsMap.has removedKey (dismissedPods s) then removePodFromPile removedKey s
  else (s, []).

(** The listener of [onPodDismissed]. *)
Definition onPodDismissed (rnd : rand) (podData : option podData) (s : t) :
    t * list task :=
  addPodToPile rnd podData true s.

(** ** [init] *)

(** An attempt of [init]: it asks for another one 500 ms later while the
    first script has not published its interface, and 1000 ms later when
    the downloads button is not found. *)
Inductive initResult := InitRetry (delay : Z) | InitDone.

Definition init (zenTidyDownloads : bool) (downloadButtonFound : bool) : initResult :=
  if negb zenTidyDownloads then InitRetry 500
  else if negb downloadButtonFound then InitRetry 1000
  else InitDone.

(** ** The handlers keep the store *)

Lemma store_updatePileContainerWidth h s : store (updatePileContainerWidth h s) = store s.
Proof. done. Qed.

Lemma store_positionSizer h s : store (positionSizer h s) = store s.
Proof. unfold positionSizer. by repeat case_goal_match. Qed.

Lemma store_showPile h s : store (showPile h s) = store s.
Proof.
  unfold showPile. case_goal_match; [done|].
  etrans; [|apply (store_updatePileContainerWidth h s)].
  etrans; [|apply (store_positionSizer h)]. done.
Qed.

Lemma quiet_recalculateLayout h : quiet (recalculateLayout h).
Proof.
  intros s Hwf. unfold recalculateLayout. case_goal_match; [by split; [|constructor]|].
  assert (store (regrid s) = store s) as Hs1.
  { apply store_regrid. destruct Hwf as (_ & _ & _ & _ & _ & -> & _). done. }
  set (s2 := if bool_decide _ then _ else _).
  assert (store s2 = store s) as Hs2.
  { unfold s2. case_goal_match; by rewrite ?store_positionSizer. }
  case_goal_match; [|by split; [|constructor]].
  destruct (quiet_forEach (λ podKey, applyGridPosition podKey 0) (podKeys s2)
    (λ k, quiet_applyGridPosition k 0) s2) as [Hs Ht]; [by apply (wf_store s)|].
  split; [congruence|done].
Qed.

Lemma quiet_resizeTimerFired h : quiet (resizeTimerFired h).
Proof.
  intros s Hwf. unfold resizeTimerFired. case_goal_match; [|by split; [|constructor]].
  by apply (quiet_recalculateLayout h (set_resizeTimeout false s)).
Qed.

Lemma store_handleDownloadButtonHover m s :
  store (handleDownloadButtonHover m s) = store s.
Proof. unfold handleDownloadButtonHover. by repeat case_goal_match. Qed.

Lemma store_handleDownloadButtonLeave m s :
  store (handleDownloadButtonLeave m s) = store s.
Proof. unfold handleDownloadButtonLeave. by case_goal_match. Qed.

Lemma store_handleDynamicSizerHover h s :
  store (handleDynamicSizerHover h s) = store s.
Proof.
  unfold handleDynamicSizerHover. case_goal_match; [|done]. by rewrite store_showPile.
Qed.

Lemma quiet_handlePileHover : quiet handlePileHover.
Proof.
  intros s Hwf. unfold handlePileHover.
  change (isGridMode (set_hoverTimeout None s)) with (isGridMode s).
  destruct (isGridMode s) eqn:Hg; cbn [negb]; [by split; [|constructor]|].
  by apply (quiet_transitionToGrid (set_hoverTimeout None s)).
Qed.

Lemma quiet_hoverTimerFired m p h : quiet (hoverTimerFired m p h).
Proof.
  intros s Hwf. unfold hoverTimerFired.
  destruct (hoverTimeout s) as [[]|]; repeat case_goal_match;
    try (by split; [|constructor]);
    try (by apply (quiet_hidePile (set_hoverTimeout None s))).
  split; [exact (store_showPile h _)|constructor].
Qed.

(** ** The handlers of a pod keep the invariant *)

Lemma inv_podRestored pd success s pending :
  inv s pending →
  inv (podRestored pd success s).1 (pending ++ (podRestored pd success s).2).
Proof.
  intros Hinv. unfold podRestored. destruct success; [|by rewrite app_nil_r].
  by apply inv_removePodFromPile.
Qed.

Lemma inv_podContextMenu pd confirmed s pending :
  inv s pending →
  inv (podContextMenu pd confirmed s).1 (pending ++ (podContextMenu pd confirmed s).2).
Proof.
  intros Hinv. unfold podContextMenu. destruct confirmed; [|by rewrite app_nil_r].
  by apply inv_removePodFromPile.
Qed.

Lemma inv_onActualDownloadRemoved k s pending :
  inv s pending →
  inv (onActualDownloadRemoved k s).1 (pending ++ (onActualDownloadRemoved k s).2).
Proof.
  intros Hinv. unfold onActualDownloadRemoved. case_goal_match; [|by rewrite app_nil_r].
  by apply inv_removePodFromPile.
Qed.

(** ** What the timer of the hover does *)

(** [hidePile] collapses the container and brings the pile back to pile
    mode; it keeps the pods and the timer of the hover. *)
Lemma hidePile_closed s :
  let s' := (hidePile s).1 in
  sz_height (dynamicSizer s') = 0%Z ∧ sz_pointerEvents (dynamicSizer s') = "none" ∧
  isGridMode s' = false ∧ hoverTimeout s' = hoverTimeout s ∧
  podKeys s' = podKeys s.
Proof.
  intros s'. pose proof (shell_hidePile s) as Hs. fold s' in Hs. split_and!.
  - exact (f_equal (sz_height ∘ dynamicSizer) Hs).
  - exact (f_equal (sz_pointerEvents ∘ dynamicSizer) Hs).
  - exact (f_equal isGridMode Hs).
  - exact (f_equal hoverTimeout Hs).
  - exact (f_equal podKeys Hs).
Qed.

(** A leave timer that fires while the pointer is over none of the four
    areas forgets the timer and hides the pile. *)
Lemma hoverTimerFired_away m p h s callback :
  hoverTimeout s = Some callback → callback ≠ ShowTimer →
  overButton p = false → overPile p = false → overSizer p = false →
  from_option c_hover false (mainDownloadContainer m) = false →
  (hoverTimerFired m p h s).1 = (hidePile (set_hoverTimeout None s)).1.
Proof.
  intros Hc Hne Hb Hp Hz Hm. unfold hoverTimerFired. rewrite Hc, Hb, Hp, Hz, Hm.
  by destruct callback.
Qed.

(** C28. A timer that was set when the pointer left, and fires while the
    pointer is over none of the four areas, closes the container and puts
    the pods back on the pile. *)
Theorem hoverTimerFired_hides m p h s callback :
  hoverTimeout s = Some callback → callback ≠ ShowTimer →
  overButton p = false → overPile p = false → overSizer p = false →
  from_option c_hover false (mainDownloadContainer m) = false →
  let s' := (hoverTimerFired m p h s).1 in
  sz_height (dynamicSizer s') = 0%Z ∧ sz_pointerEvents (dynamicSizer s') = "none" ∧
  isGridMode s' = false ∧ hoverTimeout s' = None ∧ podKeys s' = podKeys s.
Proof.
  intros Hc Hne Hb Hp Hz Hm s'. subst s'.
  rewrite (hoverTimerFired_away _ _ _ _ _ Hc Hne Hb Hp Hz Hm).
  apply (hidePile_closed (set_hoverTimeout None s)).
Qed.

(** [showPile] on a pile that is not empty opens the container: 190 pixels
    high, with at least 20 pixels of padding on the left. *)
Lemma smartLeftPadding_min containerWidth :
  (Qc_of_Z 20 ≤ smartLeftPadding containerWidth)%Qc.
Proof.
  unfold smartLeftPadding, Qcmax. case_decide as Hle.
  - by vm_compute.
  - apply Qcnot_le_lt in Hle. set (x := (_ / Qc_of_Z 4)%Qc) in *. clearbody x.
    unfold Qcle, Qclt, Qcplus, Qc_of_Z, Q2Qc in *. cbn [this] in *.
    rewrite !Qred_correct in *. cbv [inject_Z] in *. lra.
Qed.

Theorem showPile_opens h s :
  podCount s ≠ 0 →
  sz_height (dynamicSizer (showPile h s)) = 190%Z ∧
  sz_pointerEvents (dynamicSizer (showPile h s)) = "auto" ∧
  (Qc_of_Z 20 ≤ sz_paddingLeft (dynamicSizer (showPile h s)))%Qc ∧
  podKeys (showPile h s) = podKeys s.
Proof.
  intros Hn. split_and!; [..|apply store_podKeys, store_showPile];
    unfold showPile; rewrite bool_decide_false by done;
    [done|done|apply smartLeftPadding_min].
Qed.

(** ** Instances *)

Definition away : pointer := mkPointer false false false.
Definition idle : mainScript := mkMainScript None None.
Definition sidebar : host :=
  mkHost (Some (mkToolbox 0 (Qc_of_Z 300) "300px")) false None.

Lemma hoverTimerFired_hides_witness :
  let s' := (hoverTimerFired idle away sidebar (handlePileLeave sevenPods)).1 in
  sz_height (dynamicSizer s') = 0%Z ∧ sz_pointerEvents (dynamicSizer s') = "none" ∧
  isGridMode s' = false ∧ hoverTimeout s' = None ∧
  podKeys s' = podKeys (handlePileLeave sevenPods).
Proof. by apply (hoverTimerFired_hides idle away sidebar _ HideFromPile). Defined.

Lemma showPile_opens_witness :
  sz_height (dynamicSizer (showPile sidebar sevenPods)) = 190%Z ∧
  sz_pointerEvents (dynamicSizer (showPile sidebar sevenPods)) = "auto" ∧
  (Qc_of_Z 20 ≤ sz_paddingLeft (dynamicSizer (showPile sidebar sevenPods)))%Qc ∧
  podKeys (showPile sidebar sevenPods) = podKeys sevenPods.
Proof. apply showPile_opens. by vm_compute. Defined.

(** The readings of a width. *)
Example parseFloat_examples :
  parseFloat "300px" = Some (Qc_of_Z 300) ∧
  parseFloat " 12.5px" = Some (Q2Qc (25 # 2)) ∧
  parseFloat "-4" = Some (Qc_of_Z (-4)) ∧
  parseFloat "auto" = None ∧ parseFloat "" = None.
Proof. tidy_compute. Qed.

(** The container is five pixels wider than the sidebar (the comment in
    the source says narrower); a width that is no number gives no width. *)
Example updatePileContainerWidth_examples :
  sz_width (dynamicSizer (updatePileContainerWidth sidebar sevenPods))
  = Some (Some (Qc_of_Z 305)) ∧
  sz_width (dynamicSizer (updatePileContainerWidth
    (mkHost None false (Some 280%Z)) sevenPods)) = Some (Some (Qc_of_Z 285)) ∧
  sz_width (dynamicSizer (updatePileContainerWidth
    (mkHost (Some (mkToolbox 0 0 "calc(1px)")) false None) sevenPods)) = Some None.
Proof. tidy_compute. Qed.

(** [init] asks for another attempt as long as the first script has not
    published its interface. *)
Example init_retries : init false true = InitRetry 500 ∧ init true true = InitDone.
Proof. done. Qed.

End PileHover.
