(* ===== verification/PileSystem.v ===== *)
(** * PileSystem: the events of the dismissed pile

    The handlers of [src/zen-stuff.uc.js] as the steps of a transition
    system.  A state of the system is the state of the script with the
    timers and frames that are pending.  An event is a message of the first
    script (a pod was dismissed, a download left the list of the host), a
    pointer event on the downloads button, the container, the pile or a
    pod, a resize of the window, or the firing of a timer; the events may
    come in any order.

    The theorems show that the invariant of the pile holds in every
    reachable state, that the script implements the store of snapshots the
    specification describes ([Spec]: at most 20 snapshots, the oldest is
    dropped for a new one, a snapshot that is sent again replaces the one
    with its key), and, on concrete sessions, where the script departs from
    what its comments and the specification say. *)

From Stdlib Require Import Ascii QArith Qcanon.
From stdpp Require Import pretty.
From S2P Require Import Prelude JsArray JsString JsMap PileState Pile PileHover.

Module PileSystem.
Import Pile PileHover.

(** ** Events *)

Inductive event :=
  | PodDismissed (rnd : rand) (podData : option podData)
  | ActualDownloadRemoved (removedKey : string)
  | ButtonEnter (m : mainScript)
  | ButtonLeave (m : mainScript)
  | SizerEnter (h : host)
  | SizerLeave
  | PileEnter
  | PileLeave
  | HoverTimer (m : mainScript) (p : pointer) (h : host)
  | PodRestored (podData : podData) (success : bool)
  | PodContextMenu (podData : podData) (confirmed : bool)
  | ImageError (podData : podData) (podElement : ref)
  | Resize
  | ResizeTimer (h : host)
  | Fire (i : nat).

(** What a pending timer or frame does when it runs. *)
Definition runTask (callback : task) (s : t) : t * list task :=
  match callback with
  | RemoveNode podElement => (removeNode podElement s, [])
  | RestoreTransition podElement => (restoreTransition podElement s, [])
  | GridMove podElement position _ => (gridMove podElement position s, [])
  | HideExcess => updatePileVisibility s
  end.

Record sys := mkSys { state : t; pending : list task }.

#[global] Instance sys_eq_dec : EqDecision sys.
Proof. solve_decision. Defined.

(** The state after a handler and the callbacks it has added. *)
Definition after (σ : sys) (result : t * list task) : sys :=
  mkSys result.1 (pending σ ++ result.2).

Definition handle (e : event) (σ : sys) : option sys :=
  let s := state σ in
  match e with
  | PodDismissed rnd podData => Some (after σ (onPodDismissed rnd podData s))
  | ActualDownloadRemoved removedKey =>
      Some (after σ (onActualDownloadRemoved removedKey s))
  | ButtonEnter m => Some (after σ (handleDownloadButtonHover m s, []))
  | ButtonLeave m => Some (after σ (handleDownloadButtonLeave m s, []))
  | SizerEnter h => Some (after σ (handleDynamicSizerHover h s, []))
  | SizerLeave => Some (after σ (handleDynamicSizerLeave s, []))
  | PileEnter => Some (after σ (handlePileHover s))
  | PileLeave => Some (after σ (handlePileLeave s, []))
  | HoverTimer m p h => Some (after σ (hoverTimerFired m p h s))
  | PodRestored podData success => Some (after σ (podRestored podData success s))
  | PodContextMenu podData confirmed =>
      Some (after σ (podContextMenu podData confirmed s))
  | ImageError podData podElement =>
      Some (after σ (imageError podData podElement s, []))
  | Resize => Some (after σ (onResize s, []))
  | ResizeTimer h => Some (after σ (resizeTimerFired h s))
  | Fire i =>
      callback ← pending σ !! i;
      Some (after (mkSys s (delete i (pending σ))) (runTask callback s))
  end.

Inductive step : sys → sys → Prop :=
  | step_event e σ σ' : handle e σ = Some σ' → step σ σ'.

(** The session starts when [init] has built the container. *)
Definition start : sys := mkSys PileState.initial [].

Definition reachable : sys → Prop := rtc step start.

(** The events of a list, one after the other. *)
Fixpoint run (es : list event) (σ : sys) : option sys :=
  match es with
  | [] => Some σ
  | e :: es => handle e σ ≫= run es
  end.

(** ** The store of snapshots the specification describes *)

Module Spec.

(** The snapshots, oldest first. *)
Definition capacity : nat := 20.

(** A snapshot that is sent again replaces the one with its key. *)
Fixpoint upsert (snapshot : podData) (pile : list podData) : list podData :=
  match pile with
  | [] => [snapshot]
  | old :: pile =>
      if decide (key snapshot = key old) then snapshot :: pile
      else old :: upsert snapshot pile
  end.

(** A full pile drops its oldest snapshot for a new one. *)
Definition add (snapshot : podData) (pile : list podData) : list podData :=
  upsert snapshot (if bool_decide (capacity ≤ length pile) then tail pile else pile).

Definition remove (podKey : string) (pile : list podData) : list podData :=
  filter (λ snapshot, key snapshot ≠ podKey) pile.

(** What an event does to the snapshots. *)
Definition handle (e : event) (pile : list podData) : list podData :=
  match e with
  | PodDismissed _ (Some snapshot) =>
      if bool_decide (key snapshot = "") then pile else add snapshot pile
  | ActualDownloadRemoved removedKey => remove removedKey pile
  | PodRestored snapshot true => remove (key snapshot) pile
  | PodContextMenu snapshot true => remove (key snapshot) pile
  | _ => pile
  end.

End Spec.

(** The snapshots of a state of the script. *)
Definition snapshots (s : t) : list podData := (dismissedPods s).*2.

(** The invariant of a state of the system. *)
Definition sysInv (σ : sys) : Prop := inv (state σ) (pending σ).

(** ** Samples *)

Definition dismissals (ks : list string) : list event :=
  (λ k, PodDismissed sampleRand (Some (snapshot k))) <$> ks.

Definition seven : list string := ["a"; "b"; "c"; "d"; "e"; "f"; "g"].

Definition twenty : list string := (λ n : nat, "p" +:+ pretty n) <$> seq 1 20.

(** Seven dismissals, then the pointer enters the pile. *)
Definition gridSession : list event := dismissals seven ++ [PileEnter].

Definition gridState : sys := default start (run gridSession start).

(** ** The invariant in every reachable state *)

Lemma after_quiet f σ : quiet f → sysInv σ → sysInv (after σ (f (state σ))).
Proof. intros Hf Hinv. by apply inv_quiet. Qed.

Lemma after_store s' σ :
  store s' = store (state σ) → sysInv σ → sysInv (after σ (s', [])).
Proof. intros Hs Hinv. by apply (inv_store (state σ)). Qed.

Lemma inv_delete i s pending : inv s pending → inv s (delete i pending).
Proof. intros [? ?]. split; [done|]. by apply Forall_delete. Qed.

Lemma runTask_inv i callback σ :
  sysInv σ → pending σ !! i = Some callback →
  sysInv (after (mkSys (state σ) (delete i (pending σ))) (runTask callback (state σ))).
Proof.
  intros Hinv Hi. pose proof (inv_delete i _ _ Hinv) as Hrest.
  destruct callback as [r|r|r position delay|]; unfold after; cbn [runTask fst snd state pending].
  - rewrite app_nil_r. apply inv_removeNode; [done|].
    destruct Hinv as [_ Hp]. by apply (proj1 (Forall_lookup _ _) Hp i _ Hi).
  - apply (inv_store (state σ)); [apply store_restoreTransition|done..].
  - apply (inv_store (state σ)); [apply store_gridMove|done..].
  - by apply inv_quiet; [apply quiet_updatePileVisibility|].
Qed.

Lemma handle_inv e σ σ' : sysInv σ → handle e σ = Some σ' → sysInv σ'.
Proof.
  intros Hinv He. destruct e; simplify_option_eq;
    try (by apply after_store;
           [first [apply store_handleDownloadButtonHover
                  |apply store_handleDownloadButtonLeave
                  |apply store_handleDynamicSizerHover
                  |apply store_imageError
                  |done]|]).
  - by apply inv_addPodToPile.
  - by apply inv_onActualDownloadRemoved.
  - by apply (after_quiet handlePileHover), Hinv; apply quiet_handlePileHover.
  - by apply (after_quiet (hoverTimerFired m p h)), Hinv; apply quiet_hoverTimerFired.
  - by apply inv_podRestored.
  - by apply inv_podContextMenu.
  - by apply (after_quiet (resizeTimerFired h)), Hinv; apply quiet_resizeTimerFired.
  - by apply runTask_inv.
Qed.

Lemma start_inv : sysInv start.
Proof. split; [|constructor]. by apply (bool_decide_unpack _). Qed.

Lemma reachable_sysInv σ : reachable σ → sysInv σ.
Proof.
  intros Hr. revert σ Hr. apply (rtc_ind_r (λ σ, sysInv σ)); [apply start_inv|].
  intros σ σ' _ [e ? ? He] Hinv. by eapply handle_inv.
Qed.

Lemma pile_run_reachable es σ σ' : reachable σ → run es σ = Some σ' → reachable σ'.
Proof.
  revert σ. induction es as [|e es IH]; intros σ Hr Hrun; simplify_option_eq; [done|].
  eapply IH; [|done]. eapply rtc_r; [done|]. by econstructor.
Qed.

(** C2. In every reachable state of the pile the four maps of the script have
    the same keys, at most twenty of them and each once; the element of a
    key carries that key and is in the document; and an element that a
    pending timer will take out of the document is registered for no key. *)
Theorem pile_reachable_consistent σ :
  reachable σ →
  wf (state σ) ∧
  ∀ r, RemoveNode r ∈ pending σ → ∀ k, podElements (state σ) !! k ≠ Some r.
Proof.
  intros [Hwf Hp]%reachable_sysInv. split; [done|]. intros r Hr k Hk.
  apply (proj1 (Forall_forall _ _) Hp) in Hr as [_ Hu]. by apply (Hu k r).
Qed.

(** ** The script implements the store of snapshots *)

Lemma snapshots_set pd m :
  Forall (λ kv : string * podData, key kv.2 = kv.1 ∧ kv.1 ≠ "") m →
  (JsMap.set (key pd) pd m).*2 = Spec.upsert pd m.*2.
Proof.
  induction 1 as [|[k old] m [Hk _] _ IH]; [done|]. cbn in *. subst k.
  destruct (decide (key pd = key old)); cbn; [done|by rewrite IH].
Qed.

Lemma snapshots_delete k m :
  Forall (λ kv : string * podData, key kv.2 = kv.1 ∧ kv.1 ≠ "") m →
  (JsMap.delete k m).*2 = Spec.remove k m.*2.
Proof.
  induction 1 as [|[k' old] m [Hk _] _ IH]; [done|]. cbn [fst snd] in Hk. subst k'.
  unfold JsMap.delete, Spec.remove in *. rewrite fmap_cons, !filter_cons. cbn [fst snd].
  destruct (decide (key old ≠ k)); rewrite ?fmap_cons; by rewrite IH.
Qed.

Lemma keyed_tail s : keyed s → Forall (λ kv, key kv.2 = kv.1 ∧ kv.1 ≠ "") (tail (dismissedPods s)).
Proof. unfold keyed. destruct (dismissedPods s); [done|]. by intros [_ ?]%Forall_cons. Qed.

Lemma snapshots_store s s' : store s' = store s → snapshots s' = snapshots s.
Proof. intros Hs. unfold snapshots. by rewrite (store_dismissedPods _ _ Hs). Qed.

Lemma snapshots_removePodFromPile k s :
  wf s → snapshots (removePodFromPile k s).1 = Spec.remove k (snapshots s).
Proof.
  intros Hwf. unfold snapshots. rewrite dismissedPods_removePodFromPile by done.
  apply snapshots_delete, Hwf.
Qed.

Lemma snapshots_addPodToPile rnd pd animate s :
  wf s → key pd ≠ "" →
  snapshots (addPodToPile rnd (Some pd) animate s).1 = Spec.add pd (snapshots s).
Proof.
  intros Hwf Hk. unfold snapshots, Spec.add.
  rewrite dismissedPods_addPodToPile, length_fmap by done.
  fold (JsMap.size (dismissedPods s)). fold (podCount s).
  change Spec.capacity with maxPileSize. case_bool_decide.
  - rewrite snapshots_set by apply keyed_tail, Hwf. by destruct (dismissedPods s).
  - apply snapshots_set, Hwf.
Qed.

Lemma snapshots_remove_absent k s :
  wf s → k ∉ podKeys s → Spec.remove k (snapshots s) = snapshots s.
Proof.
  intros Hwf Hk. apply filter_all. intros pd (kv & -> & Hkv)%list_elem_of_fmap.
  destruct Hwf as (_ & _ & Hkeyed & _).
  destruct (proj1 (Forall_forall _ _) Hkeyed kv Hkv) as [-> _].
  intros <-. apply Hk. apply list_elem_of_fmap. by exists kv.
Qed.

(** C3. Every step of the script is the step of the store of snapshots the
    specification describes: a dismissal adds a snapshot, dropping the
    oldest one of a full pile; a restore, a confirmed deletion and the
    removal of the download from the list of the host remove the snapshot
    of the key; nothing else changes the snapshots, and there are never
    more than twenty. *)
Theorem pile_refines_store e σ σ' :
  reachable σ → handle e σ = Some σ' →
  snapshots (state σ') = Spec.handle e (snapshots (state σ)) ∧
  length (snapshots (state σ')) ≤ Spec.capacity.
Proof.
  intros Hr He. pose proof (reachable_sysInv σ Hr) as [Hwf Hp]. split.
  2: { assert (reachable σ') as [(_ & Hn & _) _]%reachable_sysInv
         by (eapply rtc_r; [done|by econstructor]).
       unfold snapshots. by rewrite length_fmap. }
  destruct e as [rnd snapshot|removedKey|m|m|h| | | |m p h|pd success|pd confirmed
                |pd r| |h|i]; simplify_option_eq; try done.
  - destruct snapshot as [pd|]; [|done]. case_bool_decide as Hk.
    + unfold onPodDismissed, addPodToPile. by rewrite Hk.
    + by apply snapshots_addPodToPile.
  - unfold onActualDownloadRemoved.
    destruct (JsMap.has removedKey _) eqn:Hhas; cbn [fst].
    + by apply snapshots_removePodFromPile.
    + apply JsMap.has_false in Hhas. by rewrite snapshots_remove_absent.
  - by apply snapshots_store, store_handleDownloadButtonHover.
  - by apply snapshots_store, store_handleDownloadButtonLeave.
  - by apply snapshots_store, store_handleDynamicSizerHover.
  - by apply snapshots_store, quiet_handlePileHover.
  - by apply snapshots_store, quiet_hoverTimerFired.
  - destruct success; [by apply snapshots_removePodFromPile|done].
  - destruct confirmed; [by apply snapshots_removePodFromPile|done].
  - by apply snapshots_store, quiet_resizeTimerFired.
  - match goal with c : task |- _ => destruct c end; cbn [runTask fst]; try done.
    by apply snapshots_store, quiet_updatePileVisibility.
Qed.


(** ** Instances *)

Lemma gridState_reachable : reachable gridState.
Proof. by apply (pile_run_reachable gridSession start); [apply rtc_refl|vm_compute]. Qed.

Lemma pile_reachable_consistent_witness :
  wf (state gridState) ∧
  ∀ r, RemoveNode r ∈ pending gridState →
       ∀ k, podElements (state gridState) !! k ≠ Some r.
Proof. apply pile_reachable_consistent, gridState_reachable. Defined.

Lemma pile_refines_store_witness :
  snapshots (state (default start (handle (ActualDownloadRemoved "c") gridState)))
  = Spec.handle (ActualDownloadRemoved "c") (snapshots (state gridState)) ∧
  length (snapshots (state (default start
            (handle (ActualDownloadRemoved "c") gridState)))) ≤ Spec.capacity.
Proof.
  apply (pile_refines_store (ActualDownloadRemoved "c") gridState);
    [apply gridState_reachable|done].
Defined.

(** ** Sessions *)

(** The pointer rests on the downloads button: 150 ms later the container
    opens, 190 pixels high, five pixels wider than the sidebar. *)
Example hover_opens_pile :
  (λ σ, (sz_height (dynamicSizer (state σ)), sz_width (dynamicSizer (state σ)),
         hoverTimeout (state σ)))
    <$> run (dismissals ["a"] ++ [ButtonEnter idle; HoverTimer idle away sidebar]) start
  = Some (190%Z, Some (Some (Qc_of_Z 305)), None).
Proof. tidy_compute. Qed.

(** The timer that hides the pods beyond the fourth is never cancelled:
    when the pointer is back on the pile before it fires, it runs in grid
    mode and shows all seven pods, the oldest of them at its place in the
    pile. *)
Example late_timer_shows_every_pod :
  (λ σ, (isGridMode (state σ), lastSixPods (state σ), shownPods (state σ)))
    <$> run (dismissals seven ++
             [PileEnter; PileLeave; HoverTimer idle away sidebar; PileEnter; Fire 6])
          start
  = Some (true, ["b"; "c"; "d"; "e"; "f"; "g"], seven).
Proof. tidy_compute. Qed.

(** A pod that is dismissed while the grid is open is shown at its place
    in the pile, beside the six of the grid, and is given the cell of the
    oldest of them. *)
Example dismissal_in_grid_mode :
  (λ σ, (isGridMode (state σ), shownPods (state σ),
         cellAt <$> gridPositions (state σ) !! "a",
         cellAt <$> gridPositions (state σ) !! "g"))
    <$> run (dismissals ["a"; "b"; "c"; "d"; "e"; "f"] ++ [PileEnter]
             ++ dismissals ["g"]) start
  = Some (true, seven, Some (0, 0)%Z, Some (0, 0)%Z).
Proof. tidy_compute. Qed.

(** The twenty-first pod evicts the first and gets the z-index of the
    twentieth: the two newest pods of a full pile lie at the same height. *)
Example newest_pods_share_zIndex :
  (λ σ, (head (podKeys (state σ)),
         pp_zIndex <$> pilePositions (state σ) !! "p20",
         pp_zIndex <$> pilePositions (state σ) !! "p21"))
    <$> run (dismissals (twenty ++ ["p21"])) start
  = Some (Some "p2", Some 20%Z, Some 20%Z).
Proof. tidy_compute. Qed.

(** A snapshot that is sent again while the pile is full evicts the oldest
    pod although no pod is added: nineteen pods remain. *)
Example resent_pod_evicts_oldest :
  (λ σ, (podCount (state σ), head (podKeys (state σ))))
    <$> run (dismissals (twenty ++ ["p20"])) start
  = Some (19, Some "p2").
Proof. tidy_compute. Qed.

(** A snapshot that is sent again gets a second element; the first one
    stays in the document, is registered for no key, and no timer will
    remove it. *)
Example resent_pod_leaves_element :
  (λ σ, (podKeys (state σ), podElements (state σ) !! "a",
         map_to_list (elKeys (state σ)), pending σ))
    <$> run (dismissals ["a"; "a"]) start
  = Some (["a"], Some 1, [(1, ("a", true)); (0, ("a", true))], []).
Proof. tidy_compute. Qed.

End PileSystem.
